(** * The manipulator-map runtime of [wm_manipulator_map.c]

    A shallow embedding of the per-region manipulator map: the draw pipeline,
    pointer hit-testing, the highlight / modal / selection state machine and
    the deferred update of dynamically registered types.

    Memory is modelled with an explicit store: a [wmManipulator *] is an
    address into a finite map, [NULL] is [None], and dereferencing an address
    that is not allocated, or reading an array past its end, is an error of
    the embedding.  Calls into code that lives outside the file (cursor,
    redraw, GL state, type callbacks) are recorded in an event log, in
    program order; a logged call is taken to leave the store and the map as
    they are.  The two calls after which the file itself re-reads the map
    (the invoke callback and the operator call of modal-set) may change the
    whole state.

    Integers are [Z]; [int] values stay far from their bounds in the
    functions modelled, and the conversions the code performs (a [GLuint]
    read as [int], an [int] read as [float], a [float] stored in an [int],
    the [char] update flag) are written out.  A [float] is the rational it
    denotes, and every [float] operation rounds its exact result to single
    precision. *)

From stdpp Require Import gmap strings list functions.
From Stdlib Require Import ZArith QArith Qabs Lia.

#[local] Open Scope Z_scope.

(** ** Constants *)

(** The two global update bits are declared in the file itself. *)
Definition WM_MANIPULATORMAPTYPE_GLOBAL_UPDATE_INIT : Z := Z.shiftl 1 0.
Definition WM_MANIPULATORMAPTYPE_GLOBAL_UPDATE_REMOVE : Z := Z.shiftl 1 1.

(** [enum eManipulatorMapUpdateFlags] *)
Definition MANIPULATORMAP_REFRESH : Z := Z.shiftl 1 0.

(** Enumerators that the file uses but that are declared in headers outside
    the sources at hand.  Their values are left open. *)
Class Flags := {
  WM_MANIPULATOR_STATE_HIGHLIGHT : Z;
  WM_MANIPULATOR_STATE_MODAL : Z;
  WM_MANIPULATOR_STATE_SELECT : Z;
  WM_MANIPULATOR_HIDDEN : Z;
  WM_MANIPULATOR_IS_VISIBLE_UPDATE : Z;
  WM_MANIPULATOR_IS_VISIBLE_DRAW : Z;
  WM_MANIPULATORGROUPTYPE_3D : Z;
  WM_MANIPULATORGROUPTYPE_SELECT : Z;
  WM_MANIPULATORGROUPTYPE_DEPTH_3D : Z;
  WM_MANIPULATORGROUPTYPE_DRAW_MODAL_ALL : Z;
  WM_MANIPULATORMAPTYPE_UPDATE_INIT : Z;
  WM_MANIPULATORMAPTYPE_UPDATE_REMOVE : Z;
  WM_MANIPULATORMAPTYPE_KEYMAP_INIT : Z;
  CURSOR_STD : Z;
  USER_MULTISAMPLE_NONE : Z;
}.

(** The [action] argument of select-all. *)
Inductive sel_action := SEL_TOGGLE | SEL_SELECT | SEL_DESELECT | SEL_INVERT.

(** Selection modes handed to [GPU_select_begin]. *)
Inductive gpu_select_mode :=
  | GPU_SELECT_ALL
  | GPU_SELECT_NEAREST_FIRST_PASS
  | GPU_SELECT_NEAREST_SECOND_PASS.

(** ** Data model *)

(** Address of a [wmManipulator]. *)
Definition ptr := nat.

(** [bContext]: the window, area and region the call runs in. *)
Record bContext := {
  ctx_window : nat;
  ctx_area : nat;
  ctx_region : nat;
}.

(** [wmEvent]: only the pointer position [mval] is read. *)
Record wmEvent := {
  mval : Z * Z;
}.

(** [rcti] *)
Record rcti := {
  xmin : Z;
  xmax : Z;
  ymin : Z;
  ymax : Z;
}.

(** [wmManipulatorGroupType]: the flag word, and which optional callbacks
    are present. *)
Record wmManipulatorGroupType := {
  gt_idname : string;
  gt_flag : Z;
  gt_poll : bool;
  gt_refresh : bool;
  gt_draw_prepare : bool;
}.

(** [wmManipulatorType]: which optional callbacks are present. *)
Record wmManipulatorType := {
  wt_idname : string;
  wt_invoke : bool;
  wt_modal : bool;
  wt_select : bool;
  wt_cursor_get : bool;
}.

(** [wmManipulator].  [mpr_parent_type] stands for
    [mpr->parent_mgroup->type], the only thing read through the
    back-reference; [mpr_op_type] for [mpr->op_data.type]. *)
Record wmManipulator := {
  mpr_name : string;
  mpr_parent_type : wmManipulatorGroupType;
  mpr_type : wmManipulatorType;
  mpr_state : Z;
  mpr_flag : Z;
  mpr_highlight_part : Z;
  mpr_interaction_data : option nat;
  mpr_custom_modal : bool;
  mpr_op_type : option nat;
}.

Definition set_state (m : wmManipulator) (s : Z) : wmManipulator :=
  {| mpr_name := mpr_name m; mpr_parent_type := mpr_parent_type m;
     mpr_type := mpr_type m; mpr_state := s; mpr_flag := mpr_flag m;
     mpr_highlight_part := mpr_highlight_part m;
     mpr_interaction_data := mpr_interaction_data m;
     mpr_custom_modal := mpr_custom_modal m; mpr_op_type := mpr_op_type m |}.

Definition set_highlight_part (m : wmManipulator) (part : Z) : wmManipulator :=
  {| mpr_name := mpr_name m; mpr_parent_type := mpr_parent_type m;
     mpr_type := mpr_type m; mpr_state := mpr_state m; mpr_flag := mpr_flag m;
     mpr_highlight_part := part;
     mpr_interaction_data := mpr_interaction_data m;
     mpr_custom_modal := mpr_custom_modal m; mpr_op_type := mpr_op_type m |}.

Definition set_interaction_data (m : wmManipulator) (d : option nat) : wmManipulator :=
  {| mpr_name := mpr_name m; mpr_parent_type := mpr_parent_type m;
     mpr_type := mpr_type m; mpr_state := mpr_state m; mpr_flag := mpr_flag m;
     mpr_highlight_part := mpr_highlight_part m;
     mpr_interaction_data := d;
     mpr_custom_modal := mpr_custom_modal m; mpr_op_type := mpr_op_type m |}.

(** [wmManipulatorGroup] *)
Record wmManipulatorGroup := {
  mg_type : wmManipulatorGroupType;
  mg_manipulators : list ptr;
}.

(** [wmManipulatorMap] with its [mmap_context].  [selected] is [None] for a
    [NULL] array; a slot of the array is [None] when it holds [NULL]. *)
Record wmManipulatorMap := {
  groups : list wmManipulatorGroup;
  highlight : option ptr;
  modal : option ptr;
  selected : option (list (option ptr));
  selected_len : Z;
  update_flag : Z;
}.

(** What the file asks of the rest of the program, in call order. *)
Inductive event :=
  | EvCursorSet (win : nat) (cursor : Z)
  | EvRegionTagRedraw (ar : nat)
  | EvAddMousemove
  | EvCursorGrabEnable (win : nat)
  | EvCursorGrabDisable (win : nat)
  | EvTypeSelect (p : ptr) (action : sel_action)
  | EvTypeDraw (p : ptr)
  | EvTypeDrawSelect (p : ptr) (select_id : Z)
  | EvGroupEnsureInitialized (g : string)
  | EvGroupRefresh (g : string)
  | EvGroupDrawPrepare (g : string)
  | EvManipulatorUpdate (p : ptr) (refresh_map : bool)
  | EvGlDepthTest (on : bool)
  | EvGlMultisample (on : bool)
  | EvNeedsOpenGL
  | EvDrawSetupView (rect : option rcti)
  | EvSelectBegin (rect : rcti) (mode : gpu_select_mode) (oldhits : Z)
  | EvSelectEnd.

(** The state the functions work on: the store of manipulators, the map, and
    the log of outgoing calls (oldest first). *)
Record World := {
  heap : gmap ptr wmManipulator;
  mmap : wmManipulatorMap;
  events : list event;
}.

(** ** Errors and the state monad *)

Inductive error :=
  | NullPointer
  | InvalidPointer (p : ptr)
  | OutOfBounds (i : Z) (len : nat).

Inductive result (A : Type) :=
  | Ok (a : A)
  | Err (e : error).
Arguments Ok {A} a.
Arguments Err {A} e.

Definition M (A : Type) : Type := World -> result (A * World).

Definition ret {A} (a : A) : M A := fun w => Ok (a, w).

Definition bind {A B} (m : M A) (f : A -> M B) : M B :=
  fun w => match m w with
           | Ok (a, w') => f a w'
           | Err e => Err e
           end.

Definition fail {A} (e : error) : M A := fun _ => Err e.

Declare Scope wm_scope.
Delimit Scope wm_scope with wm.
Notation "x <- c1 ;; c2" := (bind c1 (fun x => c2))
  (at level 100, c1 at next level, right associativity) : wm_scope.
Notation "c1 ;; c2" := (bind c1 (fun _ => c2))
  (at level 100, right associativity) : wm_scope.
#[local] Open Scope wm_scope.

Definition get_mmap : M wmManipulatorMap := fun w => Ok (mmap w, w).

Definition put_mmap (mm : wmManipulatorMap) : M unit :=
  fun w => Ok (tt, {| heap := heap w; mmap := mm; events := events w |}).

Definition get_heap : M (gmap ptr wmManipulator) := fun w => Ok (heap w, w).

Definition emit (e : event) : M unit :=
  fun w => Ok (tt, {| heap := heap w; mmap := mmap w; events := events w ++ [e] |}).

(** [*p] for reading. *)
Definition load (p : ptr) : M wmManipulator :=
  fun w => match heap w !! p with
           | Some m => Ok (m, w)
           | None => Err (InvalidPointer p)
           end.

(** [*p = m] *)
Definition store (p : ptr) (m : wmManipulator) : M unit :=
  fun w => match heap w !! p with
           | Some _ => Ok (tt, {| heap := <[p := m]> (heap w); mmap := mmap w;
                                  events := events w |})
           | None => Err (InvalidPointer p)
           end.

(** [p->field = ...] *)
Definition modify (p : ptr) (f : wmManipulator -> wmManipulator) : M unit :=
  m <- load p ;; store p (f m).

Definition when (b : bool) (c : M unit) : M unit := if b then c else ret tt.

Fixpoint forM_ {A} (l : list A) (f : A -> M unit) : M unit :=
  match l with
  | [] => ret tt
  | x :: l' => f x ;; forM_ l' f
  end.

Fixpoint foldM {A B} (f : B -> A -> M B) (b : B) (l : list A) : M B :=
  match l with
  | [] => ret b
  | x :: l' => b' <- f b x ;; foldM f b' l'
  end.

(** Field updates of the map. *)
Definition set_highlight (mm : wmManipulatorMap) (h : option ptr) : wmManipulatorMap :=
  {| groups := groups mm; highlight := h; modal := modal mm;
     selected := selected mm; selected_len := selected_len mm;
     update_flag := update_flag mm |}.

Definition set_modal (mm : wmManipulatorMap) (h : option ptr) : wmManipulatorMap :=
  {| groups := groups mm; highlight := highlight mm; modal := h;
     selected := selected mm; selected_len := selected_len mm;
     update_flag := update_flag mm |}.

Definition set_selected (mm : wmManipulatorMap) (s : option (list (option ptr)))
  : wmManipulatorMap :=
  {| groups := groups mm; highlight := highlight mm; modal := modal mm;
     selected := s; selected_len := selected_len mm;
     update_flag := update_flag mm |}.

Definition set_selected_len (mm : wmManipulatorMap) (n : Z) : wmManipulatorMap :=
  {| groups := groups mm; highlight := highlight mm; modal := modal mm;
     selected := selected mm; selected_len := n;
     update_flag := update_flag mm |}.

Definition set_update_flag (mm : wmManipulatorMap) (f : Z) : wmManipulatorMap :=
  {| groups := groups mm; highlight := highlight mm; modal := modal mm;
     selected := selected mm; selected_len := selected_len mm;
     update_flag := f |}.

Definition modify_mmap (f : wmManipulatorMap -> wmManipulatorMap) : M unit :=
  mm <- get_mmap ;; put_mmap (f mm).

(** C truth value of an integer. *)
Definition truthy (z : Z) : bool := negb (z =? 0).

(** ** Collaborators outside the file *)

(** The pick buffer filled by the selection backend: four [GLuint] per hit. *)
Definition pickbuf := list (Z * Z * Z * Z).

(** Functions of [wm_manipulator.c], [wm_manipulator_group.c], the GPU
    selection code and the operator system that the file calls and whose
    bodies are not part of the sources at hand.  Those that only answer a
    question are functions of what they read; the two that may re-enter
    the map while it is being changed ([type->invoke] and
    [WM_operator_name_call_ptr]) act on the whole state. *)
Class Host := {
  wm_manipulatorgroup_is_visible : wmManipulatorGroup -> bContext -> bool;
  wm_manipulatorgroup_is_visible_in_drawstep : wmManipulatorGroup -> Z -> bool;
  wm_manipulatorgroup_intersectable_manipulators_to_list :
    wmManipulatorGroup -> gmap ptr wmManipulator -> list ptr -> list ptr;
  (* the last argument is what [*r_part] holds on entry; the value is the
     manipulator found and what [*r_part] holds on return *)
  wm_manipulatorgroup_find_intersected_mainpulator :
    wmManipulatorGroup -> gmap ptr wmManipulator -> bContext -> wmEvent -> Z ->
    option ptr * Z;
  wm_manipulator_is_visible : wmManipulator -> Z;
  grouptype_poll : wmManipulatorGroupType -> bContext -> bool;
  type_cursor_get : wmManipulator -> Z;
  type_invoke : bContext -> ptr -> wmEvent -> World -> World;
  WM_operator_name_call_ptr : bContext -> option nat -> World -> World;
  U_ogl_multisamples : Z;
  GPU_select_query_check_active : bool;
  (* what [GPU_select_end] reports for the pass opened by [GPU_select_begin]
     with this rectangle, mode and old hit count, after the listed
     manipulators were drawn: the number of hits and the buffer contents *)
  GPU_select_end : rcti -> gpu_select_mode -> Z -> list ptr -> Z * pickbuf;
  GPU_select_buffer_near : pickbuf -> Z -> option (Z * Z * Z * Z);
  (* the order in which a [GHashIterator] visits the entries, given the
     entries in insertion order *)
  ghash_iter_order : list (string * ptr) -> list (string * ptr);
}.

(** A [wmManipulatorMap *] argument: [NULL], or the map of the world. *)
Inductive mmap_ptr := MmapNull | MmapThis.

Definition mmap_is_null (mp : mmap_ptr) : bool :=
  match mp with MmapNull => true | MmapThis => false end.

Definition BLI_listbase_is_empty {A} (l : list A) : bool :=
  match l with [] => true | _ => false end.

(** [BLI_findlink]: the link at position [number], [NULL] past either end. *)
Definition BLI_findlink {A} (l : list A) (number : Z) : option A :=
  if number <? 0 then None else l !! Z.to_nat number.

(** A [GLuint] read into an [int]. *)
Definition int_of_GLuint (z : Z) : Z :=
  let u := z mod 2 ^ 32 in if u <? 2 ^ 31 then u else u - 2 ^ 32.

(** *** Single-precision arithmetic

    A finite [float] is the rational it denotes.  An operation on [float]s
    gives the exact result rounded to the nearest value of the binary32
    format, ties to the even significand: 24 significant bits, and a unit in
    the last place that never goes below [2 ^ -149].  The file computes
    with pointer coordinates and a hotspot of a few pixels, so the
    magnitudes at which the format overflows are never reached and
    infinities are left out. *)

(** The integer nearest to [n / d], ties to even, for [0 <= n] and
    [0 < d]. *)
Definition round_half_even (n d : Z) : Z :=
  let q := n / d in
  match 2 * (n mod d) ?= d with
  | Lt => q
  | Eq => if Z.even q then q else q + 1
  | Gt => q + 1
  end.

(** The exponent [e] with [2 ^ e <= n / d < 2 ^ (e + 1)]. *)
Definition binade (n d : positive) : Z :=
  let e := Z.log2 (Z.pos n) - Z.log2 (Z.pos d) in
  if Z.pos n * 2 ^ Z.max 0 (- e) <? Z.pos d * 2 ^ Z.max 0 e then e - 1 else e.

(** [n / d] rounded to 24 significant bits: [k] is the exponent of the unit
    in the last place, [m] the significand. *)
Definition round_float_pos (n d : positive) : Q :=
  let k := Z.max (binade n d - 23) (-149) in
  let m := round_half_even (Z.pos n * 2 ^ Z.max 0 (- k))
                           (Z.pos d * 2 ^ Z.max 0 k) in
  Qred (m * 2 ^ Z.max 0 k # Z.to_pos (2 ^ Z.max 0 (- k))).

Definition round_float (q : Q) : Q :=
  match Qred q with
  | 0 # _ => 0%Q
  | Z.pos n # d => round_float_pos n d
  | Z.neg n # d => (- round_float_pos n d)%Q
  end.

(** A literal with the suffix [f]. *)
Definition float_lit (q : Q) : Q := round_float q.

(** An [int] operand of a [float] operation. *)
Definition float_of_int (z : Z) : Q := round_float (inject_Z z).

Definition float_add (x y : Q) : Q := round_float (x + y).
Definition float_sub (x y : Q) : Q := round_float (x - y).
Definition float_mul (x y : Q) : Q := round_float (x * y).

(** A [float] stored into an [int]: truncation toward zero. *)
Definition int_of_float (q : Q) : Z := Z.quot (Qnum q) (Z.pos (Qden q)).

(** Run a collaborator that may change the whole state. *)
Definition call (f : World -> World) : M unit := fun w => Ok (tt, f w).

(** [p->...] through a pointer that may be [NULL]. *)
Definition deref (p : option ptr) : M ptr :=
  match p with Some a => ret a | None => fail NullPointer end.

Section Runtime.
Context `{FL : Flags} `{HO : Host}.

(** *** wmManipulatorMap *)

Definition wm_manipulatormap_selected_clear : M unit :=
  modify_mmap (fun mm => set_selected mm None) ;;
  modify_mmap (fun mm => set_selected_len mm 0).

Definition WM_manipulatormap_is_any_selected (mm : wmManipulatorMap) : bool :=
  negb (selected_len mm =? 0).

Definition BLI_ghash_insert (hash : list (string * ptr)) (key : string) (val : ptr)
  : list (string * ptr) := hash ++ [(key, val)].

(** The body of the manipulator loop of the hash builder. *)
Definition hash_new_manipulator (poll : option (wmManipulator -> bool))
    (include_hidden : bool) (hash : list (string * ptr)) (p : ptr)
  : M (list (string * ptr)) :=
  mpr <- load p ;;
  if (include_hidden || (Z.land (mpr_flag mpr) WM_MANIPULATOR_HIDDEN =? 0))
     && match poll with None => true | Some f => f mpr end
  then ret (BLI_ghash_insert hash (mpr_name mpr) p)
  else ret hash.

(** The body of its group loop. *)
Definition hash_new_group (C : bContext) (poll : option (wmManipulator -> bool))
    (include_hidden : bool) (hash : list (string * ptr))
    (mgroup : wmManipulatorGroup) : M (list (string * ptr)) :=
  if negb (gt_poll (mg_type mgroup)) || grouptype_poll (mg_type mgroup) C then
    foldM (hash_new_manipulator poll include_hidden) hash (mg_manipulators mgroup)
  else ret hash.

Definition WM_manipulatormap_manipulator_hash_new (C : bContext)
    (poll : option (wmManipulator -> bool)) (include_hidden : bool)
  : M (list (string * ptr)) :=
  mm <- get_mmap ;;
  foldM (hash_new_group C poll include_hidden) [] (groups mm).

Definition WM_manipulatormap_tag_refresh (mp : mmap_ptr) : M unit :=
  if mmap_is_null mp then ret tt
  else modify_mmap (fun mm =>
         set_update_flag mm (Z.lor (update_flag mm) MANIPULATORMAP_REFRESH)).

Definition manipulatormap_tag_updated : M unit :=
  modify_mmap (fun mm => set_update_flag mm 0).

Definition manipulator_prepare_drawing (p : ptr) (C : bContext)
    (draw_manipulators : list ptr) : M (bool * list ptr) :=
  mpr <- load p ;;
  let do_draw := wm_manipulator_is_visible mpr in
  if do_draw =? 0 then
    ret (false, draw_manipulators)
  else
    mm <- get_mmap ;;
    when (truthy (Z.land do_draw WM_MANIPULATOR_IS_VISIBLE_UPDATE))
      (emit (EvManipulatorUpdate p
               (negb (Z.land (update_flag mm) MANIPULATORMAP_REFRESH =? 0)))) ;;
    ret (true,
         if truthy (Z.land do_draw WM_MANIPULATOR_IS_VISIBLE_DRAW)
         then p :: draw_manipulators else draw_manipulators).

(** The body of the group loop, one group. *)
Definition prepare_drawing_group (C : bContext) (drawstep : Z)
    (draw_manipulators : list ptr) (mgroup : wmManipulatorGroup) : M (list ptr) :=
  if negb (wm_manipulatorgroup_is_visible_in_drawstep mgroup drawstep)
     || negb (wm_manipulatorgroup_is_visible mgroup C)
  then ret draw_manipulators
  else
    emit (EvGroupEnsureInitialized (gt_idname (mg_type mgroup))) ;;
    mm <- get_mmap ;;
    when (truthy (Z.land (update_flag mm) MANIPULATORMAP_REFRESH)
          && gt_refresh (mg_type mgroup))
      (emit (EvGroupRefresh (gt_idname (mg_type mgroup)))) ;;
    when (gt_draw_prepare (mg_type mgroup))
      (emit (EvGroupDrawPrepare (gt_idname (mg_type mgroup)))) ;;
    foldM (fun draw p =>
             r <- manipulator_prepare_drawing p C draw ;; ret (snd r))
          draw_manipulators (mg_manipulators mgroup).

Definition prepare_drawing_all (C : bContext) (drawstep : Z)
    (draw_manipulators : list ptr) : M (list ptr) :=
  mm <- get_mmap ;;
  draw <- foldM (prepare_drawing_group C drawstep) draw_manipulators (groups mm) ;;
  manipulatormap_tag_updated ;;
  ret draw.

Definition manipulatormap_prepare_drawing (mp : mmap_ptr) (C : bContext)
    (draw_manipulators : list ptr) (drawstep : Z) : M (list ptr) :=
  mm <- get_mmap ;;
  if mmap_is_null mp || BLI_listbase_is_empty (groups mm) then
    ret draw_manipulators
  else
    match modal mm with
    | Some mpr_modal =>
        mpr <- load mpr_modal ;;
        if Z.land (gt_flag (mpr_parent_type mpr))
                  WM_MANIPULATORGROUPTYPE_DRAW_MODAL_ALL =? 0
        then
          r <- manipulator_prepare_drawing mpr_modal C draw_manipulators ;;
          when (fst r) manipulatormap_tag_updated ;;
          ret (snd r)
        else prepare_drawing_all C drawstep draw_manipulators
    | None => prepare_drawing_all C drawstep draw_manipulators
    end.

Definition manipulators_draw_list (mp : mmap_ptr) (C : bContext)
    (draw_manipulators : list ptr) : M (list ptr) :=
  mm <- get_mmap ;;
  if mmap_is_null mp || BLI_listbase_is_empty (groups mm) then
    ret draw_manipulators
  else
    let draw_multisample := negb (U_ogl_multisamples =? USER_MULTISAMPLE_NONE) in
    when draw_multisample (emit (EvGlMultisample true)) ;;
    is_depth_prev <- foldM (fun is_depth_prev p =>
        mpr <- load p ;;
        let is_depth :=
          truthy (Z.land (gt_flag (mpr_parent_type mpr))
                         WM_MANIPULATORGROUPTYPE_DEPTH_3D) in
        let is_depth :=
          if is_depth && truthy (Z.land (mpr_state mpr) WM_MANIPULATOR_STATE_HIGHLIGHT)
          then false else is_depth in
        (if Bool.eqb is_depth is_depth_prev then ret tt
         else emit (EvGlDepthTest is_depth)) ;;
        emit (EvTypeDraw p) ;;
        ret is_depth) false draw_manipulators ;;
    when is_depth_prev (emit (EvGlDepthTest false)) ;;
    when draw_multisample (emit (EvGlMultisample false)) ;;
    ret [].

(** The draw entry point; the value is the draw list left at the end, which
    the source asserts to be empty. *)
Definition WM_manipulatormap_draw (mp : mmap_ptr) (C : bContext) (drawstep : Z)
  : M (list ptr) :=
  draw_manipulators <- manipulatormap_prepare_drawing mp C [] drawstep ;;
  manipulators_draw_list mp C draw_manipulators.

(** *** Picking *)

Definition manipulator_draw_select_3D_loop (C : bContext)
    (visible_manipulators : list ptr) : M unit :=
  r <- foldM (fun st p =>
      let selectionbase := fst st in
      let is_depth_prev := snd st in
      mpr <- load p ;;
      let is_depth :=
        truthy (Z.land (gt_flag (mpr_parent_type mpr))
                       WM_MANIPULATORGROUPTYPE_DEPTH_3D) in
      (if Bool.eqb is_depth is_depth_prev then ret tt
       else emit (EvGlDepthTest is_depth)) ;;
      emit (EvTypeDrawSelect p (Z.shiftl selectionbase 8)) ;;
      ret (selectionbase + 1, is_depth)) (0, false) visible_manipulators ;;
  when (snd r) (emit (EvGlDepthTest false)).

(** The rectangle of half-width [hotspot] around [co], as the four
    assignments to [rect] compute it: the [int] coordinate is converted to
    [float], the sum or difference is taken in [float], and the result is
    truncated into the [int] field. *)
Definition hotspot_rect (co : Z * Z) (hotspot : Q) : rcti :=
  {| xmin := int_of_float (float_sub (float_of_int (fst co)) hotspot);
     xmax := int_of_float (float_add (float_of_int (fst co)) hotspot);
     ymin := int_of_float (float_sub (float_of_int (snd co)) hotspot);
     ymax := int_of_float (float_add (float_of_int (snd co)) hotspot) |}.

Definition manipulator_find_intersected_3d_intern
    (visible_manipulators : list ptr) (C : bContext) (co : Z * Z) (hotspot : Q)
  : M Z :=
  let do_passes := GPU_select_query_check_active in
  let rect := hotspot_rect co hotspot in
  emit (EvDrawSetupView (Some rect)) ;;
  let mode := if do_passes then GPU_SELECT_NEAREST_FIRST_PASS else GPU_SELECT_ALL in
  emit (EvSelectBegin rect mode 0) ;;
  manipulator_draw_select_3D_loop C visible_manipulators ;;
  emit EvSelectEnd ;;
  let first := GPU_select_end rect mode 0 visible_manipulators in
  let hits := fst first in
  buffer <-
    (if do_passes && (0 <? hits) then
       emit (EvSelectBegin rect GPU_SELECT_NEAREST_SECOND_PASS hits) ;;
       manipulator_draw_select_3D_loop C visible_manipulators ;;
       emit EvSelectEnd ;;
       ret (snd (GPU_select_end rect GPU_SELECT_NEAREST_SECOND_PASS hits
                   visible_manipulators))
     else ret (snd first)) ;;
  emit (EvDrawSetupView None) ;;
  match GPU_select_buffer_near buffer hits with
  | Some hit_near => ret (int_of_GLuint (snd hit_near))
  | None => ret (-1)
  end.

(** [const float hotspot = 14.0f] of [manipulator_find_intersected_3d]. *)
Definition hotspot : Q := float_lit 14.

(** The value is the manipulator found and [*r_part].  The half-widths are
    the [float] products [0.5f * hotspot] and [0.2f * hotspot]. *)
Definition manipulator_find_intersected_3d (C : bContext) (co : Z * Z)
    (visible_manipulators : list ptr) : M (option ptr * Z) :=
  emit EvNeedsOpenGL ;;
  ret1 <- manipulator_find_intersected_3d_intern visible_manipulators C co
            (float_mul (float_lit (1 # 2)) hotspot) ;;
  if negb (ret1 =? -1) then
    retsec <- manipulator_find_intersected_3d_intern visible_manipulators C co
                (float_mul (float_lit (1 # 5)) hotspot) ;;
    let ret2 := if negb (retsec =? -1) then retsec else ret1 in
    link <- deref (BLI_findlink visible_manipulators (Z.shiftr ret2 8)) ;;
    ret (Some link, Z.land ret2 255)
  else ret (None, 0).

(** The group loop of the highlight search.  The value is [mpr], [*r_part]
    and the list of 3D candidates when the loop is left. *)
Fixpoint highlight_find_groups (C : bContext) (event : wmEvent)
    (gs : list wmManipulatorGroup) (r_part : Z) (visible_3d_manipulators : list ptr)
  : M (option ptr * Z * list ptr) :=
  match gs with
  | [] => ret (None, r_part, visible_3d_manipulators)
  | mgroup :: gs' =>
      if wm_manipulatorgroup_is_visible mgroup C then
        h <- get_heap ;;
        if truthy (Z.land (gt_flag (mg_type mgroup)) WM_MANIPULATORGROUPTYPE_3D) then
          highlight_find_groups C event gs' r_part
            (wm_manipulatorgroup_intersectable_manipulators_to_list
               mgroup h visible_3d_manipulators)
        else
          let hit :=
            wm_manipulatorgroup_find_intersected_mainpulator mgroup h C event
              r_part in
          match fst hit with
          | Some mpr => ret (Some mpr, snd hit, visible_3d_manipulators)
          | None =>
              highlight_find_groups C event gs' (snd hit) visible_3d_manipulators
          end
      else highlight_find_groups C event gs' r_part visible_3d_manipulators
  end.

(** [r_part] is the value [*r_part] holds on entry. *)
Definition wm_manipulatormap_highlight_find (C : bContext) (event : wmEvent)
    (r_part : Z) : M (option ptr * Z) :=
  mm <- get_mmap ;;
  r <- highlight_find_groups C event (groups mm) r_part [] ;;
  let mpr := fst (fst r) in
  let visible_3d_manipulators := snd r in
  if negb (BLI_listbase_is_empty visible_3d_manipulators) then
    manipulator_find_intersected_3d C (mval event) visible_3d_manipulators
  else ret (mpr, snd (fst r)).

(** *** Highlight *)

Definition wm_manipulatormap_highlight_set (C : option bContext)
    (mpr : option ptr) (part : Z) : M unit :=
  mm <- get_mmap ;;
  differs <-
    (if negb (bool_decide (mpr = highlight mm)) then ret true
     else match mpr with
          | Some p => m <- load p ;; ret (negb (part =? mpr_highlight_part m))
          | None => ret false
          end) ;;
  if differs then
    match highlight mm with
    | Some h =>
        modify h (fun m => set_state m
          (Z.land (mpr_state m) (Z.lnot WM_MANIPULATOR_STATE_HIGHLIGHT))) ;;
        modify h (fun m => set_highlight_part m 0)
    | None => ret tt
    end ;;
    modify_mmap (fun mm => set_highlight mm mpr) ;;
    match mpr with
    | Some p =>
        modify p (fun m => set_state m
          (Z.lor (mpr_state m) WM_MANIPULATOR_STATE_HIGHLIGHT)) ;;
        modify p (fun m => set_highlight_part m part) ;;
        m <- load p ;;
        match C with
        | Some c => when (wt_cursor_get (mpr_type m))
                      (emit (EvCursorSet (ctx_window c) (type_cursor_get m)))
        | None => ret tt
        end
    | None =>
        match C with
        | Some c => emit (EvCursorSet (ctx_window c) CURSOR_STD)
        | None => ret tt
        end
    end ;;
    match C with
    | Some c => emit (EvRegionTagRedraw (ctx_region c))
    | None => ret tt
    end
  else ret tt.

Definition wm_manipulatormap_highlight_get : M (option ptr) :=
  mm <- get_mmap ;; ret (highlight mm).

(** *** Selection *)

(** Read of slot [i] of the array [sel] points to; [sel] is
    [&mmap->mmap_context.selected]. *)
Definition sel_read (i : nat) : M (option ptr) :=
  mm <- get_mmap ;;
  match selected mm with
  | None => fail NullPointer
  | Some arr =>
      match arr !! i with
      | Some slot => ret slot
      | None => fail (OutOfBounds (Z.of_nat i) (length arr))
      end
  end.

(** Write of [v] to slot [i] of that array. *)
Definition sel_write (i : nat) (v : option ptr) : M unit :=
  mm <- get_mmap ;;
  match selected mm with
  | None => fail NullPointer
  | Some arr =>
      if bool_decide (i < length arr)%nat
      then put_mmap (set_selected mm (Some (<[i := v]> arr)))
      else fail (OutOfBounds (Z.of_nat i) (length arr))
  end.

(** [MEM_reallocN] of the array to [n] slots: a block of exactly [n] slots
    that keeps the old contents as far as they fit. *)
Definition sel_realloc (n : nat) : M unit :=
  modify_mmap (fun mm =>
    set_selected mm (Some (resize n None (default [] (selected mm))))).

(** One round of the deselect loop, for slot [i]. *)
Definition deselect_all_step (i : nat) : M unit :=
  s <- sel_read i ;;
  p <- deref s ;;
  modify p (fun m => set_state m
    (Z.land (mpr_state m) (Z.lnot WM_MANIPULATOR_STATE_SELECT))) ;;
  sel_write i None.

Definition wm_manipulatormap_deselect_all : M bool :=
  mm <- get_mmap ;;
  if bool_decide (selected mm = None) || (selected_len mm =? 0) then ret false
  else
    forM_ (seq 0 (Z.to_nat (selected_len mm))) deselect_all_step ;;
    wm_manipulatormap_selected_clear ;;
    ret true.

Definition manipulator_selectable_poll (mpr : wmManipulator) : bool :=
  truthy (Z.land (gt_flag (mpr_parent_type mpr)) WM_MANIPULATORGROUPTYPE_SELECT).

(** One round of the [GHASH_ITER_INDEX] loop: [st] is the index [i] and
    [changed]. *)
Definition select_all_step (action : sel_action) (st : nat * bool)
    (entry : string * ptr) : M (nat * bool) :=
  let i := fst st in
  let mpr_iter := snd entry in
  m <- load mpr_iter ;;
  let changed :=
    if Z.land (mpr_state m) WM_MANIPULATOR_STATE_SELECT =? 0 then true else snd st in
  modify mpr_iter (fun m => set_state m
    (Z.lor (mpr_state m) WM_MANIPULATOR_STATE_SELECT)) ;;
  when (wt_select (mpr_type m)) (emit (EvTypeSelect mpr_iter action)) ;;
  sel_write i (Some mpr_iter) ;;
  ret (S i, changed).

Definition wm_manipulatormap_select_all_intern (C : bContext) (action : sel_action)
  : M bool :=
  hash <- WM_manipulatormap_manipulator_hash_new C
            (Some manipulator_selectable_poll) true ;;
  modify_mmap (fun mm => set_selected_len mm (Z.of_nat (length hash))) ;;
  sel_realloc (length hash) ;;
  st <- foldM (select_all_step action) (0%nat, false) (ghash_iter_order hash) ;;
  s0 <- sel_read 0 ;;
  p0 <- deref s0 ;;
  m0 <- load p0 ;;
  wm_manipulatormap_highlight_set (Some C) (Some p0) (mpr_highlight_part m0) ;;
  ret (snd st).

Definition WM_manipulatormap_select_all (C : bContext) (action : sel_action)
  : M bool :=
  changed <-
    match action with
    | SEL_SELECT => wm_manipulatormap_select_all_intern C action
    | SEL_DESELECT => wm_manipulatormap_deselect_all
    | _ => ret false
    end ;;
  when changed (emit EvAddMousemove) ;;
  ret changed.

(** *** Modal *)

Definition clear_modal_state (m : wmManipulator) : wmManipulator :=
  set_state m (Z.land (mpr_state m) (Z.lnot WM_MANIPULATOR_STATE_MODAL)).

Definition wm_manipulatormap_modal_set (C : option bContext) (event : wmEvent)
    (mpr : option ptr) : M unit :=
  match mpr, C with
  | Some p, Some c =>
      modify p (fun m => set_state m
        (Z.lor (mpr_state m) WM_MANIPULATOR_STATE_MODAL)) ;;
      modify_mmap (fun mm => set_modal mm (Some p)) ;;
      m <- load p ;;
      match mpr_op_type m with
      | Some _ =>
          when (wt_invoke (mpr_type m) && (wt_modal (mpr_type m) || mpr_custom_modal m))
            (call (type_invoke c p event)) ;;
          m' <- load p ;;
          call (WM_operator_name_call_ptr c (mpr_op_type m')) ;;
          mm <- get_mmap ;;
          match modal mm with
          | None =>
              modify p clear_modal_state ;;
              modify p (fun m => set_interaction_data m None)
          | Some _ => ret tt
          end
      | None =>
          when (wt_invoke (mpr_type m) && (wt_modal (mpr_type m) || mpr_custom_modal m))
            (call (type_invoke c p event)) ;;
          emit (EvCursorGrabEnable (ctx_window c))
      end
  | _, _ =>
      mm <- get_mmap ;;
      match modal mm with
      | Some q =>
          modify q clear_modal_state ;;
          modify q (fun m => set_interaction_data m None)
      | None => ret tt
      end ;;
      modify_mmap (fun mm => set_modal mm None) ;;
      match C with
      | Some c =>
          emit (EvCursorGrabDisable (ctx_window c)) ;;
          emit (EvRegionTagRedraw (ctx_region c)) ;;
          emit EvAddMousemove
      | None => ret tt
      end
  end.

(** The activate branch of [wm_manipulatormap_modal_set] for a manipulator
    with a bound operator, up to and including the call of the operator;
    the state it ends in is the one the roll-back test looks at. *)
Definition modal_set_invoke_bound (c : bContext) (event : wmEvent) (p : ptr)
  : M unit :=
  modify p (fun m => set_state m
    (Z.lor (mpr_state m) WM_MANIPULATOR_STATE_MODAL)) ;;
  modify_mmap (fun mm => set_modal mm (Some p)) ;;
  m <- load p ;;
  when (wt_invoke (mpr_type m) && (wt_modal (mpr_type m) || mpr_custom_modal m))
    (call (type_invoke c p event)) ;;
  m' <- load p ;;
  call (WM_operator_name_call_ptr c (mpr_op_type m')).

Definition wm_manipulatormap_modal_get : M (option ptr) :=
  mm <- get_mmap ;; ret (modal mm).

End Runtime.

(** ** Updates for dynamic type registration *)

(** [wmManipulatorMapType]; a group-type-ref is the address of the group type
    it points to. *)
Record wmManipulatorMapType := {
  spaceid : Z;
  regionid : Z;
  grouptype_refs : list nat;
  type_update_flag : Z;
}.

Definition set_type_update_flag (mt : wmManipulatorMapType) (f : Z)
  : wmManipulatorMapType :=
  {| spaceid := spaceid mt; regionid := regionid mt;
     grouptype_refs := grouptype_refs mt; type_update_flag := f |}.

Definition set_grouptype_refs (mt : wmManipulatorMapType) (l : list nat)
  : wmManipulatorMapType :=
  {| spaceid := spaceid mt; regionid := regionid mt;
     grouptype_refs := l; type_update_flag := type_update_flag mt |}.

(** Work handed to [wm_manipulator_group.c]; a map type is named by its
    position in the global list. *)
Inductive reg_event :=
  | EvGroupUnlink (mmap_type : nat) (wgt : nat)
  | EvInitRuntimeKeymap (wgt : nat)
  | EvInitRuntime (mmap_type : nat) (wgt : nat).

(** The file-level state: the list [manipulatormaptypes], the flag word of
    every group type (by address), [wm_mmap_type_update_flag], and
    [G.background]. *)
Record Registry := {
  manipulatormaptypes : list wmManipulatorMapType;
  wgt_type_update_flag : nat -> Z;
  wm_mmap_type_update_flag : Z;
  G_background : bool;
  reg_events : list reg_event;
}.

Definition set_maptypes (r : Registry) (l : list wmManipulatorMapType) : Registry :=
  {| manipulatormaptypes := l; wgt_type_update_flag := wgt_type_update_flag r;
     wm_mmap_type_update_flag := wm_mmap_type_update_flag r;
     G_background := G_background r; reg_events := reg_events r |}.

Definition set_wgt_flag (r : Registry) (wgt : nat) (f : Z) : Registry :=
  {| manipulatormaptypes := manipulatormaptypes r;
     wgt_type_update_flag := <[wgt := f]> (wgt_type_update_flag r);
     wm_mmap_type_update_flag := wm_mmap_type_update_flag r;
     G_background := G_background r; reg_events := reg_events r |}.

Definition set_global_flag (r : Registry) (f : Z) : Registry :=
  {| manipulatormaptypes := manipulatormaptypes r;
     wgt_type_update_flag := wgt_type_update_flag r;
     wm_mmap_type_update_flag := f;
     G_background := G_background r; reg_events := reg_events r |}.

Definition reg_emit (r : Registry) (e : reg_event) : Registry :=
  {| manipulatormaptypes := manipulatormaptypes r;
     wgt_type_update_flag := wgt_type_update_flag r;
     wm_mmap_type_update_flag := wm_mmap_type_update_flag r;
     G_background := G_background r; reg_events := reg_events r ++ [e] |}.

(** [mmap_type->... = ...] for the map type at position [k]. *)
Definition modify_maptype (k : nat)
    (f : wmManipulatorMapType -> wmManipulatorMapType) (r : Registry) : Registry :=
  set_maptypes r (alter f k (manipulatormaptypes r)).

(** A value stored into a [char]. *)
Definition char_of_int (z : Z) : Z :=
  let u := z mod 256 in if u <? 128 then u else u - 256.

(** A value stored into a [uchar]. *)
Definition uchar_of_int (z : Z) : Z := z mod 256.

Fixpoint remove_first (x : nat) (l : list nat) : list nat :=
  match l with
  | [] => []
  | y :: l' => if bool_decide (x = y) then l' else y :: remove_first x l'
  end.

(** Modelled from the spec: [WM_manipulatormaptype_group_unlink] is not part
    of the sources at hand; it "unlinks the group-type-ref from its map
    type".  The call is logged and the first ref to [wgt] leaves the list. *)
Definition WM_manipulatormaptype_group_unlink (k : nat) (wgt : nat) (r : Registry)
  : Registry :=
  reg_emit
    (modify_maptype k
       (fun mt => set_grouptype_refs mt (remove_first wgt (grouptype_refs mt))) r)
    (EvGroupUnlink k wgt).

Section Registration.
Context `{FL : Flags}.

Definition WM_manipulatormaptype_find (r : Registry) (space region : Z)
  : option wmManipulatorMapType :=
  List.find (fun mt => (spaceid mt =? space) && (regionid mt =? region))
            (manipulatormaptypes r).

Definition WM_manipulatormaptype_ensure (r : Registry) (space region : Z)
  : wmManipulatorMapType * Registry :=
  match WM_manipulatormaptype_find r space region with
  | Some mt => (mt, r)
  | None =>
      let mt := {| spaceid := space; regionid := region;
                   grouptype_refs := []; type_update_flag := 0 |} in
      (mt, set_maptypes r (mt :: manipulatormaptypes r))
  end.

Definition WM_manipulatorconfig_update_tag_init (k : nat) (wgt : nat) (r : Registry)
  : Registry :=
  let bits := Z.lor WM_MANIPULATORMAPTYPE_UPDATE_INIT
                    WM_MANIPULATORMAPTYPE_KEYMAP_INIT in
  let r := modify_maptype k
             (fun mt => set_type_update_flag mt (Z.lor (type_update_flag mt) bits)) r in
  let r := set_wgt_flag r wgt (Z.lor (wgt_type_update_flag r wgt) bits) in
  set_global_flag r
    (char_of_int (Z.lor (wm_mmap_type_update_flag r)
                        WM_MANIPULATORMAPTYPE_GLOBAL_UPDATE_INIT)).

Definition WM_manipulatorconfig_update_tag_remove (k : nat) (wgt : nat) (r : Registry)
  : Registry :=
  let r := modify_maptype k
             (fun mt => set_type_update_flag mt
                (Z.lor (type_update_flag mt) WM_MANIPULATORMAPTYPE_UPDATE_REMOVE)) r in
  let r := set_wgt_flag r wgt
             (Z.lor (wgt_type_update_flag r wgt) WM_MANIPULATORMAPTYPE_UPDATE_REMOVE) in
  set_global_flag r
    (char_of_int (Z.lor (wm_mmap_type_update_flag r)
                        WM_MANIPULATORMAPTYPE_GLOBAL_UPDATE_REMOVE)).

(** The body of the removal loop for the map type at position [k]. *)
Definition config_update_remove_type (r : Registry) (k : nat) : Registry :=
  match manipulatormaptypes r !! k with
  | None => r
  | Some mmap_type =>
      if truthy (Z.land (type_update_flag mmap_type)
                        WM_MANIPULATORMAPTYPE_GLOBAL_UPDATE_REMOVE)
      then
        let r := modify_maptype k (fun mt => set_type_update_flag mt
                   (Z.land (type_update_flag mt)
                           (Z.lnot WM_MANIPULATORMAPTYPE_UPDATE_REMOVE))) r in
        fold_left (fun r wgt => WM_manipulatormaptype_group_unlink k wgt r)
                  (grouptype_refs mmap_type) r
      else r
  end.

(** The body of the inner init loop for one group-type-ref. *)
Definition config_update_init_ref (k : nat) (r : Registry) (wgt : nat) : Registry :=
  let r :=
    if truthy (Z.land (wgt_type_update_flag r wgt) WM_MANIPULATORMAPTYPE_KEYMAP_INIT)
    then reg_emit
           (set_wgt_flag r wgt
              (Z.land (wgt_type_update_flag r wgt)
                      (Z.lnot WM_MANIPULATORMAPTYPE_KEYMAP_INIT)))
           (EvInitRuntimeKeymap wgt)
    else r in
  if truthy (Z.land (wgt_type_update_flag r wgt) WM_MANIPULATORMAPTYPE_UPDATE_INIT)
  then reg_emit
         (set_wgt_flag r wgt
            (Z.land (wgt_type_update_flag r wgt)
                    (Z.lnot WM_MANIPULATORMAPTYPE_UPDATE_INIT)))
         (EvInitRuntime k wgt)
  else r.

(** The body of the init loop for the map type at position [k]. *)
Definition config_update_init_type (r : Registry) (k : nat) : Registry :=
  match manipulatormaptypes r !! k with
  | None => r
  | Some mmap_type =>
      let type_update_all :=
        uchar_of_int (Z.lor WM_MANIPULATORMAPTYPE_UPDATE_INIT
                            WM_MANIPULATORMAPTYPE_KEYMAP_INIT) in
      if truthy (Z.land (type_update_flag mmap_type) type_update_all) then
        let r := modify_maptype k (fun mt => set_type_update_flag mt
                   (Z.land (type_update_flag mt) (Z.lnot type_update_all))) r in
        fold_left (config_update_init_ref k) (grouptype_refs mmap_type) r
      else r
  end.

Definition config_update_remove (r : Registry) : Registry :=
  if truthy (Z.land (wm_mmap_type_update_flag r)
                    WM_MANIPULATORMAPTYPE_GLOBAL_UPDATE_REMOVE)
  then
    let r := fold_left config_update_remove_type
               (seq 0 (length (manipulatormaptypes r))) r in
    set_global_flag r
      (char_of_int (Z.land (wm_mmap_type_update_flag r)
                           (Z.lnot WM_MANIPULATORMAPTYPE_GLOBAL_UPDATE_REMOVE)))
  else r.

Definition config_update_init (r : Registry) : Registry :=
  if truthy (Z.land (wm_mmap_type_update_flag r)
                    WM_MANIPULATORMAPTYPE_GLOBAL_UPDATE_INIT)
  then
    let r := fold_left config_update_init_type
               (seq 0 (length (manipulatormaptypes r))) r in
    set_global_flag r
      (char_of_int (Z.land (wm_mmap_type_update_flag r)
                           (Z.lnot WM_MANIPULATORMAPTYPE_GLOBAL_UPDATE_INIT)))
  else r.

Definition WM_manipulatorconfig_update (r : Registry) : Registry :=
  if G_background r then r
  else if wm_mmap_type_update_flag r =? 0 then r
  else config_update_init (config_update_remove r).

End Registration.

Definition is_unlink_event (e : reg_event) : bool :=
  match e with EvGroupUnlink _ _ => true | _ => false end.

Definition is_init_event (e : reg_event) : bool :=
  match e with EvInitRuntimeKeymap _ | EvInitRuntime _ _ => true | _ => false end.

(** ** Callers of the runtime *)

(** [ARegion]: its address and the map it owns, if any. *)
Record ARegion := {
  ar_ptr : nat;
  ar_manipulator_map : mmap_ptr;
}.

(** [ScrArea]: its address and the addresses of the regions in
    [regionbase]. *)
Record ScrArea := {
  sa_ptr : nat;
  regionbase : list nat;
}.

(** [bScreen] *)
Record bScreen := {
  areabase : list ScrArea;
}.

(** [wmEventHandler].  [handler_op] is [None] when [handler->op] is [NULL]
    and otherwise holds [handler->op->type]. *)
Record wmEventHandler := {
  handler_op : option (option nat);
  handler_op_area : option nat;
  handler_op_region : option ARegion;
  handler_manipulator_map : mmap_ptr;
}.

(** What the callers ask of the context, of the modal callbacks and of
    [wm_manipulator_group.c].  The setters of the context are left open; a
    modal callback may change the whole state and is taken to leave the
    context as it is. *)
Class Caller := {
  CTX_wm_screen : bContext -> option bScreen;
  CTX_wm_area_set : bContext -> nat -> bContext;
  CTX_wm_region_set : bContext -> nat -> bContext;
  type_modal : bContext -> ptr -> wmEvent -> Z -> World -> World;
  custom_modal : bContext -> ptr -> wmEvent -> Z -> World -> World;
  wm_manipulatorgroup_new_from_type : wmManipulatorMap -> nat -> wmManipulatorMap;
}.

(** The line [wm_manipulatormap_handler_context] prints. *)
Definition invalid_area_message : string :=
  "internal error: modal manipulator-map handler has invalid area" +:+
  String (Ascii.ascii_of_nat 10) EmptyString.

Section Callers.
Context `{FL : Flags} `{HO : Host} `{CA : Caller}.

(** [maps] is the chain of maps reached from the argument through [next]. *)
Fixpoint WM_manipulatormap_cursor_set (maps : list wmManipulatorMap) (win : nat)
  : M bool :=
  match maps with
  | [] => ret false
  | mm :: maps' =>
      match highlight mm with
      | Some p =>
          mpr <- load p ;;
          if wt_cursor_get (mpr_type mpr) then
            emit (EvCursorSet win (type_cursor_get mpr)) ;;
            ret true
          else WM_manipulatormap_cursor_set maps' win
      | None => WM_manipulatormap_cursor_set maps' win
      end
  end.

(** The value is the context the call leaves and what it printed. *)
Definition wm_manipulatormap_handler_context (C : bContext)
    (handler : wmEventHandler) : bContext * list string :=
  match CTX_wm_screen C with
  | Some screen =>
      match handler_op_area handler with
      | None => (C, [])
      | Some op_area =>
          match List.find (fun sa => Nat.eqb (sa_ptr sa) op_area)
                          (areabase screen) with
          | None =>
              (C, if mmap_is_null (handler_manipulator_map handler)
                  then [invalid_area_message] else [])
          | Some sa =>
              let C := CTX_wm_area_set C (sa_ptr sa) in
              match List.find
                      (fun ar => match handler_op_region handler with
                                 | Some op_region => Nat.eqb ar (ar_ptr op_region)
                                 | None => false
                                 end) (regionbase sa) with
              | Some ar => (CTX_wm_region_set C ar, [])
              | None => (C, [])
              end
          end
      end
  | None => (C, [])
  end.

(** [mpr->op_data.type != NULL && mpr->op_data.type == handler->op->type] *)
Definition op_type_matches (mpr : wmManipulator) (op_type : option nat) : bool :=
  match mpr_op_type mpr, op_type with
  | Some t, Some t' => Nat.eqb t t'
  | _, _ => false
  end.

(** The value is the context the call leaves and what it printed. *)
Definition wm_manipulatormaps_handled_modal_update (C : bContext) (event : wmEvent)
    (handler : wmEventHandler) : M (bContext * list string) :=
  match handler_op_region handler with
  | None => ret (C, [])
  | Some op_region =>
      if mmap_is_null (ar_manipulator_map op_region) then ret (C, [])
      else
        mpr <- wm_manipulatormap_modal_get ;;
        let area := ctx_area C in
        let region := ctx_region C in
        let hc := wm_manipulatormap_handler_context C handler in
        let C1 := fst hc in
        match handler_op handler with
        | Some op_type =>
            match mpr with
            | Some p =>
                m <- load p ;;
                if op_type_matches m op_type then
                  if mpr_custom_modal m then call (custom_modal C1 p event 0)
                  else if wt_modal (mpr_type m) then call (type_modal C1 p event 0)
                  else ret tt
                else ret tt
            | None => ret tt
            end
        | None =>
            wm_manipulatormap_highlight_set (Some C1) None 0 ;;
            wm_manipulatormap_modal_set (Some C1) event None
        end ;;
        ret (CTX_wm_region_set (CTX_wm_area_set C1 area) region, snd hc)
  end.

End Callers.

Section MapCreation.
Context `{CA : Caller}.

(** The value is the new map, the map type stored in its [type] field, and
    the registry after the type was ensured. *)
Definition WM_manipulatormap_new_from_type (r : Registry) (space region : Z)
  : wmManipulatorMap * wmManipulatorMapType * Registry :=
  let ensured := WM_manipulatormaptype_ensure r space region in
  let mmap_type := fst ensured in
  let mmap := {| groups := []; highlight := None; modal := None;
                 selected := None; selected_len := 0;
                 update_flag := MANIPULATORMAP_REFRESH |} in
  (fold_left wm_manipulatorgroup_new_from_type (grouptype_refs mmap_type) mmap,
   mmap_type, snd ensured).

End MapCreation.

(** ** Vocabulary of the properties *)

(** The unlinks due for the map type at position [k]: all its
    group-type-refs when its flag word has the removal bit. *)
Definition removals_of (r : Registry) (k : nat) : list reg_event :=
  match manipulatormaptypes r !! k with
  | Some mt =>
      if truthy (Z.land (type_update_flag mt)
                        WM_MANIPULATORMAPTYPE_GLOBAL_UPDATE_REMOVE)
      then map (EvGroupUnlink k) (grouptype_refs mt)
      else []
  | None => []
  end.

(** The unlinks due over all map types, in list order. *)
Definition pending_removals (r : Registry) : list reg_event :=
  concat (map (removals_of r) (seq 0 (length (manipulatormaptypes r)))).

(** The step [f] only appends events that satisfy [P]. *)
Definition appends_only (P : reg_event -> bool) (r r' : Registry) : Prop :=
  exists evs, reg_events r' = reg_events r ++ evs /\ forallb P evs = true.

(** The world with [evs] added to its log. *)
Definition with_log (w : World) (evs : list event) : World :=
  {| heap := heap w; mmap := mmap w; events := events w ++ evs |}.

(** The world with another store. *)
Definition with_heap (w : World) (h : gmap ptr wmManipulator) : World :=
  {| heap := h; mmap := mmap w; events := events w |}.

Section Vocabulary.
Context `{FL : Flags} `{HO : Host}.

(** The manipulator at [q] carries the highlight state bit. *)
Definition carries_highlight (w : World) (q : ptr) : bool :=
  match heap w !! q with
  | Some m => truthy (Z.land (mpr_state m) WM_MANIPULATOR_STATE_HIGHLIGHT)
  | None => false
  end.

(** Only the manipulator in the highlight slot carries the highlight bit. *)
Definition highlight_inv (w : World) : Prop :=
  forall q, carries_highlight w q = true -> highlight (mmap w) = Some q.

(** The group passes the poll of the hash builder. *)
Definition polled (C : bContext) (g : wmManipulatorGroup) : bool :=
  negb (gt_poll (mg_type g)) || grouptype_poll (mg_type g) C.

(** The manipulators of the polled groups, in map order. *)
Definition polled_manipulators (C : bContext) (mm : wmManipulatorMap) : list ptr :=
  flat_map (fun g => if polled C g then mg_manipulators g else []) (groups mm).

(** What an allocated manipulator of a selectable group adds to the hash. *)
Definition hash_entry (h : gmap ptr wmManipulator) (p : ptr) : list (string * ptr) :=
  match h !! p with
  | Some m => if manipulator_selectable_poll m then [(mpr_name m, p)] else []
  | None => []
  end.

(** The selectable manipulators of the map, as the hash builder collects
    them. *)
Definition selectable_entries (C : bContext) (w : World) : list (string * ptr) :=
  flat_map (hash_entry (heap w)) (polled_manipulators C (mmap w)).

(** The selected array and its length agree and every slot points to an
    allocated manipulator. *)
Definition sel_wf (w : World) : Prop :=
  match selected (mmap w) with
  | None => selected_len (mmap w) = 0
  | Some arr =>
      selected_len (mmap w) = Z.of_nat (length arr) /\
      forall slot, slot ∈ arr -> exists p, slot = Some p /\ is_Some (heap w !! p)
  end.

(** The requested manipulator and part are the current highlight. *)
Definition highlight_current (w : World) (mpr : option ptr) (part : Z) : bool :=
  bool_decide (mpr = highlight (mmap w)) &&
  match mpr with
  | Some p => match heap w !! p with
              | Some m => part =? mpr_highlight_part m
              | None => false
              end
  | None => true
  end.

(** Store after the previous highlight was cleared. *)
Definition heap_unhighlight (w : World) : gmap ptr wmManipulator :=
  match highlight (mmap w) with
  | Some h =>
      match heap w !! h with
      | Some mh =>
          <[h := set_highlight_part
                   (set_state mh (Z.land (mpr_state mh)
                                         (Z.lnot WM_MANIPULATOR_STATE_HIGHLIGHT))) 0]>
            (heap w)
      | None => heap w
      end
  | None => heap w
  end.

(** Store after the new target was installed. *)
Definition heap_rehighlight (w : World) (mpr : option ptr) (part : Z)
  : gmap ptr wmManipulator :=
  match mpr with
  | Some p =>
      match heap_unhighlight w !! p with
      | Some mp =>
          <[p := set_highlight_part
                   (set_state mp (Z.lor (mpr_state mp)
                                        WM_MANIPULATOR_STATE_HIGHLIGHT)) part]>
            (heap_unhighlight w)
      | None => heap_unhighlight w
      end
  | None => heap_unhighlight w
  end.

End Vocabulary.

(** A computation that leaves store and map alone and only adds to the log. *)
Definition logs_only (c : M unit) : Prop :=
  forall w, exists evs,
    c w = Ok (tt, {| heap := heap w; mmap := mmap w; events := events w ++ evs |}).

(** A computation that, started with store [h] and map [mm], yields [a],
    leaves both as they are and only adds to the log. *)
Definition quiet {A} (c : M A) (h : gmap ptr wmManipulator)
    (mm : wmManipulatorMap) (a : A) : Prop :=
  forall w, heap w = h -> mmap w = mm ->
    exists evs, c w = Ok (a, {| heap := h; mmap := mm; events := events w ++ evs |}).

Section SelectionVocabulary.
Context `{FL : Flags}.

(** From store [h] to store [h']: the same manipulators are allocated, their
    static fields are the same, and a manipulator with all selection bits
    set still has them set. *)
Definition keeps_selected (h h' : gmap ptr wmManipulator) : Prop :=
  forall q,
    match h !! q, h' !! q with
    | Some m, Some m' =>
        mpr_name m = mpr_name m' /\
        mpr_parent_type m = mpr_parent_type m' /\
        mpr_type m = mpr_type m' /\
        (Z.land (mpr_state m) WM_MANIPULATOR_STATE_SELECT
           = WM_MANIPULATOR_STATE_SELECT ->
         Z.land (mpr_state m') WM_MANIPULATOR_STATE_SELECT
           = WM_MANIPULATOR_STATE_SELECT)
    | None, None => True
    | _, _ => False
    end.

(** The manipulator at [p] is allocated and has all selection bits set. *)
Definition select_marked (h : gmap ptr wmManipulator) (p : ptr) : Prop :=
  exists m, h !! p = Some m /\
    Z.land (mpr_state m) WM_MANIPULATOR_STATE_SELECT = WM_MANIPULATOR_STATE_SELECT.

(** From store [h] to store [h']: the same manipulators are allocated and a
    manipulator without selection bits still has none. *)
Definition keeps_unselected (h h' : gmap ptr wmManipulator) : Prop :=
  forall q,
    match h !! q, h' !! q with
    | Some m, Some m' =>
        Z.land (mpr_state m) WM_MANIPULATOR_STATE_SELECT = 0 ->
        Z.land (mpr_state m') WM_MANIPULATOR_STATE_SELECT = 0
    | None, None => True
    | _, _ => False
    end.

(** The manipulator at [p] is allocated and has no selection bit set. *)
Definition select_cleared (h : gmap ptr wmManipulator) (p : ptr) : Prop :=
  exists m, h !! p = Some m /\
    Z.land (mpr_state m) WM_MANIPULATOR_STATE_SELECT = 0.

(** The world after one round of the select-all loop wrote manipulator [p]
    (found as [m]) to slot [i] of the array [arr]. *)
Definition select_step_world (action : sel_action) (w : World) (i : nat)
    (p : ptr) (m : wmManipulator) (arr : list (option ptr)) : World :=
  {| heap := <[p := set_state m
                     (Z.lor (mpr_state m) WM_MANIPULATOR_STATE_SELECT)]> (heap w);
     mmap := set_selected (mmap w) (Some (<[i := Some p]> arr));
     events := events w ++
               (if wt_select (mpr_type m) then [EvTypeSelect p action] else []) |}.

End SelectionVocabulary.

(** ** Vocabulary of the further properties *)

(** The pair of ids a map type is looked up by. *)
Definition maptype_key (mt : wmManipulatorMapType) : Z * Z :=
  (spaceid mt, regionid mt).

(** The event is the keymap initialization of group type [wgt]. *)
Definition is_keymap_init_of (wgt : nat) (e : reg_event) : bool :=
  match e with EvInitRuntimeKeymap g => Nat.eqb g wgt | _ => false end.

(** The event is a runtime initialization of group type [wgt], for whatever
    map type. *)
Definition is_runtime_init_of (wgt : nat) (e : reg_event) : bool :=
  match e with EvInitRuntime _ g => Nat.eqb g wgt | _ => false end.

(** Whether group type [wgt] still has a bit of [bits] set in its flag word:
    1 when it has, 0 when it has not. *)
Definition pending_bit (bits : Z) (wgt : nat) (r : Registry) : nat :=
  if truthy (Z.land (wgt_type_update_flag r wgt) bits) then 1%nat else 0%nat.

(** From [r] to [r'] the log grew by events of which at most one satisfies
    [P], and none when group type [wgt] had no bit of [bits] left; an event
    that satisfies [P] uses the bits up. *)
Definition spends (P : reg_event -> bool) (bits : Z) (wgt : nat)
    (r r' : Registry) : Prop :=
  exists evs,
    reg_events r' = reg_events r ++ evs /\
    (length (List.filter P evs) + pending_bit bits wgt r' <= pending_bit bits wgt r)%nat.

(** The event is the draw callback of a manipulator. *)
Definition is_draw_event (e : event) : bool :=
  match e with EvTypeDraw _ => true | _ => false end.

(** The event is the draw-for-selection callback of a manipulator. *)
Definition is_draw_select_event (e : event) : bool :=
  match e with EvTypeDrawSelect _ _ => true | _ => false end.

(** The event is the refresh callback of a group. *)
Definition is_group_refresh_event (e : event) : bool :=
  match e with EvGroupRefresh _ => true | _ => false end.

(** The event is a callback of a group. *)
Definition is_group_event (e : event) : bool :=
  match e with
  | EvGroupEnsureInitialized _ | EvGroupRefresh _ | EvGroupDrawPrepare _ => true
  | _ => false
  end.

(** The event is a manipulator update that passes [refresh_map]. *)
Definition is_update_event (refresh_map : bool) (e : event) : bool :=
  match e with
  | EvManipulatorUpdate _ b => Bool.eqb b refresh_map
  | _ => false
  end.

(** Whether GL depth testing is enabled after the calls of the log, when it
    was [on] before. *)
Definition depth_test_after (on : bool) (evs : list event) : bool :=
  fold_left (fun b e => match e with EvGlDepthTest on' => on' | _ => b end) evs on.

Section DrawVocabulary.
Context `{FL : Flags} `{HO : Host}.

(** The group takes part in the draw step. *)
Definition group_drawn (C : bContext) (drawstep : Z) (g : wmManipulatorGroup)
  : bool :=
  wm_manipulatorgroup_is_visible_in_drawstep g drawstep &&
  wm_manipulatorgroup_is_visible g C.

(** The manipulators of the groups that take part, in map order. *)
Definition traversed_manipulators (C : bContext) (drawstep : Z)
    (mm : wmManipulatorMap) : list ptr :=
  flat_map (fun g => if group_drawn C drawstep g then mg_manipulators g else [])
           (groups mm).

(** The visibility test of the manipulator at [p] has the bit [bit]. *)
Definition visible_for (bit : Z) (h : gmap ptr wmManipulator) (p : ptr) : bool :=
  match h !! p with
  | Some m => truthy (Z.land (wm_manipulator_is_visible m) bit)
  | None => false
  end.

(** The manipulators a full traversal puts on the draw list, in map order. *)
Definition drawn_manipulators (C : bContext) (drawstep : Z)
    (h : gmap ptr wmManipulator) (mm : wmManipulatorMap) : list ptr :=
  List.filter (visible_for WM_MANIPULATOR_IS_VISIBLE_DRAW h)
              (traversed_manipulators C drawstep mm).

(** The map is tagged for refresh. *)
Definition refresh_tagged (mm : wmManipulatorMap) : bool :=
  truthy (Z.land (update_flag mm) MANIPULATORMAP_REFRESH).

(** The draw takes the path that prepares the modal manipulator only. *)
Definition draws_modal_only (h : gmap ptr wmManipulator) (mm : wmManipulatorMap)
  : bool :=
  match modal mm with
  | Some p =>
      match h !! p with
      | Some m => Z.land (gt_flag (mpr_parent_type m))
                         WM_MANIPULATORGROUPTYPE_DRAW_MODAL_ALL =? 0
      | None => false
      end
  | None => false
  end.

(** What preparing the manipulator at [p] logs. *)
Definition prepare_log_manipulator (refresh : bool) (h : gmap ptr wmManipulator)
    (p : ptr) : list event :=
  if visible_for WM_MANIPULATOR_IS_VISIBLE_UPDATE h p
  then [EvManipulatorUpdate p refresh] else [].

(** What preparing the group [g] logs. *)
Definition prepare_log_group (C : bContext) (drawstep : Z) (refresh : bool)
    (h : gmap ptr wmManipulator) (g : wmManipulatorGroup) : list event :=
  if group_drawn C drawstep g then
    EvGroupEnsureInitialized (gt_idname (mg_type g)) ::
    (if refresh && gt_refresh (mg_type g)
     then [EvGroupRefresh (gt_idname (mg_type g))] else []) ++
    (if gt_draw_prepare (mg_type g)
     then [EvGroupDrawPrepare (gt_idname (mg_type g))] else []) ++
    flat_map (prepare_log_manipulator refresh h) (mg_manipulators g)
  else [].

(** Whether the manipulator at [p] is drawn with depth testing. *)
Definition draws_in_depth (h : gmap ptr wmManipulator) (p : ptr) : bool :=
  match h !! p with
  | Some m =>
      let is_depth :=
        truthy (Z.land (gt_flag (mpr_parent_type m))
                       WM_MANIPULATORGROUPTYPE_DEPTH_3D) in
      if is_depth && truthy (Z.land (mpr_state m) WM_MANIPULATOR_STATE_HIGHLIGHT)
      then false else is_depth
  | None => false
  end.

(** What the loop over the draw list logs, with the call that switches
    depth testing off after it. *)
Fixpoint draw_list_log (h : gmap ptr wmManipulator) (is_depth_prev : bool)
    (draw : list ptr) : list event :=
  match draw with
  | [] => if is_depth_prev then [EvGlDepthTest false] else []
  | p :: draw' =>
      let is_depth := draws_in_depth h p in
      (if Bool.eqb is_depth is_depth_prev then [] else [EvGlDepthTest is_depth]) ++
      EvTypeDraw p :: draw_list_log h is_depth draw'
  end.

(** Whether the manipulator at [p] is drawn for selection with depth
    testing. *)
Definition selects_in_depth (h : gmap ptr wmManipulator) (p : ptr) : bool :=
  match h !! p with
  | Some m => truthy (Z.land (gt_flag (mpr_parent_type m))
                             WM_MANIPULATORGROUPTYPE_DEPTH_3D)
  | None => false
  end.

(** What the draw-for-selection loop logs, with the call that switches depth
    testing off after it. *)
Fixpoint draw_select_log (h : gmap ptr wmManipulator) (selectionbase : Z)
    (is_depth_prev : bool) (visible : list ptr) : list event :=
  match visible with
  | [] => if is_depth_prev then [EvGlDepthTest false] else []
  | p :: visible' =>
      let is_depth := selects_in_depth h p in
      (if Bool.eqb is_depth is_depth_prev then [] else [EvGlDepthTest is_depth]) ++
      EvTypeDrawSelect p (Z.shiftl selectionbase 8) ::
      draw_select_log h (selectionbase + 1) is_depth visible'
  end.

End DrawVocabulary.

Section PickVocabulary.
Context `{HO : Host}.

(** What one run of the pick over the rectangle [rect] returns: the id of
    the nearest hit the selection backend reports, or -1. *)
Definition pick_nearest (visible : list ptr) (rect : rcti) : Z :=
  let do_passes := GPU_select_query_check_active in
  let mode := if do_passes then GPU_SELECT_NEAREST_FIRST_PASS else GPU_SELECT_ALL in
  let first := GPU_select_end rect mode 0 visible in
  let hits := fst first in
  let buffer :=
    if do_passes && (0 <? hits)
    then snd (GPU_select_end rect GPU_SELECT_NEAREST_SECOND_PASS hits visible)
    else snd first in
  match GPU_select_buffer_near buffer hits with
  | Some hit_near => int_of_GLuint (snd hit_near)
  | None => -1
  end.

End PickVocabulary.

Section SelectionFrame.
Context `{FL : Flags}.

(** [m'] is [m], or [m] with its selection bits cleared. *)
Definition select_bits_cleared (m m' : wmManipulator) : Prop :=
  m' = m \/
  m' = set_state m (Z.land (mpr_state m) (Z.lnot WM_MANIPULATOR_STATE_SELECT)).

(** The hash builder takes the manipulator [m]: it is not hidden or hidden
    ones are included, and it passes the poll, if there is one. *)
Definition hash_takes (poll : option (wmManipulator -> bool))
    (include_hidden : bool) (m : wmManipulator) : bool :=
  (include_hidden || (Z.land (mpr_flag m) WM_MANIPULATOR_HIDDEN =? 0))
  && match poll with None => true | Some f => f m end.

End SelectionFrame.

(** The manipulator highlighted in the map has a type that supplies a
    cursor. *)
Definition supplies_cursor (h : gmap ptr wmManipulator) (mm : wmManipulatorMap)
  : bool :=
  match highlight mm with
  | Some p => match h !! p with
              | Some m => wt_cursor_get (mpr_type m)
              | None => false
              end
  | None => false
  end.

(** ** Sample scenes

    Concrete enumerator values, collaborators and worlds on which the
    functions can be run. *)

Definition sample_flags : Flags := {|
  WM_MANIPULATOR_STATE_HIGHLIGHT := 1;
  WM_MANIPULATOR_STATE_MODAL := 2;
  WM_MANIPULATOR_STATE_SELECT := 4;
  WM_MANIPULATOR_HIDDEN := 8;
  WM_MANIPULATOR_IS_VISIBLE_UPDATE := 1;
  WM_MANIPULATOR_IS_VISIBLE_DRAW := 2;
  WM_MANIPULATORGROUPTYPE_3D := 2;
  WM_MANIPULATORGROUPTYPE_SELECT := 16;
  WM_MANIPULATORGROUPTYPE_DEPTH_3D := 8;
  WM_MANIPULATORGROUPTYPE_DRAW_MODAL_ALL := 32;
  WM_MANIPULATORMAPTYPE_UPDATE_INIT := 1;
  WM_MANIPULATORMAPTYPE_UPDATE_REMOVE := 2;
  WM_MANIPULATORMAPTYPE_KEYMAP_INIT := 4;
  CURSOR_STD := 1;
  USER_MULTISAMPLE_NONE := 0;
|}.

(** An operator that gives up at once: it leaves through the deactivate
    branch, so the modal slot is empty when the call returns. *)
Definition rejecting_operator (w : World) : World :=
  {| heap := heap w; mmap := set_modal (mmap w) None; events := events w |}.

(** Collaborators for the scenes: every group is visible and polls true, a
    3D group offers all its manipulators for picking, a 2D group is hit on
    its first manipulator (part 1), a manipulator is visible unless hidden.
    [do_passes] is what the selection backend answers, [picks] what every
    selection pass leaves in the buffer, [op] what invoking an operator
    does. *)
Definition sample_host (do_passes : bool) (picks : pickbuf) (op : World -> World)
  : Host := {|
  wm_manipulatorgroup_is_visible := fun _ _ => true;
  wm_manipulatorgroup_is_visible_in_drawstep := fun _ _ => true;
  wm_manipulatorgroup_intersectable_manipulators_to_list :=
    fun g _ l => rev (mg_manipulators g) ++ l;
  wm_manipulatorgroup_find_intersected_mainpulator :=
    fun g _ _ _ r_part => match mg_manipulators g with
                          | p :: _ => (Some p, 1)
                          | [] => (None, r_part)
                          end;
  wm_manipulator_is_visible := fun m => if Z.land (mpr_flag m) 8 =? 0 then 3 else 0;
  grouptype_poll := fun _ _ => true;
  type_cursor_get := fun _ => 7;
  type_invoke := fun _ _ _ w => w;
  WM_operator_name_call_ptr := fun _ _ w => op w;
  U_ogl_multisamples := 0;
  GPU_select_query_check_active := do_passes;
  GPU_select_end := fun _ _ _ _ => (Z.of_nat (length picks), picks);
  GPU_select_buffer_near := fun buffer hits =>
    if 0 <? hits then head buffer else None;
  ghash_iter_order := fun l => l;
|}.

Definition sample_ctx : bContext :=
  {| ctx_window := 1; ctx_area := 2; ctx_region := 3 |}.

Definition sample_event : wmEvent := {| mval := (100, 50) |}.

Definition gt_2d : wmManipulatorGroupType :=
  {| gt_idname := "group2d"; gt_flag := 0; gt_poll := false;
     gt_refresh := true; gt_draw_prepare := false |}.

Definition gt_3d : wmManipulatorGroupType :=
  {| gt_idname := "group3d"; gt_flag := 2; gt_poll := false;
     gt_refresh := true; gt_draw_prepare := false |}.

Definition gt_sel : wmManipulatorGroupType :=
  {| gt_idname := "groupsel"; gt_flag := 16; gt_poll := false;
     gt_refresh := false; gt_draw_prepare := false |}.

Definition wt_plain : wmManipulatorType :=
  {| wt_idname := "plain"; wt_invoke := true; wt_modal := true;
     wt_select := true; wt_cursor_get := false |}.

Definition sample_mpr (name : string) (gt : wmManipulatorGroupType)
    (op : option nat) : wmManipulator :=
  {| mpr_name := name; mpr_parent_type := gt; mpr_type := wt_plain;
     mpr_state := 0; mpr_flag := 0; mpr_highlight_part := 0;
     mpr_interaction_data := None; mpr_custom_modal := false;
     mpr_op_type := op |}.

Definition sample_heap : gmap ptr wmManipulator :=
  <[1%nat := sample_mpr "a" gt_3d None]>
  (<[2%nat := sample_mpr "b" gt_2d (Some 5%nat)]>
  (<[3%nat := sample_mpr "c" gt_sel None]>
  (<[4%nat := sample_mpr "d" gt_sel None]> ∅))).

Definition sample_groups : list wmManipulatorGroup :=
  [ {| mg_type := gt_3d; mg_manipulators := [1%nat] |};
    {| mg_type := gt_2d; mg_manipulators := [2%nat] |};
    {| mg_type := gt_sel; mg_manipulators := [3%nat; 4%nat] |} ].

Definition sample_mmap (gs : list wmManipulatorGroup) (hl md : option ptr)
  : wmManipulatorMap :=
  {| groups := gs; highlight := hl; modal := md; selected := None;
     selected_len := 0; update_flag := MANIPULATORMAP_REFRESH |}.

(** A 3D group ahead of a 2D group, nothing highlighted, modal or selected. *)
Definition sample_world : World :=
  {| heap := sample_heap; mmap := sample_mmap sample_groups None None;
     events := [] |}.

(** The same scene while manipulator 2 is modal. *)
Definition sample_world_modal : World :=
  {| heap := <[2%nat := set_state (sample_mpr "b" gt_2d (Some 5%nat)) 2]> sample_heap;
     mmap := sample_mmap sample_groups None (Some 2%nat);
     events := [] |}.

(** A scene whose only group is not selectable. *)
Definition sample_world_unselectable : World :=
  {| heap := sample_heap;
     mmap := sample_mmap [ {| mg_type := gt_2d; mg_manipulators := [2%nat] |} ]
               None None;
     events := [] |}.

(** One map type with two group types, nothing tagged, not headless. *)
Definition sample_registry : Registry :=
  {| manipulatormaptypes :=
       [ {| spaceid := 1; regionid := 1; grouptype_refs := [10%nat; 11%nat];
            type_update_flag := 0 |} ];
     wgt_type_update_flag := fun _ => 0;
     wm_mmap_type_update_flag := 0;
     G_background := false;
     reg_events := [] |}.

(** A scene in which manipulator 3 is modal; used to start a second modal
    session on manipulator 2 while the first is still running. *)
Definition sample_world_busy : World :=
  {| heap := <[3%nat := set_state (sample_mpr "c" gt_sel None) 2]> sample_heap;
     mmap := sample_mmap sample_groups None (Some 3%nat);
     events := [] |}.

(** The plain scene with manipulator 3 highlighted on part 0. *)
Definition sample_world_highlit : World :=
  {| heap := <[3%nat := set_state (sample_mpr "c" gt_sel None) 1]> sample_heap;
     mmap := sample_mmap sample_groups (Some 3%nat) None;
     events := [] |}.

(** A registry with removals and inits tagged on its map type while the
    program runs headless. *)
Definition sample_registry_headless : Registry :=
  {| manipulatormaptypes :=
       [ {| spaceid := 1; regionid := 1; grouptype_refs := [10%nat; 11%nat];
            type_update_flag := 7 |} ];
     wgt_type_update_flag := fun _ => 7;
     wm_mmap_type_update_flag := 3;
     G_background := true;
     reg_events := [] |}.

(** The sample registry after its map type and group type 10 were tagged for
    removal and then for init. *)
Definition sample_registry_tagged : Registry :=
  @WM_manipulatorconfig_update_tag_init sample_flags 0 10
    (@WM_manipulatorconfig_update_tag_remove sample_flags 0 10 sample_registry).

(** The sample registry after group type 10 alone was tagged for removal
    from its map type; group type 11 of the same map type is not tagged. *)
Definition sample_registry_remove_tagged : Registry :=
  @WM_manipulatorconfig_update_tag_remove sample_flags 0 10 sample_registry.

(** A manipulator type without callbacks but the one that supplies a
    cursor. *)
Definition wt_passive : wmManipulatorType :=
  {| wt_idname := "passive"; wt_invoke := false; wt_modal := false;
     wt_select := false; wt_cursor_get := true |}.

(** The plain scene with a fifth manipulator, of the passive type and
    without a bound operator. *)
Definition sample_world_passive : World :=
  {| heap := <[5%nat := {| mpr_name := "e"; mpr_parent_type := gt_2d;
                           mpr_type := wt_passive; mpr_state := 0; mpr_flag := 0;
                           mpr_highlight_part := 0; mpr_interaction_data := None;
                           mpr_custom_modal := false; mpr_op_type := None |}]>
               sample_heap;
     mmap := sample_mmap sample_groups None None;
     events := [] |}.

(** The map of the passive scene with manipulator 5 highlighted. *)
Definition sample_mmap_passive : wmManipulatorMap :=
  sample_mmap sample_groups (Some 5%nat) None.

(** The plain scene with manipulators 3 and 4 selected. *)
Definition sample_world_selected : World :=
  {| heap := <[3%nat := set_state (sample_mpr "c" gt_sel None) 4]>
             (<[4%nat := set_state (sample_mpr "d" gt_sel None) 4]> sample_heap);
     mmap := {| groups := sample_groups; highlight := None; modal := None;
                selected := Some [Some 3%nat; Some 4%nat]; selected_len := 2;
                update_flag := 0 |};
     events := [] |}.

(** A screen with one area (2) that has one region (3). *)
Definition sample_screen : bScreen :=
  {| areabase := [ {| sa_ptr := 2; regionbase := [3%nat] |} ] |}.

(** Collaborators of the callers: the setters store what they are given,
    the modal callbacks do nothing, and a new group is appended to the
    map. *)
Definition sample_caller : Caller := {|
  CTX_wm_screen := fun _ => Some sample_screen;
  CTX_wm_area_set := fun C sa =>
    {| ctx_window := ctx_window C; ctx_area := sa; ctx_region := ctx_region C |};
  CTX_wm_region_set := fun C ar =>
    {| ctx_window := ctx_window C; ctx_area := ctx_area C; ctx_region := ar |};
  type_modal := fun _ _ _ _ w => w;
  custom_modal := fun _ _ _ _ w => w;
  wm_manipulatorgroup_new_from_type := fun mm _ =>
    {| groups := groups mm ++ [ {| mg_type := gt_2d; mg_manipulators := [] |} ];
       highlight := highlight mm; modal := modal mm; selected := selected mm;
       selected_len := selected_len mm; update_flag := update_flag mm |};
|}.

(** A handler for region 3 of area 2; [op] is its operator. *)
Definition sample_handler (op : option (option nat)) : wmEventHandler :=
  {| handler_op := op; handler_op_area := Some 2%nat;
     handler_op_region := Some {| ar_ptr := 3; ar_manipulator_map := MmapThis |};
     handler_manipulator_map := MmapThis |}.
(** ** Properties *)

(** *** Bit masks *)

Lemma land_clear (s x : Z) : Z.land (Z.land s (Z.lnot x)) x = 0.
Proof.
  apply Z.bits_inj'. intros n Hn.
  rewrite !Z.land_spec, Z.lnot_spec, Z.bits_0 by lia.
  destruct (Z.testbit s n), (Z.testbit x n); reflexivity.
Qed.

Lemma land_set (s x : Z) : Z.land (Z.lor s x) x = x.
Proof.
  apply Z.bits_inj'. intros n Hn.
  rewrite Z.land_spec, Z.lor_spec.
  destruct (Z.testbit s n), (Z.testbit x n); reflexivity.
Qed.

Lemma lor_absorb (s x : Z) : Z.land s x = x -> Z.lor s x = s.
Proof.
  intros H. apply Z.bits_inj'. intros n Hn.
  assert (Hb : Z.testbit (Z.land s x) n = Z.testbit x n) by (rewrite H; reflexivity).
  rewrite Z.land_spec in Hb. rewrite Z.lor_spec.
  destruct (Z.testbit s n), (Z.testbit x n); simpl in *; congruence.
Qed.

Lemma disjoint_testbit (x y : Z) (n : Z) :
  Z.land x y = 0 -> 0 <= n -> Z.testbit y n = true -> Z.testbit x n = false.
Proof.
  intros H Hn Hy.
  assert (Hb : Z.testbit (Z.land x y) n = false) by (rewrite H; apply Z.bits_0).
  rewrite Z.land_spec, Hy in Hb. destruct (Z.testbit x n); simpl in *; congruence.
Qed.

Lemma land_clear_other (s x y : Z) :
  Z.land x y = 0 -> Z.land (Z.land s (Z.lnot x)) y = Z.land s y.
Proof.
  intros H. apply Z.bits_inj'. intros n Hn.
  rewrite !Z.land_spec, Z.lnot_spec by lia.
  destruct (Z.testbit y n) eqn:Hy.
  - rewrite (disjoint_testbit x y n H Hn Hy). simpl. rewrite !andb_true_r. reflexivity.
  - rewrite !andb_false_r. reflexivity.
Qed.

Lemma land_set_other (s x y : Z) :
  Z.land x y = 0 -> Z.land (Z.lor s x) y = Z.land s y.
Proof.
  intros H. apply Z.bits_inj'. intros n Hn.
  rewrite !Z.land_spec, Z.lor_spec.
  destruct (Z.testbit y n) eqn:Hy.
  - rewrite (disjoint_testbit x y n H Hn Hy). rewrite orb_false_r. reflexivity.
  - rewrite !andb_false_r. reflexivity.
Qed.

Lemma lor_clear_restore (s x : Z) :
  Z.land s x = 0 -> Z.land (Z.lor s x) (Z.lnot x) = s.
Proof.
  intros H. apply Z.bits_inj'. intros n Hn.
  assert (Hb : Z.testbit (Z.land s x) n = false) by (rewrite H; apply Z.bits_0).
  rewrite Z.land_spec in Hb.
  rewrite Z.land_spec, Z.lor_spec, Z.lnot_spec by lia.
  destruct (Z.testbit s n), (Z.testbit x n); simpl in *; congruence.
Qed.

(** *** The monad *)

Lemma bind_Ok {A B} (m : M A) (f : A -> M B) w a w1 :
  m w = Ok (a, w1) -> bind m f w = f a w1.
Proof. intros H. unfold bind. rewrite H. reflexivity. Qed.

Lemma bind_inv {A B} (m : M A) (f : A -> M B) w r :
  bind m f w = Ok r -> exists a w1, m w = Ok (a, w1) /\ f a w1 = Ok r.
Proof.
  unfold bind. destruct (m w) as [[a w1]|e]; [|discriminate].
  intros H. exists a, w1. split; [reflexivity|exact H].
Qed.

Lemma load_Ok p w m : heap w !! p = Some m -> load p w = Ok (m, w).
Proof. intros H. unfold load. rewrite H. reflexivity. Qed.

Lemma load_inv p w m w' :
  load p w = Ok (m, w') -> w' = w /\ heap w !! p = Some m.
Proof.
  unfold load. destruct (heap w !! p); [|discriminate].
  intros H. injection H as -> ->. split; reflexivity.
Qed.

Lemma modify_Ok p f w m :
  heap w !! p = Some m ->
  modify p f w = Ok (tt, with_heap w (<[p := f m]> (heap w))).
Proof.
  intros H. unfold modify, bind, store. rewrite (load_Ok _ _ _ H). simpl.
  rewrite H. reflexivity.
Qed.

Lemma modify_inv p f w u w' :
  modify p f w = Ok (u, w') ->
  exists m, heap w !! p = Some m /\ w' = with_heap w (<[p := f m]> (heap w)).
Proof.
  unfold modify. intros H. apply bind_inv in H as (m & w1 & Hl & Hs).
  apply load_inv in Hl as [-> Hl]. exists m. split; [exact Hl|].
  unfold store in Hs. rewrite Hl in Hs. injection Hs as _ <-. reflexivity.
Qed.

Lemma world_eta (w : World) :
  {| heap := heap w; mmap := mmap w; events := events w |} = w.
Proof. destruct w; reflexivity. Qed.

Lemma mmap_eta (mm : wmManipulatorMap) :
  {| groups := groups mm; highlight := highlight mm; modal := modal mm;
     selected := selected mm; selected_len := selected_len mm;
     update_flag := update_flag mm |} = mm.
Proof. destruct mm; reflexivity. Qed.

Lemma mpr_eta (m : wmManipulator) :
  {| mpr_name := mpr_name m; mpr_parent_type := mpr_parent_type m;
     mpr_type := mpr_type m; mpr_state := mpr_state m; mpr_flag := mpr_flag m;
     mpr_highlight_part := mpr_highlight_part m;
     mpr_interaction_data := mpr_interaction_data m;
     mpr_custom_modal := mpr_custom_modal m; mpr_op_type := mpr_op_type m |} = m.
Proof. destruct m; reflexivity. Qed.

(** *** Computations that only log *)

Lemma logs_only_ret : logs_only (ret tt).
Proof.
  intros w. exists []. unfold ret. rewrite app_nil_r, world_eta. reflexivity.
Qed.

Lemma logs_only_emit e : logs_only (emit e).
Proof. intros w. exists [e]. reflexivity. Qed.

Lemma logs_only_bind (c1 c2 : M unit) :
  logs_only c1 -> logs_only c2 -> logs_only (c1 ;; c2).
Proof.
  intros H1 H2 w. destruct (H1 w) as [e1 He1].
  unfold bind. rewrite He1.
  destruct (H2 {| heap := heap w; mmap := mmap w; events := events w ++ e1 |})
    as [e2 He2].
  rewrite He2. simpl. exists (e1 ++ e2). rewrite app_assoc. reflexivity.
Qed.

Lemma logs_only_when b c : logs_only c -> logs_only (when b c).
Proof. intros H. destruct b; [exact H|apply logs_only_ret]. Qed.

Create HintDb logs.

#[local] Hint Resolve logs_only_ret logs_only_emit logs_only_bind logs_only_when
  : logs.

(** *** Computations that read and log *)

Lemma quiet_ret {A} (a : A) h mm : quiet (ret a) h mm a.
Proof.
  intros w <- <-. exists []. unfold ret. rewrite app_nil_r, world_eta. reflexivity.
Qed.

Lemma quiet_emit e h mm : quiet (emit e) h mm tt.
Proof. intros w <- <-. exists [e]. reflexivity. Qed.

Lemma quiet_bind {A B} (c : M A) (f : A -> M B) h mm a b :
  quiet c h mm a -> quiet (f a) h mm b -> quiet (bind c f) h mm b.
Proof.
  intros Hc Hf w Hh Hm. destruct (Hc w Hh Hm) as [e1 He1].
  unfold bind. rewrite He1.
  destruct (Hf {| heap := h; mmap := mm; events := events w ++ e1 |}
               eq_refl eq_refl) as [e2 He2].
  rewrite He2. simpl. exists (e1 ++ e2). rewrite app_assoc. reflexivity.
Qed.

Lemma quiet_load p h mm m : h !! p = Some m -> quiet (load p) h mm m.
Proof.
  intros Hp w <- <-. exists []. rewrite (load_Ok _ _ _ Hp).
  rewrite app_nil_r, world_eta. reflexivity.
Qed.

Lemma quiet_get_mmap h mm : quiet get_mmap h mm mm.
Proof.
  intros w <- <-. exists []. unfold get_mmap.
  rewrite app_nil_r, world_eta. reflexivity.
Qed.

Lemma quiet_get_heap h mm : quiet get_heap h mm h.
Proof.
  intros w <- <-. exists []. unfold get_heap.
  rewrite app_nil_r, world_eta. reflexivity.
Qed.

Lemma quiet_when b c h mm : quiet c h mm tt -> quiet (when b c) h mm tt.
Proof. intros H. destruct b; [exact H|apply quiet_ret]. Qed.

Lemma quiet_run {A} (c : M A) (w : World) (a : A) :
  quiet c (heap w) (mmap w) a ->
  exists w', c w = Ok (a, w') /\ heap w' = heap w /\ mmap w' = mmap w.
Proof.
  intros H. destruct (H w eq_refl eq_refl) as [evs He].
  eexists. split; [exact He|]. split; reflexivity.
Qed.

(** *** Loops *)

Lemma bind_ext {A B} (m : M A) (f g : A -> M B) w :
  (forall a w', f a w' = g a w') -> bind m f w = bind m g w.
Proof.
  intros H. unfold bind. destruct (m w) as [[a w']|e]; [apply H|reflexivity].
Qed.

Lemma foldM_app {A B} (f : B -> A -> M B) (b : B) (l1 l2 : list A) w :
  foldM f b (l1 ++ l2) w = bind (foldM f b l1) (fun b' => foldM f b' l2) w.
Proof.
  revert b w. induction l1 as [|x l1 IH]; intros b w; simpl.
  - reflexivity.
  - unfold bind. destruct (f b x w) as [[b' w']|e]; [|reflexivity].
    exact (IH b' w').
Qed.

(** *** The sample scenes *)

Lemma sample_heap_state (q : ptr) (m : wmManipulator) :
  sample_heap !! q = Some m -> mpr_state m = 0.
Proof.
  unfold sample_heap. intros H.
  repeat (apply lookup_insert_Some in H as [[_ <-]|[_ H]]; [reflexivity|]).
  rewrite lookup_empty in H. discriminate.
Qed.

Lemma sample_heap_valid (q : ptr) :
  (1 <= q <= 4)%nat -> is_Some (sample_heap !! q).
Proof.
  intros Hq. unfold sample_heap.
  assert (Hc : q = 1%nat \/ q = 2%nat \/ q = 3%nat \/ q = 4%nat) by lia.
  destruct Hc as [-> | [-> | [-> | ->]]]; eexists; vm_compute; reflexivity.
Qed.

Lemma sample_world_highlit_inv :
  @highlight_inv sample_flags sample_world_highlit.
Proof.
  intros q Hq. unfold carries_highlight in Hq. simpl in *.
  destruct (decide (q = 3%nat)) as [->|Hne]; [reflexivity|exfalso].
  rewrite lookup_insert_ne in Hq by congruence.
  destruct (sample_heap !! q) as [m|] eqn:Hm; [|discriminate].
  rewrite (sample_heap_state q m Hm) in Hq. discriminate.
Qed.

(** *** The draw pipeline *)

Section Draw.
Context `{FL : Flags} `{HO : Host}.

Lemma manipulator_prepare_drawing_quiet (p : ptr) (C : bContext)
    (draw : list ptr) h mm m :
  h !! p = Some m ->
  exists draw',
    quiet (manipulator_prepare_drawing p C draw) h mm
          (negb (wm_manipulator_is_visible m =? 0), draw') /\
    (forall q, q ∈ draw' -> q = p \/ q ∈ draw).
Proof.
  intros Hp. unfold manipulator_prepare_drawing.
  destruct (wm_manipulator_is_visible m =? 0) eqn:Hvis.
  - exists draw. split; [|auto].
    eapply quiet_bind; [apply quiet_load; exact Hp|].
    simpl. rewrite Hvis. apply quiet_ret.
  - eexists. split.
    + eapply quiet_bind; [apply quiet_load; exact Hp|].
      simpl. rewrite Hvis.
      eapply quiet_bind; [apply quiet_get_mmap|].
      eapply quiet_bind; [apply quiet_when, quiet_emit|].
      apply quiet_ret.
    + intros q Hq.
      destruct (truthy (Z.land (wm_manipulator_is_visible m)
                               WM_MANIPULATOR_IS_VISIBLE_DRAW)); [|auto].
      apply elem_of_cons in Hq as [->|Hq]; auto.
Qed.

Lemma draw_list_loop_quiet (draw : list ptr) h mm (acc : bool) :
  (forall q, q ∈ draw -> is_Some (h !! q)) ->
  exists b,
    quiet (foldM (fun is_depth_prev p =>
        mpr <- load p ;;
        let is_depth :=
          truthy (Z.land (gt_flag (mpr_parent_type mpr))
                         WM_MANIPULATORGROUPTYPE_DEPTH_3D) in
        let is_depth :=
          if is_depth && truthy (Z.land (mpr_state mpr) WM_MANIPULATOR_STATE_HIGHLIGHT)
          then false else is_depth in
        (if Bool.eqb is_depth is_depth_prev then ret tt
         else emit (EvGlDepthTest is_depth)) ;;
        emit (EvTypeDraw p) ;;
        ret is_depth) acc draw) h mm b.
Proof.
  revert acc. induction draw as [|p draw IH]; intros acc Hvalid.
  - exists acc. apply quiet_ret.
  - destruct (Hvalid p) as [m Hm]; [left|].
    simpl.
    match goal with
    | |- exists b, quiet (bind _ (fun b' => foldM ?f b' draw)) _ _ _ =>
        set (body := f)
    end.
    destruct (IH
      (if truthy (Z.land (gt_flag (mpr_parent_type m)) WM_MANIPULATORGROUPTYPE_DEPTH_3D)
          && truthy (Z.land (mpr_state m) WM_MANIPULATOR_STATE_HIGHLIGHT)
       then false
       else truthy (Z.land (gt_flag (mpr_parent_type m))
                           WM_MANIPULATORGROUPTYPE_DEPTH_3D)))
      as [b Hb].
    { intros q Hq. apply Hvalid. right. exact Hq. }
    exists b.
    eapply quiet_bind; [|exact Hb].
    eapply quiet_bind; [apply quiet_load; exact Hm|].
    simpl.
    eapply quiet_bind.
    { match goal with
      | |- quiet (if ?c then _ else _) _ _ _ =>
          destruct c; [apply quiet_ret|apply quiet_emit]
      end. }
    eapply quiet_bind; [apply quiet_emit|]. apply quiet_ret.
Qed.

Lemma manipulators_draw_list_quiet (C : bContext) (draw : list ptr) h mm :
  groups mm <> [] ->
  (forall q, q ∈ draw -> is_Some (h !! q)) ->
  quiet (manipulators_draw_list MmapThis C draw) h mm [].
Proof.
  intros Hg Hvalid. unfold manipulators_draw_list.
  eapply quiet_bind; [apply quiet_get_mmap|].
  simpl. destruct (groups mm) as [|g gs] eqn:Hgs; [congruence|]. simpl.
  eapply quiet_bind; [apply quiet_when, quiet_emit|].
  destruct (draw_list_loop_quiet draw h mm false Hvalid) as [b Hb].
  eapply quiet_bind; [exact Hb|].
  eapply quiet_bind; [apply quiet_when, quiet_emit|].
  eapply quiet_bind; [apply quiet_when, quiet_emit|].
  apply quiet_ret.
Qed.

(** C2, as amended: on the modal-only path the draw entry point clears the
    refresh flag exactly when the modal manipulator is visible; the flag is
    left as it was only when the modal manipulator is not visible.  The
    store is unchanged and the draw list is empty on return. *)
Theorem draw_modal_only_refresh_flag
    (w : World) (C : bContext) (drawstep : Z) (p : ptr) (m : wmManipulator)
    (Hgroups : groups (mmap w) <> [])
    (Hmodal : modal (mmap w) = Some p)
    (Hp : heap w !! p = Some m)
    (Hflag : Z.land (gt_flag (mpr_parent_type m))
                    WM_MANIPULATORGROUPTYPE_DRAW_MODAL_ALL = 0) :
  exists w',
    WM_manipulatormap_draw MmapThis C drawstep w = Ok ([], w') /\
    update_flag (mmap w') =
      (if wm_manipulator_is_visible m =? 0 then update_flag (mmap w) else 0) /\
    heap w' = heap w.
Proof.
  destruct (manipulator_prepare_drawing_quiet p C [] (heap w) (mmap w) m Hp)
    as (draw' & Hprep & Hdraw').
  destruct (quiet_run _ _ _ Hprep) as (w1 & Hrun1 & Hh1 & Hm1).
  assert (Hvalid : forall wx, heap wx = heap w ->
            forall q, q ∈ draw' -> is_Some (heap wx !! q)).
  { intros wx Hx q Hq. rewrite Hx.
    destruct (Hdraw' q Hq) as [->|Hq']; [eauto|].
    apply elem_of_nil in Hq'. contradiction. }
  (* the state after the prepare step *)
  set (w2 := if wm_manipulator_is_visible m =? 0 then w1
             else {| heap := heap w1; mmap := set_update_flag (mmap w1) 0;
                     events := events w1 |}).
  assert (Hprepare : manipulatormap_prepare_drawing MmapThis C [] drawstep w
                     = Ok (draw', w2)).
  { unfold manipulatormap_prepare_drawing.
    unfold bind at 1. unfold get_mmap at 1. simpl.
    destruct (groups (mmap w)) as [|g gs] eqn:Hgs; [congruence|]. simpl.
    rewrite Hmodal.
    rewrite (bind_Ok _ _ _ _ _ (load_Ok _ _ _ Hp)).
    rewrite Hflag. simpl.
    rewrite (bind_Ok _ _ _ _ _ Hrun1). simpl.
    unfold w2. destruct (wm_manipulator_is_visible m =? 0); simpl.
    - reflexivity.
    - reflexivity. }
  assert (Hh2 : heap w2 = heap w).
  { unfold w2. destruct (wm_manipulator_is_visible m =? 0); simpl; exact Hh1. }
  assert (Hg2 : groups (mmap w2) <> []).
  { unfold w2. destruct (wm_manipulator_is_visible m =? 0); simpl;
      rewrite Hm1; exact Hgroups. }
  destruct (quiet_run _ w2 _
              (manipulators_draw_list_quiet C draw' (heap w2) (mmap w2) Hg2
                 (Hvalid w2 Hh2))) as (w3 & Hrun3 & Hh3 & Hm3).
  exists w3. split.
  - unfold WM_manipulatormap_draw. rewrite (bind_Ok _ _ _ _ _ Hprepare).
    exact Hrun3.
  - split; [|congruence].
    rewrite Hm3. unfold w2.
    destruct (wm_manipulator_is_visible m =? 0); simpl; [rewrite Hm1|]; reflexivity.
Qed.

End Draw.

(** C2 as stated fails: manipulator 2 is modal and visible, its group type
    does not ask for all manipulators to be drawn while modal, and the map
    is tagged for refresh.  The draw entry point takes the modal-only path
    and returns with the refresh flag cleared. *)
Lemma draw_modal_only_clears_refresh_flag :
  let HO := sample_host false [] rejecting_operator in
  groups (mmap sample_world_modal) <> [] /\
  modal (mmap sample_world_modal) = Some 2%nat /\
  (exists m, heap sample_world_modal !! 2%nat = Some m /\
     Z.land (gt_flag (mpr_parent_type m))
            (@WM_MANIPULATORGROUPTYPE_DRAW_MODAL_ALL sample_flags) = 0) /\
  update_flag (mmap sample_world_modal) = MANIPULATORMAP_REFRESH /\
  exists w',
    @WM_manipulatormap_draw sample_flags HO MmapThis sample_ctx 0
      sample_world_modal = Ok ([], w') /\
    events w' = [EvManipulatorUpdate 2%nat true; EvTypeDraw 2%nat] /\
    update_flag (mmap w') = 0 /\
    update_flag (mmap w') <> update_flag (mmap sample_world_modal).
Proof.
  intros HO.
  split; [discriminate|]. split; [reflexivity|].
  split; [eexists; split; vm_compute; reflexivity|].
  split; [reflexivity|].
  eexists. split; [vm_compute; reflexivity|].
  split; [reflexivity|]. split; [reflexivity|]. vm_compute. discriminate.
Qed.

(** The same scene through the amended statement. *)
Lemma draw_modal_only_refresh_flag_witness :
  let HO := sample_host false [] rejecting_operator in
  let m := set_state (sample_mpr "b" gt_2d (Some 5%nat)) 2 in
  groups (mmap sample_world_modal) <> [] /\
  modal (mmap sample_world_modal) = Some 2%nat /\
  heap sample_world_modal !! 2%nat = Some m /\
  Z.land (gt_flag (mpr_parent_type m))
         (@WM_MANIPULATORGROUPTYPE_DRAW_MODAL_ALL sample_flags) = 0 /\
  exists w',
    @WM_manipulatormap_draw sample_flags HO MmapThis sample_ctx 0
      sample_world_modal = Ok ([], w') /\
    update_flag (mmap w') = 0.
Proof.
  intros HO m.
  assert (Hg : groups (mmap sample_world_modal) <> []) by discriminate.
  assert (Hmodal : modal (mmap sample_world_modal) = Some 2%nat) by reflexivity.
  assert (Hp : heap sample_world_modal !! 2%nat = Some m)
    by (simpl; apply lookup_insert_eq).
  assert (Hflag : Z.land (gt_flag (mpr_parent_type m))
                    (@WM_MANIPULATORGROUPTYPE_DRAW_MODAL_ALL sample_flags) = 0)
    by reflexivity.
  split; [exact Hg|]. split; [exact Hmodal|]. split; [exact Hp|].
  split; [exact Hflag|].
  destruct (@draw_modal_only_refresh_flag sample_flags HO sample_world_modal
              sample_ctx 0 2%nat m Hg Hmodal Hp Hflag) as (w' & Hrun & Hupd & _).
  exists w'. split; [exact Hrun|]. rewrite Hupd. reflexivity.
Defined.

(** *** Single precision *)

(** Rounding sees the value of a rational, not its representation. *)
Lemma round_float_proper (p q : Q) : (p == q)%Q -> round_float p = round_float q.
Proof. intros H. unfold round_float. rewrite (Qred_complete _ _ H). reflexivity. Qed.

(** The nearest integer is at most half a unit away. *)
Lemma round_half_even_near (n d : Z) :
  0 < d -> Z.abs (2 * (round_half_even n d * d - n)) <= d.
Proof.
  intros Hd. unfold round_half_even.
  pose proof (Z.div_mod n d ltac:(lia)) as Hdm.
  pose proof (Z.mod_pos_bound n d Hd) as Hr.
  destruct (Z.compare_spec (2 * (n mod d)) d) as [He|Hl|Hg].
  - destruct (Z.even (n / d)); nia.
  - nia.
  - nia.
Qed.

Lemma round_half_even_exact (n : Z) : round_half_even n 1 = n.
Proof.
  unfold round_half_even. rewrite Z.mod_1_r, Z.div_1_r. reflexivity.
Qed.

(** A value below [2 ^ j] lies in a binade below [j]. *)
Lemma binade_upper (n d : positive) (j : Z) :
  0 <= j -> Z.pos n < 2 ^ j * Z.pos d -> binade n d < j.
Proof.
  intros Hj Hlt. unfold binade.
  destruct (Z.log2_spec (Z.pos n) ltac:(lia)) as [Hn1 Hn2].
  destruct (Z.log2_spec (Z.pos d) ltac:(lia)) as [Hd1 Hd2].
  pose proof (Z.log2_nonneg (Z.pos n)) as Ha.
  pose proof (Z.log2_nonneg (Z.pos d)) as Hb.
  set (a := Z.log2 (Z.pos n)) in *. set (b := Z.log2 (Z.pos d)) in *.
  destruct (Z.ltb_spec (Z.pos n * 2 ^ Z.max 0 (- (a - b)))
                       (Z.pos d * 2 ^ Z.max 0 (a - b))) as [Ht|Ht].
  - destruct (Z_lt_le_dec (a - b) (j + 1)) as [|Hge]; [lia|exfalso].
    assert (H1 : 2 ^ (j + Z.succ b) <= 2 ^ a) by (apply Z.pow_le_mono_r; lia).
    rewrite Z.pow_add_r in H1 by lia.
    assert (Hpj : 0 < 2 ^ j) by (apply Z.pow_pos_nonneg; lia).
    assert (H2 : 2 ^ j * Z.pos d < 2 ^ j * 2 ^ Z.succ b)
      by (apply Z.mul_lt_mono_pos_l; lia).
    lia.
  - destruct (Z_lt_le_dec (a - b) j) as [|Hge]; [lia|exfalso].
    rewrite (Z.max_l 0 (- (a - b))) in Ht by lia.
    rewrite (Z.max_r 0 (a - b)) in Ht by lia.
    assert (H1 : 2 ^ j <= 2 ^ (a - b)) by (apply Z.pow_le_mono_r; lia).
    change (2 ^ 0) with 1 in Ht.
    assert (H2 : Z.pos d * 2 ^ j <= Z.pos d * 2 ^ (a - b))
      by (apply Z.mul_le_mono_nonneg_l; lia).
    lia.
Qed.

Lemma binade_int (n : positive) : binade n 1 = Z.log2 (Z.pos n).
Proof.
  unfold binade. change (Z.log2 1) with 0. rewrite Z.sub_0_r.
  pose proof (Z.log2_nonneg (Z.pos n)) as Ha.
  destruct (Z.log2_spec (Z.pos n) ltac:(lia)) as [Hn1 _].
  rewrite (Z.max_l 0 (- Z.log2 (Z.pos n))) by lia.
  rewrite (Z.max_r 0 (Z.log2 (Z.pos n))) by lia.
  change (2 ^ 0) with 1.
  destruct (Z.ltb_spec (Z.pos n * 1) (1 * 2 ^ Z.log2 (Z.pos n))); [lia|reflexivity].
Qed.

Lemma Qred_inject_Z (z : Z) : Qred (inject_Z z) = inject_Z z.
Proof.
  unfold Qred, inject_Z.
  generalize (Z.ggcd_correct_divisors z 1), (Z.ggcd_gcd z 1).
  destruct (Z.ggcd z 1) as (g, (aa, bb)). cbn [fst snd].
  intros [H1 H2] Hg. rewrite Z.gcd_1_r in Hg. subst g.
  rewrite Z.mul_1_l in H1, H2. subst aa bb. reflexivity.
Qed.

Lemma round_float_pos_int (n : positive) :
  Z.pos n < 2 ^ 24 -> round_float_pos n 1 = inject_Z (Z.pos n).
Proof.
  intros Hn. unfold round_float_pos. rewrite binade_int.
  pose proof (Z.log2_nonneg (Z.pos n)) as Ha.
  assert (He : Z.log2 (Z.pos n) < 24) by (apply Z.log2_lt_pow2; lia).
  set (e := Z.log2 (Z.pos n)) in *.
  rewrite (Z.max_l (e - 23)) by lia.
  rewrite (Z.max_l 0 (e - 23)) by lia.
  rewrite (Z.max_r 0 (- (e - 23))) by lia.
  change (2 ^ 0) with 1. rewrite round_half_even_exact.
  assert (Hp : 0 < 2 ^ (- (e - 23))) by (apply Z.pow_pos_nonneg; lia).
  rewrite <- (Qred_inject_Z (Z.pos n)).
  apply Qred_complete. unfold Qeq. cbn [Qnum Qden inject_Z].
  rewrite Z2Pos.id by lia. lia.
Qed.

(** An integer below [2 ^ 24] in magnitude is a single-precision value. *)
Lemma round_float_int (q : Q) (z : Z) :
  (q == inject_Z z)%Q -> Z.abs z < 2 ^ 24 -> round_float q = inject_Z z.
Proof.
  intros Hq Hz. rewrite (round_float_proper _ _ Hq).
  unfold round_float.
  rewrite Qred_inject_Z. unfold inject_Z.
  destruct z as [|n|n].
  - reflexivity.
  - apply round_float_pos_int. lia.
  - rewrite round_float_pos_int by lia. reflexivity.
Qed.

Lemma round_float_pos_near (n d : positive) :
  Z.pos n < 2 ^ 22 * Z.pos d ->
  (Qabs (round_float_pos n d - (Z.pos n # d)) <= 1 # 8)%Q.
Proof.
  intros Hlt. unfold round_float_pos.
  pose proof (binade_upper n d 22 ltac:(lia) Hlt) as He.
  set (k := Z.max (binade n d - 23) (-149)).
  assert (Hk : -149 <= k <= -2) by (unfold k; lia).
  rewrite (Z.max_l 0 k) by lia. rewrite (Z.max_r 0 (- k)) by lia.
  change (2 ^ 0) with 1. rewrite !Z.mul_1_r.
  assert (Hp : 4 <= 2 ^ (- k)).
  { change 4 with (2 ^ 2). apply Z.pow_le_mono_r; lia. }
  set (P := 2 ^ (- k)) in *.
  pose proof (round_half_even_near (Z.pos n * P) (Z.pos d) ltac:(lia)) as Hm.
  set (m := round_half_even (Z.pos n * P) (Z.pos d)) in *.
  rewrite Qred_correct.
  apply Qabs_Qle_condition. unfold Qle, Qminus, Qplus, Qopp.
  cbn [Qnum Qden]. rewrite !Pos2Z.inj_mul, Z2Pos.id by lia.
  split; nia.
Qed.

(** Away from the top of the range, rounding moves a value by an eighth at
    most. *)
Lemma round_float_near (q : Q) :
  (Qabs q < 4194304)%Q -> (Qabs (round_float q - q) <= 1 # 8)%Q.
Proof.
  intros Hq. rewrite <- (Qred_correct q) in Hq |- * at 2.
  assert (Hr : round_float q = round_float (Qred q))
    by (apply round_float_proper; symmetry; apply Qred_correct).
  rewrite Hr. clear Hr. unfold round_float.
  rewrite (Qred_complete _ _ (Qred_correct q)).
  destruct (Qred q) as [[|n|n] d].
  - apply Qabs_Qle_condition. split; discriminate.
  - apply round_float_pos_near.
    unfold Qlt in Hq. cbn [Qabs Qnum Qden Z.abs] in Hq. change (2 ^ 22) with 4194304. lia.
  - assert (Heq : (- round_float_pos n d - (Z.neg n # d) ==
                   - (round_float_pos n d - (Z.pos n # d)))%Q).
    { unfold Qeq, Qminus, Qplus, Qopp. cbn [Qnum Qden]. 
      rewrite !Pos2Z.inj_mul. change (Z.neg n) with (- Z.pos n). ring. }
    rewrite Heq, Qabs_opp. apply round_float_pos_near.
    unfold Qlt in Hq. cbn [Qabs Qnum Qden Z.abs] in Hq. change (2 ^ 22) with 4194304. lia.
Qed.

(** Truncation of a value strictly between two neighbouring integers. *)
Lemma int_of_float_between (q : Q) (n : Z) :
  (inject_Z n < q)%Q -> (q < inject_Z (n + 1))%Q ->
  int_of_float q = if 0 <=? n then n else n + 1.
Proof.
  unfold Qlt, int_of_float. destruct q as [a d]. cbn [Qnum Qden inject_Z].
  intros Hlo Hhi.
  destruct (Z.leb_spec 0 n) as [Hn|Hn].
  - assert (Hnd : 0 <= n * Z.pos d) by (apply Z.mul_nonneg_nonneg; lia).
    symmetry. apply Z.quot_unique with (r := a - Z.pos d * n); lia.
  - assert (Hnd : 0 <= (- (n + 1)) * Z.pos d) by (apply Z.mul_nonneg_nonneg; lia).
    rewrite <- (Z.opp_involutive a), Z.quot_opp_l by lia.
    rewrite <- (Z.quot_unique (- a) (Z.pos d) (- (n + 1))
                  (- a - Z.pos d * (- (n + 1)))) by lia.
    lia.
Qed.

Lemma int_of_float_int (z : Z) : int_of_float (inject_Z z) = z.
Proof. unfold int_of_float. cbn [Qnum Qden inject_Z]. apply Z.quot_1_r. Qed.

(** An [int] below [2 ^ 24] in magnitude converts to [float] unchanged. *)
Lemma float_of_int_exact (c : Z) :
  Z.abs c < 2 ^ 24 -> float_of_int c = inject_Z c.
Proof. intros Hc. apply round_float_int; [reflexivity|exact Hc]. Qed.

(** The edges at distance 7: sums and differences are integers, hence
    exact. *)
Lemma coarse_edges (c : Z) :
  Z.abs c + 3 <= 2 ^ 22 ->
  int_of_float (float_sub (float_of_int c) 7) = c - 7 /\
  int_of_float (float_add (float_of_int c) 7) = c + 7.
Proof.
  intros Hc. rewrite float_of_int_exact by lia. unfold float_sub, float_add.
  rewrite (round_float_int _ (c - 7)), (round_float_int _ (c + 7)), !int_of_float_int.
  - split; reflexivity.
  - unfold Qeq. cbn [Qnum Qden Qplus inject_Z]. lia.
  - lia.
  - unfold Qeq. cbn [Qnum Qden Qminus Qplus Qopp inject_Z]. lia.
  - lia.
Qed.

(** [c - 2.8] and [c + 2.8], truncated toward zero. *)
Lemma quot_below (c : Z) :
  Z.quot (5 * c - 14) 5 = if 0 <=? c - 3 then c - 3 else c - 3 + 1.
Proof.
  destruct (Z.leb_spec 0 (c - 3)).
  - symmetry. apply Z.quot_unique with (r := 1); lia.
  - rewrite <- (Z.opp_involutive (5 * c - 14)), Z.quot_opp_l by lia.
    rewrite <- (Z.quot_unique (- (5 * c - 14)) 5 (2 - c) 4) by lia. lia.
Qed.

Lemma quot_above (c : Z) :
  Z.quot (5 * c + 14) 5 = if 0 <=? c + 2 then c + 2 else c + 2 + 1.
Proof.
  destruct (Z.leb_spec 0 (c + 2)).
  - symmetry. apply Z.quot_unique with (r := 4); lia.
  - rewrite <- (Z.opp_involutive (5 * c + 14)), Z.quot_opp_l by lia.
    rewrite <- (Z.quot_unique (- (5 * c + 14)) 5 (- c - 3) 1) by lia. lia.
Qed.

(** The edges at the distance of the single-precision value nearest 2.8:
    the sum or difference is rounded by an eighth at most, which does not
    reach the next integer. *)
Lemma tight_edges (c : Z) :
  Z.abs c + 3 <= 2 ^ 22 ->
  int_of_float (float_sub (float_of_int c) (11744051 # 4194304)) =
    Z.quot (5 * c - 14) 5 /\
  int_of_float (float_add (float_of_int c) (11744051 # 4194304)) =
    Z.quot (5 * c + 14) 5.
Proof.
  intros Hc. rewrite float_of_int_exact by lia. unfold float_sub, float_add.
  rewrite quot_below, quot_above. split.
  - assert (Hx : (Qabs (inject_Z c - (11744051 # 4194304)) < 4194304)%Q).
    { apply Qabs_Qlt_condition. unfold Qlt.
      cbn [Qnum Qden Qminus Qplus Qopp inject_Z]. lia. }
    apply round_float_near, Qabs_Qle_condition in Hx.
    destruct (round_float (inject_Z c - (11744051 # 4194304))) as [rn rd].
    destruct Hx as [Hlo Hhi].
    apply int_of_float_between; unfold Qlt, Qle in *;
      cbn [Qnum Qden Qminus Qplus Qopp inject_Z] in *; lia.
  - assert (Hx : (Qabs (inject_Z c + (11744051 # 4194304)) < 4194304)%Q).
    { apply Qabs_Qlt_condition. unfold Qlt.
      cbn [Qnum Qden Qminus Qplus Qopp inject_Z]. lia. }
    apply round_float_near, Qabs_Qle_condition in Hx.
    destruct (round_float (inject_Z c + (11744051 # 4194304))) as [rn rd].
    destruct Hx as [Hlo Hhi].
    apply int_of_float_between; unfold Qlt, Qle in *;
      cbn [Qnum Qden Qminus Qplus Qopp inject_Z] in *; lia.
Qed.

(** *** 3D picking *)

Section Picking.
Context `{FL : Flags} `{HO : Host}.

Lemma draw_select_loop_quiet (C : bContext) (visible : list ptr) h mm :
  (forall q, q ∈ visible -> is_Some (h !! q)) ->
  quiet (manipulator_draw_select_3D_loop C visible) h mm tt.
Proof.
  intros Hvalid. unfold manipulator_draw_select_3D_loop.
  assert (Hloop : forall st, exists st',
    quiet (foldM (fun st p =>
      let selectionbase := fst st in
      let is_depth_prev := snd st in
      mpr <- load p ;;
      let is_depth :=
        truthy (Z.land (gt_flag (mpr_parent_type mpr))
                       WM_MANIPULATORGROUPTYPE_DEPTH_3D) in
      (if Bool.eqb is_depth is_depth_prev then ret tt
       else emit (EvGlDepthTest is_depth)) ;;
      emit (EvTypeDrawSelect p (Z.shiftl selectionbase 8)) ;;
      ret (selectionbase + 1, is_depth)) st visible) h mm st').
  { induction visible as [|p visible IH]; intros st.
    - exists st. apply quiet_ret.
    - destruct (Hvalid p) as [m Hm]; [left|].
      simpl.
      destruct (IH (fun q Hq => Hvalid q (list_elem_of_further _ _ _ Hq))
                  (fst st + 1,
                   truthy (Z.land (gt_flag (mpr_parent_type m))
                                  WM_MANIPULATORGROUPTYPE_DEPTH_3D)))
        as [st' Hst'].
      exists st'. eapply quiet_bind; [|exact Hst'].
      eapply quiet_bind; [apply quiet_load; exact Hm|]. simpl.
      eapply quiet_bind.
      { match goal with
        | |- quiet (if ?c then _ else _) _ _ _ =>
            destruct c; [apply quiet_ret|apply quiet_emit]
        end. }
      eapply quiet_bind; [apply quiet_emit|]. apply quiet_ret. }
  destruct (Hloop (0, false)) as [st' Hst'].
  eapply quiet_bind; [exact Hst'|]. apply quiet_when, quiet_emit.
Qed.

(** One run of the pick: it returns, leaves store and map alone, and its log
    starts with the view set up for the rectangle of the given half-width
    and the selection begun in the mode the backend asks for. *)
Lemma find_intersected_3d_intern_spec (visible : list ptr) (C : bContext)
    (co : Z * Z) (hs : Q) (w : World) :
  (forall q, q ∈ visible -> is_Some (heap w !! q)) ->
  exists v rest,
    manipulator_find_intersected_3d_intern visible C co hs w =
      Ok (v, with_log w
               ([EvDrawSetupView (Some (hotspot_rect co hs));
                 EvSelectBegin (hotspot_rect co hs)
                   (if GPU_select_query_check_active
                    then GPU_SELECT_NEAREST_FIRST_PASS else GPU_SELECT_ALL) 0]
                ++ rest)).
Proof.
  intros Hvalid. unfold manipulator_find_intersected_3d_intern. cbv zeta.
  set (rect := hotspot_rect co hs).
  set (mode := if GPU_select_query_check_active
               then GPU_SELECT_NEAREST_FIRST_PASS else GPU_SELECT_ALL).
  set (hits := fst (GPU_select_end rect mode 0 visible)).
  unfold bind at 1. unfold emit at 1.
  unfold bind at 1. unfold emit at 1. cbn [heap mmap events].
  set (w1 := {| heap := heap w; mmap := mmap w;
                events := (events w ++ [EvDrawSetupView (Some rect)])
                          ++ [EvSelectBegin rect mode 0] |}).
  assert (Hloop : quiet (manipulator_draw_select_3D_loop C visible)
                        (heap w) (mmap w) tt)
    by (apply draw_select_loop_quiet; exact Hvalid).
  assert (Htail : exists v,
    quiet (manipulator_draw_select_3D_loop C visible ;;
           emit EvSelectEnd ;;
           buffer <-
             (if GPU_select_query_check_active && (0 <? hits) then
                emit (EvSelectBegin rect GPU_SELECT_NEAREST_SECOND_PASS hits) ;;
                manipulator_draw_select_3D_loop C visible ;;
                emit EvSelectEnd ;;
                ret (snd (GPU_select_end rect GPU_SELECT_NEAREST_SECOND_PASS hits
                            visible))
              else ret (snd (GPU_select_end rect mode 0 visible))) ;;
           emit (EvDrawSetupView None) ;;
           match GPU_select_buffer_near buffer hits with
           | Some hit_near => ret (int_of_GLuint (snd hit_near))
           | None => ret (-1)
           end) (heap w) (mmap w) v).
  { assert (Hfinish : forall buffer, exists v,
      quiet (emit (EvDrawSetupView None) ;;
             match GPU_select_buffer_near buffer hits with
             | Some hit_near => ret (int_of_GLuint (snd hit_near))
             | None => ret (-1)
             end) (heap w) (mmap w) v).
    { intros buffer.
      destruct (GPU_select_buffer_near buffer hits) as [hit|]; eexists;
        (eapply quiet_bind; [apply quiet_emit|apply quiet_ret]). }
    destruct (GPU_select_query_check_active && (0 <? hits)).
    - destruct (Hfinish (snd (GPU_select_end rect GPU_SELECT_NEAREST_SECOND_PASS
                                hits visible))) as [v Hv].
      exists v.
      eapply quiet_bind; [exact Hloop|].
      eapply quiet_bind; [apply quiet_emit|].
      eapply quiet_bind; [|exact Hv].
      eapply quiet_bind; [apply quiet_emit|].
      eapply quiet_bind; [exact Hloop|].
      eapply quiet_bind; [apply quiet_emit|]. apply quiet_ret.
    - destruct (Hfinish (snd (GPU_select_end rect mode 0 visible))) as [v Hv].
      exists v.
      eapply quiet_bind; [exact Hloop|].
      eapply quiet_bind; [apply quiet_emit|].
      eapply quiet_bind; [apply quiet_ret|exact Hv]. }
  destruct Htail as [v Htail].
  destruct (Htail w1 eq_refl eq_refl) as [rest Hrun].
  exists v, rest. rewrite Hrun. unfold with_log, w1. simpl.
  rewrite <- !app_assoc. reflexivity.
Qed.

(** The two half-widths the pick is run with. *)
Lemma hotspot_coarse : float_mul (float_lit (1 # 2)) hotspot = 7%Q.
Proof. vm_compute. reflexivity. Qed.

Lemma hotspot_tight :
  float_mul (float_lit (1 # 5)) hotspot = (11744051 # 4194304)%Q.
Proof. vm_compute. reflexivity. Qed.

(** With a half-width of 7 the edges are exact. *)
Lemma hotspot_rect_coarse (co : Z * Z) :
  Z.abs (fst co) + 3 <= 2 ^ 22 -> Z.abs (snd co) + 3 <= 2 ^ 22 ->
  hotspot_rect co (float_mul (float_lit (1 # 2)) hotspot) =
    {| xmin := fst co - 7; xmax := fst co + 7;
       ymin := snd co - 7; ymax := snd co + 7 |}.
Proof.
  intros Hx Hy. rewrite hotspot_coarse. unfold hotspot_rect.
  destruct (coarse_edges (fst co) Hx) as [-> ->].
  destruct (coarse_edges (snd co) Hy) as [-> ->]. reflexivity.
Qed.

(** With the tighter half-width the edges are those of [co - 2.8] and
    [co + 2.8], truncated toward zero. *)
Lemma hotspot_rect_tight (co : Z * Z) :
  Z.abs (fst co) + 3 <= 2 ^ 22 -> Z.abs (snd co) + 3 <= 2 ^ 22 ->
  hotspot_rect co (float_mul (float_lit (1 # 5)) hotspot) =
    {| xmin := Z.quot (5 * fst co - 14) 5; xmax := Z.quot (5 * fst co + 14) 5;
       ymin := Z.quot (5 * snd co - 14) 5; ymax := Z.quot (5 * snd co + 14) 5 |}.
Proof.
  intros Hx Hy. rewrite hotspot_tight. unfold hotspot_rect.
  destruct (tight_edges (fst co) Hx) as [-> ->].
  destruct (tight_edges (snd co) Hy) as [-> ->]. reflexivity.
Qed.

(** Past that range single precision moves the edges: at [2 ^ 22] the right
    edge of the tighter rectangle is one pixel further out than the
    truncation of [co + 2.8], and at [2 ^ 24 + 1] the coordinate itself is
    rounded before 7 is taken off. *)
Example hotspot_rect_rounds :
  xmax (hotspot_rect (4194304, 0) (float_mul (float_lit (1 # 5)) hotspot))
    = 4194307 /\
  Z.quot (5 * 4194304 + 14) 5 = 4194306 /\
  xmin (hotspot_rect (16777217, 0) (float_mul (float_lit (1 # 2)) hotspot))
    = 16777209.
Proof. repeat split; vm_compute; reflexivity. Qed.

(** C4, as amended: the pick runs once with a half-width of 7 pixels (0.5 of
    the 14-pixel hotspot).  Whenever that run returns a hit, a second run is
    made with 2.8 pixels (40% of 7, as a single-precision value), whether or
    not the selection backend supports passes; the result of the second
    run, when it is a hit, replaces that of the first.  While the pointer
    coordinates stay three below [2 ^ 22] in magnitude, the rectangle of the
    first run reaches from [co - 7] to [co + 7] and that of the second from
    [co - 2.8] to [co + 2.8], truncated toward zero. *)
Theorem find_intersected_3d_two_runs (C : bContext) (co : Z * Z)
    (visible : list ptr) (w : World)
    (Hvalid : forall q, q ∈ visible -> is_Some (heap w !! q)) :
  let coarse := float_mul (float_lit (1 # 2)) hotspot in
  let tight := float_mul (float_lit (1 # 5)) hotspot in
  let mode := if GPU_select_query_check_active
              then GPU_SELECT_NEAREST_FIRST_PASS else GPU_SELECT_ALL in
  hotspot = 14%Q /\ coarse = 7%Q /\
  tight = float_lit ((2 # 5) * coarse) /\ tight = float_lit (28 # 10) /\
  (Qabs (tight - (28 # 10)) <= 1 # 10000000)%Q /\
  (Z.abs (fst co) + 3 <= 2 ^ 22 -> Z.abs (snd co) + 3 <= 2 ^ 22 ->
   hotspot_rect co coarse =
     {| xmin := fst co - 7; xmax := fst co + 7;
        ymin := snd co - 7; ymax := snd co + 7 |} /\
   hotspot_rect co tight =
     {| xmin := Z.quot (5 * fst co - 14) 5; xmax := Z.quot (5 * fst co + 14) 5;
        ymin := Z.quot (5 * snd co - 14) 5;
        ymax := Z.quot (5 * snd co + 14) 5 |}) /\
  exists ret1 log1,
    let w1 := with_log w ([EvNeedsOpenGL;
                           EvDrawSetupView (Some (hotspot_rect co coarse));
                           EvSelectBegin (hotspot_rect co coarse) mode 0]
                          ++ log1) in
    manipulator_find_intersected_3d_intern visible C co coarse
      (with_log w [EvNeedsOpenGL]) = Ok (ret1, w1) /\
    if ret1 =? -1 then
      manipulator_find_intersected_3d C co visible w = Ok ((None, 0), w1)
    else
      exists retsec log2,
        let w2 := with_log w1 ([EvDrawSetupView (Some (hotspot_rect co tight));
                                EvSelectBegin (hotspot_rect co tight) mode 0]
                               ++ log2) in
        let ret2 := if retsec =? -1 then ret1 else retsec in
        manipulator_find_intersected_3d_intern visible C co tight w1
          = Ok (retsec, w2) /\
        manipulator_find_intersected_3d C co visible w =
          match BLI_findlink visible (Z.shiftr ret2 8) with
          | Some link => Ok ((Some link, Z.land ret2 255), w2)
          | None => Err NullPointer
          end.
Proof.
  intros coarse tight mode.
  split; [vm_compute; reflexivity|]. split; [apply hotspot_coarse|].
  split; [vm_compute; reflexivity|]. split; [vm_compute; reflexivity|].
  split; [vm_compute; discriminate|].
  split.
  { intros Hx Hy. split.
    - apply hotspot_rect_coarse; assumption.
    - apply hotspot_rect_tight; assumption. }
  destruct (find_intersected_3d_intern_spec visible C co coarse
              (with_log w [EvNeedsOpenGL]) Hvalid) as (ret1 & log1 & Hrun1).
  exists ret1, log1.
  assert (Hrun1' :
    manipulator_find_intersected_3d_intern visible C co coarse
      (with_log w [EvNeedsOpenGL])
    = Ok (ret1, with_log w ([EvNeedsOpenGL;
                             EvDrawSetupView (Some (hotspot_rect co coarse));
                             EvSelectBegin (hotspot_rect co coarse) mode 0]
                            ++ log1))).
  { rewrite Hrun1. do 2 f_equal. unfold with_log. cbn [heap mmap events].
    rewrite <- app_assoc. reflexivity. }
  clear Hrun1. rename Hrun1' into Hrun1.
  cbv zeta. split; [exact Hrun1|].
  assert (Hstart : manipulator_find_intersected_3d C co visible w =
    (ret1 <- manipulator_find_intersected_3d_intern visible C co coarse ;;
     if negb (ret1 =? -1) then
       retsec <- manipulator_find_intersected_3d_intern visible C co tight ;;
       let ret2 := if negb (retsec =? -1) then retsec else ret1 in
       link <- deref (BLI_findlink visible (Z.shiftr ret2 8)) ;;
       ret (Some link, Z.land ret2 255)
     else ret (None, 0)) (with_log w [EvNeedsOpenGL])) by reflexivity.
  rewrite Hstart, (bind_Ok _ _ _ _ _ Hrun1).
  destruct (ret1 =? -1) eqn:Hret1; cbn [negb].
  - reflexivity.
  - destruct (find_intersected_3d_intern_spec visible C co tight
                (with_log w ([EvNeedsOpenGL;
                              EvDrawSetupView (Some (hotspot_rect co coarse));
                              EvSelectBegin (hotspot_rect co coarse) mode 0]
                             ++ log1)) Hvalid) as (retsec & log2 & Hrun2).
    exists retsec, log2. split; [exact Hrun2|].
    rewrite (bind_Ok _ _ _ _ _ Hrun2). cbv zeta.
    destruct (retsec =? -1); cbn [negb];
      match goal with
      | |- context [BLI_findlink ?l ?n] =>
          destruct (BLI_findlink l n); reflexivity
      end.
Qed.

End Picking.

(** C4 as stated fails: the selection backend does not support passes, the
    first run (half-width 7) hits candidate 0, and the tighter run at 2.8
    pixels (the rectangle 97..102 by 47..52 around (100, 50)) is made all
    the same. *)
Lemma find_intersected_3d_refines_without_backend_passes :
  let HO := sample_host false [(0, 0, 0, 0)] rejecting_operator in
  @GPU_select_query_check_active HO = false /\
  hotspot_rect (100, 50) (float_mul (float_lit (1 # 2)) hotspot) =
    {| xmin := 93; xmax := 107; ymin := 43; ymax := 57 |} /\
  hotspot_rect (100, 50) (float_mul (float_lit (1 # 5)) hotspot) =
    {| xmin := 97; xmax := 102; ymin := 47; ymax := 52 |} /\
  exists w',
    @manipulator_find_intersected_3d sample_flags HO sample_ctx (100, 50) [1%nat]
      sample_world = Ok ((Some 1%nat, 0), w') /\
    events w' =
      [ EvNeedsOpenGL;
        EvDrawSetupView (Some {| xmin := 93; xmax := 107; ymin := 43; ymax := 57 |});
        EvSelectBegin {| xmin := 93; xmax := 107; ymin := 43; ymax := 57 |}
          GPU_SELECT_ALL 0;
        EvTypeDrawSelect 1%nat 0; EvSelectEnd; EvDrawSetupView None;
        EvDrawSetupView (Some {| xmin := 97; xmax := 102; ymin := 47; ymax := 52 |});
        EvSelectBegin {| xmin := 97; xmax := 102; ymin := 47; ymax := 52 |}
          GPU_SELECT_ALL 0;
        EvTypeDrawSelect 1%nat 0; EvSelectEnd; EvDrawSetupView None ].
Proof.
  intros HO. split; [reflexivity|]. split; [vm_compute; reflexivity|].
  split; [vm_compute; reflexivity|].
  eexists. split; vm_compute; reflexivity.
Qed.

(** The pick on the plain scene with a backend that supports passes, the
    pointer at (100, 50). *)
Lemma find_intersected_3d_two_runs_witness :
  let HO := sample_host true [(0, 0, 0, 0)] rejecting_operator in
  (forall q, q ∈ [1%nat] -> is_Some (heap sample_world !! q)) /\
  hotspot_rect (100, 50) (float_mul (float_lit (1 # 2)) hotspot) =
    {| xmin := 93; xmax := 107; ymin := 43; ymax := 57 |} /\
  hotspot_rect (100, 50) (float_mul (float_lit (1 # 5)) hotspot) =
    {| xmin := 97; xmax := 102; ymin := 47; ymax := 52 |} /\
  exists ret1 log1,
    @manipulator_find_intersected_3d_intern sample_flags HO [1%nat] sample_ctx
      (100, 50) (float_mul (float_lit (1 # 2)) hotspot)
      (with_log sample_world [EvNeedsOpenGL])
    = Ok (ret1,
          with_log sample_world
            ([EvNeedsOpenGL;
              EvDrawSetupView
                (Some (hotspot_rect (100, 50)
                         (float_mul (float_lit (1 # 2)) hotspot)));
              EvSelectBegin
                (hotspot_rect (100, 50) (float_mul (float_lit (1 # 2)) hotspot))
                GPU_SELECT_NEAREST_FIRST_PASS 0] ++ log1)).
Proof.
  intros HO.
  assert (Hvalid : forall q, q ∈ [1%nat] -> is_Some (heap sample_world !! q)).
  { intros q Hq. apply list_elem_of_singleton in Hq as ->.
    apply sample_heap_valid. lia. }
  split; [exact Hvalid|].
  destruct (@find_intersected_3d_two_runs sample_flags HO sample_ctx (100, 50)
              [1%nat] sample_world Hvalid)
    as (_ & _ & _ & _ & _ & Hrect & ret1 & log1 & Hrun & _).
  destruct (Hrect ltac:(vm_compute; discriminate) ltac:(vm_compute; discriminate))
    as [Hcoarse Htight].
  split; [exact Hcoarse|]. split; [exact Htight|].
  exists ret1, log1. exact Hrun.
Defined.

(** *** Highlight search *)

(** Whenever the group loop leaves with a non-empty list of 3D candidates,
    the search returns what the 3D pick returns, whatever the loop found. *)
Lemma highlight_find_returns_3d_pick `{FL : Flags} `{HO : Host}
    (C : bContext) (event : wmEvent) (r_part : Z) (w w1 : World)
    (mpr : option ptr) (part : Z) (v : ptr) (vs : list ptr) :
  highlight_find_groups C event (groups (mmap w)) r_part [] w
    = Ok ((mpr, part, v :: vs), w1) ->
  wm_manipulatormap_highlight_find C event r_part w
    = manipulator_find_intersected_3d C (mval event) (v :: vs) w1.
Proof.
  intros Hloop. unfold wm_manipulatormap_highlight_find.
  unfold bind at 1. unfold get_mmap at 1.
  rewrite (bind_Ok _ _ _ _ _ Hloop). reflexivity.
Qed.

(** C1, the code at a failing input: a visible 3D group with one candidate
    comes before a visible 2D group whose own test hits manipulator 2 on
    part 1.  The loop leaves with that hit, but the 3D pick that follows
    overwrites it: with an empty pick buffer the search returns no
    manipulator and part 0, and with a pick on candidate 0 it returns the 3D
    manipulator 1. *)
Theorem highlight_find_3d_pick_replaces_2d_hit :
  let HO0 := sample_host false [] rejecting_operator in
  let HO1 := sample_host false [(0, 0, 0, 0)] rejecting_operator in
  (exists w',
     @highlight_find_groups sample_flags HO0 sample_ctx sample_event
       (groups (mmap sample_world)) 0 [] sample_world
     = Ok ((Some 2%nat, 1, [1%nat]), w')) /\
  (exists w',
     @wm_manipulatormap_highlight_find sample_flags HO0 sample_ctx sample_event 0
       sample_world = Ok ((None, 0), w')) /\
  (exists w',
     @wm_manipulatormap_highlight_find sample_flags HO1 sample_ctx sample_event 0
       sample_world = Ok ((Some 1%nat, 0), w')).
Proof.
  intros HO0 HO1. repeat split; eexists; vm_compute; reflexivity.
Qed.

(** *** Highlight set *)

Section HighlightSet.
Context `{FL : Flags} `{HO : Host}.

Lemma heap_unhighlight_valid (w : World) (p : ptr) :
  is_Some (heap w !! p) -> is_Some (heap_unhighlight w !! p).
Proof.
  intros Hp. unfold heap_unhighlight.
  destruct (highlight (mmap w)) as [h|]; [|exact Hp].
  destruct (heap w !! h) eqn:Hh; [|exact Hp].
  destruct (decide (h = p)) as [->|Hne].
  - rewrite lookup_insert_eq. eauto.
  - rewrite lookup_insert_ne by exact Hne. exact Hp.
Qed.

Lemma highlight_set_same (w : World) (C : option bContext) (mpr : option ptr)
    (part : Z) :
  highlight_current w mpr part = true ->
  wm_manipulatormap_highlight_set C mpr part w = Ok (tt, w).
Proof.
  unfold highlight_current. intros H. apply andb_true_iff in H as [Heq Hpart].
  unfold wm_manipulatormap_highlight_set, bind, get_mmap.
  rewrite Heq. simpl.
  destruct mpr as [p|]; [|reflexivity].
  unfold load. destruct (heap w !! p) as [m|]; [|discriminate].
  rewrite Hpart. reflexivity.
Qed.

Lemma highlight_set_changes (w : World) (C : option bContext) (mpr : option ptr)
    (part : Z) :
  highlight_current w mpr part = false ->
  (forall h, highlight (mmap w) = Some h -> is_Some (heap w !! h)) ->
  (forall p, mpr = Some p -> is_Some (heap w !! p)) ->
  exists evs,
    wm_manipulatormap_highlight_set C mpr part w =
      Ok (tt, {| heap := heap_rehighlight w mpr part;
                 mmap := set_highlight (mmap w) mpr;
                 events := events w ++ evs |}).
Proof.
  intros Hcur Hh Hp.
  unfold wm_manipulatormap_highlight_set.
  unfold bind at 1. unfold get_mmap at 1.
  (* the test *)
  assert (Hdiff :
    (if negb (bool_decide (mpr = highlight (mmap w))) then ret true
     else match mpr with
          | Some p => m <- load p ;; ret (negb (part =? mpr_highlight_part m))
          | None => ret false
          end) w = Ok (true, w)).
  { unfold highlight_current in Hcur.
    destruct (bool_decide (mpr = highlight (mmap w))); simpl in *; [|reflexivity].
    destruct mpr as [p|]; [|discriminate].
    destruct (Hp p eq_refl) as [m Hm]. rewrite Hm in Hcur.
    unfold bind. rewrite (load_Ok _ _ _ Hm). unfold ret. rewrite Hcur. reflexivity. }
  rewrite (bind_Ok _ _ _ _ _ Hdiff).
  (* clearing the previous highlight *)
  assert (Hclear :
    match highlight (mmap w) with
    | Some h =>
        modify h (fun m => set_state m
          (Z.land (mpr_state m) (Z.lnot WM_MANIPULATOR_STATE_HIGHLIGHT))) ;;
        modify h (fun m => set_highlight_part m 0)
    | None => ret tt
    end w = Ok (tt, with_heap w (heap_unhighlight w))).
  { unfold heap_unhighlight. destruct (highlight (mmap w)) as [h|].
    - destruct (Hh h eq_refl) as [mh Hmh]. rewrite Hmh.
      unfold bind. rewrite (modify_Ok _ _ _ _ Hmh).
      erewrite modify_Ok by (simpl; apply lookup_insert_eq).
      unfold with_heap. simpl. rewrite insert_insert_eq. reflexivity.
    - unfold ret, with_heap. rewrite world_eta. reflexivity. }
  rewrite (bind_Ok _ _ _ _ _ Hclear).
  unfold bind at 1. unfold modify_mmap, bind at 1, get_mmap, put_mmap. simpl.
  set (w1 := {| heap := heap_unhighlight w; mmap := set_highlight (mmap w) mpr;
                events := events w |}).
  assert (Hredraw : logs_only
            match C with
            | Some c => emit (EvRegionTagRedraw (ctx_region c))
            | None => ret tt
            end) by (destruct C; auto with logs).
  assert (Hfinish : forall evs1,
            exists evs,
              match C with
              | Some c => emit (EvRegionTagRedraw (ctx_region c))
              | None => ret tt
              end {| heap := heap_rehighlight w mpr part;
                     mmap := set_highlight (mmap w) mpr;
                     events := events w ++ evs1 |} =
              Ok (tt, {| heap := heap_rehighlight w mpr part;
                         mmap := set_highlight (mmap w) mpr;
                         events := events w ++ evs |})).
  { intros evs1. destruct (Hredraw {| heap := heap_rehighlight w mpr part;
                                      mmap := set_highlight (mmap w) mpr;
                                      events := events w ++ evs1 |}) as [evs2 He].
    exists (evs1 ++ evs2). rewrite He. simpl. rewrite app_assoc. reflexivity. }
  assert (Hinstall : exists evs1,
    match mpr with
    | Some p =>
        modify p (fun m => set_state m
          (Z.lor (mpr_state m) WM_MANIPULATOR_STATE_HIGHLIGHT)) ;;
        modify p (fun m => set_highlight_part m part) ;;
        m <- load p ;;
        match C with
        | Some c => when (wt_cursor_get (mpr_type m))
                      (emit (EvCursorSet (ctx_window c) (type_cursor_get m)))
        | None => ret tt
        end
    | None =>
        match C with
        | Some c => emit (EvCursorSet (ctx_window c) CURSOR_STD)
        | None => ret tt
        end
    end w1 = Ok (tt, {| heap := heap_rehighlight w mpr part;
                        mmap := set_highlight (mmap w) mpr;
                        events := events w ++ evs1 |})).
  { destruct mpr as [p|].
    - destruct (heap_unhighlight_valid w p (Hp p eq_refl)) as [mp Hmp].
      assert (Hm1 : heap w1 !! p = Some mp) by exact Hmp.
      rewrite (bind_Ok _ _ _ _ _ (modify_Ok _ _ _ _ Hm1)).
      erewrite bind_Ok by (apply modify_Ok; simpl; apply lookup_insert_eq).
      erewrite bind_Ok by (apply load_Ok; simpl; apply lookup_insert_eq).
      match goal with
      | |- exists evs, ?c ?w2 = _ =>
          assert (Hc : logs_only c) by (destruct C; auto with logs);
          destruct (Hc w2) as [evs1 He]; exists evs1; rewrite He
      end.
      simpl. rewrite insert_insert_eq.
      unfold heap_rehighlight. rewrite Hmp. reflexivity.
    - match goal with
      | |- exists evs, ?c ?w2 = _ =>
          assert (Hc : logs_only c) by (destruct C; auto with logs);
          destruct (Hc w2) as [evs1 He]; exists evs1; rewrite He
      end.
      reflexivity. }
  destruct Hinstall as [evs1 Hinstall].
  rewrite (bind_Ok _ _ _ _ _ Hinstall).
  apply Hfinish.
Qed.

Lemma truthy_true (z : Z) : truthy z = true <-> z <> 0.
Proof.
  unfold truthy. destruct (Z.eqb_spec z 0); simpl; split; intros; congruence.
Qed.

(** Once the previous highlight is cleared no manipulator carries the bit. *)
Lemma heap_unhighlight_clean (w : World) (q : ptr) (m : wmManipulator) :
  highlight_inv w ->
  heap_unhighlight w !! q = Some m ->
  Z.land (mpr_state m) WM_MANIPULATOR_STATE_HIGHLIGHT = 0.
Proof.
  intros Hinv Hq.
  destruct (Z.eq_dec (Z.land (mpr_state m) WM_MANIPULATOR_STATE_HIGHLIGHT) 0)
    as [Hz|Hnz]; [exact Hz|exfalso].
  unfold heap_unhighlight in Hq.
  assert (Hraw : heap w !! q = Some m -> False).
  { intros Hw.
    assert (Hc : carries_highlight w q = true).
    { unfold carries_highlight. rewrite Hw. apply truthy_true. exact Hnz. }
    specialize (Hinv q Hc).
    rewrite Hinv in Hq. rewrite Hw in Hq. rewrite lookup_insert_eq in Hq.
    injection Hq as Hq. apply Hnz. rewrite <- Hq. simpl. apply land_clear. }
  destruct (highlight (mmap w)) as [h|] eqn:Hh; [|exact (Hraw Hq)].
  destruct (heap w !! h) as [mh|] eqn:Hmh; [|exact (Hraw Hq)].
  destruct (decide (h = q)) as [->|Hne].
  - rewrite lookup_insert_eq in Hq. injection Hq as Hq.
    apply Hnz. rewrite <- Hq. simpl. apply land_clear.
  - rewrite lookup_insert_ne in Hq by exact Hne. exact (Hraw Hq).
Qed.

(** C5: highlight-set with the manipulator and part that are already current
    changes nothing: store, map and log are the same, so no state bit moves
    and neither a cursor nor a redraw is asked for.  Otherwise the previous
    highlight loses its highlight bit and its part before the new target
    gets the bit and the part, and the slot holds the new target.  Either
    way, if only the manipulator in the slot carried the highlight bit
    before the call, the same is true after it, so at most one manipulator
    carries the bit. *)
Theorem highlight_set_single_highlight
    (w : World) (C : option bContext) (mpr : option ptr) (part : Z)
    (Hinv : highlight_inv w)
    (Hcur : forall h, highlight (mmap w) = Some h -> is_Some (heap w !! h))
    (Hnew : forall p, mpr = Some p -> is_Some (heap w !! p)) :
  exists w',
    wm_manipulatormap_highlight_set C mpr part w = Ok (tt, w') /\
    (highlight_current w mpr part = true -> w' = w) /\
    (highlight_current w mpr part = false ->
       highlight (mmap w') = mpr /\
       (forall h, highlight (mmap w) = Some h -> mpr <> Some h ->
          exists m', heap w' !! h = Some m' /\
            Z.land (mpr_state m') WM_MANIPULATOR_STATE_HIGHLIGHT = 0 /\
            mpr_highlight_part m' = 0) /\
       (forall p, mpr = Some p ->
          exists m', heap w' !! p = Some m' /\
            Z.land (mpr_state m') WM_MANIPULATOR_STATE_HIGHLIGHT
              = WM_MANIPULATOR_STATE_HIGHLIGHT /\
            mpr_highlight_part m' = part)) /\
    highlight_inv w' /\
    (forall q1 q2, carries_highlight w' q1 = true ->
                   carries_highlight w' q2 = true -> q1 = q2).
Proof.
  assert (Huniq : forall w', highlight_inv w' ->
            forall q1 q2, carries_highlight w' q1 = true ->
                          carries_highlight w' q2 = true -> q1 = q2).
  { intros w' Hi q1 q2 H1 H2. apply Hi in H1. apply Hi in H2. congruence. }
  destruct (highlight_current w mpr part) eqn:Hsame.
  - exists w. split; [apply highlight_set_same; exact Hsame|].
    split; [reflexivity|]. split; [discriminate|]. split; [exact Hinv|].
    apply Huniq. exact Hinv.
  - destruct (highlight_set_changes w C mpr part Hsame Hcur Hnew) as [evs Hrun].
    eexists. split; [exact Hrun|]. split; [discriminate|].
    assert (Hinv' : highlight_inv
              {| heap := heap_rehighlight w mpr part;
                 mmap := set_highlight (mmap w) mpr;
                 events := events w ++ evs |}).
    { intros q Hq. unfold carries_highlight in Hq. simpl in *.
      destruct (heap_rehighlight w mpr part !! q) as [m|] eqn:Hm; [|discriminate].
      apply truthy_true in Hq. unfold heap_rehighlight in Hm.
      destruct mpr as [p|].
      - destruct (decide (p = q)) as [->|Hne]; [reflexivity|exfalso].
        destruct (heap_unhighlight w !! p).
        + rewrite lookup_insert_ne in Hm by exact Hne.
          apply Hq. eapply heap_unhighlight_clean; eassumption.
        + apply Hq. eapply heap_unhighlight_clean; eassumption.
      - exfalso. apply Hq. eapply heap_unhighlight_clean; eassumption. }
    split; [|split; [exact Hinv'|apply Huniq; exact Hinv']].
    intros _. simpl. split; [reflexivity|]. split.
    + intros h Hh Hne. destruct (Hcur h Hh) as [mh Hmh].
      assert (Hun : heap_unhighlight w !! h =
                Some (set_highlight_part
                        (set_state mh (Z.land (mpr_state mh)
                           (Z.lnot WM_MANIPULATOR_STATE_HIGHLIGHT))) 0)).
      { unfold heap_unhighlight. rewrite Hh, Hmh. apply lookup_insert_eq. }
      eexists. split.
      * unfold heap_rehighlight. destruct mpr as [p|]; [|exact Hun].
        destruct (heap_unhighlight w !! p); [|exact Hun].
        rewrite lookup_insert_ne by congruence. exact Hun.
      * simpl. split; [apply land_clear|reflexivity].
    + intros p ->. destruct (heap_unhighlight_valid w p (Hnew p eq_refl)) as [mp Hmp].
      eexists. split.
      * unfold heap_rehighlight. rewrite Hmp. apply lookup_insert_eq.
      * simpl. split; [apply land_set|reflexivity].
Qed.

End HighlightSet.

(** Moving the highlight from manipulator 3 to manipulator 4. *)
Lemma highlight_set_single_highlight_witness :
  let HO := sample_host false [] rejecting_operator in
  @highlight_inv sample_flags sample_world_highlit /\
  (forall h, highlight (mmap sample_world_highlit) = Some h ->
             is_Some (heap sample_world_highlit !! h)) /\
  (forall p, Some 4%nat = Some p -> is_Some (heap sample_world_highlit !! p)) /\
  exists w',
    @wm_manipulatormap_highlight_set sample_flags HO (Some sample_ctx)
      (Some 4%nat) 2 sample_world_highlit = Ok (tt, w') /\
    highlight (mmap w') = Some 4%nat /\
    @highlight_inv sample_flags w'.
Proof.
  intros HO.
  assert (H3 : forall h, highlight (mmap sample_world_highlit) = Some h ->
                         is_Some (heap sample_world_highlit !! h)).
  { intros h Hh. simpl in Hh. injection Hh as <-. eexists. simpl.
    apply lookup_insert_eq. }
  assert (H4 : forall p, Some 4%nat = Some p ->
                         is_Some (heap sample_world_highlit !! p)).
  { intros p Hp. injection Hp as <-. eexists. vm_compute. reflexivity. }
  split; [exact sample_world_highlit_inv|]. split; [exact H3|]. split; [exact H4|].
  destruct (@highlight_set_single_highlight sample_flags HO sample_world_highlit
              (Some sample_ctx) (Some 4%nat) 2 sample_world_highlit_inv H3 H4)
    as (w' & Hrun & _ & Hchg & Hinv' & _).
  exists w'. split; [exact Hrun|].
  split; [apply Hchg; vm_compute; reflexivity|exact Hinv'].
Defined.

(** *** The hash of selectable manipulators *)

Section Selection.
Context `{FL : Flags} `{HO : Host}.

Lemma hash_new_flatten (C : bContext) poll hidden (gs : list wmManipulatorGroup)
    (acc : list (string * ptr)) (w : World) :
  foldM (hash_new_group C poll hidden) acc gs w =
  foldM (hash_new_manipulator poll hidden) acc
        (flat_map (fun g => if polled C g then mg_manipulators g else []) gs) w.
Proof.
  revert acc w. induction gs as [|g gs IH]; intros acc w; simpl.
  - reflexivity.
  - rewrite foldM_app. unfold hash_new_group at 1. fold (polled C g).
    destruct (polled C g).
    + apply bind_ext. intros a w'. apply IH.
    + simpl. unfold bind, ret. apply IH.
Qed.

Lemma hash_loop_spec (ps : list ptr) (acc : list (string * ptr)) (w : World) :
  Forall (fun p => is_Some (heap w !! p)) ps ->
  foldM (hash_new_manipulator (Some manipulator_selectable_poll) true) acc ps w
  = Ok (acc ++ flat_map (hash_entry (heap w)) ps, w).
Proof.
  revert acc. induction ps as [|p ps IH]; intros acc Hv; simpl.
  - rewrite app_nil_r. reflexivity.
  - inversion Hv as [|? ? [m Hm] Hv']; subst.
    unfold hash_new_manipulator at 1.
    unfold bind at 1. unfold bind at 1. rewrite (load_Ok _ _ _ Hm). simpl.
    unfold hash_entry at 1. rewrite Hm.
    destruct (manipulator_selectable_poll m); unfold ret.
    + rewrite IH by exact Hv'. unfold BLI_ghash_insert.
      rewrite <- app_assoc. reflexivity.
    + rewrite IH by exact Hv'. reflexivity.
Qed.

Lemma hash_loop_valid (ps : list ptr) (acc l : list (string * ptr)) (w w' : World) :
  foldM (hash_new_manipulator (Some manipulator_selectable_poll) true) acc ps w
  = Ok (l, w') ->
  Forall (fun p => is_Some (heap w !! p)) ps.
Proof.
  revert acc w. induction ps as [|p ps IH]; intros acc w H; simpl in H.
  - constructor.
  - apply bind_inv in H as (acc' & w1 & Hstep & Hrest).
    unfold hash_new_manipulator in Hstep.
    apply bind_inv in Hstep as (m & w2 & Hl & Hstep).
    apply load_inv in Hl as [-> Hl].
    assert (w1 = w) as ->.
    { destruct (_ && _) in Hstep; unfold ret in Hstep; congruence. }
    constructor; [eauto|]. eapply IH. exact Hrest.
Qed.

Lemma hash_new_spec (C : bContext) (w : World) :
  Forall (fun p => is_Some (heap w !! p)) (polled_manipulators C (mmap w)) ->
  WM_manipulatormap_manipulator_hash_new C (Some manipulator_selectable_poll) true w
  = Ok (selectable_entries C w, w).
Proof.
  intros Hv. unfold WM_manipulatormap_manipulator_hash_new.
  unfold bind, get_mmap. rewrite hash_new_flatten.
  apply (hash_loop_spec _ [] w Hv).
Qed.

Lemma hash_new_inv (C : bContext) (w w' : World) (l : list (string * ptr)) :
  WM_manipulatormap_manipulator_hash_new C (Some manipulator_selectable_poll) true w
  = Ok (l, w') ->
  Forall (fun p => is_Some (heap w !! p)) (polled_manipulators C (mmap w)) /\
  l = selectable_entries C w /\ w' = w.
Proof.
  intros H.
  assert (Hv : Forall (fun p => is_Some (heap w !! p))
                      (polled_manipulators C (mmap w))).
  { unfold WM_manipulatormap_manipulator_hash_new in H.
    unfold bind, get_mmap in H. rewrite hash_new_flatten in H.
    eapply hash_loop_valid. exact H. }
  split; [exact Hv|].
  rewrite (hash_new_spec C w Hv) in H. injection H as <- <-. split; reflexivity.
Qed.

Lemma keeps_selected_refl h : keeps_selected h h.
Proof. intros q. destruct (h !! q); auto. Qed.

Lemma keeps_selected_trans h1 h2 h3 :
  keeps_selected h1 h2 -> keeps_selected h2 h3 -> keeps_selected h1 h3.
Proof.
  intros H12 H23 q. specialize (H12 q). specialize (H23 q).
  destruct (h1 !! q), (h2 !! q), (h3 !! q); try contradiction; auto.
  destruct H12 as (? & ? & ? & ?), H23 as (? & ? & ? & ?).
  repeat split; try congruence. auto.
Qed.

Lemma keeps_selected_insert h p m m' :
  h !! p = Some m ->
  mpr_name m = mpr_name m' -> mpr_parent_type m = mpr_parent_type m' ->
  mpr_type m = mpr_type m' ->
  (Z.land (mpr_state m) WM_MANIPULATOR_STATE_SELECT = WM_MANIPULATOR_STATE_SELECT ->
   Z.land (mpr_state m') WM_MANIPULATOR_STATE_SELECT = WM_MANIPULATOR_STATE_SELECT) ->
  keeps_selected h (<[p := m']> h).
Proof.
  intros Hp H1 H2 H3 H4 q. destruct (decide (p = q)) as [->|Hne].
  - rewrite lookup_insert_eq, Hp. auto.
  - rewrite lookup_insert_ne by exact Hne. destruct (h !! q); auto.
Qed.

Lemma keeps_selected_marked h h' p :
  keeps_selected h h' -> select_marked h p -> select_marked h' p.
Proof.
  intros Hk (m & Hm & Hs). specialize (Hk p). rewrite Hm in Hk.
  destruct (h' !! p) as [m'|] eqn:Hm'; [|contradiction].
  exists m'. split; [exact Hm'|]. apply Hk. exact Hs.
Qed.

Lemma keeps_selected_valid h h' p :
  keeps_selected h h' -> is_Some (h !! p) -> is_Some (h' !! p).
Proof.
  intros Hk [m Hm]. specialize (Hk p). rewrite Hm in Hk.
  destruct (h' !! p); [eauto|contradiction].
Qed.

Lemma keeps_selected_entry h h' p :
  keeps_selected h h' -> hash_entry h' p = hash_entry h p.
Proof.
  intros Hk. specialize (Hk p). unfold hash_entry.
  destruct (h !! p) as [m|], (h' !! p) as [m'|]; try contradiction; [|reflexivity].
  destruct Hk as (Hn & Ht & _). unfold manipulator_selectable_poll.
  rewrite Hn, Ht. reflexivity.
Qed.

Lemma keeps_selected_entries (C : bContext) (w w' : World) :
  keeps_selected (heap w) (heap w') -> groups (mmap w') = groups (mmap w) ->
  selectable_entries C w' = selectable_entries C w.
Proof.
  intros Hk Hg. unfold selectable_entries, polled_manipulators. rewrite Hg.
  induction (flat_map _ (groups (mmap w))) as [|p ps IH]; simpl; [reflexivity|].
  rewrite (keeps_selected_entry _ _ p Hk), IH. reflexivity.
Qed.

(** *** Select all: one round of the loop *)

Lemma sel_write_Ok (i : nat) (v : option ptr) (w : World) arr :
  selected (mmap w) = Some arr -> (i < length arr)%nat ->
  sel_write i v w =
    Ok (tt, {| heap := heap w;
               mmap := set_selected (mmap w) (Some (<[i := v]> arr));
               events := events w |}).
Proof.
  intros Hs Hi. unfold sel_write, bind, get_mmap. rewrite Hs.
  rewrite bool_decide_eq_true_2 by exact Hi. reflexivity.
Qed.

Lemma sel_write_inv (i : nat) (v : option ptr) (w w' : World) u :
  sel_write i v w = Ok (u, w') ->
  exists arr, selected (mmap w) = Some arr /\ (i < length arr)%nat /\
    w' = {| heap := heap w;
            mmap := set_selected (mmap w) (Some (<[i := v]> arr));
            events := events w |}.
Proof.
  unfold sel_write, bind, get_mmap.
  destruct (selected (mmap w)) as [arr|]; [|discriminate].
  destruct (bool_decide (i < length arr)%nat) eqn:Hi; [|discriminate].
  apply bool_decide_eq_true_1 in Hi.
  unfold put_mmap. intros H. injection H as _ <-.
  exists arr. repeat split. exact Hi.
Qed.

Lemma sel_read_Ok (i : nat) (w : World) arr slot :
  selected (mmap w) = Some arr -> arr !! i = Some slot ->
  sel_read i w = Ok (slot, w).
Proof.
  intros Hs Hi. unfold sel_read, bind, get_mmap. rewrite Hs, Hi. reflexivity.
Qed.

Lemma sel_read_inv (i : nat) (w w' : World) slot :
  sel_read i w = Ok (slot, w') ->
  exists arr, selected (mmap w) = Some arr /\ arr !! i = Some slot /\ w' = w.
Proof.
  unfold sel_read, bind, get_mmap.
  destruct (selected (mmap w)) as [arr|]; [|discriminate].
  destruct (arr !! i) as [s|] eqn:Hi; [|discriminate].
  unfold ret. intros H. injection H as <- <-. exists arr. repeat split. exact Hi.
Qed.

Lemma select_step_Ok (action : sel_action) (i : nat) (ch : bool)
    (e : string * ptr) (w : World) m arr :
  heap w !! snd e = Some m ->
  selected (mmap w) = Some arr -> (i < length arr)%nat ->
  select_all_step action (i, ch) e w =
    Ok ((S i, if Z.land (mpr_state m) WM_MANIPULATOR_STATE_SELECT =? 0
              then true else ch),
        select_step_world action w i (snd e) m arr).
Proof.
  intros Hm Hs Hi. unfold select_all_step. simpl.
  rewrite (bind_Ok _ _ _ _ _ (load_Ok _ _ _ Hm)).
  rewrite (bind_Ok _ _ _ _ _ (modify_Ok _ _ _ _ Hm)).
  unfold select_step_world.
  destruct (wt_select (mpr_type m)); simpl.
  - unfold bind at 1. unfold emit at 1.
    erewrite bind_Ok by (apply sel_write_Ok; [exact Hs|exact Hi]).
    reflexivity.
  - unfold bind at 1. unfold ret at 1.
    erewrite bind_Ok by (apply sel_write_Ok; [exact Hs|exact Hi]).
    unfold ret. simpl. rewrite app_nil_r. reflexivity.
Qed.

Lemma select_step_inv (action : sel_action) (i : nat) (ch : bool)
    (e : string * ptr) (w w' : World) st :
  select_all_step action (i, ch) e w = Ok (st, w') ->
  exists m arr,
    heap w !! snd e = Some m /\
    selected (mmap w) = Some arr /\ (i < length arr)%nat /\
    st = (S i, if Z.land (mpr_state m) WM_MANIPULATOR_STATE_SELECT =? 0
               then true else ch) /\
    w' = select_step_world action w i (snd e) m arr.
Proof.
  intros H.
  assert (Hm : exists m, heap w !! snd e = Some m).
  { unfold select_all_step in H. apply bind_inv in H as (m & w1 & Hl & _).
    apply load_inv in Hl as [_ Hl]. eauto. }
  destruct Hm as [m Hm].
  assert (Hs : exists arr, selected (mmap w) = Some arr /\ (i < length arr)%nat).
  { unfold select_all_step in H. simpl in H.
    rewrite (bind_Ok _ _ _ _ _ (load_Ok _ _ _ Hm)) in H.
    rewrite (bind_Ok _ _ _ _ _ (modify_Ok _ _ _ _ Hm)) in H.
    apply bind_inv in H as (u1 & w1 & Hw & H).
    apply bind_inv in H as (u2 & w2 & Hsw & _).
    apply sel_write_inv in Hsw as (arr & Hsel & Hi & _).
    exists arr. split; [|exact Hi].
    destruct (wt_select (mpr_type m)); simpl in Hw.
    - unfold emit in Hw. injection Hw as _ <-. exact Hsel.
    - unfold ret in Hw. injection Hw as _ <-. exact Hsel. }
  destruct Hs as (arr & Hs & Hi).
  rewrite (select_step_Ok action i ch e w m arr Hm Hs Hi) in H.
  injection H as <- <-. exists m, arr. repeat split; assumption.
Qed.

(** *** Select all: the loop *)

Lemma set_selected_same (mm : wmManipulatorMap) arr :
  selected mm = Some arr -> set_selected mm (Some arr) = mm.
Proof. intros H. unfold set_selected. rewrite <- H. apply mmap_eta. Qed.

Lemma take_insert_here {A} (l : list A) (i : nat) (x : A) :
  (i < length l)%nat -> take (S i) (<[i := x]> l) = take i l ++ [x].
Proof.
  intros Hi.
  rewrite (take_S_r _ _ x) by (apply list_lookup_insert_eq; exact Hi).
  rewrite take_insert_ge by lia. reflexivity.
Qed.

Lemma select_loop_inv (action : sel_action) (es : list (string * ptr)) :
  forall (i : nat) (ch : bool) (w w' : World) st arr,
    foldM (select_all_step action) (i, ch) es w = Ok (st, w') ->
    selected (mmap w) = Some arr ->
    (i <= length arr)%nat ->
    (i + length es <= length arr)%nat /\
    fst st = (i + length es)%nat /\
    mmap w' = set_selected (mmap w)
                (Some (take i arr ++ fmap (fun e => Some (snd e)) es
                       ++ drop (i + length es) arr)) /\
    keeps_selected (heap w) (heap w') /\
    Forall (fun e => select_marked (heap w') (snd e)) es.
Proof.
  induction es as [|e es IH]; intros i ch w w' st arr Hrun Hsel Hi.
  - simpl in Hrun. unfold ret in Hrun. injection Hrun as <- <-. simpl.
    rewrite Nat.add_0_r. split; [exact Hi|]. split; [reflexivity|].
    split; [rewrite take_drop; symmetry; apply set_selected_same; exact Hsel|].
    split; [apply keeps_selected_refl|constructor].
  - simpl in Hrun. apply bind_inv in Hrun as (st1 & w1 & Hstep & Hrest).
    apply select_step_inv in Hstep as (m & arr0 & Hm & Hsel0 & Hlt & -> & ->).
    rewrite Hsel in Hsel0. injection Hsel0 as <-.
    specialize (IH (S i) _ _ w' st (<[i := Some (snd e)]> arr) Hrest eq_refl).
    rewrite length_insert in IH.
    destruct (IH ltac:(lia)) as (Hle & Hst & Hmm & Hk & Hall).
    simpl. split; [lia|]. split; [rewrite Hst; lia|].
    assert (Hk1 : keeps_selected (heap w)
              (<[snd e := set_state m
                   (Z.lor (mpr_state m) WM_MANIPULATOR_STATE_SELECT)]> (heap w))).
    { apply (keeps_selected_insert _ _ m); try reflexivity; [exact Hm|].
      intros _. simpl. apply land_set. }
    split; [|split].
    + rewrite Hmm. simpl. unfold set_selected. simpl. do 2 f_equal.
      rewrite take_insert_here by exact Hlt.
      rewrite drop_insert_lt by lia.
      rewrite <- app_assoc. simpl.
      replace (i + S (length es))%nat with (S (i + length es)) by lia.
      reflexivity.
    + eapply keeps_selected_trans; [exact Hk1|exact Hk].
    + constructor; [|exact Hall].
      apply (keeps_selected_marked _ _ _ Hk).
      eexists. split; [simpl; apply lookup_insert_eq|]. simpl. apply land_set.
Qed.

(** The loop run again on a world in which every entry is already marked
    and already sits in its slot: nothing but the log changes and no
    selection bit is reported as newly set. *)
Lemma select_loop_again (action : sel_action) (es : list (string * ptr)) :
  forall (i : nat) (w : World) arr,
    WM_MANIPULATOR_STATE_SELECT <> 0 ->
    selected (mmap w) = Some arr ->
    (forall j e, es !! j = Some e -> arr !! (i + j)%nat = Some (Some (snd e))) ->
    Forall (fun e => select_marked (heap w) (snd e)) es ->
    exists evs,
      foldM (select_all_step action) (i, false) es w =
        Ok (((i + length es)%nat, false),
            {| heap := heap w; mmap := mmap w; events := events w ++ evs |}).
Proof.
  induction es as [|e es IH]; intros i w arr Hnz Hsel Hslots Hmarked.
  - exists []. simpl. unfold ret. rewrite Nat.add_0_r, app_nil_r, world_eta.
    reflexivity.
  - inversion Hmarked as [|? ? (m & Hm & Hbits) Hmarked']; subst.
    assert (Hslot : arr !! i = Some (Some (snd e))).
    { specialize (Hslots 0%nat e eq_refl). rewrite Nat.add_0_r in Hslots.
      exact Hslots. }
    assert (Hlt : (i < length arr)%nat).
    { apply lookup_lt_is_Some. eauto. }
    simpl.
    rewrite (bind_Ok _ _ _ _ _ (select_step_Ok action i false e w m arr Hm Hsel Hlt)).
    assert (Hnoch : (if Z.land (mpr_state m) WM_MANIPULATOR_STATE_SELECT =? 0
                     then true else false) = false).
    { rewrite Hbits. destruct (Z.eqb_spec WM_MANIPULATOR_STATE_SELECT 0);
        [contradiction|reflexivity]. }
    rewrite Hnoch.
    assert (Hw1 : select_step_world action w i (snd e) m arr =
              {| heap := heap w; mmap := mmap w;
                 events := events w ++
                   (if wt_select (mpr_type m) then [EvTypeSelect (snd e) action]
                    else []) |}).
    { unfold select_step_world. f_equal.
      - apply insert_id. rewrite Hm. f_equal.
        unfold set_state. rewrite (lor_absorb _ _ Hbits). apply eq_sym, mpr_eta.
      - rewrite list_insert_id by exact Hslot. apply set_selected_same. exact Hsel. }
    rewrite Hw1.
    match goal with
    | |- exists evs, foldM _ _ _ ?w1 = _ =>
        destruct (IH (S i) w1 arr Hnz) as [evs Hevs]
    end.
    + simpl. exact Hsel.
    + intros j e' Hj. specialize (Hslots (S j) e' Hj).
      replace (S i + j)%nat with (i + S j)%nat by lia. exact Hslots.
    + simpl. exact Hmarked'.
    + eexists. rewrite Hevs. simpl. rewrite <- app_assoc.
      replace (S (i + length es)) with (i + S (length es))%nat by lia.
      reflexivity.
Qed.

Lemma modify_Err p f w : heap w !! p = None -> modify p f w = Err (InvalidPointer p).
Proof. intros H. unfold modify, bind, load. rewrite H. reflexivity. Qed.

Lemma bind_Err {A B} (m : M A) (f : A -> M B) w e :
  m w = Err e -> bind m f w = Err e.
Proof. intros H. unfold bind. rewrite H. reflexivity. Qed.

(** A highlight-set that returns has dereferenced only allocated
    manipulators. *)
Lemma highlight_set_Ok_valid (C : option bContext) (mpr : option ptr) (part : Z)
    (w : World) r :
  wm_manipulatormap_highlight_set C mpr part w = Ok r ->
  (forall h, highlight (mmap w) = Some h -> is_Some (heap w !! h)) /\
  (forall p, mpr = Some p -> is_Some (heap w !! p)).
Proof.
  intros H. split.
  - intros h Hh. destruct (heap w !! h) as [mh|] eqn:Hmh; [eauto|exfalso].
    unfold wm_manipulatormap_highlight_set in H.
    unfold bind at 1 in H. unfold get_mmap at 1 in H. rewrite Hh in H.
    destruct (decide (mpr = Some h)) as [->|Hne].
    + rewrite bool_decide_eq_true_2 in H by reflexivity. simpl in H.
      rewrite (bind_Err _ _ _ (InvalidPointer h)) in H; [discriminate|].
      apply bind_Err. unfold load. rewrite Hmh. reflexivity.
    + rewrite bool_decide_eq_false_2 in H by exact Hne. simpl in H.
      unfold bind at 1 in H. unfold ret at 1 in H.
      rewrite (bind_Err _ _ _ (InvalidPointer h)) in H; [discriminate|].
      apply bind_Err. apply modify_Err. exact Hmh.
  - intros p ->. destruct (heap w !! p) as [mp|] eqn:Hmp; [eauto|exfalso].
    unfold wm_manipulatormap_highlight_set in H.
    unfold bind at 1 in H. unfold get_mmap at 1 in H.
    destruct (decide (Some p = highlight (mmap w))) as [Heq|Hne].
    + rewrite bool_decide_eq_true_2 in H by exact Heq. simpl in H.
      rewrite (bind_Err _ _ _ (InvalidPointer p)) in H; [discriminate|].
      apply bind_Err. unfold load. rewrite Hmp. reflexivity.
    + rewrite bool_decide_eq_false_2 in H by exact Hne. simpl in H.
      unfold bind at 1 in H. unfold ret at 1 in H.
      apply bind_inv in H as (u1 & w1 & Hclear & H).
      assert (Hw1 : heap w1 !! p = None).
      { destruct (highlight (mmap w)) as [h|].
        - apply bind_inv in Hclear as (u2 & w2 & Hc1 & Hc2).
          apply modify_inv in Hc1 as (m1 & Hm1 & ->).
          apply modify_inv in Hc2 as (m2 & Hm2 & ->). simpl.
          assert (h <> p) by congruence.
          rewrite !lookup_insert_ne by assumption. exact Hmp.
        - unfold ret in Hclear. injection Hclear as _ <-. exact Hmp. }
      apply bind_inv in H as (u3 & w3 & Hset & H).
      unfold modify_mmap, bind, get_mmap, put_mmap in Hset.
      injection Hset as _ <-.
      rewrite (bind_Err _ _ _ (InvalidPointer p)) in H; [discriminate|].
      apply bind_Err. apply modify_Err. simpl. exact Hw1.
Qed.

(** What a highlight-set that returns leaves behind, as far as selection is
    concerned. *)
Lemma highlight_set_keeps_selection (C : option bContext) (p : ptr) (part : Z)
    (w w' : World) u :
  Z.land WM_MANIPULATOR_STATE_HIGHLIGHT WM_MANIPULATOR_STATE_SELECT = 0 ->
  wm_manipulatormap_highlight_set C (Some p) part w = Ok (u, w') ->
  mmap w' = set_highlight (mmap w) (Some p) /\
  keeps_selected (heap w) (heap w') /\
  exists m', heap w' !! p = Some m' /\
    (highlight_current w (Some p) part = false -> mpr_highlight_part m' = part).
Proof.
  intros Hdisj Hrun.
  destruct (highlight_set_Ok_valid _ _ _ _ _ Hrun) as [Hcur Hnew].
  destruct (highlight_current w (Some p) part) eqn:Hsame.
  - rewrite (highlight_set_same _ _ _ _ Hsame) in Hrun. injection Hrun as _ <-.
    unfold highlight_current in Hsame. apply andb_true_iff in Hsame as [Heq _].
    apply bool_decide_eq_true_1 in Heq.
    split; [|split; [apply keeps_selected_refl|]].
    + unfold set_highlight. rewrite Heq. symmetry. apply mmap_eta.
    + destruct (Hnew p eq_refl) as [m Hm]. exists m. split; [exact Hm|discriminate].
  - destruct (highlight_set_changes w C (Some p) part Hsame Hcur Hnew) as [evs Hch].
    rewrite Hch in Hrun. injection Hrun as _ <-. simpl.
    split; [reflexivity|].
    assert (Hk1 : keeps_selected (heap w) (heap_unhighlight w)).
    { unfold heap_unhighlight. destruct (highlight (mmap w)) as [h|];
        [|apply keeps_selected_refl].
      destruct (heap w !! h) as [mh|] eqn:Hmh; [|apply keeps_selected_refl].
      apply (keeps_selected_insert _ _ mh); try reflexivity; [exact Hmh|].
      simpl. rewrite (land_clear_other _ _ _ Hdisj). auto. }
    destruct (heap_unhighlight_valid w p (Hnew p eq_refl)) as [mp Hmp].
    unfold heap_rehighlight. rewrite Hmp. split.
    + eapply keeps_selected_trans; [exact Hk1|].
      apply (keeps_selected_insert _ _ mp); try reflexivity; [exact Hmp|].
      simpl. rewrite (land_set_other _ _ _ Hdisj). auto.
    + eexists. split; [apply lookup_insert_eq|]. intros _. reflexivity.
Qed.

(** *** Select all: the whole call *)

Lemma modify_mmap_Ok (f : wmManipulatorMap -> wmManipulatorMap) (w : World) :
  modify_mmap f w = Ok (tt, {| heap := heap w; mmap := f (mmap w);
                               events := events w |}).
Proof. reflexivity. Qed.

Lemma set_selected_len_same (mm : wmManipulatorMap) n :
  selected_len mm = n -> set_selected_len mm n = mm.
Proof. intros H. unfold set_selected_len. rewrite <- H. apply mmap_eta. Qed.

(** What a select-all that returned has set up. *)
Lemma select_all_intern_inv (C : bContext) (action : sel_action)
    (w w1 : World) (b : bool) :
  (forall l, ghash_iter_order l ≡ₚ l) ->
  Z.land WM_MANIPULATOR_STATE_HIGHLIGHT WM_MANIPULATOR_STATE_SELECT = 0 ->
  wm_manipulatormap_select_all_intern C action w = Ok (b, w1) ->
  exists e0 es',
    ghash_iter_order (selectable_entries C w) = e0 :: es' /\
    Forall (fun p => is_Some (heap w !! p)) (polled_manipulators C (mmap w)) /\
    mmap w1 =
      set_highlight
        (set_selected
           (set_selected_len (mmap w) (Z.of_nat (length (e0 :: es'))))
           (Some (fmap (fun e => Some (snd e)) (e0 :: es'))))
        (Some (snd e0)) /\
    keeps_selected (heap w) (heap w1) /\
    Forall (fun e => select_marked (heap w1) (snd e)) (e0 :: es').
Proof.
  intros Hperm Hdisj Hrun. unfold wm_manipulatormap_select_all_intern in Hrun.
  apply bind_inv in Hrun as (hash & w0 & Hhash & Hrun).
  apply hash_new_inv in Hhash as (Hvalid & -> & ->).
  set (hash := selectable_entries C w) in *.
  set (es := ghash_iter_order hash) in *.
  assert (Hlen : length es = length hash) by (apply Permutation_length, Hperm).
  rewrite (bind_Ok _ _ _ _ _ (modify_mmap_Ok _ _)) in Hrun.
  unfold sel_realloc in Hrun.
  rewrite (bind_Ok _ _ _ _ _ (modify_mmap_Ok _ _)) in Hrun. simpl in Hrun.
  apply bind_inv in Hrun as (st & wl & Hloop & Hrun).
  set (arr := resize (length hash) None (default [] (selected (mmap w)))) in *.
  assert (Harr : length arr = length hash) by apply length_resize.
  destruct (select_loop_inv action es 0 false _ wl st arr Hloop eq_refl
              ltac:(lia)) as (_ & _ & Hmm & Hk & Hmarked).
  simpl in Hmm, Hk.
  rewrite drop_ge, app_nil_r in Hmm by lia.
  apply bind_inv in Hrun as (s0 & w2 & Hread & Hrun).
  apply sel_read_inv in Hread as (arr' & Hsel' & Hs0 & ->).
  rewrite Hmm in Hsel'. simpl in Hsel'. injection Hsel' as <-.
  destruct es as [|e0 es'] eqn:Hes; [discriminate|].
  simpl in Hs0. injection Hs0 as <-.
  apply bind_inv in Hrun as (p0 & w3 & Hderef & Hrun).
  unfold deref, ret in Hderef. injection Hderef as <- <-.
  apply bind_inv in Hrun as (m0 & w4 & Hload & Hrun).
  apply load_inv in Hload as [-> Hm0].
  apply bind_inv in Hrun as (u & wc & Hhl & Hrun).
  unfold ret in Hrun. injection Hrun as _ <-.
  destruct (highlight_set_keeps_selection _ _ _ _ _ _ Hdisj Hhl)
    as (Hmmc & Hkc & _).
  exists e0, es'. split; [reflexivity|]. split; [exact Hvalid|].
  split; [|split].
  - rewrite Hmmc, Hmm, <- Hlen. reflexivity.
  - eapply keeps_selected_trans; [exact Hk|exact Hkc].
  - revert Hmarked. apply Forall_impl.
    intros e He. eapply keeps_selected_marked; eassumption.
Qed.

(** Select-all on a world that a select-all has just set up. *)
Lemma select_all_intern_again (C : bContext) (action : sel_action) (w1 : World)
    (e0 : string * ptr) (es' : list (string * ptr)) :
  (forall l, ghash_iter_order l ≡ₚ l) ->
  WM_MANIPULATOR_STATE_SELECT <> 0 ->
  ghash_iter_order (selectable_entries C w1) = e0 :: es' ->
  Forall (fun p => is_Some (heap w1 !! p)) (polled_manipulators C (mmap w1)) ->
  selected (mmap w1) = Some (fmap (fun e => Some (snd e)) (e0 :: es')) ->
  selected_len (mmap w1) = Z.of_nat (length (e0 :: es')) ->
  highlight (mmap w1) = Some (snd e0) ->
  Forall (fun e => select_marked (heap w1) (snd e)) (e0 :: es') ->
  exists evs,
    wm_manipulatormap_select_all_intern C action w1 =
      Ok (false, {| heap := heap w1; mmap := mmap w1; events := events w1 ++ evs |}).
Proof.
  intros Hperm Hnz Hes Hvalid Hsel Hlen Hhl Hmarked.
  unfold wm_manipulatormap_select_all_intern.
  rewrite (bind_Ok _ _ _ _ _ (hash_new_spec C w1 Hvalid)).
  assert (Hl : length (selectable_entries C w1) = length (e0 :: es')).
  { rewrite <- Hes. symmetry. apply Permutation_length, Hperm. }
  rewrite (bind_Ok _ _ _ _ _ (modify_mmap_Ok _ _)).
  unfold sel_realloc.
  rewrite (bind_Ok _ _ _ _ _ (modify_mmap_Ok _ _)).
  cbn [heap mmap events]. rewrite Hl, Hes.
  assert (Hw :
    {| heap := heap w1;
       mmap := set_selected
                 (set_selected_len (mmap w1) (Z.of_nat (length (e0 :: es'))))
                 (Some (resize (length (e0 :: es')) None
                          (default []
                             (selected
                                (set_selected_len (mmap w1)
                                   (Z.of_nat (length (e0 :: es'))))))));
       events := events w1 |} = w1).
  { rewrite (set_selected_len_same _ _ Hlen), Hsel. cbn [default from_option id].
    rewrite resize_all_alt by (rewrite length_fmap; reflexivity).
    rewrite (set_selected_same _ _ Hsel). apply world_eta. }
  rewrite Hw. clear Hw.
  destruct (select_loop_again action (e0 :: es') 0 w1 _ Hnz Hsel) as [evs Hloop].
  { intros j e Hj. change (0 + j)%nat with j.
    rewrite list_lookup_fmap, Hj. reflexivity. }
  { exact Hmarked. }
  rewrite (bind_Ok _ _ _ _ _ Hloop).
  set (w2 := {| heap := heap w1; mmap := mmap w1; events := events w1 ++ evs |}).
  assert (Hread : sel_read 0 w2 = Ok (Some (snd e0), w2)).
  { apply (sel_read_Ok 0 w2 _ _ Hsel). reflexivity. }
  rewrite (bind_Ok _ _ _ _ _ Hread). unfold deref.
  unfold bind at 1. unfold ret at 1.
  inversion Hmarked as [|? ? (m0 & Hm0 & _) _]; subst.
  assert (Hload : load (snd e0) w2 = Ok (m0, w2)) by (apply load_Ok; exact Hm0).
  rewrite (bind_Ok _ _ _ _ _ Hload).
  assert (Hsame : highlight_current w2 (Some (snd e0)) (mpr_highlight_part m0) = true).
  { unfold highlight_current. simpl. rewrite Hhl, Hm0, Z.eqb_refl.
    rewrite bool_decide_eq_true_2 by reflexivity. reflexivity. }
  rewrite (bind_Ok _ _ _ _ _ (highlight_set_same w2 _ _ _ Hsame)).
  exists evs. reflexivity.
Qed.

Lemma select_all_select_inv (C : bContext) (w w1 : World) (b : bool) :
  WM_manipulatormap_select_all C SEL_SELECT w = Ok (b, w1) ->
  exists wi,
    wm_manipulatormap_select_all_intern C SEL_SELECT w = Ok (b, wi) /\
    heap w1 = heap wi /\ mmap w1 = mmap wi.
Proof.
  unfold WM_manipulatormap_select_all. intros H.
  apply bind_inv in H as (b' & wi & Hi & H).
  apply bind_inv in H as (u & w2 & Hw & H).
  unfold ret in H. injection H as <- <-.
  exists wi. split; [exact Hi|].
  destruct b'; simpl in Hw.
  - unfold emit in Hw. injection Hw as _ <-. split; reflexivity.
  - unfold ret in Hw. injection Hw as _ <-. split; reflexivity.
Qed.

(** C7: directly after a select-all(SELECT) that returned, a second
    select-all(SELECT) returns false, and leaves the selected array, the
    selected count, the rest of the map and every manipulator as the first
    call left them. *)
Theorem select_all_select_twice (C : bContext) (w w1 : World) (b : bool)
    (Hperm : forall l, ghash_iter_order l ≡ₚ l)
    (Hnz : WM_MANIPULATOR_STATE_SELECT <> 0)
    (Hdisj : Z.land WM_MANIPULATOR_STATE_HIGHLIGHT WM_MANIPULATOR_STATE_SELECT = 0)
    (Hfirst : WM_manipulatormap_select_all C SEL_SELECT w = Ok (b, w1)) :
  exists w2,
    WM_manipulatormap_select_all C SEL_SELECT w1 = Ok (false, w2) /\
    selected (mmap w2) = selected (mmap w1) /\
    selected_len (mmap w2) = selected_len (mmap w1) /\
    mmap w2 = mmap w1 /\
    heap w2 = heap w1.
Proof.
  apply select_all_select_inv in Hfirst as (wi & Hi & Hh & Hm).
  destruct (select_all_intern_inv C SEL_SELECT w wi b Hperm Hdisj Hi)
    as (e0 & es' & Hes & Hvalid & Hmm & Hk & Hmarked).
  rewrite <- Hh in Hk, Hmarked. rewrite <- Hm in Hmm.
  assert (Hg : groups (mmap w1) = groups (mmap w)) by (rewrite Hmm; reflexivity).
  assert (Hes1 : ghash_iter_order (selectable_entries C w1) = e0 :: es').
  { rewrite (keeps_selected_entries C w w1 Hk Hg). exact Hes. }
  assert (Hvalid1 : Forall (fun p => is_Some (heap w1 !! p))
                           (polled_manipulators C (mmap w1))).
  { unfold polled_manipulators in *. rewrite Hg. revert Hvalid.
    apply Forall_impl. intros p Hp. eapply keeps_selected_valid; eassumption. }
  destruct (select_all_intern_again C SEL_SELECT w1 e0 es' Hperm Hnz Hes1 Hvalid1)
    as [evs Hagain].
  - rewrite Hmm. reflexivity.
  - rewrite Hmm. reflexivity.
  - rewrite Hmm. reflexivity.
  - exact Hmarked.
  - eexists. split.
    + unfold WM_manipulatormap_select_all.
      rewrite (bind_Ok _ _ _ _ _ Hagain). reflexivity.
    + simpl. repeat split; reflexivity.
Qed.

(** C10: select-all(SELECT) reads slot 0 of the selected array without a
    guard.  When no selectable manipulator is collected the array was
    reallocated to length 0, so the read is out of bounds (index 0 of an
    array of length 0) and the call cannot return normally; it returns only
    when at least one selectable manipulator exists. *)
Theorem select_all_select_needs_selectable (C : bContext) (w : World)
    (Hperm : forall l, ghash_iter_order l ≡ₚ l)
    (Hnone : selectable_entries C w = []) :
  (Forall (fun p => is_Some (heap w !! p)) (polled_manipulators C (mmap w)) ->
   wm_manipulatormap_select_all_intern C SEL_SELECT w = Err (OutOfBounds 0 0) /\
   WM_manipulatormap_select_all C SEL_SELECT w = Err (OutOfBounds 0 0)) /\
  (forall b w', WM_manipulatormap_select_all C SEL_SELECT w <> Ok (b, w')).
Proof.
  assert (Hord : ghash_iter_order (@nil (string * ptr)) = []).
  { apply Permutation_nil_r. apply Hperm. }
  assert (Herr : Forall (fun p => is_Some (heap w !! p))
                        (polled_manipulators C (mmap w)) ->
                 wm_manipulatormap_select_all_intern C SEL_SELECT w
                 = Err (OutOfBounds 0 0)).
  { intros Hvalid. unfold wm_manipulatormap_select_all_intern.
    rewrite (bind_Ok _ _ _ _ _ (hash_new_spec C w Hvalid)).
    rewrite Hnone, Hord.
    rewrite (bind_Ok _ _ _ _ _ (modify_mmap_Ok _ _)).
    unfold sel_realloc.
    rewrite (bind_Ok _ _ _ _ _ (modify_mmap_Ok _ _)).
    simpl foldM. unfold bind at 1. unfold ret at 1.
    apply bind_Err. unfold sel_read, bind, get_mmap.
    cbn [mmap selected set_selected length]. rewrite resize_0. reflexivity. }
  split.
  - intros Hvalid. split; [exact (Herr Hvalid)|].
    unfold WM_manipulatormap_select_all.
    apply bind_Err. exact (Herr Hvalid).
  - intros b w' Hok.
    apply select_all_select_inv in Hok as (wi & Hi & _).
    assert (Hvalid : Forall (fun p => is_Some (heap w !! p))
                            (polled_manipulators C (mmap w))).
    { unfold wm_manipulatormap_select_all_intern in Hi.
      apply bind_inv in Hi as (hash & w0 & Hhash & _).
      apply hash_new_inv in Hhash as (Hv & _). exact Hv. }
    rewrite (Herr Hvalid) in Hi. discriminate.
Qed.

(** *** Select all returns when something is selectable *)

Lemma selectable_entries_valid (C : bContext) (w : World) (e : string * ptr) :
  e ∈ selectable_entries C w -> is_Some (heap w !! snd e).
Proof.
  unfold selectable_entries. intros He.
  apply list_elem_of_In, in_flat_map in He as (p & _ & He).
  unfold hash_entry in He.
  destruct (heap w !! p) as [m|] eqn:Hm; [|destruct He].
  destruct (manipulator_selectable_poll m); [|destruct He].
  destruct He as [<-|[]]. simpl. rewrite Hm. eauto.
Qed.

Lemma select_loop_returns (action : sel_action) (es : list (string * ptr)) :
  forall (i : nat) (ch : bool) (w : World) arr,
    selected (mmap w) = Some arr ->
    (i + length es <= length arr)%nat ->
    (forall e, e ∈ es -> is_Some (heap w !! snd e)) ->
    exists st w', foldM (select_all_step action) (i, ch) es w = Ok (st, w').
Proof.
  induction es as [|e es IH]; intros i ch w arr Hsel Hlen Hvalid.
  - eexists _, _. reflexivity.
  - destruct (Hvalid e) as [m Hm]; [left|].
    simpl in Hlen. simpl.
    rewrite (bind_Ok _ _ _ _ _
               (select_step_Ok action i ch e w m arr Hm Hsel ltac:(lia))).
    apply (IH (S i) _ _ (<[i := Some (snd e)]> arr)).
    + reflexivity.
    + rewrite length_insert. lia.
    + intros e' He'. simpl.
      destruct (decide (snd e = snd e')) as [->|Hne].
      * rewrite lookup_insert_eq. eauto.
      * rewrite lookup_insert_ne by exact Hne. apply Hvalid. right. exact He'.
Qed.

(** Select-all(SELECT) returns when every manipulator of a polled group and
    the highlighted manipulator are allocated and at least one selectable
    manipulator exists. *)
Lemma select_all_select_returns (C : bContext) (w : World) :
  (forall l, ghash_iter_order l ≡ₚ l) ->
  Forall (fun p => is_Some (heap w !! p)) (polled_manipulators C (mmap w)) ->
  (forall h, highlight (mmap w) = Some h -> is_Some (heap w !! h)) ->
  selectable_entries C w <> [] ->
  exists b w1, WM_manipulatormap_select_all C SEL_SELECT w = Ok (b, w1).
Proof.
  intros Hperm Hvalid Hhl Hne.
  set (hash := selectable_entries C w).
  set (es := ghash_iter_order hash).
  assert (Hlen : length es = length hash) by (apply Permutation_length, Hperm).
  set (arr := resize (length hash) None (default [] (selected (mmap w)))).
  set (wa := {| heap := heap w;
                mmap := set_selected
                          (set_selected_len (mmap w) (Z.of_nat (length hash)))
                          (Some arr);
                events := events w |}).
  destruct (select_loop_returns SEL_SELECT es 0 false wa arr eq_refl)
    as (st & wl & Hloop).
  { unfold arr. rewrite length_resize. lia. }
  { intros e He. simpl. apply (selectable_entries_valid C).
    unfold es in He. rewrite (Hperm _) in He. exact He. }
  destruct (select_loop_inv SEL_SELECT es 0 false wa wl st arr Hloop eq_refl
              ltac:(lia)) as (_ & _ & Hmm & Hk & Hmarked).
  destruct es as [|e0 es'] eqn:Hes.
  { exfalso. apply Hne. apply length_zero_iff_nil. unfold hash in Hlen.
    simpl in Hlen. lia. }
  inversion Hmarked as [|? ? (m0 & Hm0 & _) _]; subst.
  assert (Hread : sel_read 0 wl = Ok (Some (snd e0), wl)).
  { eapply sel_read_Ok; [rewrite Hmm; reflexivity|]. reflexivity. }
  assert (Hhlset : exists wc,
    wm_manipulatormap_highlight_set (Some C) (Some (snd e0))
      (mpr_highlight_part m0) wl = Ok (tt, wc)).
  { destruct (highlight_current wl (Some (snd e0)) (mpr_highlight_part m0))
      eqn:Hcur.
    - exists wl. apply highlight_set_same. exact Hcur.
    - destruct (highlight_set_changes wl (Some C) (Some (snd e0))
                  (mpr_highlight_part m0) Hcur) as [evs Hch].
      + intros h Hh. rewrite Hmm in Hh. simpl in Hh.
        apply (keeps_selected_valid _ _ _ Hk). simpl. apply Hhl. exact Hh.
      + intros p [= <-]. eauto.
      + eexists. exact Hch. }
  destruct Hhlset as [wc Hhlset].
  exists (snd st), (if snd st then with_log wc [EvAddMousemove] else wc).
  unfold WM_manipulatormap_select_all, wm_manipulatormap_select_all_intern.
  unfold bind at 1. unfold bind at 1.
  rewrite (hash_new_spec C w Hvalid).
  rewrite (bind_Ok _ _ _ _ _ (modify_mmap_Ok _ _)).
  unfold sel_realloc.
  rewrite (bind_Ok _ _ _ _ _ (modify_mmap_Ok _ _)).
  cbn [heap mmap events].
  fold hash. fold arr. fold wa. change (ghash_iter_order hash) with es.
  rewrite Hes, (bind_Ok _ _ _ _ _ Hloop), (bind_Ok _ _ _ _ _ Hread).
  unfold deref. unfold bind at 1. unfold ret at 1.
  rewrite (bind_Ok _ _ _ _ _ (load_Ok _ _ _ Hm0)).
  rewrite (bind_Ok _ _ _ _ _ Hhlset).
  unfold ret at 1. destruct (snd st); reflexivity.
Qed.

(** *** Deselect all *)

Lemma keeps_unselected_refl h : keeps_unselected h h.
Proof. intros q. destruct (h !! q); auto. Qed.

Lemma keeps_unselected_trans h1 h2 h3 :
  keeps_unselected h1 h2 -> keeps_unselected h2 h3 -> keeps_unselected h1 h3.
Proof.
  intros H12 H23 q. specialize (H12 q). specialize (H23 q).
  destruct (h1 !! q), (h2 !! q), (h3 !! q); try contradiction; auto.
Qed.

Lemma keeps_unselected_cleared h h' p :
  keeps_unselected h h' -> select_cleared h p -> select_cleared h' p.
Proof.
  intros Hk (m & Hm & Hs). specialize (Hk p). rewrite Hm in Hk.
  destruct (h' !! p) as [m'|] eqn:Hm'; [|contradiction].
  exists m'. split; [exact Hm'|]. apply Hk. exact Hs.
Qed.

Lemma keeps_unselected_valid h h' p :
  keeps_unselected h h' -> is_Some (h !! p) -> is_Some (h' !! p).
Proof.
  intros Hk [m Hm]. specialize (Hk p). rewrite Hm in Hk.
  destruct (h' !! p); [eauto|contradiction].
Qed.

Lemma deselect_step_Ok (i : nat) (w : World) arr p m :
  selected (mmap w) = Some arr -> arr !! i = Some (Some p) ->
  heap w !! p = Some m ->
  deselect_all_step i w =
    Ok (tt, {| heap := <[p := set_state m
                 (Z.land (mpr_state m) (Z.lnot WM_MANIPULATOR_STATE_SELECT))]>
                 (heap w);
               mmap := set_selected (mmap w) (Some (<[i := None]> arr));
               events := events w |}).
Proof.
  intros Hsel Hi Hm. unfold deselect_all_step.
  rewrite (bind_Ok _ _ _ _ _ (sel_read_Ok _ _ _ _ Hsel Hi)).
  unfold deref. unfold bind at 1. unfold ret at 1.
  rewrite (bind_Ok _ _ _ _ _ (modify_Ok _ _ _ _ Hm)).
  rewrite (sel_write_Ok i None _ arr); [reflexivity|exact Hsel|].
  apply lookup_lt_is_Some. eauto.
Qed.

Lemma deselect_loop_spec (n : nat) :
  forall (i : nat) (w : World) arr,
    selected (mmap w) = Some arr ->
    (i + n = length arr)%nat ->
    (forall j slot, (i <= j)%nat -> arr !! j = Some slot ->
       exists p, slot = Some p /\ is_Some (heap w !! p)) ->
    exists w',
      forM_ (seq i n) deselect_all_step w = Ok (tt, w') /\
      mmap w' = set_selected (mmap w) (Some (take i arr ++ replicate n None)) /\
      events w' = events w /\
      keeps_unselected (heap w) (heap w') /\
      (forall j p, (i <= j)%nat -> arr !! j = Some (Some p) ->
         select_cleared (heap w') p).
Proof.
  induction n as [|n IH]; intros i w arr Hsel Hlen Hslots.
  - exists w. simpl. split; [reflexivity|].
    split.
    { rewrite app_nil_r, take_ge by lia. symmetry.
      apply set_selected_same. exact Hsel. }
    split; [reflexivity|]. split; [apply keeps_unselected_refl|].
    intros j p Hj Hp. apply lookup_lt_Some in Hp. lia.
  - destruct (lookup_lt_is_Some_2 arr i ltac:(lia)) as [slot Hslot].
    destruct (Hslots i slot ltac:(lia) Hslot) as (p & -> & [m Hm]).
    pose proof (deselect_step_Ok i w arr p m Hsel Hslot Hm) as Hstep.
    set (w1 := {| heap := <[p := set_state m
                    (Z.land (mpr_state m) (Z.lnot WM_MANIPULATOR_STATE_SELECT))]>
                    (heap w);
                  mmap := set_selected (mmap w) (Some (<[i := None]> arr));
                  events := events w |}) in *.
    assert (Hk1 : keeps_unselected (heap w) (heap w1)).
    { intros q. simpl. destruct (decide (p = q)) as [<-|Hne].
      - rewrite lookup_insert_eq, Hm. intros _. simpl. apply land_clear.
      - rewrite lookup_insert_ne by exact Hne. destruct (heap w !! q); auto. }
    destruct (IH (S i) w1 (<[i := None]> arr)) as (w' & Hrun & Hmm & Hev & Hk & Hcl).
    + reflexivity.
    + rewrite length_insert. lia.
    + intros j slot Hj Hjs. rewrite list_lookup_insert_ne in Hjs by lia.
      destruct (Hslots j slot ltac:(lia) Hjs) as (q & -> & Hq).
      exists q. split; [reflexivity|].
      eapply keeps_unselected_valid; eassumption.
    + exists w'. split.
      { simpl. rewrite (bind_Ok _ _ _ _ _ Hstep). exact Hrun. }
      split.
      { rewrite Hmm. simpl. unfold set_selected. simpl. do 2 f_equal.
        rewrite (take_S_r _ _ None) by (apply list_lookup_insert_eq; lia).
        rewrite take_insert_ge by lia. rewrite <- app_assoc. reflexivity. }
      split; [rewrite Hev; reflexivity|].
      split; [eapply keeps_unselected_trans; eassumption|].
      intros j q Hj Hq. destruct (decide (j = i)) as [->|Hne].
      * rewrite Hslot in Hq. injection Hq as <-.
        apply (keeps_unselected_cleared _ _ _ Hk).
        eexists. split; [simpl; apply lookup_insert_eq|]. simpl. apply land_clear.
      * apply (Hcl j q ltac:(lia)).
        rewrite list_lookup_insert_ne by lia. exact Hq.
Qed.

(** Deselect-all on a world whose selected array and count agree. *)
Lemma deselect_all_spec (w : World) :
  sel_wf w ->
  exists w',
    wm_manipulatormap_deselect_all w = Ok (negb (selected_len (mmap w) =? 0), w') /\
    (selected_len (mmap w) = 0 -> w' = w) /\
    selected (mmap w') = (if selected_len (mmap w) =? 0
                          then selected (mmap w) else None) /\
    selected_len (mmap w') = 0 /\
    events w' = events w /\
    (forall p, Some p ∈ default [] (selected (mmap w)) ->
       selected_len (mmap w) <> 0 -> select_cleared (heap w') p).
Proof.
  intros Hwf. unfold sel_wf in Hwf. unfold wm_manipulatormap_deselect_all.
  unfold bind at 1. unfold get_mmap at 1.
  destruct (selected (mmap w)) as [arr|] eqn:Hsel.
  - destruct Hwf as [Hlen Hslots].
    rewrite bool_decide_eq_false_2 by discriminate. simpl.
    destruct (Z.eqb_spec (selected_len (mmap w)) 0) as [Hz|Hnz].
    + exists w. unfold ret. simpl.
      repeat split; try reflexivity; try assumption. intros; contradiction.
    + destruct (deselect_loop_spec (Z.to_nat (selected_len (mmap w))) 0 w arr Hsel)
        as (w1 & Hrun & Hmm & Hev & Hk & Hcl).
      { rewrite Hlen. lia. }
      { intros j slot _ Hj. apply Hslots. apply list_elem_of_lookup. eauto. }
      rewrite (bind_Ok _ _ _ _ _ Hrun).
      unfold wm_manipulatormap_selected_clear.
      eexists. split; [reflexivity|]. simpl.
      split; [intros; contradiction|].
      split; [reflexivity|]. split; [reflexivity|]. split; [exact Hev|].
      intros p Hp _. apply list_elem_of_lookup in Hp as [j Hj].
      apply (Hcl j p ltac:(lia) Hj).
  - rewrite bool_decide_eq_true_2 by reflexivity. simpl.
    exists w. unfold ret. rewrite Hwf. simpl.
    split; [reflexivity|]. split; [reflexivity|]. split; [exact Hsel|].
    split; [reflexivity|]. split; [reflexivity|].
    intros p Hp. apply elem_of_nil in Hp. contradiction.
Qed.

Lemma select_all_deselect_spec (C : bContext) (w : World) :
  sel_wf w ->
  exists w',
    WM_manipulatormap_select_all C SEL_DESELECT w
      = Ok (negb (selected_len (mmap w) =? 0), w') /\
    (selected_len (mmap w) = 0 -> w' = w) /\
    selected (mmap w') = (if selected_len (mmap w) =? 0
                          then selected (mmap w) else None) /\
    selected_len (mmap w') = 0 /\
    (forall p, Some p ∈ default [] (selected (mmap w)) ->
       selected_len (mmap w) <> 0 -> select_cleared (heap w') p).
Proof.
  intros Hwf.
  destruct (deselect_all_spec w Hwf) as (w1 & Hrun & Hnoop & Hsel & Hlen & Hev & Hcl).
  unfold WM_manipulatormap_select_all. rewrite (bind_Ok _ _ _ _ _ Hrun).
  destruct (Z.eqb_spec (selected_len (mmap w)) 0) as [Hz|Hnz]; simpl.
  - exists w1. unfold bind, ret.
    split; [reflexivity|]. split; [exact Hnoop|]. split; [exact Hsel|].
    split; [exact Hlen|exact Hcl].
  - eexists. unfold bind, emit, ret. split; [reflexivity|]. simpl.
    split; [intros; contradiction|]. split; [exact Hsel|].
    split; [exact Hlen|exact Hcl].
Qed.

(** C6: after a select-all(SELECT) that returned, select-all(DESELECT)
    returns true, leaves the selected count at 0 and the array freed, and
    every manipulator that was in the selected array (every selectable
    manipulator the first call collected) has its selection bits cleared.
    On any map whose array and count agree, DESELECT returns false exactly
    when the count was 0, and then changes nothing, and true otherwise. *)
Theorem select_all_then_deselect_all (C : bContext) (w w1 : World) (b : bool)
    (Hperm : forall l, ghash_iter_order l ≡ₚ l)
    (Hdisj : Z.land WM_MANIPULATOR_STATE_HIGHLIGHT WM_MANIPULATOR_STATE_SELECT = 0)
    (Hfirst : WM_manipulatormap_select_all C SEL_SELECT w = Ok (b, w1)) :
  (exists w2,
     WM_manipulatormap_select_all C SEL_DESELECT w1 = Ok (true, w2) /\
     selected_len (mmap w2) = 0 /\
     selected (mmap w2) = None /\
     (forall p, Some p ∈ default [] (selected (mmap w1)) ->
        select_cleared (heap w2) p) /\
     (forall e, e ∈ selectable_entries C w -> select_cleared (heap w2) (snd e))) /\
  (forall w0, sel_wf w0 ->
     exists w',
       WM_manipulatormap_select_all C SEL_DESELECT w0
         = Ok (negb (selected_len (mmap w0) =? 0), w') /\
       (selected_len (mmap w0) = 0 -> w' = w0)).
Proof.
  split.
  - apply select_all_select_inv in Hfirst as (wi & Hi & Hh & Hm).
    destruct (select_all_intern_inv C SEL_SELECT w wi b Hperm Hdisj Hi)
      as (e0 & es' & Hes & Hvalid & Hmm & Hk & Hmarked).
    rewrite <- Hh in Hmarked. rewrite <- Hm in Hmm.
    assert (Hsel1 : selected (mmap w1)
                    = Some ((fun e => Some (snd e)) <$> (e0 :: es')))
      by (rewrite Hmm; reflexivity).
    assert (Hlen1 : selected_len (mmap w1) = Z.of_nat (length (e0 :: es')))
      by (rewrite Hmm; reflexivity).
    assert (Hwf : sel_wf w1).
    { unfold sel_wf. rewrite Hsel1. split.
      - rewrite Hlen1, length_fmap. reflexivity.
      - intros slot Hslot. apply list_elem_of_fmap in Hslot as (e & -> & He).
        exists (snd e). split; [reflexivity|].
        rewrite Forall_forall in Hmarked.
        destruct (Hmarked e (proj1 (list_elem_of_In _ _) He)) as (m & Hme & _).
        eauto. }
    assert (Hnz : selected_len (mmap w1) <> 0) by (rewrite Hlen1; simpl; lia).
    destruct (select_all_deselect_spec C w1 Hwf)
      as (w2 & Hrun & _ & Hsel2 & Hlen2 & Hcl).
    destruct (Z.eqb_spec (selected_len (mmap w1)) 0) as [Hz|_]; [contradiction|].
    exists w2. split; [exact Hrun|]. split; [exact Hlen2|]. split; [exact Hsel2|].
    split.
    + intros p Hp. apply Hcl; assumption.
    + intros e He. apply Hcl; [|exact Hnz].
      rewrite Hsel1. cbn [default from_option id].
      apply list_elem_of_fmap. exists e. split; [reflexivity|].
      rewrite <- Hes. rewrite (Hperm _). exact He.
  - intros w0 Hwf0.
    destruct (select_all_deselect_spec C w0 Hwf0) as (w' & Hrun & Hnoop & _).
    exists w'. split; assumption.
Qed.

End Selection.

(** Select-all twice on the plain scene, whose selectable group holds
    manipulators 3 and 4. *)
Lemma select_all_select_twice_witness :
  let HO := sample_host false [] rejecting_operator in
  (forall l, @ghash_iter_order HO l ≡ₚ l) /\
  @WM_MANIPULATOR_STATE_SELECT sample_flags <> 0 /\
  Z.land (@WM_MANIPULATOR_STATE_HIGHLIGHT sample_flags)
         (@WM_MANIPULATOR_STATE_SELECT sample_flags) = 0 /\
  exists b w1,
    @WM_manipulatormap_select_all sample_flags HO sample_ctx SEL_SELECT sample_world
      = Ok (b, w1) /\
    exists w2,
      @WM_manipulatormap_select_all sample_flags HO sample_ctx SEL_SELECT w1
        = Ok (false, w2) /\
      selected (mmap w2) = selected (mmap w1) /\
      selected_len (mmap w2) = selected_len (mmap w1).
Proof.
  intros HO.
  assert (Hperm : forall l, @ghash_iter_order HO l ≡ₚ l) by (intros l; reflexivity).
  assert (Hnz : @WM_MANIPULATOR_STATE_SELECT sample_flags <> 0) by discriminate.
  assert (Hdisj : Z.land (@WM_MANIPULATOR_STATE_HIGHLIGHT sample_flags)
                         (@WM_MANIPULATOR_STATE_SELECT sample_flags) = 0)
    by reflexivity.
  split; [exact Hperm|]. split; [exact Hnz|]. split; [exact Hdisj|].
  destruct (@WM_manipulatormap_select_all sample_flags HO sample_ctx SEL_SELECT
              sample_world) as [[b w1]|e] eqn:Hfirst.
  - exists b, w1. split; [reflexivity|].
    destruct (@select_all_select_twice sample_flags HO sample_ctx sample_world w1 b
                Hperm Hnz Hdisj Hfirst) as (w2 & Hrun & Hsel & Hlen & _).
    exists w2. split; [exact Hrun|]. split; [exact Hsel|exact Hlen].
  - exfalso. vm_compute in Hfirst. discriminate Hfirst.
Defined.

(** Select-all then deselect-all on the plain scene. *)
Lemma select_all_then_deselect_all_witness :
  let HO := sample_host false [] rejecting_operator in
  (forall l, @ghash_iter_order HO l ≡ₚ l) /\
  Z.land (@WM_MANIPULATOR_STATE_HIGHLIGHT sample_flags)
         (@WM_MANIPULATOR_STATE_SELECT sample_flags) = 0 /\
  exists b w1,
    @WM_manipulatormap_select_all sample_flags HO sample_ctx SEL_SELECT sample_world
      = Ok (b, w1) /\
    exists w2,
      @WM_manipulatormap_select_all sample_flags HO sample_ctx SEL_DESELECT w1
        = Ok (true, w2) /\
      selected_len (mmap w2) = 0 /\
      @select_cleared sample_flags (heap w2) 3%nat /\
      @select_cleared sample_flags (heap w2) 4%nat.
Proof.
  intros HO.
  assert (Hperm : forall l, @ghash_iter_order HO l ≡ₚ l) by (intros l; reflexivity).
  assert (Hdisj : Z.land (@WM_MANIPULATOR_STATE_HIGHLIGHT sample_flags)
                         (@WM_MANIPULATOR_STATE_SELECT sample_flags) = 0)
    by reflexivity.
  split; [exact Hperm|]. split; [exact Hdisj|].
  destruct (@WM_manipulatormap_select_all sample_flags HO sample_ctx SEL_SELECT
              sample_world) as [[b w1]|e] eqn:Hfirst.
  - exists b, w1. split; [reflexivity|].
    destruct (@select_all_then_deselect_all sample_flags HO sample_ctx sample_world
                w1 b Hperm Hdisj Hfirst)
      as ((w2 & Hrun & Hlen & _ & _ & Hall) & _).
    exists w2. split; [exact Hrun|]. split; [exact Hlen|]. split.
    + apply (Hall ("c"%string, 3%nat)). vm_compute.
      apply list_elem_of_In. simpl. auto.
    + apply (Hall ("d"%string, 4%nat)). vm_compute.
      apply list_elem_of_In. simpl. auto.
  - exfalso. vm_compute in Hfirst. discriminate Hfirst.
Defined.

(** Select-all on the scene whose only group is not selectable. *)
Lemma select_all_select_needs_selectable_witness :
  let HO := sample_host false [] rejecting_operator in
  (forall l, @ghash_iter_order HO l ≡ₚ l) /\
  @selectable_entries sample_flags HO sample_ctx sample_world_unselectable = [] /\
  @WM_manipulatormap_select_all sample_flags HO sample_ctx SEL_SELECT
    sample_world_unselectable = Err (OutOfBounds 0 0).
Proof.
  intros HO.
  assert (Hperm : forall l, @ghash_iter_order HO l ≡ₚ l) by (intros l; reflexivity).
  assert (Hnone : @selectable_entries sample_flags HO sample_ctx
                    sample_world_unselectable = []) by (vm_compute; reflexivity).
  split; [exact Hperm|]. split; [exact Hnone|].
  destruct (@select_all_select_needs_selectable sample_flags HO sample_ctx
              sample_world_unselectable Hperm Hnone) as [Herr _].
  apply Herr. repeat constructor. apply sample_heap_valid. lia.
Defined.

(** *** Modal set *)

Section ModalSet.
Context `{FL : Flags} `{HO : Host}.

(** What the deactivate branch does to the store and the map. *)
Lemma modal_set_deactivate (C : option bContext) (event : wmEvent)
    (mpr : option ptr) (w : World) (q : ptr) (m : wmManipulator) :
  (mpr = None \/ C = None) ->
  modal (mmap w) = Some q -> heap w !! q = Some m ->
  exists w',
    wm_manipulatormap_modal_set C event mpr w = Ok (tt, w') /\
    heap w' = <[q := set_interaction_data (clear_modal_state m) None]> (heap w) /\
    mmap w' = set_modal (mmap w) None /\
    (C = None -> events w' = events w).
Proof.
  intros Hbr Hq Hm.
  assert (Hrun : wm_manipulatormap_modal_set C event mpr w =
    (mm <- get_mmap ;;
     match modal mm with
     | Some q => modify q clear_modal_state ;;
                 modify q (fun m => set_interaction_data m None)
     | None => ret tt
     end ;;
     modify_mmap (fun mm => set_modal mm None) ;;
     match C with
     | Some c => emit (EvCursorGrabDisable (ctx_window c)) ;;
                 emit (EvRegionTagRedraw (ctx_region c)) ;;
                 emit EvAddMousemove
     | None => ret tt
     end) w).
  { unfold wm_manipulatormap_modal_set.
    destruct Hbr as [-> | ->]; [reflexivity | destruct mpr; reflexivity]. }
  rewrite Hrun. clear Hrun.
  unfold bind at 1. unfold get_mmap at 1. rewrite Hq.
  unfold bind at 1. unfold bind at 1.
  rewrite (modify_Ok _ _ _ _ Hm).
  assert (Hm2 : heap (with_heap w (<[q := clear_modal_state m]> (heap w))) !! q
                = Some (clear_modal_state m)) by (simpl; apply lookup_insert_eq).
  rewrite (modify_Ok _ _ _ _ Hm2). simpl.
  rewrite insert_insert_eq.
  destruct C as [c|]; eexists; (split; [reflexivity|]); simpl;
    (split; [reflexivity|]); (split; [reflexivity|]); intros; congruence.
Qed.

Lemma modal_set_deactivate_empty (C : option bContext) (event : wmEvent)
    (mpr : option ptr) (w : World) :
  (mpr = None \/ C = None) ->
  modal (mmap w) = None ->
  exists w',
    wm_manipulatormap_modal_set C event mpr w = Ok (tt, w') /\
    heap w' = heap w /\
    mmap w' = set_modal (mmap w) None /\
    (C = None -> events w' = events w).
Proof.
  intros Hbr Hq.
  assert (Hrun : wm_manipulatormap_modal_set C event mpr w =
                 wm_manipulatormap_modal_set C event None w).
  { unfold wm_manipulatormap_modal_set.
    destruct Hbr as [-> | ->]; [reflexivity | destruct mpr; reflexivity]. }
  rewrite Hrun. unfold wm_manipulatormap_modal_set, bind, get_mmap. rewrite Hq.
  simpl. destruct C as [c|]; eexists; (split; [reflexivity|]); simpl;
    (split; [reflexivity|]); (split; [reflexivity|]); intros; congruence.
Qed.

(** C9: modal-set with a manipulator but a NULL context does not activate
    that manipulator.  The call behaves exactly as the clearing call with a
    NULL manipulator: the manipulator that was modal loses its modal bit and
    its interaction data, the modal slot ends empty, every other manipulator
    (the one passed in included, unless it was the modal one) is left as it
    was, and nothing is asked of the window system. *)
Theorem modal_set_null_context_deactivates
    (w : World) (event : wmEvent) (p : ptr)
    (Hmodal : forall q, modal (mmap w) = Some q -> is_Some (heap w !! q)) :
  exists w',
    wm_manipulatormap_modal_set None event (Some p) w = Ok (tt, w') /\
    wm_manipulatormap_modal_set None event None w = Ok (tt, w') /\
    modal (mmap w') = None /\
    events w' = events w /\
    (forall q, modal (mmap w) = Some q ->
       exists m', heap w' !! q = Some m' /\
         Z.land (mpr_state m') WM_MANIPULATOR_STATE_MODAL = 0 /\
         mpr_interaction_data m' = None) /\
    (forall q, modal (mmap w) <> Some q -> heap w' !! q = heap w !! q).
Proof.
  destruct (modal (mmap w)) as [q|] eqn:Hq.
  - destruct (Hmodal q eq_refl) as [m Hm].
    destruct (modal_set_deactivate None event (Some p) w q m
                (or_intror eq_refl) Hq Hm) as (w' & Hrun & Hh & Hmm & Hev).
    exists w'. split; [exact Hrun|]. split; [exact Hrun|].
    split; [rewrite Hmm; reflexivity|]. split; [apply Hev; reflexivity|].
    split.
    + intros q' [= <-]. eexists. split; [rewrite Hh; apply lookup_insert_eq|].
      simpl. split; [apply land_clear|reflexivity].
    + intros q' Hne. rewrite Hh. apply lookup_insert_ne. congruence.
  - destruct (modal_set_deactivate_empty None event (Some p) w
                (or_intror eq_refl) Hq) as (w' & Hrun & Hh & Hmm & Hev).
    exists w'. split; [exact Hrun|]. split; [exact Hrun|].
    split; [rewrite Hmm; reflexivity|]. split; [apply Hev; reflexivity|].
    split; [intros q' [=]|]. intros q' _. rewrite Hh. reflexivity.
Qed.

(** C3, as amended: when the operator call leaves the modal slot empty, the
    call rolls the manipulator back (modal bit cleared, interaction data
    released) and ends with the slot empty.  That is the state before the
    call provided nothing was modal then, the manipulator carried neither
    the modal bit nor interaction data, and the collaborators did nothing
    but empty the slot. *)
Theorem modal_set_rolls_back
    (w w3 : World) (c : bContext) (event : wmEvent) (p : ptr) (m : wmManipulator)
    (Hp : heap w !! p = Some m)
    (Hop : mpr_op_type m <> None)
    (Hinvoke : modal_set_invoke_bound c event p w = Ok (tt, w3))
    (Hempty : modal (mmap w3) = None)
    (Hlive : is_Some (heap w3 !! p)) :
  exists w',
    wm_manipulatormap_modal_set (Some c) event (Some p) w = Ok (tt, w') /\
    modal (mmap w') = None /\
    (exists m', heap w' !! p = Some m' /\
       Z.land (mpr_state m') WM_MANIPULATOR_STATE_MODAL = 0 /\
       mpr_interaction_data m' = None) /\
    (modal (mmap w) = None ->
     Z.land (mpr_state m) WM_MANIPULATOR_STATE_MODAL = 0 ->
     mpr_interaction_data m = None ->
     heap w3 = <[p := set_state m
                   (Z.lor (mpr_state m) WM_MANIPULATOR_STATE_MODAL)]> (heap w) ->
     mmap w3 = set_modal (mmap w) None ->
     heap w' = heap w /\ mmap w' = mmap w).
Proof.
  destruct Hlive as [m3 Hm3].
  set (w' := with_heap w3
               (<[p := set_interaction_data (clear_modal_state m3) None]> (heap w3))).
  assert (Hroll :
    (modify p clear_modal_state ;;
     modify p (fun m => set_interaction_data m None)) w3 = Ok (tt, w')).
  { unfold bind. rewrite (modify_Ok _ _ _ _ Hm3).
    assert (Hm4 : heap (with_heap w3 (<[p := clear_modal_state m3]> (heap w3))) !! p
                  = Some (clear_modal_state m3)) by (simpl; apply lookup_insert_eq).
    rewrite (modify_Ok _ _ _ _ Hm4). unfold w', with_heap. simpl.
    rewrite insert_insert_eq. reflexivity. }
  assert (Hrun : wm_manipulatormap_modal_set (Some c) event (Some p) w = Ok (tt, w')).
  { unfold modal_set_invoke_bound in Hinvoke.
    unfold wm_manipulatormap_modal_set.
    apply bind_inv in Hinvoke as (u1 & w1 & H1 & Hinvoke).
    rewrite (bind_Ok _ _ _ _ _ H1).
    apply bind_inv in Hinvoke as (u2 & w2 & H2 & Hinvoke).
    rewrite (bind_Ok _ _ _ _ _ H2).
    apply bind_inv in Hinvoke as (ma & wa & Ha & Hinvoke).
    rewrite (bind_Ok _ _ _ _ _ Ha).
    assert (Hopa : mpr_op_type ma = mpr_op_type m).
    { apply modify_inv in H1 as (m0 & Hm0 & ->).
      unfold modify_mmap, bind, get_mmap, put_mmap in H2. injection H2 as _ <-.
      apply load_inv in Ha as [_ Ha]. simpl in Ha.
      rewrite lookup_insert_eq in Ha. injection Ha as <-.
      rewrite Hp in Hm0. injection Hm0 as <-. reflexivity. }
    destruct (mpr_op_type ma) as [ot|] eqn:Hot; [|congruence].
    apply bind_inv in Hinvoke as (u3 & wb & Hb & Hinvoke).
    rewrite (bind_Ok _ _ _ _ _ Hb).
    apply bind_inv in Hinvoke as (mb & wc & Hc & Hinvoke).
    rewrite (bind_Ok _ _ _ _ _ Hc).
    rewrite (bind_Ok _ _ _ _ _ Hinvoke).
    unfold bind at 1. unfold get_mmap at 1. rewrite Hempty. exact Hroll. }
  exists w'. split; [exact Hrun|]. split; [exact Hempty|]. split.
  - eexists. split; [unfold w'; simpl; apply lookup_insert_eq|].
    simpl. split; [apply land_clear|reflexivity].
  - intros Hnone Hbit Hdata Hheap Hmmap. unfold w'. simpl. split.
    + rewrite Hheap in Hm3. rewrite lookup_insert_eq in Hm3. injection Hm3 as <-.
      rewrite Hheap, insert_insert_eq.
      apply insert_id. rewrite Hp. f_equal.
      unfold set_interaction_data, clear_modal_state, set_state. simpl.
      rewrite (lor_clear_restore _ _ Hbit), <- Hdata. apply eq_sym, mpr_eta.
    + rewrite Hmmap. unfold set_modal. rewrite <- Hnone. apply mmap_eta.
Qed.

End ModalSet.

(** The scene with manipulator 2 modal: a call with manipulator 1 and a NULL
    context clears 2 and activates nothing. *)
Lemma modal_set_null_context_witness :
  (forall q, modal (mmap sample_world_modal) = Some q ->
             is_Some (heap sample_world_modal !! q)) /\
  exists w',
    @wm_manipulatormap_modal_set sample_flags
      (sample_host false [] rejecting_operator)
      None sample_event (Some 1%nat) sample_world_modal = Ok (tt, w') /\
    modal (mmap w') = None /\
    heap w' !! 1%nat = heap sample_world_modal !! 1%nat.
Proof.
  assert (Hvalid : forall q, modal (mmap sample_world_modal) = Some q ->
                             is_Some (heap sample_world_modal !! q)).
  { intros q Hq. simpl in Hq. injection Hq as <-.
    eexists. simpl. apply lookup_insert_eq. }
  split; [exact Hvalid|].
  destruct (@modal_set_null_context_deactivates sample_flags
              (sample_host false [] rejecting_operator)
              sample_world_modal sample_event 1%nat Hvalid)
    as (w' & Hrun & _ & Hslot & _ & _ & Hother).
  exists w'. split; [exact Hrun|]. split; [exact Hslot|].
  apply Hother. simpl. discriminate.
Defined.

(** C3 as stated fails: manipulator 3 is modal when manipulator 2 is
    activated and its operator gives up at once.  The roll-back leaves the
    slot empty, so the map is not back in the state it had before the call,
    in which 3 was the modal manipulator (and 3 still carries its modal
    bit). *)
Lemma modal_set_rollback_not_pre_activation :
  let HO := sample_host false [] rejecting_operator in
  exists w3 w' m3,
    heap sample_world_busy !! 2%nat = Some (sample_mpr "b" gt_2d (Some 5%nat)) /\
    @modal_set_invoke_bound sample_flags HO sample_ctx sample_event 2%nat
      sample_world_busy = Ok (tt, w3) /\
    modal (mmap w3) = None /\
    @wm_manipulatormap_modal_set sample_flags HO (Some sample_ctx) sample_event
      (Some 2%nat) sample_world_busy = Ok (tt, w') /\
    modal (mmap sample_world_busy) = Some 3%nat /\
    modal (mmap w') = None /\
    mmap w' <> mmap sample_world_busy /\
    heap w' !! 3%nat = Some m3 /\
    Z.land (mpr_state m3) (@WM_MANIPULATOR_STATE_MODAL sample_flags) <> 0.
Proof.
  intros HO. eexists _, _, _.
  split; [vm_compute; reflexivity|].
  split; [vm_compute; reflexivity|].
  split; [reflexivity|].
  split; [vm_compute; reflexivity|].
  split; [reflexivity|].
  split; [reflexivity|].
  split; [intros H; apply (f_equal modal) in H; discriminate H|].
  split; [vm_compute; reflexivity|].
  vm_compute. discriminate.
Qed.

(** The ordinary failed start on the plain scene: nothing is modal,
    manipulator 2 is activated, its operator gives up. *)
Lemma modal_set_rolls_back_witness :
  let HO := sample_host false [] rejecting_operator in
  exists w3,
    heap sample_world !! 2%nat = Some (sample_mpr "b" gt_2d (Some 5%nat)) /\
    mpr_op_type (sample_mpr "b" gt_2d (Some 5%nat)) <> None /\
    @modal_set_invoke_bound sample_flags HO sample_ctx sample_event 2%nat
      sample_world = Ok (tt, w3) /\
    modal (mmap w3) = None /\
    is_Some (heap w3 !! 2%nat) /\
    exists w',
      @wm_manipulatormap_modal_set sample_flags HO (Some sample_ctx) sample_event
        (Some 2%nat) sample_world = Ok (tt, w') /\
      modal (mmap w') = None /\
      heap w' = heap sample_world /\ mmap w' = mmap sample_world.
Proof.
  intros HO.
  assert (Hp : heap sample_world !! 2%nat = Some (sample_mpr "b" gt_2d (Some 5%nat)))
    by (vm_compute; reflexivity).
  assert (Hop : mpr_op_type (sample_mpr "b" gt_2d (Some 5%nat)) <> None)
    by discriminate.
  pose (h3 := <[2%nat := set_state (sample_mpr "b" gt_2d (Some 5%nat))
                 (Z.lor 0 (@WM_MANIPULATOR_STATE_MODAL sample_flags))]>
              (heap sample_world)).
  pose (w3 := {| heap := h3; mmap := set_modal (mmap sample_world) None;
                 events := [] |}).
  assert (Hinvoke : @modal_set_invoke_bound sample_flags HO sample_ctx sample_event
                      2%nat sample_world = Ok (tt, w3)).
  { unfold modal_set_invoke_bound.
    rewrite (bind_Ok _ _ _ _ _ (modify_Ok _ _ _ _ Hp)).
    reflexivity. }
  assert (Hempty : modal (mmap w3) = None) by reflexivity.
  assert (Hlive : is_Some (heap w3 !! 2%nat)).
  { eexists. unfold w3, h3. simpl. apply lookup_insert_eq. }
  exists w3.
  split; [exact Hp|]. split; [exact Hop|]. split; [exact Hinvoke|].
  split; [exact Hempty|]. split; [exact Hlive|].
  destruct (@modal_set_rolls_back sample_flags HO sample_world w3 sample_ctx
              sample_event 2%nat _ Hp Hop Hinvoke Hempty Hlive)
    as (w' & Hrun & Hslot & _ & Hpre).
  exists w'. split; [exact Hrun|]. split; [exact Hslot|].
  apply Hpre; reflexivity.
Defined.

(** *** Deferred type updates *)

Section ConfigUpdate.
Context `{FL : Flags}.

Lemma appends_only_refl P r : appends_only P r r.
Proof. exists []. rewrite app_nil_r. split; reflexivity. Qed.

Lemma appends_only_trans P r1 r2 r3 :
  appends_only P r1 r2 -> appends_only P r2 r3 -> appends_only P r1 r3.
Proof.
  intros (e1 & H1 & P1) (e2 & H2 & P2). exists (e1 ++ e2).
  rewrite H2, H1, app_assoc. split; [reflexivity|].
  rewrite forallb_app, P1, P2. reflexivity.
Qed.

Lemma appends_only_fold {A} P (f : Registry -> A -> Registry) (l : list A) :
  (forall r x, appends_only P r (f r x)) ->
  forall r, appends_only P r (fold_left f l r).
Proof.
  intros Hf. induction l as [|x l IH]; intros r; simpl.
  - apply appends_only_refl.
  - eapply appends_only_trans; [apply Hf|apply IH].
Qed.

Lemma appends_only_emit P r e : P e = true -> appends_only P r (reg_emit r e).
Proof. intros He. exists [e]. simpl. rewrite He. split; reflexivity. Qed.

Lemma appends_only_same P r r' :
  reg_events r' = reg_events r -> appends_only P r r'.
Proof. intros H. exists []. rewrite app_nil_r. split; [exact H|reflexivity]. Qed.

Lemma appends_only_emit_after P r r' e :
  reg_events r' = reg_events r -> P e = true -> appends_only P r (reg_emit r' e).
Proof.
  intros Hr He. apply (appends_only_trans _ _ r').
  - apply appends_only_same. exact Hr.
  - apply appends_only_emit. exact He.
Qed.

Lemma unlink_appends k wgt r :
  appends_only is_unlink_event r (WM_manipulatormaptype_group_unlink k wgt r).
Proof.
  unfold WM_manipulatormaptype_group_unlink.
  apply appends_only_emit_after; reflexivity.
Qed.

Lemma remove_type_appends r k :
  appends_only is_unlink_event r (config_update_remove_type r k).
Proof.
  unfold config_update_remove_type.
  destruct (manipulatormaptypes r !! k) as [mt|]; [|apply appends_only_refl].
  destruct (truthy _); [|apply appends_only_refl].
  match goal with
  | |- appends_only _ _ (fold_left _ _ ?x) => apply (appends_only_trans _ _ x)
  end.
  - apply appends_only_same. reflexivity.
  - apply appends_only_fold. intros. apply unlink_appends.
Qed.

Lemma unlink_fold_events k (refs : list nat) r :
  reg_events (fold_left (fun r wgt => WM_manipulatormaptype_group_unlink k wgt r)
                        refs r)
  = reg_events r ++ map (EvGroupUnlink k) refs.
Proof.
  revert r. induction refs as [|wgt refs IH]; intros r; simpl.
  - rewrite app_nil_r. reflexivity.
  - rewrite IH. simpl. rewrite <- app_assoc. reflexivity.
Qed.

Lemma unlink_fold_other k (refs : list nat) r j :
  j <> k ->
  manipulatormaptypes
    (fold_left (fun r wgt => WM_manipulatormaptype_group_unlink k wgt r) refs r) !! j
  = manipulatormaptypes r !! j.
Proof.
  intros Hne. revert r. induction refs as [|wgt refs IH]; intros r; simpl.
  - reflexivity.
  - rewrite IH. simpl. apply list_lookup_alter_ne. congruence.
Qed.

Lemma remove_type_events r k :
  reg_events (config_update_remove_type r k) = reg_events r ++ removals_of r k.
Proof.
  unfold config_update_remove_type, removals_of.
  destruct (manipulatormaptypes r !! k) as [mt|];
    [|rewrite app_nil_r; reflexivity].
  destruct (truthy _); [|rewrite app_nil_r; reflexivity].
  rewrite unlink_fold_events. reflexivity.
Qed.

Lemma remove_type_other r k j :
  j <> k ->
  manipulatormaptypes (config_update_remove_type r k) !! j
  = manipulatormaptypes r !! j.
Proof.
  intros Hne. unfold config_update_remove_type.
  destruct (manipulatormaptypes r !! k) as [mt|]; [|reflexivity].
  destruct (truthy _); [|reflexivity].
  rewrite unlink_fold_other by exact Hne. simpl.
  apply list_lookup_alter_ne. congruence.
Qed.

Lemma remove_loop_events (n i : nat) r :
  reg_events (fold_left config_update_remove_type (seq i n) r)
  = reg_events r ++ concat (map (removals_of r) (seq i n)).
Proof.
  revert i r. induction n as [|n IH]; intros i r; simpl.
  - rewrite app_nil_r. reflexivity.
  - rewrite IH, remove_type_events, <- app_assoc. do 3 f_equal.
    apply map_ext_in. intros j Hj. apply in_seq in Hj.
    unfold removals_of. rewrite remove_type_other by lia. reflexivity.
Qed.

Lemma unlink_fold_flag k (refs : list nat) r mt :
  manipulatormaptypes r !! k = Some mt ->
  exists mt',
    manipulatormaptypes
      (fold_left (fun r wgt => WM_manipulatormaptype_group_unlink k wgt r) refs r)
      !! k = Some mt' /\
    type_update_flag mt' = type_update_flag mt.
Proof.
  revert r mt. induction refs as [|wgt refs IH]; intros r mt Hk; simpl.
  - exists mt. split; [exact Hk|reflexivity].
  - destruct (IH (WM_manipulatormaptype_group_unlink k wgt r)
                (set_grouptype_refs mt (remove_first wgt (grouptype_refs mt))))
      as (mt' & Hmt' & Hflag).
    + simpl. rewrite list_lookup_alter_eq, Hk. reflexivity.
    + exists mt'. split; [exact Hmt'|exact Hflag].
Qed.

Lemma remove_type_flag r k mt :
  manipulatormaptypes r !! k = Some mt ->
  truthy (Z.land (type_update_flag mt)
                 WM_MANIPULATORMAPTYPE_GLOBAL_UPDATE_REMOVE) = true ->
  exists mt',
    manipulatormaptypes (config_update_remove_type r k) !! k = Some mt' /\
    type_update_flag mt' =
      Z.land (type_update_flag mt) (Z.lnot WM_MANIPULATORMAPTYPE_UPDATE_REMOVE).
Proof.
  intros Hk Hbit. unfold config_update_remove_type. rewrite Hk, Hbit.
  destruct (unlink_fold_flag k (grouptype_refs mt)
              (modify_maptype k (fun mt => set_type_update_flag mt
                 (Z.land (type_update_flag mt)
                         (Z.lnot WM_MANIPULATORMAPTYPE_UPDATE_REMOVE))) r)
              (set_type_update_flag mt
                 (Z.land (type_update_flag mt)
                         (Z.lnot WM_MANIPULATORMAPTYPE_UPDATE_REMOVE))))
    as (mt' & Hmt' & Hflag).
  - simpl. rewrite list_lookup_alter_eq, Hk. reflexivity.
  - exists mt'. split; [exact Hmt'|exact Hflag].
Qed.

Lemma remove_loop_other (n i : nat) r k :
  (k < i)%nat ->
  manipulatormaptypes (fold_left config_update_remove_type (seq i n) r) !! k
  = manipulatormaptypes r !! k.
Proof.
  revert i r. induction n as [|n IH]; intros i r Hk; simpl.
  - reflexivity.
  - rewrite IH by lia. apply remove_type_other. lia.
Qed.

Lemma remove_loop_flag (n i : nat) r k mt :
  (i <= k < i + n)%nat ->
  manipulatormaptypes r !! k = Some mt ->
  truthy (Z.land (type_update_flag mt)
                 WM_MANIPULATORMAPTYPE_GLOBAL_UPDATE_REMOVE) = true ->
  exists mt',
    manipulatormaptypes (fold_left config_update_remove_type (seq i n) r) !! k
      = Some mt' /\
    type_update_flag mt' =
      Z.land (type_update_flag mt) (Z.lnot WM_MANIPULATORMAPTYPE_UPDATE_REMOVE).
Proof.
  revert i r. induction n as [|n IH]; intros i r Hrange Hk Hbit; [lia|].
  simpl. destruct (decide (k = i)) as [->|Hne].
  - destruct (remove_type_flag r i mt Hk Hbit) as (mt' & Hmt' & Hflag).
    exists mt'. split; [|exact Hflag].
    rewrite remove_loop_other by lia. exact Hmt'.
  - apply IH; [lia| |exact Hbit].
    rewrite remove_type_other by exact Hne. exact Hk.
Qed.

Lemma config_update_remove_appends r :
  appends_only is_unlink_event r (config_update_remove r).
Proof.
  unfold config_update_remove. destruct (truthy _); [|apply appends_only_refl].
  match goal with
  | |- appends_only _ _ (set_global_flag ?x _) => apply (appends_only_trans _ _ x)
  end.
  - apply appends_only_fold. intros. apply remove_type_appends.
  - apply appends_only_same. reflexivity.
Qed.

Lemma flagged_emit_appends P r (b : bool) wgt f e :
  P e = true ->
  appends_only P r (if b then reg_emit (set_wgt_flag r wgt f) e else r).
Proof.
  intros He. destruct b; [|apply appends_only_refl].
  apply appends_only_emit_after; [reflexivity|exact He].
Qed.

Lemma init_ref_appends k r wgt :
  appends_only is_init_event r (config_update_init_ref k r wgt).
Proof.
  unfold config_update_init_ref.
  match goal with
  | |- appends_only _ _ (if _ then _ else ?x) => apply (appends_only_trans _ _ x)
  end.
  - apply flagged_emit_appends. reflexivity.
  - apply flagged_emit_appends. reflexivity.
Qed.

Lemma init_type_appends r k :
  appends_only is_init_event r (config_update_init_type r k).
Proof.
  unfold config_update_init_type.
  destruct (manipulatormaptypes r !! k) as [mt|]; [|apply appends_only_refl].
  destruct (truthy _); [|apply appends_only_refl].
  match goal with
  | |- appends_only _ _ (fold_left _ _ ?x) => apply (appends_only_trans _ _ x)
  end.
  - apply appends_only_same. reflexivity.
  - apply appends_only_fold. intros. apply init_ref_appends.
Qed.

Lemma config_update_init_appends r :
  appends_only is_init_event r (config_update_init r).
Proof.
  unfold config_update_init. destruct (truthy _); [|apply appends_only_refl].
  match goal with
  | |- appends_only _ _ (set_global_flag ?x _) => apply (appends_only_trans _ _ x)
  end.
  - apply appends_only_fold. intros. apply init_type_appends.
  - apply appends_only_same. reflexivity.
Qed.

(** The deferred-update flush changes nothing when the program runs
    headless or the global update flag is zero.  Otherwise its work splits
    in two: the removal loop over all map types runs to its end and only
    unlinks (when the global removal bit is set, it unlinks every
    group-type-ref of every map type that carries the removal bit and clears
    that bit of the map type), and only then the init loop runs and only
    builds keymaps and initializes runtime data; in the log every unlink
    comes before every init. *)
Theorem config_update_removes_before_init (r : Registry) :
  ((G_background r = true \/ wm_mmap_type_update_flag r = 0) ->
   WM_manipulatorconfig_update r = r) /\
  ((G_background r = false /\ wm_mmap_type_update_flag r <> 0) ->
   WM_manipulatorconfig_update r = config_update_init (config_update_remove r)) /\
  (truthy (Z.land (wm_mmap_type_update_flag r)
                  WM_MANIPULATORMAPTYPE_GLOBAL_UPDATE_REMOVE) = true ->
   reg_events (config_update_remove r) = reg_events r ++ pending_removals r /\
   forall k mt,
     manipulatormaptypes r !! k = Some mt ->
     truthy (Z.land (type_update_flag mt)
                    WM_MANIPULATORMAPTYPE_GLOBAL_UPDATE_REMOVE) = true ->
     exists mt',
       manipulatormaptypes (config_update_remove r) !! k = Some mt' /\
       type_update_flag mt' =
         Z.land (type_update_flag mt)
                (Z.lnot WM_MANIPULATORMAPTYPE_UPDATE_REMOVE)) /\
  (exists removals inits,
     reg_events (WM_manipulatorconfig_update r) = reg_events r ++ removals ++ inits /\
     forallb is_unlink_event removals = true /\
     forallb is_init_event inits = true).
Proof.
  assert (Hnoop : (G_background r = true \/ wm_mmap_type_update_flag r = 0) ->
                  WM_manipulatorconfig_update r = r).
  { unfold WM_manipulatorconfig_update. intros [Hb|Hz].
    - rewrite Hb. reflexivity.
    - rewrite Hz. destruct (G_background r); reflexivity. }
  assert (Hrun : (G_background r = false /\ wm_mmap_type_update_flag r <> 0) ->
     WM_manipulatorconfig_update r = config_update_init (config_update_remove r)).
  { unfold WM_manipulatorconfig_update. intros [Hb Hz]. rewrite Hb.
    destruct (Z.eqb_spec (wm_mmap_type_update_flag r) 0); [contradiction|reflexivity]. }
  split; [exact Hnoop|]. split; [exact Hrun|].
  split.
  { intros Hbit. unfold config_update_remove. rewrite Hbit. simpl. split.
    - apply remove_loop_events.
    - intros k mt Hk Hflag. apply remove_loop_flag; [|exact Hk|exact Hflag].
      apply lookup_lt_Some in Hk. lia. }
  destruct (G_background r) eqn:Hb.
  - exists [], []. rewrite Hnoop by (left; reflexivity).
    rewrite !app_nil_r. repeat split.
  - destruct (Z.eq_dec (wm_mmap_type_update_flag r) 0) as [Hz|Hz].
    + exists [], []. rewrite Hnoop by (right; exact Hz).
      rewrite !app_nil_r. repeat split.
    + rewrite Hrun by (split; [reflexivity|exact Hz]).
      destruct (config_update_remove_appends r) as (rm & Hrm & Prm).
      destruct (config_update_init_appends (config_update_remove r))
        as (ini & Hini & Pini).
      exists rm, ini. rewrite Hini, Hrm, app_assoc. repeat split; assumption.
Qed.

End ConfigUpdate.

(** The flush on the headless registry, although both global bits are set. *)
Lemma config_update_headless_witness :
  (G_background sample_registry_headless = true \/
   wm_mmap_type_update_flag sample_registry_headless = 0) /\
  @WM_manipulatorconfig_update sample_flags sample_registry_headless
    = sample_registry_headless.
Proof.
  assert (H : G_background sample_registry_headless = true \/
              wm_mmap_type_update_flag sample_registry_headless = 0)
    by (left; reflexivity).
  split; [exact H|].
  exact (proj1 (@config_update_removes_before_init sample_flags
                  sample_registry_headless) H).
Defined.

(** The flush on the tagged registry: the removal loop unlinks both
    group-type-refs of the map type, and the init loop then finds no ref
    left to initialize. *)
Example config_update_tagged :
  reg_events (@WM_manipulatorconfig_update sample_flags sample_registry_tagged)
    = [EvGroupUnlink 0 10; EvGroupUnlink 0 11] /\
  wm_mmap_type_update_flag
    (@WM_manipulatorconfig_update sample_flags sample_registry_tagged) = 0.
Proof. split; vm_compute; reflexivity. Qed.

(** C8 fails on the code.  Group type 10 is tagged for removal from its map
    type; group type 11, linked into the same map type, is not.  The flush
    unlinks both, and group type 10 still carries its removal bit
    afterwards: the removal loop tests and clears the bit of the map type
    only, where the init loop tests and clears the bits of each group
    type. *)
Theorem config_update_unlinks_untagged_ref :
  let r := sample_registry_remove_tagged in
  let r' := @WM_manipulatorconfig_update sample_flags r in
  G_background r = false /\
  wm_mmap_type_update_flag r = WM_MANIPULATORMAPTYPE_GLOBAL_UPDATE_REMOVE /\
  grouptype_refs <$> manipulatormaptypes r = [[10%nat; 11%nat]] /\
  type_update_flag <$> manipulatormaptypes r =
    [@WM_MANIPULATORMAPTYPE_UPDATE_REMOVE sample_flags] /\
  wgt_type_update_flag r 10%nat =
    @WM_MANIPULATORMAPTYPE_UPDATE_REMOVE sample_flags /\
  wgt_type_update_flag r 11%nat = 0 /\
  reg_events r' = [EvGroupUnlink 0 10; EvGroupUnlink 0 11] /\
  grouptype_refs <$> manipulatormaptypes r' = [[]] /\
  type_update_flag <$> manipulatormaptypes r' = [0] /\
  wgt_type_update_flag r' 10%nat =
    @WM_MANIPULATORMAPTYPE_UPDATE_REMOVE sample_flags /\
  wm_mmap_type_update_flag r' = 0.
Proof. repeat split; vm_compute; reflexivity. Qed.


(** ** Further properties *)

(** *** Runs with their exact log *)

Lemma land_clear_mono (s x y : Z) :
  Z.land s y = 0 -> Z.land (Z.land s (Z.lnot x)) y = 0.
Proof.
  intros H. apply Z.bits_inj'. intros n Hn.
  assert (Hb : Z.testbit (Z.land s y) n = false) by (rewrite H; apply Z.bits_0).
  rewrite Z.land_spec in Hb.
  rewrite !Z.land_spec, Z.lnot_spec, Z.bits_0 by lia.
  destruct (Z.testbit s n), (Z.testbit x n), (Z.testbit y n);
    simpl in *; congruence.
Qed.

Lemma with_log_nil (w : World) : with_log w [] = w.
Proof. unfold with_log. rewrite app_nil_r. apply world_eta. Qed.

Lemma with_log_app (w : World) (a b : list event) :
  with_log (with_log w a) b = with_log w (a ++ b).
Proof. unfold with_log. simpl. rewrite app_assoc. reflexivity. Qed.

Lemma heap_with_log (w : World) (evs : list event) : heap (with_log w evs) = heap w.
Proof. reflexivity. Qed.

Lemma mmap_with_log (w : World) (evs : list event) : mmap (with_log w evs) = mmap w.
Proof. reflexivity. Qed.

Lemma emit_run (e : event) (w : World) : emit e w = Ok (tt, with_log w [e]).
Proof. reflexivity. Qed.

Lemma bind_assoc {A B D} (m : M A) (f : A -> M B) (g : B -> M D) w :
  bind (bind m f) g w = bind m (fun a => bind (f a) g) w.
Proof.
  unfold bind. destruct (m w) as [[a w1]|e]; reflexivity.
Qed.

Lemma depth_test_after_app (on : bool) (a b : list event) :
  depth_test_after on (a ++ b) = depth_test_after (depth_test_after on a) b.
Proof. unfold depth_test_after. apply fold_left_app. Qed.


(** *** Map types: lookup and registration *)

Lemma maptype_find_ids (r : Registry) (space region : Z) (mt : wmManipulatorMapType) :
  WM_manipulatormaptype_find r space region = Some mt ->
  mt ∈ manipulatormaptypes r /\ spaceid mt = space /\ regionid mt = region.
Proof.
  unfold WM_manipulatormaptype_find. intros H.
  apply find_some in H as [Hin Hids].
  apply andb_true_iff in Hids as [Hs Hr].
  apply Z.eqb_eq in Hs. apply Z.eqb_eq in Hr.
  split; [apply list_elem_of_In; exact Hin|]. split; assumption.
Qed.

Lemma maptype_find_none (r : Registry) (space region : Z) :
  WM_manipulatormaptype_find r space region = None ->
  (space, region) ∉ maptype_key <$> manipulatormaptypes r.
Proof.
  unfold WM_manipulatormaptype_find. intros H Hin.
  apply list_elem_of_fmap in Hin as (mt & Hkey & Hmt).
  apply list_elem_of_In in Hmt.
  pose proof (find_none _ _ H mt Hmt) as Hf. simpl in Hf.
  unfold maptype_key in Hkey. injection Hkey as -> ->.
  rewrite !Z.eqb_refl in Hf. discriminate.
Qed.

(** X1: registering a map type: the type handed back carries the requested ids,
    a lookup of these ids in the new list finds that very type, and asking
    again hands back the same type without adding to the list. *)
Theorem maptype_ensure_registers (r : Registry) (space region : Z) :
  let mt := fst (WM_manipulatormaptype_ensure r space region) in
  let r' := snd (WM_manipulatormaptype_ensure r space region) in
  spaceid mt = space /\ regionid mt = region /\
  WM_manipulatormaptype_find r' space region = Some mt /\
  WM_manipulatormaptype_ensure r' space region = (mt, r').
Proof.
  unfold WM_manipulatormaptype_ensure.
  destruct (WM_manipulatormaptype_find r space region) as [mt|] eqn:Hfind; simpl.
  - destruct (maptype_find_ids _ _ _ _ Hfind) as (_ & Hs & Hr).
    rewrite Hfind. repeat split; assumption.
  - assert (Hnew : WM_manipulatormaptype_find
              (set_maptypes r
                 ({| spaceid := space; regionid := region; grouptype_refs := [];
                     type_update_flag := 0 |} :: manipulatormaptypes r))
              space region
            = Some {| spaceid := space; regionid := region; grouptype_refs := [];
                      type_update_flag := 0 |}).
    { unfold WM_manipulatormaptype_find. simpl. rewrite !Z.eqb_refl. reflexivity. }
    rewrite Hnew. repeat split; reflexivity.
Qed.

(** X2: registering one pair of ids does not change what a lookup of another
    pair finds. *)
Theorem maptype_ensure_keeps_other_lookups (r : Registry)
    (space region space' region' : Z)
    (Hother : (space', region') <> (space, region)) :
  WM_manipulatormaptype_find
    (snd (WM_manipulatormaptype_ensure r space region)) space' region'
  = WM_manipulatormaptype_find r space' region'.
Proof.
  unfold WM_manipulatormaptype_ensure.
  destruct (WM_manipulatormaptype_find r space region) as [mt|]; simpl;
    [reflexivity|].
  unfold WM_manipulatormaptype_find. simpl.
  destruct (Z.eqb_spec space space') as [->|Hs]; simpl; [|reflexivity].
  destruct (Z.eqb_spec region region') as [->|Hr]; simpl; [|reflexivity].
  contradiction Hother. reflexivity.
Qed.

(** X3: when no two map types of the list share their pair of ids, the same
    holds after a map type was registered. *)
Theorem maptype_ensure_keeps_ids_unique (r : Registry) (space region : Z)
    (Hunique : NoDup (maptype_key <$> manipulatormaptypes r)) :
  NoDup (maptype_key <$>
           manipulatormaptypes (snd (WM_manipulatormaptype_ensure r space region))).
Proof.
  unfold WM_manipulatormaptype_ensure.
  destruct (WM_manipulatormaptype_find r space region) as [mt|] eqn:Hfind; simpl;
    [exact Hunique|].
  apply NoDup_cons_2; [|exact Hunique].
  apply maptype_find_none. exact Hfind.
Qed.


(** A second pair of ids registered beside the one of the sample registry. *)
Lemma maptype_ensure_keeps_other_lookups_witness :
  (1, 1) <> (1, 2) /\
  WM_manipulatormaptype_find
    (snd (WM_manipulatormaptype_ensure sample_registry 1 2)) 1 1
  = WM_manipulatormaptype_find sample_registry 1 1.
Proof.
  assert (H : (1, 1) <> (1, 2)) by discriminate.
  split; [exact H|].
  exact (maptype_ensure_keeps_other_lookups sample_registry 1 2 1 1 H).
Defined.

Lemma maptype_ensure_keeps_ids_unique_witness :
  NoDup (maptype_key <$> manipulatormaptypes sample_registry) /\
  NoDup (maptype_key <$>
           manipulatormaptypes (snd (WM_manipulatormaptype_ensure sample_registry 1 2))).
Proof.
  assert (H : NoDup (maptype_key <$> manipulatormaptypes sample_registry)).
  { simpl. apply NoDup_singleton. }
  split; [exact H|].
  exact (maptype_ensure_keeps_ids_unique sample_registry 1 2 H).
Defined.


(** *** The flush of deferred updates, run after tagging *)

Section ConfigUpdateRuns.
Context `{FL : Flags}.

Lemma unlink_fold_globals k (refs : list nat) r :
  let r' := fold_left (fun r wgt => WM_manipulatormaptype_group_unlink k wgt r)
                      refs r in
  wm_mmap_type_update_flag r' = wm_mmap_type_update_flag r /\
  G_background r' = G_background r /\
  wgt_type_update_flag r' = wgt_type_update_flag r.
Proof.
  revert r. induction refs as [|wgt refs IH]; intros r; simpl.
  - repeat split.
  - destruct (IH (WM_manipulatormaptype_group_unlink k wgt r)) as (H1 & H2 & H3).
    rewrite H1, H2, H3. repeat split.
Qed.

Lemma remove_type_globals r k :
  wm_mmap_type_update_flag (config_update_remove_type r k)
    = wm_mmap_type_update_flag r /\
  G_background (config_update_remove_type r k) = G_background r /\
  wgt_type_update_flag (config_update_remove_type r k) = wgt_type_update_flag r.
Proof.
  unfold config_update_remove_type.
  destruct (manipulatormaptypes r !! k) as [mt|]; [|repeat split].
  destruct (truthy _); [|repeat split].
  match goal with
  | |- context [fold_left _ ?l ?x] =>
      destruct (unlink_fold_globals k l x) as (H1 & H2 & H3)
  end.
  rewrite H1, H2, H3. repeat split.
Qed.

Lemma remove_loop_globals (l : list nat) r :
  wm_mmap_type_update_flag (fold_left config_update_remove_type l r)
    = wm_mmap_type_update_flag r /\
  G_background (fold_left config_update_remove_type l r) = G_background r /\
  wgt_type_update_flag (fold_left config_update_remove_type l r)
    = wgt_type_update_flag r.
Proof.
  revert r. induction l as [|k l IH]; intros r; simpl.
  - repeat split.
  - destruct (IH (config_update_remove_type r k)) as (H1 & H2 & H3).
    destruct (remove_type_globals r k) as (G1 & G2 & G3).
    rewrite H1, H2, H3, G1, G2, G3. repeat split.
Qed.

Lemma init_ref_globals k r wgt :
  wm_mmap_type_update_flag (config_update_init_ref k r wgt)
    = wm_mmap_type_update_flag r /\
  G_background (config_update_init_ref k r wgt) = G_background r /\
  manipulatormaptypes (config_update_init_ref k r wgt) = manipulatormaptypes r.
Proof.
  unfold config_update_init_ref.
  destruct (truthy (Z.land (wgt_type_update_flag r wgt)
                           WM_MANIPULATORMAPTYPE_KEYMAP_INIT));
    match goal with
    | |- context [if ?c then _ else _] => destruct c
    end; repeat split.
Qed.

Lemma init_refs_globals k (l : list nat) r :
  wm_mmap_type_update_flag (fold_left (config_update_init_ref k) l r)
    = wm_mmap_type_update_flag r /\
  G_background (fold_left (config_update_init_ref k) l r) = G_background r /\
  manipulatormaptypes (fold_left (config_update_init_ref k) l r)
    = manipulatormaptypes r.
Proof.
  revert r. induction l as [|wgt l IH]; intros r; simpl.
  - repeat split.
  - destruct (IH (config_update_init_ref k r wgt)) as (H1 & H2 & H3).
    destruct (init_ref_globals k r wgt) as (G1 & G2 & G3).
    rewrite H1, H2, H3, G1, G2, G3. repeat split.
Qed.

Lemma init_type_globals r k :
  wm_mmap_type_update_flag (config_update_init_type r k)
    = wm_mmap_type_update_flag r /\
  G_background (config_update_init_type r k) = G_background r.
Proof.
  unfold config_update_init_type.
  destruct (manipulatormaptypes r !! k) as [mt|]; [|repeat split].
  destruct (truthy _); [|repeat split].
  match goal with
  | |- context [fold_left _ ?l ?x] =>
      destruct (init_refs_globals k l x) as (H1 & H2 & _)
  end.
  rewrite H1, H2. repeat split.
Qed.

Lemma init_loop_globals (l : list nat) r :
  wm_mmap_type_update_flag (fold_left config_update_init_type l r)
    = wm_mmap_type_update_flag r /\
  G_background (fold_left config_update_init_type l r) = G_background r.
Proof.
  revert r. induction l as [|k l IH]; intros r; simpl.
  - repeat split.
  - destruct (IH (config_update_init_type r k)) as (H1 & H2).
    destruct (init_type_globals r k) as (G1 & G2).
    rewrite H1, H2, G1, G2. repeat split.
Qed.

Lemma config_update_remove_globals r :
  wm_mmap_type_update_flag (config_update_remove r) =
    (if truthy (Z.land (wm_mmap_type_update_flag r)
                       WM_MANIPULATORMAPTYPE_GLOBAL_UPDATE_REMOVE)
     then char_of_int (Z.land (wm_mmap_type_update_flag r)
                              (Z.lnot WM_MANIPULATORMAPTYPE_GLOBAL_UPDATE_REMOVE))
     else wm_mmap_type_update_flag r) /\
  G_background (config_update_remove r) = G_background r /\
  wgt_type_update_flag (config_update_remove r) = wgt_type_update_flag r.
Proof.
  unfold config_update_remove.
  destruct (truthy _); [|repeat split].
  match goal with
  | |- context [fold_left _ ?l ?x] =>
      destruct (remove_loop_globals l x) as (H1 & H2 & H3)
  end.
  simpl. rewrite H1, H2, H3. repeat split.
Qed.

Lemma config_update_init_globals r :
  wm_mmap_type_update_flag (config_update_init r) =
    (if truthy (Z.land (wm_mmap_type_update_flag r)
                       WM_MANIPULATORMAPTYPE_GLOBAL_UPDATE_INIT)
     then char_of_int (Z.land (wm_mmap_type_update_flag r)
                              (Z.lnot WM_MANIPULATORMAPTYPE_GLOBAL_UPDATE_INIT))
     else wm_mmap_type_update_flag r) /\
  G_background (config_update_init r) = G_background r.
Proof.
  unfold config_update_init.
  destruct (truthy _); [|repeat split].
  match goal with
  | |- context [fold_left _ ?l ?x] =>
      destruct (init_loop_globals l x) as (H1 & H2)
  end.
  simpl. rewrite H1, H2. repeat split.
Qed.

Lemma config_update_flag_zero (r : Registry) :
  0 <= wm_mmap_type_update_flag r <= 3 ->
  G_background r = false ->
  wm_mmap_type_update_flag (WM_manipulatorconfig_update r) = 0 /\
  G_background (WM_manipulatorconfig_update r) = false.
Proof.
  intros Hrange Hb. unfold WM_manipulatorconfig_update. rewrite Hb.
  destruct (Z.eqb_spec (wm_mmap_type_update_flag r) 0) as [Hz|Hnz];
    [split; assumption|].
  destruct (config_update_init_globals (config_update_remove r)) as (H1 & H2).
  destruct (config_update_remove_globals r) as (G1 & G2 & _).
  rewrite H1, H2, G1, G2. split; [|exact Hb].
  assert (Hcases : wm_mmap_type_update_flag r = 1 \/
                   wm_mmap_type_update_flag r = 2 \/
                   wm_mmap_type_update_flag r = 3) by lia.
  destruct Hcases as [-> | [-> | ->]]; reflexivity.
Qed.

(** X4: the global flag after a flush that is not headless: both bits are gone,
    so a flush that follows at once has nothing to do.  The flag only ever
    holds the two global bits. *)
Theorem config_update_settles (r : Registry)
    (Hrange : 0 <= wm_mmap_type_update_flag r <= 3) :
  (G_background r = false ->
   wm_mmap_type_update_flag (WM_manipulatorconfig_update r) = 0) /\
  WM_manipulatorconfig_update (WM_manipulatorconfig_update r)
    = WM_manipulatorconfig_update r.
Proof.
  split; [intros Hb; apply config_update_flag_zero; assumption|].
  destruct (G_background r) eqn:Hb.
  - unfold WM_manipulatorconfig_update. rewrite Hb. simpl. rewrite Hb. reflexivity.
  - destruct (config_update_flag_zero r Hrange Hb) as (Hz & Hb').
    unfold WM_manipulatorconfig_update at 1. rewrite Hb', Hz. reflexivity.
Qed.

(** X5: the global flag holds nothing but the two global bits: when it does
    before a tag or a flush, it does after it; and after a tag it is not
    zero, so the next flush that is not headless runs. *)
Theorem global_update_flag_two_bits (r : Registry) (k wgt : nat)
    (Hrange : 0 <= wm_mmap_type_update_flag r <= 3) :
  (0 < wm_mmap_type_update_flag (WM_manipulatorconfig_update_tag_init k wgt r) <= 3) /\
  (0 < wm_mmap_type_update_flag (WM_manipulatorconfig_update_tag_remove k wgt r)
     <= 3) /\
  (0 <= wm_mmap_type_update_flag (WM_manipulatorconfig_update r) <= 3).
Proof.
  assert (Hcases : wm_mmap_type_update_flag r = 0 \/
                   wm_mmap_type_update_flag r = 1 \/
                   wm_mmap_type_update_flag r = 2 \/
                   wm_mmap_type_update_flag r = 3) by lia.
  split; [|split].
  - unfold WM_manipulatorconfig_update_tag_init. cbn [wm_mmap_type_update_flag
      set_global_flag set_wgt_flag modify_maptype set_maptypes].
    destruct Hcases as [-> | [-> | [-> | ->]]]; vm_compute; split; congruence.
  - unfold WM_manipulatorconfig_update_tag_remove. cbn [wm_mmap_type_update_flag
      set_global_flag set_wgt_flag modify_maptype set_maptypes].
    destruct Hcases as [-> | [-> | [-> | ->]]]; vm_compute; split; congruence.
  - destruct (G_background r) eqn:Hb.
    + unfold WM_manipulatorconfig_update. rewrite Hb. exact Hrange.
    + destruct (config_update_flag_zero r Hrange Hb) as (Hz & _).
      rewrite Hz. lia.
Qed.

End ConfigUpdateRuns.

(** The flush of the tagged sample registry, run twice. *)
Lemma config_update_settles_witness :
  0 <= wm_mmap_type_update_flag sample_registry_tagged <= 3 /\
  wm_mmap_type_update_flag
    (@WM_manipulatorconfig_update sample_flags sample_registry_tagged) = 0 /\
  @WM_manipulatorconfig_update sample_flags
    (@WM_manipulatorconfig_update sample_flags sample_registry_tagged)
  = @WM_manipulatorconfig_update sample_flags sample_registry_tagged.
Proof.
  assert (H : 0 <= wm_mmap_type_update_flag sample_registry_tagged <= 3)
    by (vm_compute; split; discriminate).
  split; [exact H|].
  destruct (@config_update_settles sample_flags sample_registry_tagged H)
    as (Hz & Htwice).
  split; [apply Hz; reflexivity|exact Htwice].
Defined.

(** Tagging on the sample registry, whose global flag is zero. *)
Lemma global_update_flag_two_bits_witness :
  0 <= wm_mmap_type_update_flag sample_registry <= 3 /\
  0 < wm_mmap_type_update_flag
        (@WM_manipulatorconfig_update_tag_init sample_flags 0 10 sample_registry)
    <= 3.
Proof.
  assert (H : 0 <= wm_mmap_type_update_flag sample_registry <= 3)
    by (vm_compute; split; discriminate).
  split; [exact H|].
  exact (proj1 (@global_update_flag_two_bits sample_flags sample_registry 0 10 H)).
Defined.

(** *** No group type is initialized twice by one flush *)

Section InitOnce.
Context `{FL : Flags}.

Lemma spends_refl P bits wgt r : spends P bits wgt r r.
Proof. exists []. rewrite app_nil_r. split; [reflexivity|simpl; lia]. Qed.

Lemma spends_trans P bits wgt r1 r2 r3 :
  spends P bits wgt r1 r2 -> spends P bits wgt r2 r3 -> spends P bits wgt r1 r3.
Proof.
  intros (e1 & H1 & B1) (e2 & H2 & B2). exists (e1 ++ e2).
  rewrite H2, H1, app_assoc. split; [reflexivity|].
  rewrite List.filter_app, length_app. lia.
Qed.

Lemma spends_fold {A} P bits wgt (f : Registry -> A -> Registry) (l : list A) :
  (forall r x, spends P bits wgt r (f r x)) ->
  forall r, spends P bits wgt r (fold_left f l r).
Proof.
  intros Hf. induction l as [|x l IH]; intros r; simpl.
  - apply spends_refl.
  - eapply spends_trans; [apply Hf|apply IH].
Qed.

(** A step that leaves the log and the flag words of the group types. *)
Lemma spends_same P bits wgt r r' :
  reg_events r' = reg_events r ->
  wgt_type_update_flag r' = wgt_type_update_flag r ->
  spends P bits wgt r r'.
Proof.
  intros He Hf. exists []. rewrite app_nil_r. split; [exact He|].
  unfold pending_bit. rewrite Hf. simpl. lia.
Qed.

(** A step that only logs events outside [P] and leaves the flag words. *)
Lemma spends_outside P Q bits wgt r r' :
  appends_only Q r r' ->
  (forall e, Q e = true -> P e = false) ->
  wgt_type_update_flag r' = wgt_type_update_flag r ->
  spends P bits wgt r r'.
Proof.
  intros (evs & He & HQ) Hout Hf. exists evs. split; [exact He|].
  assert (Hnone : List.filter P evs = []).
  { clear He. induction evs as [|e evs IH]; [reflexivity|].
    simpl in HQ. apply andb_true_iff in HQ as [He HQ].
    simpl. rewrite (Hout e He). apply IH. exact HQ. }
  rewrite Hnone. unfold pending_bit. rewrite Hf. simpl. lia.
Qed.

(** Clearing the bits [x] of group type [g] and logging [e]: when [e]
    satisfies [P], it is group type [wgt] whose bits [bits] are cleared. *)
Lemma spends_clear P bits wgt r g x e :
  (P e = true -> g = wgt /\ x = bits /\
                 truthy (Z.land (wgt_type_update_flag r g) x) = true) ->
  spends P bits wgt r
    (reg_emit (set_wgt_flag r g (Z.land (wgt_type_update_flag r g) (Z.lnot x))) e).
Proof.
  intros HP. exists [e]. split; [reflexivity|].
  unfold pending_bit. simpl.
  destruct (P e) eqn:He.
  - destruct (HP eq_refl) as (-> & -> & Harmed).
    rewrite fn_lookup_insert, land_clear, Harmed. simpl. lia.
  - simpl. destruct (decide (g = wgt)) as [->|Hne].
    + rewrite fn_lookup_insert.
      destruct (truthy (Z.land (wgt_type_update_flag r wgt) bits)) eqn:Hold.
      * match goal with
        | |- context [if ?c then _ else _] => destruct c
        end; simpl; lia.
      * apply negb_false_iff, Z.eqb_eq in Hold.
        rewrite (land_clear_mono _ x _ Hold). simpl. lia.
    + rewrite fn_lookup_insert_ne by exact Hne. lia.
Qed.

Lemma init_ref_spends_keymap wgt k r g :
  spends (is_keymap_init_of wgt) WM_MANIPULATORMAPTYPE_KEYMAP_INIT wgt r
         (config_update_init_ref k r g).
Proof.
  unfold config_update_init_ref.
  set (r1 := if truthy (Z.land (wgt_type_update_flag r g)
                               WM_MANIPULATORMAPTYPE_KEYMAP_INIT)
             then reg_emit
                    (set_wgt_flag r g
                       (Z.land (wgt_type_update_flag r g)
                               (Z.lnot WM_MANIPULATORMAPTYPE_KEYMAP_INIT)))
                    (EvInitRuntimeKeymap g)
             else r).
  apply (spends_trans _ _ _ _ r1).
  - unfold r1.
    destruct (truthy (Z.land (wgt_type_update_flag r g)
                             WM_MANIPULATORMAPTYPE_KEYMAP_INIT)) eqn:Harmed;
      [|apply spends_refl].
    apply spends_clear. simpl. intros Hg. apply Nat.eqb_eq in Hg.
    split; [exact Hg|]. split; [reflexivity|exact Harmed].
  - destruct (truthy (Z.land (wgt_type_update_flag r1 g)
                             WM_MANIPULATORMAPTYPE_UPDATE_INIT));
      [|apply spends_refl].
    apply spends_clear. simpl. discriminate.
Qed.

Lemma init_ref_spends_runtime wgt k r g :
  spends (is_runtime_init_of wgt) WM_MANIPULATORMAPTYPE_UPDATE_INIT wgt r
         (config_update_init_ref k r g).
Proof.
  unfold config_update_init_ref.
  set (r1 := if truthy (Z.land (wgt_type_update_flag r g)
                               WM_MANIPULATORMAPTYPE_KEYMAP_INIT)
             then reg_emit
                    (set_wgt_flag r g
                       (Z.land (wgt_type_update_flag r g)
                               (Z.lnot WM_MANIPULATORMAPTYPE_KEYMAP_INIT)))
                    (EvInitRuntimeKeymap g)
             else r).
  apply (spends_trans _ _ _ _ r1).
  - unfold r1.
    destruct (truthy (Z.land (wgt_type_update_flag r g)
                             WM_MANIPULATORMAPTYPE_KEYMAP_INIT));
      [|apply spends_refl].
    apply spends_clear. simpl. discriminate.
  - destruct (truthy (Z.land (wgt_type_update_flag r1 g)
                             WM_MANIPULATORMAPTYPE_UPDATE_INIT)) eqn:Harmed;
      [|apply spends_refl].
    apply spends_clear. simpl. intros Hg. apply Nat.eqb_eq in Hg.
    split; [exact Hg|]. split; [reflexivity|exact Harmed].
Qed.

Lemma config_update_spends P bits wgt r :
  (forall k r g, spends P bits wgt r (config_update_init_ref k r g)) ->
  (forall e, is_unlink_event e = true -> P e = false) ->
  spends P bits wgt r (WM_manipulatorconfig_update r).
Proof.
  intros Href Hout. unfold WM_manipulatorconfig_update.
  destruct (G_background r); [apply spends_refl|].
  destruct (wm_mmap_type_update_flag r =? 0); [apply spends_refl|].
  apply (spends_trans _ _ _ _ (config_update_remove r)).
  - eapply spends_outside; [apply config_update_remove_appends|exact Hout|].
    apply config_update_remove_globals.
  - unfold config_update_init. destruct (truthy _); [|apply spends_refl].
    match goal with
    | |- spends _ _ _ _ (set_global_flag ?x _) => apply (spends_trans _ _ _ _ x)
    end; [|apply spends_same; reflexivity].
    apply spends_fold. intros r1 k. unfold config_update_init_type.
    destruct (manipulatormaptypes r1 !! k) as [mt|]; [|apply spends_refl].
    destruct (truthy _); [|apply spends_refl].
    match goal with
    | |- spends _ _ _ _ (fold_left _ _ ?x) => apply (spends_trans _ _ _ _ x)
    end; [apply spends_same; reflexivity|].
    apply spends_fold. intros r2 g. apply Href.
Qed.

(** X6: in the log of one flush the keymap initialization of a group type occurs
    at most once, and so does its runtime initialization, however many
    group-type-refs of however many map types point to the group type. *)
Theorem config_update_inits_once (r : Registry) (wgt : nat) :
  (exists evs,
     reg_events (WM_manipulatorconfig_update r) = reg_events r ++ evs /\
     (length (List.filter (is_keymap_init_of wgt) evs) <= 1)%nat) /\
  (exists evs,
     reg_events (WM_manipulatorconfig_update r) = reg_events r ++ evs /\
     (length (List.filter (is_runtime_init_of wgt) evs) <= 1)%nat).
Proof.
  assert (Hbound : forall bits r', (pending_bit bits wgt r' <= 1)%nat).
  { intros bits r'. unfold pending_bit. destruct (truthy _); lia. }
  split.
  - destruct (config_update_spends (is_keymap_init_of wgt)
                WM_MANIPULATORMAPTYPE_KEYMAP_INIT wgt r) as (evs & He & Hc).
    + intros. apply init_ref_spends_keymap.
    + intros [] He; (discriminate || reflexivity).
    + exists evs. split; [exact He|].
      pose proof (Hbound WM_MANIPULATORMAPTYPE_KEYMAP_INIT r). lia.
  - destruct (config_update_spends (is_runtime_init_of wgt)
                WM_MANIPULATORMAPTYPE_UPDATE_INIT wgt r) as (evs & He & Hc).
    + intros. apply init_ref_spends_runtime.
    + intros [] He; (discriminate || reflexivity).
    + exists evs. split; [exact He|].
      pose proof (Hbound WM_MANIPULATORMAPTYPE_UPDATE_INIT r). lia.
Qed.

End InitOnce.

(** *** Tagging a group type for initialization, then flushing *)

Section TagThenFlush.
Context `{FL : Flags}.

Lemma land_lor_split (x u k : Z) :
  Z.land x (Z.lor u k) = 0 -> Z.land x u = 0 /\ Z.land x k = 0.
Proof.
  rewrite Z.land_lor_distr_r. intros H. apply Z.lor_eq_0_iff in H. exact H.
Qed.

Lemma land_lor_join (x u k : Z) :
  Z.land x u = 0 -> Z.land x k = 0 -> Z.land x (Z.lor u k) = 0.
Proof.
  intros Hu Hk. rewrite Z.land_lor_distr_r, Hu, Hk. reflexivity.
Qed.

Lemma lor_byte (u k : Z) :
  0 < u < 256 -> 0 < k < 256 -> 0 < Z.lor u k < 256.
Proof.
  intros Hu Hk.
  assert (Hnn : 0 <= Z.lor u k) by (apply Z.lor_nonneg; lia).
  assert (Hnz : Z.lor u k <> 0).
  { intros Hz. apply Z.lor_eq_0_iff in Hz. lia. }
  split; [lia|].
  change 256 with (2 ^ 8). apply Z.log2_lt_pow2; [lia|].
  rewrite Z.log2_lor by lia.
  assert (Z.log2 u < 8) by (apply Z.log2_lt_pow2; [lia|simpl; lia]).
  assert (Z.log2 k < 8) by (apply Z.log2_lt_pow2; [lia|simpl; lia]).
  lia.
Qed.

(** An untagged group-type-ref is passed over. *)
Lemma init_ref_untagged k r g :
  Z.land (wgt_type_update_flag r g) WM_MANIPULATORMAPTYPE_KEYMAP_INIT = 0 ->
  Z.land (wgt_type_update_flag r g) WM_MANIPULATORMAPTYPE_UPDATE_INIT = 0 ->
  config_update_init_ref k r g = r.
Proof.
  intros HK HU. unfold config_update_init_ref, truthy.
  rewrite HK. simpl. rewrite HU. reflexivity.
Qed.

Lemma init_refs_untagged k (l : list nat) r :
  (forall g, g ∈ l ->
     Z.land (wgt_type_update_flag r g) WM_MANIPULATORMAPTYPE_KEYMAP_INIT = 0 /\
     Z.land (wgt_type_update_flag r g) WM_MANIPULATORMAPTYPE_UPDATE_INIT = 0) ->
  fold_left (config_update_init_ref k) l r = r.
Proof.
  induction l as [|g l IH]; intros H; simpl; [reflexivity|].
  destruct (H g) as [HK HU]; [left|].
  rewrite (init_ref_untagged k r g HK HU). apply IH.
  intros g' Hg'. apply H. right. exact Hg'.
Qed.

(** A map type without init bits is passed over. *)
Lemma init_type_untagged r j :
  (forall mt, manipulatormaptypes r !! j = Some mt ->
     Z.land (type_update_flag mt)
            (uchar_of_int (Z.lor WM_MANIPULATORMAPTYPE_UPDATE_INIT
                                 WM_MANIPULATORMAPTYPE_KEYMAP_INIT)) = 0) ->
  config_update_init_type r j = r.
Proof.
  intros H. unfold config_update_init_type.
  destruct (manipulatormaptypes r !! j) as [mt|]; [|reflexivity].
  unfold truthy. rewrite (H mt eq_refl). reflexivity.
Qed.

Lemma init_types_untagged (l : list nat) r :
  (forall j mt, j ∈ l -> manipulatormaptypes r !! j = Some mt ->
     Z.land (type_update_flag mt)
            (uchar_of_int (Z.lor WM_MANIPULATORMAPTYPE_UPDATE_INIT
                                 WM_MANIPULATORMAPTYPE_KEYMAP_INIT)) = 0) ->
  fold_left config_update_init_type l r = r.
Proof.
  induction l as [|j l IH]; intros H; simpl; [reflexivity|].
  rewrite init_type_untagged.
  - apply IH. intros j' mt Hj'. apply H. right. exact Hj'.
  - intros mt. apply H. left.
Qed.

(** The inner loop over the refs of a map type when exactly group type
    [wgt] carries both init bits: the first ref to [wgt] gets the keymap
    initialization and then the runtime initialization; the others are
    passed over. *)
Lemma init_refs_single k wgt (l : list nat) r :
  Z.land WM_MANIPULATORMAPTYPE_UPDATE_INIT WM_MANIPULATORMAPTYPE_KEYMAP_INIT = 0 ->
  WM_MANIPULATORMAPTYPE_UPDATE_INIT <> 0 ->
  WM_MANIPULATORMAPTYPE_KEYMAP_INIT <> 0 ->
  Z.land (wgt_type_update_flag r wgt) WM_MANIPULATORMAPTYPE_KEYMAP_INIT
    = WM_MANIPULATORMAPTYPE_KEYMAP_INIT ->
  Z.land (wgt_type_update_flag r wgt) WM_MANIPULATORMAPTYPE_UPDATE_INIT
    = WM_MANIPULATORMAPTYPE_UPDATE_INIT ->
  (forall g, g <> wgt ->
     Z.land (wgt_type_update_flag r g) WM_MANIPULATORMAPTYPE_KEYMAP_INIT = 0 /\
     Z.land (wgt_type_update_flag r g) WM_MANIPULATORMAPTYPE_UPDATE_INIT = 0) ->
  wgt ∈ l ->
  let r' := fold_left (config_update_init_ref k) l r in
  reg_events r' = reg_events r ++ [EvInitRuntimeKeymap wgt; EvInitRuntime k wgt] /\
  (forall g,
     Z.land (wgt_type_update_flag r' g) WM_MANIPULATORMAPTYPE_KEYMAP_INIT = 0 /\
     Z.land (wgt_type_update_flag r' g) WM_MANIPULATORMAPTYPE_UPDATE_INIT = 0).
Proof.
  intros Hdisj HUnz HKnz HK HU Hothers. induction l as [|g l IH]; intros Hin.
  - apply elem_of_nil in Hin. contradiction.
  - destruct (decide (g = wgt)) as [->|Hne].
    + clear IH Hin. simpl.
      (* the step on the tagged group type *)
      set (F := wgt_type_update_flag r wgt) in *.
      set (r1 := reg_emit
                   (set_wgt_flag r wgt
                      (Z.land F (Z.lnot WM_MANIPULATORMAPTYPE_KEYMAP_INIT)))
                   (EvInitRuntimeKeymap wgt)).
      set (r2 := reg_emit
                   (set_wgt_flag r1 wgt
                      (Z.land (wgt_type_update_flag r1 wgt)
                              (Z.lnot WM_MANIPULATORMAPTYPE_UPDATE_INIT)))
                   (EvInitRuntime k wgt)).
      assert (HF1 : wgt_type_update_flag r1 wgt =
                    Z.land F (Z.lnot WM_MANIPULATORMAPTYPE_KEYMAP_INIT)).
      { unfold r1. simpl. apply fn_lookup_insert. }
      assert (HU1 : Z.land (wgt_type_update_flag r1 wgt)
                           WM_MANIPULATORMAPTYPE_UPDATE_INIT
                    = WM_MANIPULATORMAPTYPE_UPDATE_INIT).
      { rewrite HF1, land_clear_other; [exact HU|].
        rewrite Z.land_comm. exact Hdisj. }
      assert (Hstep : config_update_init_ref k r wgt = r2).
      { unfold config_update_init_ref. fold F.
        assert (HtK : truthy (Z.land F WM_MANIPULATORMAPTYPE_KEYMAP_INIT) = true).
        { rewrite HK. apply truthy_true. exact HKnz. }
        rewrite HtK. fold r1.
        assert (HtU : truthy (Z.land (wgt_type_update_flag r1 wgt)
                                WM_MANIPULATORMAPTYPE_UPDATE_INIT) = true).
        { rewrite HU1. apply truthy_true. exact HUnz. }
        rewrite HtU. reflexivity. }
      rewrite Hstep.
      assert (Hclean : forall g,
        Z.land (wgt_type_update_flag r2 g) WM_MANIPULATORMAPTYPE_KEYMAP_INIT = 0 /\
        Z.land (wgt_type_update_flag r2 g) WM_MANIPULATORMAPTYPE_UPDATE_INIT = 0).
      { intros g. unfold r2. simpl.
        destruct (decide (g = wgt)) as [->|Hne].
        - rewrite fn_lookup_insert. split; [|apply land_clear].
          rewrite land_clear_other by exact Hdisj.
          try rewrite HF1; try rewrite fn_lookup_insert. apply land_clear.
        - rewrite fn_lookup_insert_ne by congruence.
          unfold r1. simpl. rewrite fn_lookup_insert_ne by congruence.
          apply Hothers. exact Hne. }
      rewrite init_refs_untagged by (intros; apply Hclean).
      split; [|exact Hclean].
      unfold r2, r1. simpl. rewrite <- app_assoc. reflexivity.
    + simpl. destruct (Hothers g Hne) as [HgK HgU].
      rewrite (init_ref_untagged k r g HgK HgU). apply IH.
      apply elem_of_cons in Hin as [->|Hin]; [contradiction|exact Hin].
Qed.

Lemma init_type_other r k j :
  j <> k ->
  manipulatormaptypes (config_update_init_type r k) !! j
  = manipulatormaptypes r !! j.
Proof.
  intros Hne. unfold config_update_init_type.
  destruct (manipulatormaptypes r !! k) as [mt|]; [|reflexivity].
  destruct (truthy _); [|reflexivity].
  match goal with
  | |- context [fold_left _ ?l ?x] =>
      destruct (init_refs_globals k l x) as (_ & _ & H3)
  end.
  rewrite H3. simpl. apply list_lookup_alter_ne. congruence.
Qed.

(** The outer loop when only the map type at position [k] is tagged. *)
Lemma init_loop_single (n k : nat) r :
  (k < n)%nat ->
  (forall j mt, j <> k -> manipulatormaptypes r !! j = Some mt ->
     Z.land (type_update_flag mt)
            (uchar_of_int (Z.lor WM_MANIPULATORMAPTYPE_UPDATE_INIT
                                 WM_MANIPULATORMAPTYPE_KEYMAP_INIT)) = 0) ->
  fold_left config_update_init_type (seq 0 n) r = config_update_init_type r k.
Proof.
  intros Hk Hothers.
  assert (Hseq : seq 0 n = seq 0 k ++ k :: seq (S k) (n - S k)).
  { replace n with (k + S (n - S k))%nat at 1 by lia.
    rewrite seq_app. reflexivity. }
  rewrite Hseq, fold_left_app. simpl.
  rewrite (init_types_untagged (seq 0 k) r).
  - apply init_types_untagged.
    intros j mt Hj Hmt. apply list_elem_of_In, in_seq in Hj.
    rewrite init_type_other in Hmt by lia.
    apply (Hothers j mt); [lia|exact Hmt].
  - intros j mt Hj Hmt. apply list_elem_of_In, in_seq in Hj.
    apply (Hothers j mt); [lia|exact Hmt].
Qed.

(** X7: on a registry with nothing pending, tagging the group type [wgt] of the
    map type at position [k] for initialization and then flushing runs the
    keymap initialization of [wgt] and then its runtime initialization for
    that map type, each once, and leaves nothing pending again. *)
Theorem tag_init_then_update (r : Registry) (k wgt : nat) (mt : wmManipulatorMapType)
    (HU : 0 < WM_MANIPULATORMAPTYPE_UPDATE_INIT < 256)
    (HK : 0 < WM_MANIPULATORMAPTYPE_KEYMAP_INIT < 256)
    (Hdisj : Z.land WM_MANIPULATORMAPTYPE_UPDATE_INIT
                    WM_MANIPULATORMAPTYPE_KEYMAP_INIT = 0)
    (Hfg : G_background r = false)
    (Hglobal : wm_mmap_type_update_flag r = 0)
    (Htypes : forall j mt', manipulatormaptypes r !! j = Some mt' ->
       Z.land (type_update_flag mt')
              (Z.lor WM_MANIPULATORMAPTYPE_UPDATE_INIT
                     WM_MANIPULATORMAPTYPE_KEYMAP_INIT) = 0)
    (Hwgts : forall g,
       Z.land (wgt_type_update_flag r g)
              (Z.lor WM_MANIPULATORMAPTYPE_UPDATE_INIT
                     WM_MANIPULATORMAPTYPE_KEYMAP_INIT) = 0)
    (Hk : manipulatormaptypes r !! k = Some mt)
    (Hlinked : wgt ∈ grouptype_refs mt) :
  let r' := WM_manipulatorconfig_update
              (WM_manipulatorconfig_update_tag_init k wgt r) in
  reg_events r' = reg_events r ++ [EvInitRuntimeKeymap wgt; EvInitRuntime k wgt] /\
  wm_mmap_type_update_flag r' = 0 /\
  (forall j mt', manipulatormaptypes r' !! j = Some mt' ->
     Z.land (type_update_flag mt')
            (Z.lor WM_MANIPULATORMAPTYPE_UPDATE_INIT
                   WM_MANIPULATORMAPTYPE_KEYMAP_INIT) = 0) /\
  (forall g,
     Z.land (wgt_type_update_flag r' g)
            (Z.lor WM_MANIPULATORMAPTYPE_UPDATE_INIT
                   WM_MANIPULATORMAPTYPE_KEYMAP_INIT) = 0).
Proof.
  set (U := WM_MANIPULATORMAPTYPE_UPDATE_INIT) in *.
  set (K := WM_MANIPULATORMAPTYPE_KEYMAP_INIT) in *.
  pose proof (lor_byte U K HU HK) as HUK.
  assert (Huchar : uchar_of_int (Z.lor U K) = Z.lor U K).
  { unfold uchar_of_int. apply Z.mod_small. lia. }
  (* the registry after tagging *)
  set (rt := WM_manipulatorconfig_update_tag_init k wgt r).
  set (mtk := set_type_update_flag mt (Z.lor (type_update_flag mt) (Z.lor U K))).
  assert (Hrt_types : manipulatormaptypes rt
                      = alter (fun mt => set_type_update_flag mt
                                 (Z.lor (type_update_flag mt) (Z.lor U K))) k
                              (manipulatormaptypes r)) by reflexivity.
  assert (Hrt_k : manipulatormaptypes rt !! k = Some mtk).
  { rewrite Hrt_types, list_lookup_alter_eq, Hk. reflexivity. }
  assert (Hrt_other : forall j, j <> k ->
            manipulatormaptypes rt !! j = manipulatormaptypes r !! j).
  { intros j Hj. rewrite Hrt_types. apply list_lookup_alter_ne. congruence. }
  assert (Hrt_wgt : wgt_type_update_flag rt wgt
                    = Z.lor (wgt_type_update_flag r wgt) (Z.lor U K)).
  { unfold rt, WM_manipulatorconfig_update_tag_init. simpl.
    apply fn_lookup_insert. }
  assert (Hrt_wgts : forall g, g <> wgt ->
            wgt_type_update_flag rt g = wgt_type_update_flag r g).
  { intros g Hg. unfold rt, WM_manipulatorconfig_update_tag_init. simpl.
    apply fn_lookup_insert_ne. congruence. }
  assert (Hrt_flag : wm_mmap_type_update_flag rt = 1).
  { unfold rt, WM_manipulatorconfig_update_tag_init. simpl.
    rewrite Hglobal. reflexivity. }
  assert (Hrt_bg : G_background rt = false) by exact Hfg.
  assert (Hrt_events : reg_events rt = reg_events r) by reflexivity.
  (* the flush only runs the init loop *)
  assert (Hflush : WM_manipulatorconfig_update rt
                   = set_global_flag
                       (fold_left config_update_init_type
                          (seq 0 (length (manipulatormaptypes rt))) rt) 0).
  { destruct (init_loop_globals (seq 0 (length (manipulatormaptypes rt))) rt)
      as (Hg & _).
    unfold WM_manipulatorconfig_update. rewrite Hrt_bg, Hrt_flag.
    change (1 =? 0) with false. cbv iota.
    unfold config_update_remove. rewrite Hrt_flag.
    change (truthy (Z.land 1 WM_MANIPULATORMAPTYPE_GLOBAL_UPDATE_REMOVE)) with false.
    cbv iota.
    unfold config_update_init. rewrite Hrt_flag.
    change (truthy (Z.land 1 WM_MANIPULATORMAPTYPE_GLOBAL_UPDATE_INIT)) with true.
    cbv iota zeta. rewrite Hg, Hrt_flag. reflexivity. }
  assert (Hlen : (k < length (manipulatormaptypes rt))%nat).
  { apply lookup_lt_Some in Hrt_k. exact Hrt_k. }
  assert (Hloop : fold_left config_update_init_type
                    (seq 0 (length (manipulatormaptypes rt))) rt
                  = config_update_init_type rt k).
  { apply init_loop_single; [exact Hlen|].
    intros j mt' Hj Hmt'. rewrite Hrt_other in Hmt' by exact Hj.
    fold U K. rewrite Huchar. apply (Htypes j mt' Hmt'). }
  (* the map type at position k *)
  set (r1 := modify_maptype k
               (fun mt => set_type_update_flag mt
                  (Z.land (type_update_flag mt) (Z.lnot (uchar_of_int (Z.lor U K)))))
               rt).
  assert (Htype : config_update_init_type rt k
                  = fold_left (config_update_init_ref k) (grouptype_refs mt) r1).
  { unfold config_update_init_type. rewrite Hrt_k. fold U K.
    assert (Ht : truthy (Z.land (type_update_flag mtk) (uchar_of_int (Z.lor U K)))
                 = true).
    { rewrite Huchar. unfold mtk. simpl. rewrite land_set.
      apply truthy_true. lia. }
    rewrite Ht. reflexivity. }
  destruct (land_lor_split _ _ _ (Hwgts wgt)) as [HwU HwK].
  destruct (init_refs_single k wgt (grouptype_refs mt) r1) as (Hev & Hclean).
  { exact Hdisj. }
  { fold U. lia. }
  { fold K. lia. }
  { fold K. change (wgt_type_update_flag r1 wgt) with (wgt_type_update_flag rt wgt).
    rewrite Hrt_wgt, Z.lor_assoc. apply land_set. }
  { fold U. change (wgt_type_update_flag r1 wgt) with (wgt_type_update_flag rt wgt).
    rewrite Hrt_wgt, (Z.lor_comm U K), Z.lor_assoc. apply land_set. }
  { intros g Hg.
    change (wgt_type_update_flag r1 g) with (wgt_type_update_flag rt g).
    rewrite Hrt_wgts by exact Hg. fold U K.
    destruct (land_lor_split _ _ _ (Hwgts g)) as [HgU HgK]. split; assumption. }
  { exact Hlinked. }
  cbv zeta in Hev, Hclean. fold rt. cbv zeta.
  rewrite Hflush, Hloop, Htype. simpl.
  split; [rewrite Hev; reflexivity|]. split; [reflexivity|]. split.
  - intros j mt' Hmt'.
    destruct (init_refs_globals k (grouptype_refs mt) r1) as (_ & _ & Hty).
    assert (Hr1 : manipulatormaptypes r1
                  = alter (fun mt => set_type_update_flag mt
                             (Z.land (type_update_flag mt)
                                     (Z.lnot (uchar_of_int (Z.lor U K))))) k
                          (manipulatormaptypes rt)) by reflexivity.
    rewrite Hty, Hr1 in Hmt'.
    destruct (decide (j = k)) as [->|Hj].
    + rewrite list_lookup_alter_eq, Hrt_k in Hmt'.
      injection Hmt' as <-. unfold mtk. cbn [type_update_flag set_type_update_flag].
      rewrite Huchar. apply land_clear.
    + rewrite list_lookup_alter_ne in Hmt' by congruence.
      rewrite Hrt_other in Hmt' by exact Hj. apply (Htypes j mt' Hmt').
  - intros g. destruct (Hclean g) as [HgK HgU].
    apply land_lor_join; assumption.
Qed.

End TagThenFlush.

(** Group type 10 of the sample registry, tagged and flushed. *)
Lemma tag_init_then_update_witness :
  reg_events
    (@WM_manipulatorconfig_update sample_flags
       (@WM_manipulatorconfig_update_tag_init sample_flags 0 10 sample_registry))
  = [EvInitRuntimeKeymap 10; EvInitRuntime 0 10].
Proof.
  assert (HU : 0 < @WM_MANIPULATORMAPTYPE_UPDATE_INIT sample_flags < 256)
    by (simpl; lia).
  assert (HK : 0 < @WM_MANIPULATORMAPTYPE_KEYMAP_INIT sample_flags < 256)
    by (simpl; lia).
  assert (Htypes : forall j mt',
            manipulatormaptypes sample_registry !! j = Some mt' ->
            Z.land (type_update_flag mt')
                   (Z.lor (@WM_MANIPULATORMAPTYPE_UPDATE_INIT sample_flags)
                          (@WM_MANIPULATORMAPTYPE_KEYMAP_INIT sample_flags)) = 0).
  { intros [|j] mt' Hj; simpl in Hj; [|discriminate].
    injection Hj as <-. reflexivity. }
  assert (Hlinked : 10%nat ∈ [10%nat; 11%nat]) by (apply list_elem_of_here).
  exact (proj1 (@tag_init_then_update sample_flags sample_registry 0 10
                  {| spaceid := 1; regionid := 1;
                     grouptype_refs := [10%nat; 11%nat]; type_update_flag := 0 |}
                  HU HK eq_refl eq_refl eq_refl Htypes (fun _ => eq_refl)
                  eq_refl Hlinked)).
Defined.

Section DrawRuns.
Context `{FL : Flags} `{HO : Host}.

Lemma land_zero_visible (bit : Z) (m : wmManipulator) :
  wm_manipulator_is_visible m = 0 ->
  truthy (Z.land (wm_manipulator_is_visible m) bit) = false.
Proof. intros H. rewrite H, Z.land_0_l. reflexivity. Qed.

Lemma prepare_manipulator_run (p : ptr) (C : bContext) (draw : list ptr)
    (w : World) (m : wmManipulator) :
  heap w !! p = Some m ->
  manipulator_prepare_drawing p C draw w =
    Ok ((negb (wm_manipulator_is_visible m =? 0),
         if visible_for WM_MANIPULATOR_IS_VISIBLE_DRAW (heap w) p
         then p :: draw else draw),
        with_log w (prepare_log_manipulator (refresh_tagged (mmap w)) (heap w) p)).
Proof.
  intros Hp. unfold manipulator_prepare_drawing, prepare_log_manipulator, visible_for.
  rewrite (bind_Ok _ _ _ _ _ (load_Ok _ _ _ Hp)), Hp.
  destruct (wm_manipulator_is_visible m =? 0) eqn:Hvis.
  - apply Z.eqb_eq in Hvis. rewrite !land_zero_visible by exact Hvis.
    rewrite with_log_nil. reflexivity.
  - unfold bind at 1. unfold get_mmap at 1.
    destruct (truthy (Z.land (wm_manipulator_is_visible m)
                             WM_MANIPULATOR_IS_VISIBLE_UPDATE)); simpl.
    + reflexivity.
    + unfold ret. rewrite with_log_nil. reflexivity.
Qed.

Lemma prepare_manipulators_run (C : bContext) (ps : list ptr) :
  forall (draw : list ptr) (w : World),
    (forall p, p ∈ ps -> is_Some (heap w !! p)) ->
    foldM (fun draw p => r <- manipulator_prepare_drawing p C draw ;; ret (snd r))
          draw ps w =
      Ok (rev (List.filter (visible_for WM_MANIPULATOR_IS_VISIBLE_DRAW (heap w)) ps)
            ++ draw,
          with_log w (flat_map (prepare_log_manipulator (refresh_tagged (mmap w))
                                                        (heap w)) ps)).
Proof.
  induction ps as [|p ps IH]; intros draw w Hvalid.
  - simpl. unfold ret. rewrite with_log_nil. reflexivity.
  - destruct (Hvalid p) as [m Hm]; [left|].
    cbn [foldM]. rewrite bind_assoc.
    rewrite (bind_Ok _ _ _ _ _ (prepare_manipulator_run p C draw w m Hm)).
    unfold ret at 1. cbn [snd]. unfold bind at 1.
    rewrite IH by (intros q Hq; apply Hvalid; right; exact Hq).
    cbn [heap mmap with_log]. rewrite with_log_app.
    cbn [flat_map List.filter].
    destruct (visible_for WM_MANIPULATOR_IS_VISIBLE_DRAW (heap w) p).
    + cbn [rev]. rewrite <- app_assoc. reflexivity.
    + reflexivity.
Qed.

Lemma prepare_group_run (C : bContext) (drawstep : Z) (draw : list ptr)
    (g : wmManipulatorGroup) (w : World) :
  (group_drawn C drawstep g = true ->
   forall p, p ∈ mg_manipulators g -> is_Some (heap w !! p)) ->
  prepare_drawing_group C drawstep draw g w =
    Ok (rev (List.filter (visible_for WM_MANIPULATOR_IS_VISIBLE_DRAW (heap w))
               (if group_drawn C drawstep g then mg_manipulators g else []))
          ++ draw,
        with_log w (prepare_log_group C drawstep (refresh_tagged (mmap w))
                                      (heap w) g)).
Proof.
  intros Hvalid. unfold prepare_drawing_group, prepare_log_group, group_drawn in *.
  destruct (wm_manipulatorgroup_is_visible_in_drawstep g drawstep); simpl.
  2: { unfold ret. rewrite with_log_nil. reflexivity. }
  destruct (wm_manipulatorgroup_is_visible g C); simpl.
  2: { unfold ret. rewrite with_log_nil. reflexivity. }
  unfold bind at 1. rewrite emit_run.
  unfold bind at 1. unfold get_mmap at 1. cbn [mmap with_log].
  fold (refresh_tagged (mmap w)).
  set (w1 := with_log w [EvGroupEnsureInitialized (gt_idname (mg_type g))]).
  assert (Hrefresh :
    when (refresh_tagged (mmap w) && gt_refresh (mg_type g))
         (emit (EvGroupRefresh (gt_idname (mg_type g)))) w1
    = Ok (tt, with_log w1
                (if refresh_tagged (mmap w) && gt_refresh (mg_type g)
                 then [EvGroupRefresh (gt_idname (mg_type g))] else []))).
  { destruct (refresh_tagged (mmap w) && gt_refresh (mg_type g)); simpl.
    - reflexivity.
    - unfold ret. rewrite with_log_nil. reflexivity. }
  rewrite (bind_Ok _ _ _ _ _ Hrefresh).
  match goal with
  | |- bind _ _ ?w2 = _ => set (w2' := w2)
  end.
  assert (Hprep :
    when (gt_draw_prepare (mg_type g))
         (emit (EvGroupDrawPrepare (gt_idname (mg_type g)))) w2'
    = Ok (tt, with_log w2'
                (if gt_draw_prepare (mg_type g)
                 then [EvGroupDrawPrepare (gt_idname (mg_type g))] else []))).
  { destruct (gt_draw_prepare (mg_type g)); simpl.
    - reflexivity.
    - unfold ret. rewrite with_log_nil. reflexivity. }
  rewrite (bind_Ok _ _ _ _ _ Hprep).
  rewrite prepare_manipulators_run.
  - unfold w2', w1. rewrite !with_log_app, !heap_with_log, !mmap_with_log.
    rewrite <- !app_assoc. reflexivity.
  - intros p Hp. apply Hvalid; [reflexivity|exact Hp].
Qed.

Lemma prepare_groups_run (C : bContext) (drawstep : Z) (gs : list wmManipulatorGroup) :
  forall (draw : list ptr) (w : World),
    (forall g p, g ∈ gs -> group_drawn C drawstep g = true ->
                 p ∈ mg_manipulators g -> is_Some (heap w !! p)) ->
    foldM (prepare_drawing_group C drawstep) draw gs w =
      Ok (rev (List.filter (visible_for WM_MANIPULATOR_IS_VISIBLE_DRAW (heap w))
                 (flat_map (fun g => if group_drawn C drawstep g
                                     then mg_manipulators g else []) gs))
            ++ draw,
          with_log w (flat_map (prepare_log_group C drawstep
                                  (refresh_tagged (mmap w)) (heap w)) gs)).
Proof.
  induction gs as [|g gs IH]; intros draw w Hvalid.
  - simpl. unfold ret. rewrite with_log_nil. reflexivity.
  - cbn [foldM].
    rewrite (bind_Ok _ _ _ _ _ (prepare_group_run C drawstep draw g w
               (fun Hd p Hp => Hvalid g p (list_elem_of_here _ _) Hd Hp))).
    rewrite IH by (intros g' p Hg'; apply Hvalid; right; exact Hg').
    cbn [heap mmap with_log]. rewrite with_log_app.
    cbn [flat_map]. rewrite List.filter_app, rev_app_distr, <- app_assoc.
    reflexivity.
Qed.

(** The loop over the draw list and the call that follows it. *)
Lemma draw_list_loop_run {A} (draw : list ptr) :
  forall (b : bool) (w : World) (k : M A),
    (forall p, p ∈ draw -> is_Some (heap w !! p)) ->
    bind (foldM (fun is_depth_prev p =>
            mpr <- load p ;;
            let is_depth :=
              truthy (Z.land (gt_flag (mpr_parent_type mpr))
                             WM_MANIPULATORGROUPTYPE_DEPTH_3D) in
            let is_depth :=
              if is_depth
                 && truthy (Z.land (mpr_state mpr) WM_MANIPULATOR_STATE_HIGHLIGHT)
              then false else is_depth in
            (if Bool.eqb is_depth is_depth_prev then ret tt
             else emit (EvGlDepthTest is_depth)) ;;
            emit (EvTypeDraw p) ;;
            ret is_depth) b draw)
         (fun is_depth_prev =>
            when is_depth_prev (emit (EvGlDepthTest false)) ;; k) w
    = k (with_log w (draw_list_log (heap w) b draw)).
Proof.
  induction draw as [|p draw IH]; intros b w k Hvalid.
  - cbn [foldM draw_list_log]. unfold bind at 1. unfold ret at 1.
    destruct b; simpl.
    + reflexivity.
    + unfold bind, ret. rewrite with_log_nil. reflexivity.
  - destruct (Hvalid p) as [m Hm]; [left|].
    cbn [foldM draw_list_log]. rewrite bind_assoc.
    rewrite bind_assoc. rewrite (bind_Ok _ _ _ _ _ (load_Ok _ _ _ Hm)).
    cbv zeta. unfold draws_in_depth. rewrite Hm. cbv zeta.
    set (d := if truthy (Z.land (gt_flag (mpr_parent_type m))
                                WM_MANIPULATORGROUPTYPE_DEPTH_3D)
                 && truthy (Z.land (mpr_state m) WM_MANIPULATOR_STATE_HIGHLIGHT)
              then false
              else truthy (Z.land (gt_flag (mpr_parent_type m))
                                  WM_MANIPULATORGROUPTYPE_DEPTH_3D)).
    rewrite bind_assoc.
    assert (Hswitch :
      (if Bool.eqb d b then ret tt else emit (EvGlDepthTest d)) w
      = Ok (tt, with_log w (if Bool.eqb d b then [] else [EvGlDepthTest d]))).
    { destruct (Bool.eqb d b).
      - unfold ret. rewrite with_log_nil. reflexivity.
      - reflexivity. }
    rewrite (bind_Ok _ _ _ _ _ Hswitch).
    rewrite bind_assoc. unfold bind at 1. rewrite emit_run.
    unfold bind at 1. unfold ret at 1.
    rewrite IH by (intros q Hq; apply Hvalid; right; exact Hq).
    cbn [heap with_log]. rewrite !with_log_app.
    rewrite <- ?app_assoc. reflexivity.
Qed.

Lemma draw_list_run (C : bContext) (draw : list ptr) (w : World) :
  groups (mmap w) <> [] ->
  (forall p, p ∈ draw -> is_Some (heap w !! p)) ->
  manipulators_draw_list MmapThis C draw w =
    Ok ([], with_log w
              ((if negb (U_ogl_multisamples =? USER_MULTISAMPLE_NONE)
                then [EvGlMultisample true] else []) ++
               draw_list_log (heap w) false draw ++
               (if negb (U_ogl_multisamples =? USER_MULTISAMPLE_NONE)
                then [EvGlMultisample false] else []))).
Proof.
  intros Hgroups Hvalid. unfold manipulators_draw_list.
  unfold bind at 1. unfold get_mmap at 1.
  destruct (groups (mmap w)) as [|g gs] eqn:Hgs; [congruence|].
  cbn [mmap_is_null BLI_listbase_is_empty orb]. cbv zeta.
  set (ms := negb (U_ogl_multisamples =? USER_MULTISAMPLE_NONE)).
  assert (Hms : forall b w0,
    when ms (emit (EvGlMultisample b)) w0
    = Ok (tt, with_log w0 (if ms then [EvGlMultisample b] else []))).
  { intros b w0. destruct ms; simpl.
    - reflexivity.
    - unfold ret. rewrite with_log_nil. reflexivity. }
  rewrite (bind_Ok _ _ _ _ _ (Hms true w)).
  rewrite draw_list_loop_run by exact Hvalid.
  rewrite (bind_Ok _ _ _ _ _ (Hms false _)).
  unfold ret. rewrite !with_log_app. reflexivity.
Qed.

(** A full traversal: the run of the draw entry point on a map with groups
    when it does not take the modal-only path. *)
Lemma draw_full_run (C : bContext) (drawstep : Z) (w : World) :
  groups (mmap w) <> [] ->
  draws_modal_only (heap w) (mmap w) = false ->
  (forall q, modal (mmap w) = Some q -> is_Some (heap w !! q)) ->
  (forall p, p ∈ traversed_manipulators C drawstep (mmap w) ->
             is_Some (heap w !! p)) ->
  WM_manipulatormap_draw MmapThis C drawstep w =
    Ok ([], {| heap := heap w;
               mmap := set_update_flag (mmap w) 0;
               events := events w ++
                 flat_map (prepare_log_group C drawstep (refresh_tagged (mmap w))
                                             (heap w)) (groups (mmap w)) ++
                 ((if negb (U_ogl_multisamples =? USER_MULTISAMPLE_NONE)
                   then [EvGlMultisample true] else []) ++
                  draw_list_log (heap w) false
                    (rev (drawn_manipulators C drawstep (heap w) (mmap w))) ++
                  (if negb (U_ogl_multisamples =? USER_MULTISAMPLE_NONE)
                   then [EvGlMultisample false] else [])) |}).
Proof.
  intros Hgroups Hfull Hmodal Hvalid.
  assert (Hvalid' : forall g p, g ∈ groups (mmap w) ->
            group_drawn C drawstep g = true ->
            p ∈ mg_manipulators g -> is_Some (heap w !! p)).
  { intros g p Hg Hd Hp. apply Hvalid. unfold traversed_manipulators.
    apply list_elem_of_In, in_flat_map. exists g.
    split; [apply list_elem_of_In; exact Hg|].
    rewrite Hd. apply list_elem_of_In. exact Hp. }
  assert (Hall : prepare_drawing_all C drawstep [] w =
    Ok (rev (drawn_manipulators C drawstep (heap w) (mmap w)),
        {| heap := heap w; mmap := set_update_flag (mmap w) 0;
           events := events w ++
             flat_map (prepare_log_group C drawstep (refresh_tagged (mmap w))
                                         (heap w)) (groups (mmap w)) |})).
  { unfold prepare_drawing_all. unfold bind at 1. unfold get_mmap at 1.
    rewrite (bind_Ok _ _ _ _ _ (prepare_groups_run C drawstep (groups (mmap w))
                                   [] w Hvalid')).
    rewrite app_nil_r. reflexivity. }
  assert (Hprepare : manipulatormap_prepare_drawing MmapThis C [] drawstep w =
            prepare_drawing_all C drawstep [] w).
  { unfold manipulatormap_prepare_drawing. unfold bind at 1. unfold get_mmap at 1.
    destruct (groups (mmap w)) as [|g gs] eqn:Hgs; [congruence|].
    cbn [mmap_is_null BLI_listbase_is_empty orb].
    unfold draws_modal_only in Hfull.
    destruct (modal (mmap w)) as [q|]; [|reflexivity].
    destruct (Hmodal q eq_refl) as [mq Hq]. rewrite Hq in Hfull.
    rewrite (bind_Ok _ _ _ _ _ (load_Ok _ _ _ Hq)), Hfull. reflexivity. }
  unfold WM_manipulatormap_draw.
  rewrite Hall in Hprepare. rewrite (bind_Ok _ _ _ _ _ Hprepare).
  rewrite draw_list_run.
  - unfold with_log. cbn [heap mmap events]. rewrite <- app_assoc. reflexivity.
  - exact Hgroups.
  - intros p Hp. cbn [heap]. apply Hvalid.
    apply list_elem_of_In, in_rev in Hp. unfold drawn_manipulators in Hp.
    apply filter_In in Hp as [Hp _]. apply list_elem_of_In. exact Hp.
Qed.

End DrawRuns.

(** *** What a draw does *)

Lemma filter_draw_list_log `{FL : Flags} (h : gmap ptr wmManipulator)
    (draw : list ptr) (b : bool) :
  List.filter is_draw_event (draw_list_log h b draw) = EvTypeDraw <$> draw.
Proof.
  revert b. induction draw as [|p draw IH]; intros b; cbn [draw_list_log].
  - destruct b; reflexivity.
  - rewrite List.filter_app. cbn [List.filter is_draw_event].
    rewrite IH. destruct (Bool.eqb _ _); reflexivity.
Qed.

Lemma depth_after_draw_list_log `{FL : Flags} (h : gmap ptr wmManipulator)
    (draw : list ptr) (b : bool) :
  depth_test_after b (draw_list_log h b draw) = false.
Proof.
  revert b. induction draw as [|p draw IH]; intros b; cbn [draw_list_log].
  - destruct b; reflexivity.
  - rewrite depth_test_after_app.
    assert (Hswitch :
      depth_test_after b
        (if Bool.eqb (draws_in_depth h p) b then []
         else [EvGlDepthTest (draws_in_depth h p)]) = draws_in_depth h p).
    { destruct (Bool.eqb (draws_in_depth h p) b) eqn:He.
      - apply Bool.eqb_prop in He. symmetry. exact He.
      - reflexivity. }
    rewrite Hswitch. apply IH.
Qed.

Lemma filter_prepare_log_draw `{FL : Flags} `{HO : Host} (C : bContext)
    (drawstep : Z) (refresh : bool) (h : gmap ptr wmManipulator)
    (gs : list wmManipulatorGroup) :
  List.filter is_draw_event
    (flat_map (prepare_log_group C drawstep refresh h) gs) = [].
Proof.
  induction gs as [|g gs IH]; [reflexivity|].
  cbn [flat_map]. rewrite List.filter_app, IH, app_nil_r.
  unfold prepare_log_group. destruct (group_drawn C drawstep g); [|reflexivity].
  cbn [List.filter is_draw_event]. rewrite !List.filter_app.
  assert (Hm : List.filter is_draw_event
                 (flat_map (prepare_log_manipulator refresh h) (mg_manipulators g))
               = []).
  { induction (mg_manipulators g) as [|p ps IHp]; [reflexivity|].
    cbn [flat_map]. rewrite List.filter_app, IHp, app_nil_r.
    unfold prepare_log_manipulator. destruct (visible_for _ h p); reflexivity. }
  rewrite Hm. destruct (refresh && gt_refresh (mg_type g));
    destruct (gt_draw_prepare (mg_type g)); reflexivity.
Qed.

Lemma filter_prepare_log_refresh `{FL : Flags} `{HO : Host} (C : bContext)
    (drawstep : Z) (refresh : bool) (h : gmap ptr wmManipulator)
    (gs : list wmManipulatorGroup) :
  List.filter is_group_refresh_event
    (flat_map (prepare_log_group C drawstep refresh h) gs)
  = if refresh
    then (fun g => EvGroupRefresh (gt_idname (mg_type g))) <$>
         List.filter (fun g => group_drawn C drawstep g && gt_refresh (mg_type g)) gs
    else [].
Proof.
  induction gs as [|g gs IH]; [destruct refresh; reflexivity|].
  cbn [flat_map List.filter]. rewrite List.filter_app, IH.
  assert (Hg : List.filter is_group_refresh_event
                 (prepare_log_group C drawstep refresh h g)
               = if refresh && (group_drawn C drawstep g && gt_refresh (mg_type g))
                 then [EvGroupRefresh (gt_idname (mg_type g))] else []).
  { unfold prepare_log_group. destruct (group_drawn C drawstep g);
      [|rewrite andb_false_r; reflexivity].
    cbn [List.filter is_group_refresh_event]. rewrite !List.filter_app.
    assert (Hm : List.filter is_group_refresh_event
                   (flat_map (prepare_log_manipulator refresh h) (mg_manipulators g))
                 = []).
    { induction (mg_manipulators g) as [|p ps IHp]; [reflexivity|].
      cbn [flat_map]. rewrite List.filter_app, IHp, app_nil_r.
      unfold prepare_log_manipulator. destruct (visible_for _ h p); reflexivity. }
    rewrite Hm. destruct refresh, (gt_refresh (mg_type g)),
      (gt_draw_prepare (mg_type g)); reflexivity. }
  rewrite Hg.
  destruct refresh; [|reflexivity].
  destruct (group_drawn C drawstep g && gt_refresh (mg_type g)); reflexivity.
Qed.

Lemma filter_prepare_log_update `{FL : Flags} `{HO : Host} (C : bContext)
    (drawstep : Z) (refresh : bool) (h : gmap ptr wmManipulator)
    (gs : list wmManipulatorGroup) :
  List.filter (is_update_event (negb refresh))
    (flat_map (prepare_log_group C drawstep refresh h) gs) = [].
Proof.
  induction gs as [|g gs IH]; [reflexivity|].
  cbn [flat_map]. rewrite List.filter_app, IH, app_nil_r.
  unfold prepare_log_group. destruct (group_drawn C drawstep g); [|reflexivity].
  cbn [List.filter is_update_event]. rewrite !List.filter_app.
  assert (Hm : List.filter (is_update_event (negb refresh))
                 (flat_map (prepare_log_manipulator refresh h) (mg_manipulators g))
               = []).
  { induction (mg_manipulators g) as [|p ps IHp]; [reflexivity|].
    cbn [flat_map]. rewrite List.filter_app, IHp, app_nil_r.
    unfold prepare_log_manipulator. destruct (visible_for _ h p); [|reflexivity].
    cbn [List.filter is_update_event]. destruct refresh; reflexivity. }
  rewrite Hm. destruct (refresh && gt_refresh (mg_type g));
    destruct (gt_draw_prepare (mg_type g)); reflexivity.
Qed.

Lemma filter_draw_log_other `{FL : Flags} (P : event -> bool)
    (h : gmap ptr wmManipulator) (draw : list ptr) (b : bool) :
  (forall p, P (EvTypeDraw p) = false) ->
  (forall on, P (EvGlDepthTest on) = false) ->
  List.filter P (draw_list_log h b draw) = [].
Proof.
  intros Hd Hg. revert b. induction draw as [|p draw IH]; intros b;
    cbn [draw_list_log].
  - destruct b; [|reflexivity]. cbn [List.filter]. rewrite Hg. reflexivity.
  - rewrite List.filter_app. cbn [List.filter]. rewrite Hd, IH.
    destruct (Bool.eqb _ _); [reflexivity|]. cbn [List.filter]. rewrite Hg.
    reflexivity.
Qed.

Section DrawProperties.
Context `{FL : Flags} `{HO : Host}.

(** X8: drawing a map that is [NULL] or has no groups does nothing at all: no
    callback runs, no GL state is touched and the refresh tag stays as it
    is, whatever the modal slot holds. *)
Theorem draw_without_groups (mp : mmap_ptr) (C : bContext) (drawstep : Z)
    (w : World)
    (Hempty : mp = MmapNull \/ groups (mmap w) = []) :
  WM_manipulatormap_draw mp C drawstep w = Ok ([], w).
Proof.
  assert (Hskip : mmap_is_null mp || BLI_listbase_is_empty (groups (mmap w)) = true).
  { destruct Hempty as [-> | ->]; [reflexivity|apply orb_true_r]. }
  unfold WM_manipulatormap_draw, manipulatormap_prepare_drawing,
    manipulators_draw_list, bind, get_mmap.
  rewrite Hskip. unfold ret. rewrite Hskip. reflexivity.
Qed.

(** X9: a draw that traverses the groups clears the whole update flag of the
    map, leaves the store, the groups and the highlight, modal and selection
    state of the map as they are, and hands back an empty draw list. *)
Theorem draw_full_traversal_clears_update_flag (C : bContext) (drawstep : Z)
    (w : World)
    (Hgroups : groups (mmap w) <> [])
    (Hfull : draws_modal_only (heap w) (mmap w) = false)
    (Hmodal : forall q, modal (mmap w) = Some q -> is_Some (heap w !! q))
    (Hvalid : forall p, p ∈ traversed_manipulators C drawstep (mmap w) ->
                        is_Some (heap w !! p)) :
  exists w',
    WM_manipulatormap_draw MmapThis C drawstep w = Ok ([], w') /\
    heap w' = heap w /\
    mmap w' = set_update_flag (mmap w) 0.
Proof.
  eexists. split; [apply draw_full_run; assumption|]. split; reflexivity.
Qed.

(** X10: a draw that traverses the groups calls the draw callback of exactly the
    manipulators of the participating groups whose visibility test asks for
    drawing, each once, in the reverse of their order in the map. *)
Theorem draw_full_traversal_order (C : bContext) (drawstep : Z) (w : World)
    (Hgroups : groups (mmap w) <> [])
    (Hfull : draws_modal_only (heap w) (mmap w) = false)
    (Hmodal : forall q, modal (mmap w) = Some q -> is_Some (heap w !! q))
    (Hvalid : forall p, p ∈ traversed_manipulators C drawstep (mmap w) ->
                        is_Some (heap w !! p)) :
  exists w' evs,
    WM_manipulatormap_draw MmapThis C drawstep w = Ok ([], w') /\
    events w' = events w ++ evs /\
    List.filter is_draw_event evs =
      EvTypeDraw <$> rev (drawn_manipulators C drawstep (heap w) (mmap w)).
Proof.
  eexists. eexists. split; [apply draw_full_run; assumption|].
  split; [reflexivity|].
  rewrite !List.filter_app, filter_prepare_log_draw, filter_draw_list_log.
  destruct (negb (U_ogl_multisamples =? USER_MULTISAMPLE_NONE));
    cbn [List.filter is_draw_event app]; rewrite ?app_nil_r; reflexivity.
Qed.

(** X11: a draw that traverses the groups calls the refresh callback of a group
    only when the map is tagged for refresh, and then of every participating
    group that has one, in map order; every manipulator update it asks for
    is told whether the map was tagged. *)
Theorem draw_full_traversal_refresh (C : bContext) (drawstep : Z) (w : World)
    (Hgroups : groups (mmap w) <> [])
    (Hfull : draws_modal_only (heap w) (mmap w) = false)
    (Hmodal : forall q, modal (mmap w) = Some q -> is_Some (heap w !! q))
    (Hvalid : forall p, p ∈ traversed_manipulators C drawstep (mmap w) ->
                        is_Some (heap w !! p)) :
  exists w' evs,
    WM_manipulatormap_draw MmapThis C drawstep w = Ok ([], w') /\
    events w' = events w ++ evs /\
    List.filter is_group_refresh_event evs =
      (if refresh_tagged (mmap w)
       then (fun g => EvGroupRefresh (gt_idname (mg_type g))) <$>
            List.filter (fun g => group_drawn C drawstep g && gt_refresh (mg_type g))
                        (groups (mmap w))
       else []) /\
    List.filter (is_update_event (negb (refresh_tagged (mmap w)))) evs = [].
Proof.
  eexists. eexists. split; [apply draw_full_run; assumption|].
  split; [reflexivity|].
  rewrite !List.filter_app, filter_prepare_log_refresh, filter_prepare_log_update.
  rewrite !filter_draw_log_other by reflexivity.
  destruct (negb (U_ogl_multisamples =? USER_MULTISAMPLE_NONE));
    cbn [List.filter is_group_refresh_event is_update_event app];
    rewrite ?app_nil_r; split; reflexivity.
Qed.

(** X12: drawing a list of manipulators calls the draw callback of each once, in
    list order, frees the list, and ends with GL depth testing switched off
    when it was off before. *)
Theorem draw_list_draws_each_once (C : bContext) (draw : list ptr) (w : World)
    (Hgroups : groups (mmap w) <> [])
    (Hvalid : forall p, p ∈ draw -> is_Some (heap w !! p)) :
  exists evs,
    manipulators_draw_list MmapThis C draw w = Ok ([], with_log w evs) /\
    List.filter is_draw_event evs = EvTypeDraw <$> draw /\
    depth_test_after false evs = false.
Proof.
  eexists. split; [apply draw_list_run; assumption|]. split.
  - rewrite !List.filter_app, filter_draw_list_log.
    destruct (negb (U_ogl_multisamples =? USER_MULTISAMPLE_NONE));
      cbn [List.filter is_draw_event app]; rewrite ?app_nil_r; reflexivity.
  - rewrite !depth_test_after_app.
    assert (Hms : forall on b,
      depth_test_after on
        (if negb (U_ogl_multisamples =? USER_MULTISAMPLE_NONE)
         then [EvGlMultisample b] else []) = on).
    { intros on b. destruct (negb (U_ogl_multisamples =? USER_MULTISAMPLE_NONE));
        reflexivity. }
    rewrite !Hms. apply depth_after_draw_list_log.
Qed.

End DrawProperties.

(** *** Selection ids *)

Lemma filter_draw_select_log `{FL : Flags} (h : gmap ptr wmManipulator)
    (visible : list ptr) (s : Z) (b : bool) :
  List.filter is_draw_select_event (draw_select_log h s b visible)
  = imap (fun i p => EvTypeDrawSelect p (Z.shiftl (s + Z.of_nat i) 8)) visible.
Proof.
  revert s b. induction visible as [|p visible IH]; intros s b;
    cbn [draw_select_log].
  - destruct b; reflexivity.
  - rewrite List.filter_app. cbn [List.filter is_draw_select_event].
    rewrite IH. cbn [imap]. rewrite Z.add_0_r.
    assert (Htail :
      imap (fun i p => EvTypeDrawSelect p (Z.shiftl (s + 1 + Z.of_nat i) 8)) visible
      = imap ((fun i p => EvTypeDrawSelect p (Z.shiftl (s + Z.of_nat i) 8)) ∘ S)
             visible).
    { apply imap_ext. intros i q _. simpl. do 2 f_equal. lia. }
    rewrite Htail. destruct (Bool.eqb _ _); reflexivity.
Qed.

Lemma depth_after_draw_select_log `{FL : Flags} (h : gmap ptr wmManipulator)
    (visible : list ptr) (s : Z) (b : bool) :
  depth_test_after b (draw_select_log h s b visible) = false.
Proof.
  revert s b. induction visible as [|p visible IH]; intros s b;
    cbn [draw_select_log].
  - destruct b; reflexivity.
  - rewrite depth_test_after_app.
    assert (Hswitch :
      depth_test_after b
        (if Bool.eqb (selects_in_depth h p) b then []
         else [EvGlDepthTest (selects_in_depth h p)]) = selects_in_depth h p).
    { destruct (Bool.eqb (selects_in_depth h p) b) eqn:He.
      - apply Bool.eqb_prop in He. symmetry. exact He.
      - reflexivity. }
    rewrite Hswitch. apply IH.
Qed.

Section PickRuns.
Context `{FL : Flags} `{HO : Host}.

Lemma draw_select_loop_run (visible : list ptr) :
  forall (s : Z) (b : bool) (w : World),
    (forall p, p ∈ visible -> is_Some (heap w !! p)) ->
    bind (foldM (fun st p =>
            let selectionbase := fst st in
            let is_depth_prev := snd st in
            mpr <- load p ;;
            let is_depth :=
              truthy (Z.land (gt_flag (mpr_parent_type mpr))
                             WM_MANIPULATORGROUPTYPE_DEPTH_3D) in
            (if Bool.eqb is_depth is_depth_prev then ret tt
             else emit (EvGlDepthTest is_depth)) ;;
            emit (EvTypeDrawSelect p (Z.shiftl selectionbase 8)) ;;
            ret (selectionbase + 1, is_depth)) (s, b) visible)
         (fun r => when (snd r) (emit (EvGlDepthTest false))) w
    = Ok (tt, with_log w (draw_select_log (heap w) s b visible)).
Proof.
  induction visible as [|p visible IH]; intros s b w Hvalid.
  - cbn [foldM draw_select_log]. unfold bind at 1. unfold ret at 1. cbn [snd].
    destruct b; simpl.
    + reflexivity.
    + unfold ret. rewrite with_log_nil. reflexivity.
  - destruct (Hvalid p) as [m Hm]; [left|].
    cbn [foldM draw_select_log]. rewrite bind_assoc. cbn [fst snd].
    rewrite bind_assoc. rewrite (bind_Ok _ _ _ _ _ (load_Ok _ _ _ Hm)).
    cbv zeta. unfold selects_in_depth. rewrite Hm.
    set (d := truthy (Z.land (gt_flag (mpr_parent_type m))
                             WM_MANIPULATORGROUPTYPE_DEPTH_3D)).
    rewrite bind_assoc.
    assert (Hswitch :
      (if Bool.eqb d b then ret tt else emit (EvGlDepthTest d)) w
      = Ok (tt, with_log w (if Bool.eqb d b then [] else [EvGlDepthTest d]))).
    { destruct (Bool.eqb d b).
      - unfold ret. rewrite with_log_nil. reflexivity.
      - reflexivity. }
    rewrite (bind_Ok _ _ _ _ _ Hswitch).
    rewrite bind_assoc. unfold bind at 1. rewrite emit_run.
    unfold bind at 1. unfold ret at 1.
    rewrite IH by (intros q Hq; apply Hvalid; right; exact Hq).
    rewrite !heap_with_log, !with_log_app.
    rewrite <- ?app_assoc. reflexivity.
Qed.

(** X13: the draw-for-selection loop hands the manipulator at position [i] of
    the list the selection id [i * 256], calls each manipulator once, in
    list order, and ends with GL depth testing switched off when it was off
    before. *)
Theorem draw_select_loop_ids (C : bContext) (visible : list ptr) (w : World)
    (Hvalid : forall p, p ∈ visible -> is_Some (heap w !! p)) :
  exists evs,
    manipulator_draw_select_3D_loop C visible w = Ok (tt, with_log w evs) /\
    List.filter is_draw_select_event evs =
      imap (fun i p => EvTypeDrawSelect p (Z.of_nat i * 256)) visible /\
    depth_test_after false evs = false.
Proof.
  exists (draw_select_log (heap w) 0 false visible).
  split; [apply draw_select_loop_run; exact Hvalid|]. split.
  - rewrite filter_draw_select_log. apply imap_ext. intros i p _. simpl.
    rewrite Z.shiftl_mul_pow2 by lia. reflexivity.
  - apply depth_after_draw_select_log.
Qed.

(** One run of the pick returns what the selection backend reports as the
    nearest hit, and only adds to the log. *)
Lemma find_intersected_3d_intern_value (visible : list ptr) (C : bContext)
    (co : Z * Z) (hs : Q) (w : World) :
  (forall q, q ∈ visible -> is_Some (heap w !! q)) ->
  exists log,
    manipulator_find_intersected_3d_intern visible C co hs w =
      Ok (pick_nearest visible (hotspot_rect co hs), with_log w log).
Proof.
  intros Hvalid. unfold manipulator_find_intersected_3d_intern, pick_nearest.
  cbv zeta.
  set (rect := hotspot_rect co hs).
  set (mode := if GPU_select_query_check_active
               then GPU_SELECT_NEAREST_FIRST_PASS else GPU_SELECT_ALL).
  set (hits := fst (GPU_select_end rect mode 0 visible)).
  assert (Hloop : forall evs,
            manipulator_draw_select_3D_loop C visible (with_log w evs)
            = Ok (tt, with_log w (evs ++ draw_select_log (heap w) 0 false visible))).
  { intros evs. unfold manipulator_draw_select_3D_loop.
    rewrite draw_select_loop_run by exact Hvalid.
    rewrite heap_with_log, with_log_app. reflexivity. }
  unfold bind at 1. rewrite emit_run.
  unfold bind at 1. rewrite emit_run. rewrite with_log_app.
  rewrite (bind_Ok _ _ _ _ _ (Hloop _)).
  unfold bind at 1. rewrite emit_run, with_log_app.
  destruct (GPU_select_query_check_active && (0 <? hits)).
  - rewrite bind_assoc. unfold bind at 1. rewrite emit_run, with_log_app.
    rewrite bind_assoc. rewrite (bind_Ok _ _ _ _ _ (Hloop _)).
    rewrite bind_assoc. unfold bind at 1. rewrite emit_run, with_log_app.
    unfold bind at 1. unfold ret at 1.
    unfold bind at 1. rewrite emit_run, with_log_app.
    destruct (GPU_select_buffer_near _ hits); eexists; reflexivity.
  - unfold bind at 1. unfold ret at 1.
    unfold bind at 1. rewrite emit_run, with_log_app.
    destruct (GPU_select_buffer_near _ hits); eexists; reflexivity.
Qed.

Lemma decode_select_id (i : nat) (part : Z) :
  0 <= part < 256 ->
  Z.shiftr (Z.of_nat i * 256 + part) 8 = Z.of_nat i /\
  Z.land (Z.of_nat i * 256 + part) 255 = part.
Proof.
  intros Hpart. split.
  - rewrite Z.shiftr_div_pow2 by lia. change (2 ^ 8) with 256.
    rewrite Z.div_add_l by lia. rewrite Z.div_small by lia. lia.
  - change 255 with (Z.ones 8). rewrite Z.land_ones by lia.
    change (2 ^ 8) with 256. rewrite Z.add_comm, Z.mod_add by lia.
    apply Z.mod_small. lia.
Qed.

(** X14: the pick decodes the ids the draw-for-selection loop hands out: when the
    hit it settles on (that of the tighter run if it has one, else that of
    the first run) carries the id [i * 256] of the manipulator at position
    [i] plus a part below 256, it returns that manipulator and that part. *)
Theorem find_intersected_3d_decodes_id (C : bContext) (co : Z * Z)
    (visible : list ptr) (w : World) (i : nat) (p : ptr) (part : Z)
    (Hvalid : forall q, q ∈ visible -> is_Some (heap w !! q))
    (Hi : visible !! i = Some p)
    (Hpart : 0 <= part < 256)
    (Hfirst :
       pick_nearest visible
         (hotspot_rect co (float_mul (float_lit (1 # 2)) hotspot)) <> -1)
    (Hhit :
       (if pick_nearest visible
             (hotspot_rect co (float_mul (float_lit (1 # 5)) hotspot)) =? -1
        then pick_nearest visible
               (hotspot_rect co (float_mul (float_lit (1 # 2)) hotspot))
        else pick_nearest visible
               (hotspot_rect co (float_mul (float_lit (1 # 5)) hotspot)))
       = Z.of_nat i * 256 + part) :
  exists log,
    manipulator_find_intersected_3d C co visible w =
      Ok ((Some p, part), with_log w log).
Proof.
  unfold manipulator_find_intersected_3d.
  unfold bind at 1. rewrite emit_run.
  destruct (find_intersected_3d_intern_value visible C co
              (float_mul (float_lit (1 # 2)) hotspot)
              (with_log w [EvNeedsOpenGL]) Hvalid) as [log1 Hrun1].
  rewrite (bind_Ok _ _ _ _ _ Hrun1).
  apply Z.eqb_neq in Hfirst. rewrite Hfirst. cbn [negb].
  destruct (find_intersected_3d_intern_value visible C co
              (float_mul (float_lit (1 # 5)) hotspot)
              (with_log (with_log w [EvNeedsOpenGL]) log1) Hvalid) as [log2 Hrun2].
  rewrite (bind_Ok _ _ _ _ _ Hrun2). cbv zeta.
  set (r1 := hotspot_rect co (float_mul (float_lit (1 # 2)) hotspot)) in *.
  set (r2 := hotspot_rect co (float_mul (float_lit (1 # 5)) hotspot)) in *.
  assert (Hret :
    (if negb (pick_nearest visible r2 =? -1)
     then pick_nearest visible r2 else pick_nearest visible r1)
    = Z.of_nat i * 256 + part).
  { rewrite <- Hhit. destruct (pick_nearest visible r2 =? -1); reflexivity. }
  rewrite Hret.
  destruct (decode_select_id i part Hpart) as [Hidx Hlow].
  rewrite Hidx, Hlow.
  unfold BLI_findlink.
  assert (Hneg : (Z.of_nat i <? 0) = false) by (apply Z.ltb_ge; lia).
  rewrite Hneg, Nat2Z.id, Hi. cbn [deref].
  unfold bind, ret. rewrite !with_log_app. eexists. reflexivity.
Qed.

(** *** Highlight search without 3D groups *)

Lemma highlight_find_groups_2d (C : bContext) (event : wmEvent)
    (gs : list wmManipulatorGroup) :
  forall (r_part : Z) (w : World),
    (forall g, g ∈ gs -> wm_manipulatorgroup_is_visible g C = true ->
       truthy (Z.land (gt_flag (mg_type g)) WM_MANIPULATORGROUPTYPE_3D) = false) ->
    exists mpr part,
      highlight_find_groups C event gs r_part [] w = Ok ((mpr, part, []), w) /\
      (forall p, mpr = Some p ->
         exists g part0, g ∈ gs /\ wm_manipulatorgroup_is_visible g C = true /\
           wm_manipulatorgroup_find_intersected_mainpulator g (heap w) C event part0
             = (Some p, part)) /\
      (mpr = None ->
         forall g, g ∈ gs -> wm_manipulatorgroup_is_visible g C = true ->
           exists part0,
             fst (wm_manipulatorgroup_find_intersected_mainpulator
                    g (heap w) C event part0) = None).
Proof.
  induction gs as [|g gs IH]; intros r_part w H2d.
  - exists None, r_part. split; [reflexivity|]. split.
    + discriminate.
    + intros _ g Hg. apply elem_of_nil in Hg. contradiction.
  - assert (Hrest : forall g', g' ∈ gs ->
              wm_manipulatorgroup_is_visible g' C = true ->
              truthy (Z.land (gt_flag (mg_type g')) WM_MANIPULATORGROUPTYPE_3D)
                = false).
    { intros g' Hg'. apply H2d. right. exact Hg'. }
    cbn [highlight_find_groups].
    destruct (wm_manipulatorgroup_is_visible g C) eqn:Hvis.
    + unfold bind at 1. unfold get_heap at 1.
      rewrite (H2d g (list_elem_of_here _ _) Hvis). cbv zeta.
      destruct (wm_manipulatorgroup_find_intersected_mainpulator
                  g (heap w) C event r_part) as [[q|] part'] eqn:Hhit; cbn [fst snd].
      * exists (Some q), part'. split; [reflexivity|]. split.
        -- intros p Hp. injection Hp as <-. exists g, r_part.
           split; [left|]. split; [exact Hvis|exact Hhit].
        -- discriminate.
      * destruct (IH part' w Hrest) as (mpr & part & Hrun & Hsome & Hnone).
        exists mpr, part. split; [exact Hrun|]. split.
        -- intros p Hp. destruct (Hsome p Hp) as (g' & part0 & Hg' & Hv' & Hh').
           exists g', part0. split; [right; exact Hg'|]. split; assumption.
        -- intros Hmpr g' Hg' Hv'.
           apply elem_of_cons in Hg' as [->|Hg'].
           ++ exists r_part. rewrite Hhit. reflexivity.
           ++ apply (Hnone Hmpr g' Hg' Hv').
    + destruct (IH r_part w Hrest) as (mpr & part & Hrun & Hsome & Hnone).
      exists mpr, part. split; [exact Hrun|]. split.
      * intros p Hp. destruct (Hsome p Hp) as (g' & part0 & Hg' & Hv' & Hh').
        exists g', part0. split; [right; exact Hg'|]. split; assumption.
      * intros Hmpr g' Hg' Hv'.
        apply elem_of_cons in Hg' as [->|Hg']; [congruence|].
        apply (Hnone Hmpr g' Hg' Hv').
Qed.

(** X15: when no visible group of the map is a 3D group, the highlight search
    makes no call into GL or the selection backend and changes nothing: the
    state after it is the state before it.  A manipulator it returns was
    reported, with the part returned, by the own test of a visible group;
    when it returns none, the own test of every visible group reported
    none. *)
Theorem highlight_find_without_3d_groups (C : bContext) (event : wmEvent)
    (r_part : Z) (w : World)
    (H2d : forall g, g ∈ groups (mmap w) ->
       wm_manipulatorgroup_is_visible g C = true ->
       truthy (Z.land (gt_flag (mg_type g)) WM_MANIPULATORGROUPTYPE_3D) = false) :
  exists mpr part,
    wm_manipulatormap_highlight_find C event r_part w = Ok ((mpr, part), w) /\
    (forall p, mpr = Some p ->
       exists g part0, g ∈ groups (mmap w) /\
         wm_manipulatorgroup_is_visible g C = true /\
         wm_manipulatorgroup_find_intersected_mainpulator g (heap w) C event part0
           = (Some p, part)) /\
    (mpr = None ->
       forall g, g ∈ groups (mmap w) -> wm_manipulatorgroup_is_visible g C = true ->
         exists part0,
           fst (wm_manipulatorgroup_find_intersected_mainpulator
                  g (heap w) C event part0) = None).
Proof.
  destruct (highlight_find_groups_2d C event (groups (mmap w)) r_part w H2d)
    as (mpr & part & Hrun & Hsome & Hnone).
  exists mpr, part. split; [|split; assumption].
  unfold wm_manipulatormap_highlight_find.
  unfold bind at 1. unfold get_mmap at 1.
  rewrite (bind_Ok _ _ _ _ _ Hrun). reflexivity.
Qed.

End PickRuns.

(** *** Highlight set: outgoing calls, and setting then clearing *)

Section HighlightCalls.
Context `{FL : Flags} `{HO : Host}.

(** X16: the calls of a highlight-set that changes the highlight: without a
    context there is none; with one, the cursor is set to the standard
    cursor when the highlight is cleared, or to the cursor of the new
    target when its type supplies one, and the region of the context is
    tagged for redraw once, as the last call. *)
Theorem highlight_set_calls (w : World) (C : option bContext) (mpr : option ptr)
    (part : Z)
    (Hchange : highlight_current w mpr part = false)
    (Hcur : forall h, highlight (mmap w) = Some h -> is_Some (heap w !! h))
    (Hnew : forall p, mpr = Some p -> is_Some (heap w !! p)) :
  exists w' evs,
    wm_manipulatormap_highlight_set C mpr part w = Ok (tt, w') /\
    events w' = events w ++ evs /\
    (C = None -> evs = []) /\
    (forall c, C = Some c ->
       (mpr = None ->
        evs = [EvCursorSet (ctx_window c) CURSOR_STD;
               EvRegionTagRedraw (ctx_region c)]) /\
       (forall p, mpr = Some p ->
          exists m', heap w' !! p = Some m' /\
            evs = (if wt_cursor_get (mpr_type m')
                   then [EvCursorSet (ctx_window c) (type_cursor_get m')] else [])
                  ++ [EvRegionTagRedraw (ctx_region c)])).
Proof.
  destruct (highlight_set_changes w C mpr part Hchange Hcur Hnew) as [evs0 Hrun0].
  (* the run again, this time keeping the log *)
  assert (Hdiff :
    (if negb (bool_decide (mpr = highlight (mmap w))) then ret true
     else match mpr with
          | Some p => m <- load p ;; ret (negb (part =? mpr_highlight_part m))
          | None => ret false
          end) w = Ok (true, w)).
  { unfold highlight_current in Hchange.
    destruct (bool_decide (mpr = highlight (mmap w))); simpl in *; [|reflexivity].
    destruct mpr as [p|]; [|discriminate].
    destruct (Hnew p eq_refl) as [m Hm]. rewrite Hm in Hchange.
    unfold bind. rewrite (load_Ok _ _ _ Hm). unfold ret. rewrite Hchange.
    reflexivity. }
  assert (Hclear :
    match highlight (mmap w) with
    | Some h =>
        modify h (fun m => set_state m
          (Z.land (mpr_state m) (Z.lnot WM_MANIPULATOR_STATE_HIGHLIGHT))) ;;
        modify h (fun m => set_highlight_part m 0)
    | None => ret tt
    end w = Ok (tt, with_heap w (heap_unhighlight w))).
  { unfold heap_unhighlight. destruct (highlight (mmap w)) as [h|].
    - destruct (Hcur h eq_refl) as [mh Hmh]. rewrite Hmh.
      unfold bind. rewrite (modify_Ok _ _ _ _ Hmh).
      erewrite modify_Ok by (simpl; apply lookup_insert_eq).
      unfold with_heap. simpl. rewrite insert_insert_eq. reflexivity.
    - unfold ret, with_heap. rewrite world_eta. reflexivity. }
  set (w1 := {| heap := heap_unhighlight w; mmap := set_highlight (mmap w) mpr;
                events := events w |}).
  assert (Hstart : wm_manipulatormap_highlight_set C mpr part w =
    ((match mpr with
      | Some p =>
          modify p (fun m => set_state m
            (Z.lor (mpr_state m) WM_MANIPULATOR_STATE_HIGHLIGHT)) ;;
          modify p (fun m => set_highlight_part m part) ;;
          m <- load p ;;
          match C with
          | Some c => when (wt_cursor_get (mpr_type m))
                        (emit (EvCursorSet (ctx_window c) (type_cursor_get m)))
          | None => ret tt
          end
      | None =>
          match C with
          | Some c => emit (EvCursorSet (ctx_window c) CURSOR_STD)
          | None => ret tt
          end
      end) ;;
     match C with
     | Some c => emit (EvRegionTagRedraw (ctx_region c))
     | None => ret tt
     end) w1).
  { unfold wm_manipulatormap_highlight_set.
    unfold bind at 1. unfold get_mmap at 1.
    rewrite (bind_Ok _ _ _ _ _ Hdiff).
    rewrite (bind_Ok _ _ _ _ _ Hclear).
    unfold bind at 1. unfold modify_mmap, bind at 1, get_mmap, put_mmap.
    reflexivity. }
  rewrite Hstart in Hrun0 |- *.
  destruct mpr as [p|].
  - destruct (heap_unhighlight_valid w p (Hnew p eq_refl)) as [mp Hmp].
    assert (Hm1 : heap w1 !! p = Some mp) by exact Hmp.
    set (m' := set_highlight_part
                 (set_state mp (Z.lor (mpr_state mp) WM_MANIPULATOR_STATE_HIGHLIGHT))
                 part).
    set (w2 := {| heap := <[p := m']> (heap_unhighlight w);
                  mmap := set_highlight (mmap w) (Some p);
                  events := events w |}).
    assert (Hinstall :
      (modify p (fun m => set_state m
         (Z.lor (mpr_state m) WM_MANIPULATOR_STATE_HIGHLIGHT)) ;;
       modify p (fun m => set_highlight_part m part) ;;
       load p) w1 = Ok (m', w2)).
    { rewrite (bind_Ok _ _ _ _ _ (modify_Ok _ _ _ _ Hm1)).
      erewrite bind_Ok by (apply modify_Ok; simpl; apply lookup_insert_eq).
      erewrite load_Ok by (simpl; apply lookup_insert_eq).
      unfold w2, with_heap. simpl. rewrite insert_insert_eq. reflexivity. }
    assert (Hsplit : forall (k : wmManipulator -> M unit) (k2 : M unit),
      ((modify p (fun m => set_state m
          (Z.lor (mpr_state m) WM_MANIPULATOR_STATE_HIGHLIGHT)) ;;
        modify p (fun m => set_highlight_part m part) ;;
        m <- load p ;; k m) ;; k2) w1
      = (k m' ;; k2) w2).
    { intros k k2. unfold bind in Hinstall |- *.
      destruct (modify p _ w1) as [[u wa]|e]; [|discriminate].
      destruct (modify p _ wa) as [[u' wb]|e]; [|discriminate].
      rewrite Hinstall. reflexivity. }
    rewrite Hsplit.
    destruct C as [c|].
    + assert (Hm' : heap w2 !! p = Some m') by (simpl; apply lookup_insert_eq).
      destruct (wt_cursor_get (mpr_type m')) eqn:Hcg.
      * eexists. exists [EvCursorSet (ctx_window c) (type_cursor_get m');
                         EvRegionTagRedraw (ctx_region c)].
        split; [unfold bind at 1; cbv beta; rewrite ?Hcg; reflexivity|].
        split; [simpl; rewrite <- app_assoc; reflexivity|].
        split; [discriminate|].
        intros c' Hc'. injection Hc' as <-. split; [discriminate|].
        intros p' Hp'. injection Hp' as <-.
        exists m'. split; [exact Hm'|]. rewrite Hcg. reflexivity.
      * eexists. exists [EvRegionTagRedraw (ctx_region c)].
        split; [unfold bind at 1; cbv beta; rewrite ?Hcg; reflexivity|].
        split; [reflexivity|].
        split; [discriminate|].
        intros c' Hc'. injection Hc' as <-. split; [discriminate|].
        intros p' Hp'. injection Hp' as <-.
        exists m'. split; [exact Hm'|]. rewrite Hcg. reflexivity.
    + exists w2, []. split; [reflexivity|].
      split; [simpl; rewrite app_nil_r; reflexivity|].
      split; [reflexivity|]. discriminate.
  - destruct C as [c|].
    + eexists. exists [EvCursorSet (ctx_window c) CURSOR_STD;
                       EvRegionTagRedraw (ctx_region c)].
      split; [reflexivity|].
      split; [simpl; rewrite <- app_assoc; reflexivity|].
      split; [discriminate|].
      intros c' Hc'. injection Hc' as <-. split; [reflexivity|discriminate].
    + exists w1, []. split; [reflexivity|].
      split; [simpl; rewrite app_nil_r; reflexivity|].
      split; [reflexivity|]. discriminate.
Qed.

(** X17: highlighting a manipulator while nothing is highlighted and then
    clearing the highlight again leaves the store and the map as they were,
    provided the manipulator carried no highlight bit and part 0 before. *)
Theorem highlight_set_then_clear (w : World) (C : option bContext) (p : ptr)
    (part : Z) (m : wmManipulator)
    (Hnone : highlight (mmap w) = None)
    (Hp : heap w !! p = Some m)
    (Hbit : Z.land (mpr_state m) WM_MANIPULATOR_STATE_HIGHLIGHT = 0)
    (Hpart : mpr_highlight_part m = 0) :
  exists w1 w2,
    wm_manipulatormap_highlight_set C (Some p) part w = Ok (tt, w1) /\
    highlight (mmap w1) = Some p /\
    wm_manipulatormap_highlight_set C None 0 w1 = Ok (tt, w2) /\
    heap w2 = heap w /\ mmap w2 = mmap w.
Proof.
  assert (Hchange1 : highlight_current w (Some p) part = false).
  { unfold highlight_current. rewrite Hnone. reflexivity. }
  destruct (highlight_set_changes w C (Some p) part Hchange1) as [evs1 Hrun1].
  { intros h Hh. congruence. }
  { intros q Hq. injection Hq as <-. eauto. }
  assert (Hheap1 : heap_rehighlight w (Some p) part
                   = <[p := set_highlight_part
                              (set_state m (Z.lor (mpr_state m)
                                                  WM_MANIPULATOR_STATE_HIGHLIGHT))
                              part]> (heap w)).
  { unfold heap_rehighlight, heap_unhighlight. rewrite Hnone, Hp. reflexivity. }
  rewrite Hheap1 in Hrun1.
  set (m1 := set_highlight_part
               (set_state m (Z.lor (mpr_state m) WM_MANIPULATOR_STATE_HIGHLIGHT))
               part) in *.
  set (w1 := {| heap := <[p := m1]> (heap w);
                mmap := set_highlight (mmap w) (Some p);
                events := events w ++ evs1 |}) in *.
  assert (Hchange2 : highlight_current w1 None 0 = false) by reflexivity.
  destruct (highlight_set_changes w1 C None 0 Hchange2) as [evs2 Hrun2].
  { intros h Hh. simpl in Hh. injection Hh as <-. simpl.
    rewrite lookup_insert_eq. eauto. }
  { discriminate. }
  exists w1. eexists. split; [exact Hrun1|]. split; [reflexivity|].
  split; [exact Hrun2|]. split.
  - simpl. unfold heap_rehighlight, heap_unhighlight. simpl.
    rewrite lookup_insert_eq, insert_insert_eq.
    apply map_eq. intros q. destruct (decide (p = q)) as [<-|Hne].
    + rewrite lookup_insert_eq, Hp. f_equal.
      unfold m1, set_highlight_part, set_state. simpl.
      rewrite lor_clear_restore by exact Hbit. rewrite <- Hpart. apply mpr_eta.
    + rewrite lookup_insert_ne by exact Hne. reflexivity.
  - simpl. unfold set_highlight. simpl. rewrite <- Hnone. apply mmap_eta.
Qed.

End HighlightCalls.

(** *** Modal set: a session without a bound operator *)

Section ModalSession.
Context `{FL : Flags} `{HO : Host}.

(** X18: activating a manipulator that has no bound operator and whose type has
    no invoke callback to run puts it in the modal slot, sets its modal bit
    and grabs the cursor; deactivating it afterwards releases the grab, asks
    for a redraw and a mouse-move, and leaves the store and the map as they
    were before the activation, provided nothing was modal and the
    manipulator carried no modal bit and no interaction data. *)
Theorem modal_set_session (w : World) (c : bContext) (event : wmEvent) (p : ptr)
    (m : wmManipulator)
    (Hp : heap w !! p = Some m)
    (Hop : mpr_op_type m = None)
    (Hno_invoke : wt_invoke (mpr_type m)
                  && (wt_modal (mpr_type m) || mpr_custom_modal m) = false)
    (Hnone : modal (mmap w) = None)
    (Hbit : Z.land (mpr_state m) WM_MANIPULATOR_STATE_MODAL = 0)
    (Hdata : mpr_interaction_data m = None) :
  exists w1 w2,
    wm_manipulatormap_modal_set (Some c) event (Some p) w = Ok (tt, w1) /\
    modal (mmap w1) = Some p /\
    heap w1 !! p = Some (set_state m (Z.lor (mpr_state m) WM_MANIPULATOR_STATE_MODAL)) /\
    events w1 = events w ++ [EvCursorGrabEnable (ctx_window c)] /\
    wm_manipulatormap_modal_set (Some c) event None w1 = Ok (tt, w2) /\
    heap w2 = heap w /\ mmap w2 = mmap w /\
    events w2 = events w ++ [EvCursorGrabEnable (ctx_window c);
                             EvCursorGrabDisable (ctx_window c);
                             EvRegionTagRedraw (ctx_region c);
                             EvAddMousemove].
Proof.
  set (m1 := set_state m (Z.lor (mpr_state m) WM_MANIPULATOR_STATE_MODAL)).
  set (w1 := {| heap := <[p := m1]> (heap w);
                mmap := set_modal (mmap w) (Some p);
                events := events w ++ [EvCursorGrabEnable (ctx_window c)] |}).
  assert (Hrun1 : wm_manipulatormap_modal_set (Some c) event (Some p) w
                  = Ok (tt, w1)).
  { unfold wm_manipulatormap_modal_set.
    rewrite (bind_Ok _ _ _ _ _ (modify_Ok _ _ _ _ Hp)).
    unfold bind at 1. rewrite modify_mmap_Ok.
    erewrite bind_Ok by (apply load_Ok; simpl; apply lookup_insert_eq).
    fold m1. change (mpr_op_type m1) with (mpr_op_type m). rewrite Hop.
    change (mpr_type m1) with (mpr_type m).
    change (mpr_custom_modal m1) with (mpr_custom_modal m).
    rewrite Hno_invoke. reflexivity. }
  assert (Hm1 : heap w1 !! p = Some m1) by (simpl; apply lookup_insert_eq).
  set (w2 := {| heap := <[p := set_interaction_data (clear_modal_state m1) None]>
                          (heap w1);
                mmap := set_modal (mmap w1) None;
                events := events w1 ++ [EvCursorGrabDisable (ctx_window c);
                                        EvRegionTagRedraw (ctx_region c);
                                        EvAddMousemove] |}).
  assert (Hrun2 : wm_manipulatormap_modal_set (Some c) event None w1 = Ok (tt, w2)).
  { unfold wm_manipulatormap_modal_set.
    unfold bind at 1. unfold get_mmap at 1.
    change (modal (mmap w1)) with (Some p). cbv iota.
    rewrite bind_assoc.
    rewrite (bind_Ok _ _ _ _ _ (modify_Ok _ _ _ _ Hm1)).
    erewrite bind_Ok by (apply modify_Ok; simpl; apply lookup_insert_eq).
    unfold bind at 1. rewrite modify_mmap_Ok.
    unfold bind, emit, w2, with_heap. simpl.
    rewrite insert_insert_eq, <- !app_assoc. reflexivity. }
  exists w1, w2. split; [exact Hrun1|]. split; [reflexivity|].
  split; [exact Hm1|]. split; [reflexivity|]. split; [exact Hrun2|].
  split; [|split].
  - simpl. rewrite insert_insert_eq.
    apply map_eq. intros q. destruct (decide (p = q)) as [<-|Hne].
    + rewrite lookup_insert_eq, Hp. f_equal.
      unfold clear_modal_state, m1, set_interaction_data, set_state. simpl.
      rewrite lor_clear_restore by exact Hbit. rewrite <- Hdata. apply mpr_eta.
    + rewrite lookup_insert_ne by exact Hne. reflexivity.
  - simpl. unfold set_modal. simpl. rewrite <- Hnone.
    apply mmap_eta.
  - simpl. rewrite <- app_assoc. reflexivity.
Qed.

End ModalSession.

(** *** Selection: what deselect-all leaves alone, what select-all builds *)

Section SelectionResults.
Context `{FL : Flags} `{HO : Host}.

Lemma land_clear_twice (s x : Z) :
  Z.land (Z.land s (Z.lnot x)) (Z.lnot x) = Z.land s (Z.lnot x).
Proof.
  rewrite <- Z.land_assoc, Z.land_diag. reflexivity.
Qed.

Lemma select_bits_cleared_trans (m1 m2 m3 : wmManipulator) :
  select_bits_cleared m1 m2 -> select_bits_cleared m2 m3 ->
  select_bits_cleared m1 m3.
Proof.
  unfold select_bits_cleared. intros [-> | ->] [-> | ->]; auto.
  right. unfold set_state. simpl. rewrite land_clear_twice. reflexivity.
Qed.

Lemma deselect_loop_frame (n : nat) :
  forall (i : nat) (w : World) arr,
    selected (mmap w) = Some arr ->
    (i + n = length arr)%nat ->
    (forall j slot, (i <= j)%nat -> arr !! j = Some slot ->
       exists p, slot = Some p /\ is_Some (heap w !! p)) ->
    exists w',
      forM_ (seq i n) deselect_all_step w = Ok (tt, w') /\
      (forall q, (forall j, (i <= j)%nat -> arr !! j <> Some (Some q)) ->
         heap w' !! q = heap w !! q) /\
      (forall q mq, heap w !! q = Some mq ->
         exists mq', heap w' !! q = Some mq' /\ select_bits_cleared mq mq').
Proof.
  induction n as [|n IH]; intros i w arr Hsel Hlen Hslots.
  - exists w. simpl. split; [reflexivity|]. split; [reflexivity|].
    intros q mq Hq. exists mq. split; [exact Hq|left; reflexivity].
  - destruct (lookup_lt_is_Some_2 arr i ltac:(lia)) as [slot Hslot].
    destruct (Hslots i slot ltac:(lia) Hslot) as (p & -> & [m Hm]).
    pose proof (deselect_step_Ok i w arr p m Hsel Hslot Hm) as Hstep.
    set (m1 := set_state m
                 (Z.land (mpr_state m) (Z.lnot WM_MANIPULATOR_STATE_SELECT))) in *.
    set (w1 := {| heap := <[p := m1]> (heap w);
                  mmap := set_selected (mmap w) (Some (<[i := None]> arr));
                  events := events w |}) in *.
    destruct (IH (S i) w1 (<[i := None]> arr)) as (w' & Hrun & Hframe & Hbits).
    + reflexivity.
    + rewrite length_insert. lia.
    + intros j slot Hj Hjs. rewrite list_lookup_insert_ne in Hjs by lia.
      destruct (Hslots j slot ltac:(lia) Hjs) as (q & -> & [mq Hq]).
      exists q. split; [reflexivity|]. simpl.
      destruct (decide (p = q)) as [<-|Hne].
      * rewrite lookup_insert_eq. eauto.
      * rewrite lookup_insert_ne by exact Hne. eauto.
    + exists w'. split.
      { simpl. rewrite (bind_Ok _ _ _ _ _ Hstep). exact Hrun. }
      split.
      * intros q Hq. rewrite Hframe.
        -- simpl. apply lookup_insert_ne. intros ->.
           apply (Hq i ltac:(lia)). exact Hslot.
        -- intros j Hj Hjq. rewrite list_lookup_insert_ne in Hjq by lia.
           apply (Hq j ltac:(lia)). exact Hjq.
      * intros q mq Hq. destruct (decide (p = q)) as [<-|Hne].
        -- destruct (Hbits p m1) as (mq' & Hq' & Hc);
             [simpl; apply lookup_insert_eq|].
           exists mq'. split; [exact Hq'|].
           rewrite Hm in Hq. injection Hq as <-.
           eapply select_bits_cleared_trans; [|exact Hc]. right. reflexivity.
        -- apply Hbits. simpl. rewrite lookup_insert_ne by exact Hne. exact Hq.
Qed.

(** X19: deselect-all, on a map whose selected array and count agree, makes no
    outgoing call, leaves every manipulator outside the array as it is, and
    changes nothing of a manipulator inside it but its selection bits; the
    groups, the highlight and modal slots and the update flag of the map
    stay. *)
Theorem deselect_all_frame (w : World) (Hwf : sel_wf w) :
  exists b w',
    wm_manipulatormap_deselect_all w = Ok (b, w') /\
    events w' = events w /\
    (forall q, Some q ∉ default [] (selected (mmap w)) ->
       heap w' !! q = heap w !! q) /\
    (forall q mq, heap w !! q = Some mq ->
       exists mq', heap w' !! q = Some mq' /\ select_bits_cleared mq mq') /\
    groups (mmap w') = groups (mmap w) /\
    highlight (mmap w') = highlight (mmap w) /\
    modal (mmap w') = modal (mmap w) /\
    update_flag (mmap w') = update_flag (mmap w).
Proof.
  assert (Hsame : forall q mq, heap w !! q = Some mq ->
            exists mq', heap w !! q = Some mq' /\ select_bits_cleared mq mq').
  { intros q mq Hq. exists mq. split; [exact Hq|left; reflexivity]. }
  unfold sel_wf in Hwf. unfold wm_manipulatormap_deselect_all.
  unfold bind at 1. unfold get_mmap at 1.
  destruct (selected (mmap w)) as [arr|] eqn:Hsel.
  - destruct Hwf as [Hlen Hslots].
    rewrite bool_decide_eq_false_2 by discriminate. cbn [orb].
    destruct (Z.eqb_spec (selected_len (mmap w)) 0) as [Hz|Hnz].
    + exists false, w. unfold ret. repeat split; auto.
    + assert (Hslots' : forall j slot, (0 <= j)%nat -> arr !! j = Some slot ->
                exists p, slot = Some p /\ is_Some (heap w !! p)).
      { intros j slot _ Hj. apply Hslots. apply list_elem_of_lookup. eauto. }
      assert (Hn : (0 + Z.to_nat (selected_len (mmap w)) = length arr)%nat)
        by (rewrite Hlen; lia).
      destruct (deselect_loop_frame (Z.to_nat (selected_len (mmap w))) 0 w arr
                  Hsel Hn Hslots') as (w1 & Hrun & Hframe & Hbits).
      destruct (deselect_loop_spec (Z.to_nat (selected_len (mmap w))) 0 w arr
                  Hsel Hn Hslots') as (w1' & Hrun' & Hmm & Hev & _).
      rewrite Hrun in Hrun'. injection Hrun' as <-.
      rewrite (bind_Ok _ _ _ _ _ Hrun).
      unfold wm_manipulatormap_selected_clear.
      eexists. eexists. split; [reflexivity|]. cbn [heap mmap events].
      split; [exact Hev|]. split.
      { intros q Hq. apply Hframe. intros j _ Hj. apply Hq. cbn [default].
        apply list_elem_of_lookup. eauto. }
      split; [exact Hbits|].
      rewrite Hmm. repeat split.
  - rewrite bool_decide_eq_true_2 by reflexivity. cbn [orb].
    exists false, w. unfold ret. repeat split; auto.
Qed.

(** X20: select-all(SELECT) on a map with at least one selectable manipulator
    returns; afterwards the selected array holds exactly the selectable
    manipulators of the groups that pass their poll, each once per entry of
    the hash, its length is the selected count, every manipulator in it has
    its selection bits set, the highlight is the manipulator in slot 0, and
    array and count agree again. *)
Theorem select_all_select_result (C : bContext) (w : World)
    (Hperm : forall l, ghash_iter_order l ≡ₚ l)
    (Hdisj : Z.land WM_MANIPULATOR_STATE_HIGHLIGHT WM_MANIPULATOR_STATE_SELECT = 0)
    (Hvalid : Forall (fun p => is_Some (heap w !! p))
                     (polled_manipulators C (mmap w)))
    (Hhl : forall h, highlight (mmap w) = Some h -> is_Some (heap w !! h))
    (Hsome : selectable_entries C w <> []) :
  exists b w1 arr,
    WM_manipulatormap_select_all C SEL_SELECT w = Ok (b, w1) /\
    selected (mmap w1) = Some arr /\
    selected_len (mmap w1) = Z.of_nat (length arr) /\
    arr ≡ₚ (fun e => Some (snd e)) <$> selectable_entries C w /\
    WM_manipulatormap_is_any_selected (mmap w1) = true /\
    head arr = Some (highlight (mmap w1)) /\
    (forall p, Some p ∈ arr -> select_marked (heap w1) p) /\
    sel_wf w1.
Proof.
  destruct (select_all_select_returns C w Hperm Hvalid Hhl Hsome) as (b & w1 & Hrun).
  destruct (select_all_select_inv C w w1 b Hrun) as (wi & Hintern & Hheap & Hmap).
  destruct (select_all_intern_inv C SEL_SELECT w wi b Hperm Hdisj Hintern)
    as (e0 & es' & Horder & _ & Hmm & _ & Hmarked).
  exists b, w1, ((fun e => Some (snd e)) <$> (e0 :: es')).
  assert (Hin : forall p, Some p ∈ (fun e => Some (snd e)) <$> (e0 :: es') ->
                          select_marked (heap w1) p).
  { intros p Hp. apply list_elem_of_fmap in Hp as (e & He & Hein).
    injection He as ->. rewrite Hheap.
    rewrite Forall_forall in Hmarked. apply Hmarked.
    apply list_elem_of_In. exact Hein. }
  split; [exact Hrun|]. rewrite Hmap, Hmm.
  split; [reflexivity|]. split; [cbn [selected_len set_highlight set_selected
                                      set_selected_len]; rewrite length_fmap;
                                 reflexivity|].
  split; [rewrite <- Horder; apply fmap_Permutation; apply Hperm|].
  split; [unfold WM_manipulatormap_is_any_selected; simpl;
          destruct (Z.eqb_spec (Z.pos (Pos.of_succ_nat (length es'))) 0);
          [lia|reflexivity]|].
  split; [reflexivity|]. split; [exact Hin|].
  unfold sel_wf. rewrite Hmap, Hmm.
  cbn [selected selected_len set_highlight set_selected set_selected_len].
  split; [rewrite length_fmap; reflexivity|].
  intros slot Hslot.
  pose proof Hslot as Hslot'.
  apply list_elem_of_fmap in Hslot' as (e & -> & _).
  exists (snd e). split; [reflexivity|].
  destruct (Hin (snd e) Hslot) as (m & Hm & _). eauto.
Qed.

(** *** The hash of manipulators *)

Lemma hash_loop_takes (poll : option (wmManipulator -> bool)) (hidden : bool)
    (ps : list ptr) (acc : list (string * ptr)) (w : World) :
  Forall (fun p => is_Some (heap w !! p)) ps ->
  foldM (hash_new_manipulator poll hidden) acc ps w
  = Ok (acc ++ flat_map (fun p => match heap w !! p with
                                  | Some m => if hash_takes poll hidden m
                                              then [(mpr_name m, p)] else []
                                  | None => []
                                  end) ps, w).
Proof.
  revert acc. induction ps as [|p ps IH]; intros acc Hvalid.
  - simpl. rewrite app_nil_r. reflexivity.
  - apply Forall_cons_1 in Hvalid as [[m Hm] Hvalid].
    cbn [foldM flat_map]. rewrite Hm.
    assert (Hstep : hash_new_manipulator poll hidden acc p w =
              Ok (acc ++ (if hash_takes poll hidden m then [(mpr_name m, p)] else []),
                  w)).
    { unfold hash_new_manipulator. rewrite (bind_Ok _ _ _ _ _ (load_Ok _ _ _ Hm)).
      unfold hash_takes, BLI_ghash_insert.
      destruct ((hidden || (Z.land (mpr_flag m) WM_MANIPULATOR_HIDDEN =? 0))
                && match poll with None => true | Some f => f m end).
      - reflexivity.
      - unfold ret. rewrite app_nil_r. reflexivity. }
    rewrite (bind_Ok _ _ _ _ _ Hstep), IH by exact Hvalid.
    rewrite <- app_assoc. reflexivity.
Qed.

(** X21: the hash builder changes nothing and collects exactly the manipulators
    of the groups that pass their poll which are not hidden (or all of them
    when hidden ones are included) and pass the poll handed in, each under
    its name. *)
Theorem hash_new_collects (C : bContext) (poll : option (wmManipulator -> bool))
    (include_hidden : bool) (w : World)
    (Hvalid : Forall (fun p => is_Some (heap w !! p))
                     (polled_manipulators C (mmap w))) :
  exists hash,
    WM_manipulatormap_manipulator_hash_new C poll include_hidden w = Ok (hash, w) /\
    forall name p,
      (name, p) ∈ hash <->
      p ∈ polled_manipulators C (mmap w) /\
      exists m, heap w !! p = Some m /\ name = mpr_name m /\
                hash_takes poll include_hidden m = true.
Proof.
  eexists. split.
  - unfold WM_manipulatormap_manipulator_hash_new.
    unfold bind at 1. unfold get_mmap at 1.
    rewrite hash_new_flatten. apply hash_loop_takes. exact Hvalid.
  - intros name p. cbn [app]. rewrite list_elem_of_In, in_flat_map. split.
    + intros (q & Hq & Hin). destruct (heap w !! q) as [m|] eqn:Hm; [|destruct Hin].
      destruct (hash_takes poll include_hidden m) eqn:Ht; [|destruct Hin].
      destruct Hin as [Hin|[]]. injection Hin as <- <-.
      split; [apply list_elem_of_In; exact Hq|].
      exists m. split; [exact Hm|]. split; [reflexivity|exact Ht].
    + intros (Hp & m & Hm & -> & Ht). exists p.
      split; [apply list_elem_of_In; exact Hp|].
      rewrite Hm, Ht. left. reflexivity.
Qed.

End SelectionResults.

(** *** Callers: cursor, handler context, modal update, map creation *)

Section CallerProperties.
Context `{FL : Flags} `{HO : Host} `{CA : Caller}.

(** X22: setting the cursor from a chain of maps: the first map of the chain
    whose highlighted manipulator has a type that supplies a cursor decides;
    the cursor is set once, to the cursor of that manipulator, and the value
    is true.  When there is no such map nothing is called and the value is
    false.  Store and maps are left as they are. *)
Theorem cursor_set_first_supplier (maps : list wmManipulatorMap) (win : nat)
    (w : World)
    (Hvalid : forall mm p, mm ∈ maps -> highlight mm = Some p ->
                           is_Some (heap w !! p)) :
  match List.find (supplies_cursor (heap w)) maps with
  | Some mm =>
      exists p m, highlight mm = Some p /\ heap w !! p = Some m /\
        WM_manipulatormap_cursor_set maps win w =
          Ok (true, with_log w [EvCursorSet win (type_cursor_get m)])
  | None => WM_manipulatormap_cursor_set maps win w = Ok (false, w)
  end.
Proof.
  induction maps as [|mm maps IH]; [reflexivity|].
  assert (Hrest : forall mm' p, mm' ∈ maps -> highlight mm' = Some p ->
                                is_Some (heap w !! p)).
  { intros mm' p Hmm'. apply Hvalid. right. exact Hmm'. }
  specialize (IH Hrest).
  cbn [List.find WM_manipulatormap_cursor_set]. unfold supplies_cursor at 1.
  destruct (highlight mm) as [p|] eqn:Hhl; [|exact IH].
  destruct (Hvalid mm p (list_elem_of_here _ _) Hhl) as [m Hm]. rewrite Hm.
  rewrite (bind_Ok _ _ _ _ _ (load_Ok _ _ _ Hm)).
  destruct (wt_cursor_get (mpr_type m)); [|exact IH].
  exists p, m. split; [exact Hhl|]. split; [exact Hm|]. reflexivity.
Qed.

(** X23: the handler context is changed only when the area of the handler is one
    of the areas of the screen of the context; the error line is printed
    only when the handler has no manipulator map, and then the context is
    left as it is. *)
Theorem handler_context_needs_listed_area (C : bContext) (handler : wmEventHandler) :
  (fst (wm_manipulatormap_handler_context C handler) <> C ->
   exists screen a sa,
     CTX_wm_screen C = Some screen /\ handler_op_area handler = Some a /\
     sa ∈ areabase screen /\ sa_ptr sa = a) /\
  (snd (wm_manipulatormap_handler_context C handler) <> [] ->
   handler_manipulator_map handler = MmapNull /\
   fst (wm_manipulatormap_handler_context C handler) = C).
Proof.
  unfold wm_manipulatormap_handler_context.
  destruct (CTX_wm_screen C) as [screen|]; [|split; intros H; contradiction H;
                                              reflexivity].
  destruct (handler_op_area handler) as [a|]; [|split; intros H; contradiction H;
                                                reflexivity].
  destruct (List.find _ (areabase screen)) as [sa|] eqn:Hfind.
  - apply find_some in Hfind as [Hin Heq]. apply Nat.eqb_eq in Heq.
    split.
    + intros _. exists screen, a, sa. repeat split; try assumption.
      apply list_elem_of_In. exact Hin.
    + destruct (List.find _ (regionbase sa)); intros H; contradiction H;
        reflexivity.
  - split; [intros H; contradiction H; reflexivity|].
    cbn [fst snd]. destruct (handler_manipulator_map handler); cbn [mmap_is_null].
    + intros _. split; reflexivity.
    + intros H. contradiction H. reflexivity.
Qed.

(** X24: the modal update of a handler whose operator has finished: the highlight
    is cleared and then the modal manipulator is deactivated, so afterwards
    the highlight and modal slots are empty, no manipulator carries the
    highlight bit, and the manipulator that was modal has lost its modal bit
    and its interaction data.  The context is handed back with the area and
    region it had on entry set again. *)
Theorem handled_modal_update_finished (C : bContext) (event : wmEvent)
    (handler : wmEventHandler) (ar : ARegion) (w : World)
    (Hop : handler_op handler = None)
    (Hregion : handler_op_region handler = Some ar)
    (Hmap : ar_manipulator_map ar = MmapThis)
    (Hinv : highlight_inv w)
    (Hhl : forall h, highlight (mmap w) = Some h -> is_Some (heap w !! h))
    (Hmodal : forall q, modal (mmap w) = Some q -> is_Some (heap w !! q)) :
  exists out w',
    wm_manipulatormaps_handled_modal_update C event handler w =
      Ok ((CTX_wm_region_set
             (CTX_wm_area_set (fst (wm_manipulatormap_handler_context C handler))
                              (ctx_area C))
             (ctx_region C), out), w') /\
    highlight (mmap w') = None /\
    modal (mmap w') = None /\
    (forall q, carries_highlight w' q = false) /\
    (forall q, modal (mmap w) = Some q ->
       exists m', heap w' !! q = Some m' /\
         Z.land (mpr_state m') WM_MANIPULATOR_STATE_MODAL = 0 /\
         mpr_interaction_data m' = None).
Proof.
  set (C1 := fst (wm_manipulatormap_handler_context C handler)).
  (* clearing the highlight *)
  assert (Hstep1 : exists w1,
    wm_manipulatormap_highlight_set (Some C1) None 0 w = Ok (tt, w1) /\
    highlight (mmap w1) = None /\
    modal (mmap w1) = modal (mmap w) /\
    (forall q m, heap w1 !! q = Some m ->
       Z.land (mpr_state m) WM_MANIPULATOR_STATE_HIGHLIGHT = 0) /\
    (forall q, is_Some (heap w !! q) -> is_Some (heap w1 !! q))).
  { destruct (highlight_current w None 0) eqn:Hcur.
    - exists w. split; [apply highlight_set_same; exact Hcur|].
      unfold highlight_current in Hcur. apply andb_true_iff in Hcur as [Hcur _].
      apply bool_decide_eq_true in Hcur.
      split; [symmetry; exact Hcur|]. split; [reflexivity|]. split; [|auto].
      intros q m Hq.
      destruct (Z.eq_dec (Z.land (mpr_state m) WM_MANIPULATOR_STATE_HIGHLIGHT) 0)
        as [Hz|Hnz]; [exact Hz|exfalso].
      assert (Hc : carries_highlight w q = true).
      { unfold carries_highlight. rewrite Hq. apply truthy_true. exact Hnz. }
      apply Hinv in Hc. congruence.
    - destruct (highlight_set_changes w (Some C1) None 0 Hcur Hhl) as [evs Hrun];
        [discriminate|].
      eexists. split; [exact Hrun|]. cbn [heap mmap].
      split; [reflexivity|]. split; [reflexivity|]. split.
      + intros q m Hq. apply (heap_unhighlight_clean w q m Hinv). exact Hq.
      + intros q Hq. apply heap_unhighlight_valid. exact Hq. }
  destruct Hstep1 as (w1 & Hrun1 & Hhl1 & Hmodal1 & Hclean1 & Hvalid1).
  (* deactivating *)
  assert (Hstep2 : exists w2,
    wm_manipulatormap_modal_set (Some C1) event None w1 = Ok (tt, w2) /\
    mmap w2 = set_modal (mmap w1) None /\
    (forall q m, heap w2 !! q = Some m ->
       Z.land (mpr_state m) WM_MANIPULATOR_STATE_HIGHLIGHT = 0) /\
    (forall q, modal (mmap w) = Some q ->
       exists m', heap w2 !! q = Some m' /\
         Z.land (mpr_state m') WM_MANIPULATOR_STATE_MODAL = 0 /\
         mpr_interaction_data m' = None)).
  { destruct (modal (mmap w)) as [q|] eqn:Hq.
    - destruct (Hvalid1 q (Hmodal q eq_refl)) as [m Hm].
      destruct (modal_set_deactivate (Some C1) event None w1 q m)
        as (w2 & Hrun2 & Hheap2 & Hmap2 & _);
        [left; reflexivity|rewrite Hmodal1; reflexivity|exact Hm|].
      exists w2. split; [exact Hrun2|]. split; [exact Hmap2|]. split.
      + intros q' m' Hq'. rewrite Hheap2 in Hq'.
        destruct (decide (q = q')) as [<-|Hne].
        * rewrite lookup_insert_eq in Hq'. injection Hq' as <-. simpl.
          apply land_clear_mono. apply (Hclean1 q m Hm).
        * rewrite lookup_insert_ne in Hq' by exact Hne. apply (Hclean1 q' m' Hq').
      + intros q' Hq'. injection Hq' as <-. rewrite Hheap2.
        eexists. split; [apply lookup_insert_eq|]. simpl.
        split; [apply land_clear|reflexivity].
    - destruct (modal_set_deactivate_empty (Some C1) event None w1)
        as (w2 & Hrun2 & Hheap2 & Hmap2 & _);
        [left; reflexivity|rewrite Hmodal1; reflexivity|].
      exists w2. split; [exact Hrun2|]. split; [exact Hmap2|]. split.
      + intros q' m' Hq'. rewrite Hheap2 in Hq'. apply (Hclean1 q' m' Hq').
      + discriminate. }
  destruct Hstep2 as (w2 & Hrun2 & Hmap2 & Hclean2 & Hdone2).
  exists (snd (wm_manipulatormap_handler_context C handler)), w2.
  split.
  - unfold wm_manipulatormaps_handled_modal_update.
    rewrite Hregion, Hmap. cbn [mmap_is_null].
    unfold bind at 1. unfold wm_manipulatormap_modal_get, bind at 1, get_mmap, ret.
    cbv zeta. rewrite Hop. fold C1.
    rewrite bind_assoc. rewrite (bind_Ok _ _ _ _ _ Hrun1).
    rewrite (bind_Ok _ _ _ _ _ Hrun2). reflexivity.
  - rewrite Hmap2. cbn [highlight modal set_modal].
    split; [exact Hhl1|]. split; [reflexivity|]. split; [|exact Hdone2].
    intros q. unfold carries_highlight.
    destruct (heap w2 !! q) as [m|] eqn:Hq; [|reflexivity].
    rewrite (Hclean2 q m Hq). reflexivity.
Qed.

(** X25: the modal update of a handler whose operator still runs leaves store,
    map and log as they are when nothing is modal or the modal manipulator
    is bound to no operator or to an operator of another type than that of
    the handler: no modal callback is called. *)
Theorem handled_modal_update_other_operator (C : bContext) (event : wmEvent)
    (handler : wmEventHandler) (ar : ARegion) (op_type : option nat) (w : World)
    (Hop : handler_op handler = Some op_type)
    (Hregion : handler_op_region handler = Some ar)
    (Hmap : ar_manipulator_map ar = MmapThis)
    (Hmodal : forall q, modal (mmap w) = Some q ->
       exists m, heap w !! q = Some m /\ op_type_matches m op_type = false) :
  exists C' out,
    wm_manipulatormaps_handled_modal_update C event handler w = Ok ((C', out), w).
Proof.
  unfold wm_manipulatormaps_handled_modal_update.
  rewrite Hregion, Hmap. cbn [mmap_is_null].
  unfold bind at 1. unfold wm_manipulatormap_modal_get, bind at 1, get_mmap, ret.
  cbv zeta. rewrite Hop.
  destruct (modal (mmap w)) as [q|] eqn:Hq.
  - destruct (Hmodal q eq_refl) as (m & Hm & Hmis).
    rewrite bind_assoc. rewrite (bind_Ok _ _ _ _ _ (load_Ok _ _ _ Hm)).
    rewrite Hmis. eexists. eexists. reflexivity.
  - eexists. eexists. reflexivity.
Qed.

End CallerProperties.

Section MapCreationProperties.
Context `{FL : Flags} `{HO : Host} `{CA : Caller}.

(** X26: a map created for a pair of ids that no map type was registered for:
    the map type is registered at the head of the list, without refs; the
    map has no groups, nothing highlighted, modal or selected, and is tagged
    for refresh; and drawing it does nothing, so the tag stays. *)
Theorem new_from_type_unregistered (r : Registry) (space region : Z)
    (Hnew : WM_manipulatormaptype_find r space region = None) :
  let created := WM_manipulatormap_new_from_type r space region in
  let new_map := fst (fst created) in
  new_map = {| groups := []; highlight := None; modal := None; selected := None;
               selected_len := 0; update_flag := MANIPULATORMAP_REFRESH |} /\
  manipulatormaptypes (snd created) = snd (fst created) :: manipulatormaptypes r /\
  grouptype_refs (snd (fst created)) = [] /\
  WM_manipulatormaptype_find (snd created) space region = Some (snd (fst created)) /\
  forall (h : gmap ptr wmManipulator) (evs : list event) (C : bContext)
         (drawstep : Z),
    WM_manipulatormap_draw MmapThis C drawstep
      {| heap := h; mmap := new_map; events := evs |}
    = Ok ([], {| heap := h; mmap := new_map; events := evs |}).
Proof.
  unfold WM_manipulatormap_new_from_type, WM_manipulatormaptype_ensure.
  rewrite Hnew. cbn [fst snd grouptype_refs fold_left].
  split; [reflexivity|]. split; [reflexivity|]. split; [reflexivity|].
  split.
  - unfold WM_manipulatormaptype_find. simpl. rewrite !Z.eqb_refl. reflexivity.
  - intros h evs C drawstep. reflexivity.
Qed.

End MapCreationProperties.

(** *** Refresh tags, the modal-only draw, and an accepted operator *)

Section MoreDraw.
Context `{FL : Flags} `{HO : Host}.

(** X27: while a manipulator is modal and its group type does not ask for all
    manipulators to be drawn, a draw runs no callback of any group, updates
    no manipulator but the modal one, and draws the modal manipulator alone,
    and only when its visibility test asks for it. *)
Theorem draw_modal_only_draws_modal (w : World) (C : bContext) (drawstep : Z)
    (p : ptr) (m : wmManipulator)
    (Hgroups : groups (mmap w) <> [])
    (Hmodal : modal (mmap w) = Some p)
    (Hp : heap w !! p = Some m)
    (Hflag : Z.land (gt_flag (mpr_parent_type m))
                    WM_MANIPULATORGROUPTYPE_DRAW_MODAL_ALL = 0) :
  exists w' evs,
    WM_manipulatormap_draw MmapThis C drawstep w = Ok ([], w') /\
    events w' = events w ++ evs /\
    List.filter is_group_event evs = [] /\
    List.filter is_draw_event evs =
      (if visible_for WM_MANIPULATOR_IS_VISIBLE_DRAW (heap w) p
       then [EvTypeDraw p] else []) /\
    List.filter (fun e => is_update_event true e || is_update_event false e) evs =
      (if visible_for WM_MANIPULATOR_IS_VISIBLE_UPDATE (heap w) p
       then [EvManipulatorUpdate p (refresh_tagged (mmap w))] else []).
Proof.
  pose proof (prepare_manipulator_run p C [] w m Hp) as Hprep.
  set (draw := if visible_for WM_MANIPULATOR_IS_VISIBLE_DRAW (heap w) p
               then [p] else []) in *.
  set (log1 := prepare_log_manipulator (refresh_tagged (mmap w)) (heap w) p) in *.
  set (w2 := if negb (wm_manipulator_is_visible m =? 0)
             then {| heap := heap w; mmap := set_update_flag (mmap w) 0;
                     events := events w ++ log1 |}
             else with_log w log1).
  assert (Hprepare : manipulatormap_prepare_drawing MmapThis C [] drawstep w
                     = Ok (draw, w2)).
  { unfold manipulatormap_prepare_drawing.
    unfold bind at 1. unfold get_mmap at 1.
    destruct (groups (mmap w)) as [|g gs] eqn:Hgs; [congruence|].
    cbn [mmap_is_null BLI_listbase_is_empty orb]. rewrite Hmodal.
    rewrite (bind_Ok _ _ _ _ _ (load_Ok _ _ _ Hp)).
    apply Z.eqb_eq in Hflag. rewrite Hflag.
    rewrite (bind_Ok _ _ _ _ _ Hprep). cbn [fst snd]. unfold w2.
    destruct (negb (wm_manipulator_is_visible m =? 0)); reflexivity. }
  assert (Hh2 : heap w2 = heap w).
  { unfold w2. destruct (negb (wm_manipulator_is_visible m =? 0)); reflexivity. }
  assert (Hg2 : groups (mmap w2) <> []).
  { unfold w2. destruct (negb (wm_manipulator_is_visible m =? 0)); exact Hgroups. }
  assert (Hev2 : events w2 = events w ++ log1).
  { unfold w2. destruct (negb (wm_manipulator_is_visible m =? 0)); reflexivity. }
  assert (Hvalid : forall q, q ∈ draw -> is_Some (heap w2 !! q)).
  { intros q Hq. rewrite Hh2. unfold draw in Hq.
    destruct (visible_for _ (heap w) p).
    - apply list_elem_of_singleton in Hq as ->. eauto.
    - apply elem_of_nil in Hq. contradiction. }
  pose proof (draw_list_run C draw w2 Hg2 Hvalid) as Hdraws.
  eexists. eexists. split.
  { unfold WM_manipulatormap_draw. rewrite (bind_Ok _ _ _ _ _ Hprepare).
    exact Hdraws. }
  unfold with_log. cbn [events]. rewrite Hev2, Hh2.
  split; [rewrite <- app_assoc; reflexivity|].
  assert (Hms : forall (P : event -> bool) b,
            (forall on, P (EvGlMultisample on) = false) ->
            List.filter P
              (if negb (U_ogl_multisamples =? USER_MULTISAMPLE_NONE)
               then [EvGlMultisample b] else []) = []).
  { intros P b HP.
    destruct (negb (U_ogl_multisamples =? USER_MULTISAMPLE_NONE)); [|reflexivity].
    cbn [List.filter]. rewrite HP. reflexivity. }
  rewrite !List.filter_app. split; [|split].
  - rewrite !Hms, filter_draw_log_other by reflexivity.
    unfold log1, prepare_log_manipulator.
    destruct (visible_for WM_MANIPULATOR_IS_VISIBLE_UPDATE (heap w) p); reflexivity.
  - rewrite !Hms, filter_draw_list_log by reflexivity.
    unfold log1, prepare_log_manipulator, draw.
    destruct (visible_for WM_MANIPULATOR_IS_VISIBLE_UPDATE (heap w) p);
      destruct (visible_for WM_MANIPULATOR_IS_VISIBLE_DRAW (heap w) p); reflexivity.
  - rewrite !Hms, filter_draw_log_other by reflexivity.
    unfold log1, prepare_log_manipulator. rewrite !app_nil_r.
    destruct (visible_for WM_MANIPULATOR_IS_VISIBLE_UPDATE (heap w) p);
      [|reflexivity].
    cbn [List.filter is_update_event].
    destruct (refresh_tagged (mmap w)); reflexivity.
Qed.

(** X28: tagging the map for refresh and then drawing it twice: the first draw
    calls the refresh callback of every participating group that has one,
    the second draw calls none; one tag gives one refresh. *)
Theorem tag_refresh_refreshes_once (C : bContext) (drawstep : Z) (w : World)
    (Hgroups : groups (mmap w) <> [])
    (Hfull : draws_modal_only (heap w) (mmap w) = false)
    (Hmodal : forall q, modal (mmap w) = Some q -> is_Some (heap w !! q))
    (Hvalid : forall p, p ∈ traversed_manipulators C drawstep (mmap w) ->
                        is_Some (heap w !! p)) :
  exists w0 w1 evs1 w2 evs2,
    WM_manipulatormap_tag_refresh MmapThis w = Ok (tt, w0) /\
    WM_manipulatormap_draw MmapThis C drawstep w0 = Ok ([], w1) /\
    events w1 = events w ++ evs1 /\
    List.filter is_group_refresh_event evs1 =
      (fun g => EvGroupRefresh (gt_idname (mg_type g))) <$>
      List.filter (fun g => group_drawn C drawstep g && gt_refresh (mg_type g))
                  (groups (mmap w)) /\
    WM_manipulatormap_draw MmapThis C drawstep w1 = Ok ([], w2) /\
    events w2 = events w1 ++ evs2 /\
    List.filter is_group_refresh_event evs2 = [].
Proof.
  set (w0 := {| heap := heap w;
                mmap := set_update_flag (mmap w)
                          (Z.lor (update_flag (mmap w)) MANIPULATORMAP_REFRESH);
                events := events w |}).
  assert (Htag : WM_manipulatormap_tag_refresh MmapThis w = Ok (tt, w0))
    by reflexivity.
  assert (Htagged : refresh_tagged (mmap w0) = true).
  { unfold refresh_tagged, w0. cbn [mmap update_flag set_update_flag].
    rewrite land_set. reflexivity. }
  pose proof (draw_full_run C drawstep w0 Hgroups Hfull Hmodal Hvalid) as Hrun1.
  match type of Hrun1 with
  | _ = Ok (_, ?x) => set (w1 := x) in *
  end.
  pose proof (draw_full_run C drawstep w1 Hgroups Hfull Hmodal Hvalid) as Hrun2.
  assert (Hms : forall b,
            List.filter is_group_refresh_event
              (if negb (U_ogl_multisamples =? USER_MULTISAMPLE_NONE)
               then [EvGlMultisample b] else []) = []).
  { intros b. destruct (negb (U_ogl_multisamples =? USER_MULTISAMPLE_NONE));
      reflexivity. }
  exists w0, w1. eexists. eexists. eexists.
  split; [exact Htag|]. split; [exact Hrun1|]. split; [reflexivity|].
  split.
  { rewrite !List.filter_app, filter_prepare_log_refresh, !Hms.
    rewrite filter_draw_log_other by reflexivity.
    rewrite Htagged, !app_nil_r. reflexivity. }
  split; [exact Hrun2|]. split; [reflexivity|].
  rewrite !List.filter_app, filter_prepare_log_refresh, !Hms.
  rewrite filter_draw_log_other by reflexivity. reflexivity.
Qed.

(** X29: activating a manipulator with a bound operator, when the operator call
    returns with the modal slot still filled: the activation stands as the
    call left it; nothing is rolled back and the cursor is not grabbed. *)
Theorem modal_set_bound_operator_accepted
    (w w3 : World) (c : bContext) (event : wmEvent) (p : ptr) (m : wmManipulator)
    (Hp : heap w !! p = Some m)
    (Hop : mpr_op_type m <> None)
    (Hinvoke : modal_set_invoke_bound c event p w = Ok (tt, w3))
    (Hkept : modal (mmap w3) <> None) :
  wm_manipulatormap_modal_set (Some c) event (Some p) w = Ok (tt, w3).
Proof.
  unfold modal_set_invoke_bound in Hinvoke.
  unfold wm_manipulatormap_modal_set.
  apply bind_inv in Hinvoke as (u1 & w1 & H1 & Hinvoke).
  rewrite (bind_Ok _ _ _ _ _ H1).
  apply bind_inv in Hinvoke as (u2 & w2 & H2 & Hinvoke).
  rewrite (bind_Ok _ _ _ _ _ H2).
  apply bind_inv in Hinvoke as (ma & wa & Ha & Hinvoke).
  rewrite (bind_Ok _ _ _ _ _ Ha).
  assert (Hopa : mpr_op_type ma = mpr_op_type m).
  { apply modify_inv in H1 as (m0 & Hm0 & ->).
    unfold modify_mmap, bind, get_mmap, put_mmap in H2. injection H2 as _ <-.
    apply load_inv in Ha as [_ Ha]. simpl in Ha.
    rewrite lookup_insert_eq in Ha. injection Ha as <-.
    rewrite Hp in Hm0. injection Hm0 as <-. reflexivity. }
  destruct (mpr_op_type ma) as [ot|] eqn:Hot; [|congruence].
  apply bind_inv in Hinvoke as (u3 & wb & Hb & Hinvoke).
  rewrite (bind_Ok _ _ _ _ _ Hb).
  apply bind_inv in Hinvoke as (mb & wc & Hc & Hinvoke).
  rewrite (bind_Ok _ _ _ _ _ Hc).
  rewrite (bind_Ok _ _ _ _ _ Hinvoke).
  unfold bind at 1. unfold get_mmap at 1.
  destruct (modal (mmap w3)); [reflexivity|contradiction].
Qed.

End MoreDraw.

(** *** The properties on the sample scenes *)

Lemma sample_world_traversed_valid (p : ptr) :
  p ∈ @traversed_manipulators (sample_host false [] rejecting_operator)
        sample_ctx 0 (mmap sample_world) ->
  is_Some (heap sample_world !! p).
Proof.
  intros Hp. apply sample_heap_valid.
  apply list_elem_of_In in Hp. simpl in Hp.
  destruct Hp as [<-|[<-|[<-|[<-|[]]]]]; lia.
Qed.

Lemma sample_world_polled_valid :
  Forall (fun p => is_Some (heap sample_world !! p))
         (@polled_manipulators (sample_host false [] rejecting_operator)
            sample_ctx (mmap sample_world)).
Proof.
  apply Forall_forall. intros p Hp. apply sample_heap_valid.
  simpl in Hp.
  destruct Hp as [<-|[<-|[<-|[<-|[]]]]]; lia.
Qed.

Lemma sample_world_modal_inv : @highlight_inv sample_flags sample_world_modal.
Proof.
  intros q Hq. exfalso. unfold carries_highlight in Hq. simpl in *.
  destruct (decide (q = 2%nat)) as [->|Hne].
  - rewrite lookup_insert_eq in Hq. discriminate.
  - rewrite lookup_insert_ne in Hq by congruence.
    destruct (sample_heap !! q) as [m|] eqn:Hm; [|discriminate].
    rewrite (sample_heap_state q m Hm) in Hq. discriminate.
Qed.

Lemma sample_world_selected_wf : @sel_wf sample_world_selected.
Proof.
  unfold sel_wf. simpl. split; [reflexivity|].
  intros slot Hslot. apply list_elem_of_In in Hslot. simpl in Hslot.
  destruct Hslot as [<-|[<-|[]]]; eexists; (split; [reflexivity|]);
    eexists; vm_compute; reflexivity.
Qed.

(** Drawing through a [NULL] map pointer. *)
Lemma draw_without_groups_witness :
  let HO := sample_host false [] rejecting_operator in
  (MmapNull = MmapNull \/ groups (mmap sample_world) = []) /\
  @WM_manipulatormap_draw sample_flags HO MmapNull sample_ctx 0 sample_world
    = Ok ([], sample_world).
Proof.
  intros HO.
  assert (H : MmapNull = MmapNull \/ groups (mmap sample_world) = [])
    by (left; reflexivity).
  split; [exact H|].
  exact (@draw_without_groups sample_flags HO MmapNull sample_ctx 0 sample_world H).
Defined.

(** A draw of the plain scene, which is tagged for refresh. *)
Lemma draw_full_traversal_clears_update_flag_witness :
  let HO := sample_host false [] rejecting_operator in
  update_flag (mmap sample_world) = MANIPULATORMAP_REFRESH /\
  exists w',
    @WM_manipulatormap_draw sample_flags HO MmapThis sample_ctx 0 sample_world
      = Ok ([], w') /\
    heap w' = heap sample_world /\
    update_flag (mmap w') = 0.
Proof.
  intros HO. split; [reflexivity|].
  destruct (@draw_full_traversal_clears_update_flag sample_flags HO sample_ctx 0
              sample_world ltac:(discriminate) eq_refl ltac:(discriminate)
              sample_world_traversed_valid) as (w' & Hrun & Hheap & Hmap).
  exists w'. split; [exact Hrun|]. split; [exact Hheap|].
  rewrite Hmap. reflexivity.
Defined.

(** The plain scene lists manipulators 1 to 4; they are drawn 4, 3, 2, 1. *)
Lemma draw_full_traversal_order_witness :
  let HO := sample_host false [] rejecting_operator in
  exists w' evs,
    @WM_manipulatormap_draw sample_flags HO MmapThis sample_ctx 0 sample_world
      = Ok ([], w') /\
    events w' = events sample_world ++ evs /\
    List.filter is_draw_event evs =
      [EvTypeDraw 4%nat; EvTypeDraw 3%nat; EvTypeDraw 2%nat; EvTypeDraw 1%nat].
Proof.
  intros HO.
  destruct (@draw_full_traversal_order sample_flags HO sample_ctx 0
              sample_world ltac:(discriminate) eq_refl ltac:(discriminate)
              sample_world_traversed_valid) as (w' & evs & Hrun & Hev & Hdraws).
  exists w', evs. split; [exact Hrun|]. split; [exact Hev|].
  rewrite Hdraws. reflexivity.
Defined.

(** The plain scene is tagged; its 3D and 2D groups have a refresh
    callback, its selectable group has none. *)
Lemma draw_full_traversal_refresh_witness :
  let HO := sample_host false [] rejecting_operator in
  exists w' evs,
    @WM_manipulatormap_draw sample_flags HO MmapThis sample_ctx 0 sample_world
      = Ok ([], w') /\
    events w' = events sample_world ++ evs /\
    List.filter is_group_refresh_event evs =
      [EvGroupRefresh "group3d"; EvGroupRefresh "group2d"].
Proof.
  intros HO.
  destruct (@draw_full_traversal_refresh sample_flags HO sample_ctx 0
              sample_world ltac:(discriminate) eq_refl ltac:(discriminate)
              sample_world_traversed_valid) as (w' & evs & Hrun & Hev & Hrefresh & _).
  exists w', evs. split; [exact Hrun|]. split; [exact Hev|].
  rewrite Hrefresh. reflexivity.
Defined.

(** Drawing the list of manipulators 1 and 2. *)
Lemma draw_list_draws_each_once_witness :
  let HO := sample_host false [] rejecting_operator in
  exists evs,
    @manipulators_draw_list sample_flags HO MmapThis sample_ctx [1%nat; 2%nat]
      sample_world = Ok ([], with_log sample_world evs) /\
    List.filter is_draw_event evs = [EvTypeDraw 1%nat; EvTypeDraw 2%nat].
Proof.
  intros HO.
  assert (Hvalid : forall p, p ∈ [1%nat; 2%nat] -> is_Some (heap sample_world !! p)).
  { intros p Hp. apply sample_heap_valid. apply list_elem_of_In in Hp. simpl in Hp.
    destruct Hp as [<-|[<-|[]]]; lia. }
  destruct (@draw_list_draws_each_once sample_flags HO sample_ctx [1%nat; 2%nat]
              sample_world ltac:(discriminate) Hvalid) as (evs & Hrun & Hdraws & _).
  exists evs. split; [exact Hrun|exact Hdraws].
Defined.

(** The draw-for-selection loop over manipulators 1 and 2. *)
Lemma draw_select_loop_ids_witness :
  let HO := sample_host false [] rejecting_operator in
  exists evs,
    @manipulator_draw_select_3D_loop sample_flags sample_ctx [1%nat; 2%nat]
      sample_world = Ok (tt, with_log sample_world evs) /\
    List.filter is_draw_select_event evs =
      [EvTypeDrawSelect 1%nat 0; EvTypeDrawSelect 2%nat 256].
Proof.
  intros HO.
  assert (Hvalid : forall p, p ∈ [1%nat; 2%nat] -> is_Some (heap sample_world !! p)).
  { intros p Hp. apply sample_heap_valid. apply list_elem_of_In in Hp. simpl in Hp.
    destruct Hp as [<-|[<-|[]]]; lia. }
  destruct (@draw_select_loop_ids sample_flags sample_ctx [1%nat; 2%nat]
              sample_world Hvalid) as (evs & Hrun & Hids & _).
  exists evs. split; [exact Hrun|exact Hids].
Defined.

(** A pick whose nearest hit carries id 3: candidate 0, part 3. *)
Lemma find_intersected_3d_decodes_id_witness :
  let HO := sample_host false [(0, 0, 0, 3)] rejecting_operator in
  exists log,
    @manipulator_find_intersected_3d sample_flags HO sample_ctx (100, 50) [1%nat]
      sample_world = Ok ((Some 1%nat, 3), with_log sample_world log).
Proof.
  intros HO.
  assert (Hvalid : forall q, q ∈ [1%nat] -> is_Some (heap sample_world !! q)).
  { intros q Hq. apply list_elem_of_singleton in Hq as ->.
    apply sample_heap_valid. lia. }
  assert (Hpart : 0 <= 3 < 256) by lia.
  assert (Hfirst : @pick_nearest HO [1%nat]
                     (hotspot_rect (100, 50)
                        (float_mul (float_lit (1 # 2)) hotspot)) <> -1)
    by (vm_compute; discriminate).
  exact (@find_intersected_3d_decodes_id sample_flags HO sample_ctx (100, 50)
           [1%nat] sample_world 0 1%nat 3 Hvalid eq_refl Hpart Hfirst eq_refl).
Defined.

(** The highlight search on the scene whose only group is a 2D group. *)
Lemma highlight_find_without_3d_groups_witness :
  let HO := sample_host false [] rejecting_operator in
  exists mpr part,
    @wm_manipulatormap_highlight_find sample_flags HO sample_ctx sample_event 0
      sample_world_unselectable = Ok ((mpr, part), sample_world_unselectable).
Proof.
  intros HO.
  assert (H2d : forall g, g ∈ groups (mmap sample_world_unselectable) ->
            @wm_manipulatorgroup_is_visible HO g sample_ctx = true ->
            truthy (Z.land (gt_flag (mg_type g))
                           (@WM_MANIPULATORGROUPTYPE_3D sample_flags)) = false).
  { intros g Hg _. apply list_elem_of_In in Hg. simpl in Hg.
    destruct Hg as [<-|[]]. reflexivity. }
  destruct (@highlight_find_without_3d_groups sample_flags HO sample_ctx
              sample_event 0 sample_world_unselectable H2d)
    as (mpr & part & Hrun & _).
  exists mpr, part. exact Hrun.
Defined.

(** Moving the highlight from manipulator 3 to manipulator 4. *)
Lemma highlight_set_calls_witness :
  let HO := sample_host false [] rejecting_operator in
  exists w' evs,
    @wm_manipulatormap_highlight_set sample_flags HO (Some sample_ctx)
      (Some 4%nat) 2 sample_world_highlit = Ok (tt, w') /\
    events w' = events sample_world_highlit ++ evs /\
    exists m', heap w' !! 4%nat = Some m' /\
      evs = (if wt_cursor_get (mpr_type m')
             then [EvCursorSet 1 (@type_cursor_get HO m')] else [])
            ++ [EvRegionTagRedraw 3].
Proof.
  intros HO.
  assert (H3 : forall h, highlight (mmap sample_world_highlit) = Some h ->
                         is_Some (heap sample_world_highlit !! h)).
  { intros h Hh. simpl in Hh. injection Hh as <-. eexists. simpl.
    apply lookup_insert_eq. }
  assert (H4 : forall p, Some 4%nat = Some p ->
                         is_Some (heap sample_world_highlit !! p)).
  { intros p Hp. injection Hp as <-. eexists. vm_compute. reflexivity. }
  destruct (@highlight_set_calls sample_flags HO sample_world_highlit
              (Some sample_ctx) (Some 4%nat) 2 eq_refl H3 H4)
    as (w' & evs & Hrun & Hev & _ & Hctx).
  exists w', evs. split; [exact Hrun|]. split; [exact Hev|].
  destruct (Hctx sample_ctx eq_refl) as (_ & Hsome).
  exact (Hsome 4%nat eq_refl).
Defined.

(** Highlighting manipulator 3 of the plain scene on part 2, then clearing. *)
Lemma highlight_set_then_clear_witness :
  let HO := sample_host false [] rejecting_operator in
  exists w1 w2,
    @wm_manipulatormap_highlight_set sample_flags HO (Some sample_ctx)
      (Some 3%nat) 2 sample_world = Ok (tt, w1) /\
    highlight (mmap w1) = Some 3%nat /\
    @wm_manipulatormap_highlight_set sample_flags HO (Some sample_ctx) None 0 w1
      = Ok (tt, w2) /\
    heap w2 = heap sample_world /\ mmap w2 = mmap sample_world.
Proof.
  intros HO.
  assert (Hp : heap sample_world !! 3%nat = Some (sample_mpr "c" gt_sel None))
    by (vm_compute; reflexivity).
  exact (@highlight_set_then_clear sample_flags HO sample_world (Some sample_ctx)
           3%nat 2 (sample_mpr "c" gt_sel None) eq_refl Hp eq_refl eq_refl).
Defined.

(** A modal session of the passive manipulator 5. *)
Lemma modal_set_session_witness :
  let HO := sample_host false [] rejecting_operator in
  exists w1 w2,
    @wm_manipulatormap_modal_set sample_flags HO (Some sample_ctx) sample_event
      (Some 5%nat) sample_world_passive = Ok (tt, w1) /\
    modal (mmap w1) = Some 5%nat /\
    @wm_manipulatormap_modal_set sample_flags HO (Some sample_ctx) sample_event
      None w1 = Ok (tt, w2) /\
    heap w2 = heap sample_world_passive /\ mmap w2 = mmap sample_world_passive /\
    events w2 = [EvCursorGrabEnable 1; EvCursorGrabDisable 1;
                 EvRegionTagRedraw 3; EvAddMousemove].
Proof.
  intros HO.
  assert (Hp : heap sample_world_passive !! 5%nat =
               Some {| mpr_name := "e"; mpr_parent_type := gt_2d;
                       mpr_type := wt_passive; mpr_state := 0; mpr_flag := 0;
                       mpr_highlight_part := 0; mpr_interaction_data := None;
                       mpr_custom_modal := false; mpr_op_type := None |})
    by (simpl; apply lookup_insert_eq).
  destruct (@modal_set_session sample_flags HO sample_world_passive sample_ctx
              sample_event 5%nat _ Hp eq_refl eq_refl eq_refl eq_refl eq_refl)
    as (w1 & w2 & Hrun1 & Hslot & _ & _ & Hrun2 & Hheap & Hmap & Hev).
  exists w1, w2. repeat split; assumption.
Defined.

(** Deselect-all on the scene with manipulators 3 and 4 selected leaves
    manipulator 1 alone. *)
Lemma deselect_all_frame_witness :
  exists b w',
    @wm_manipulatormap_deselect_all sample_flags sample_world_selected
      = Ok (b, w') /\
    events w' = events sample_world_selected /\
    heap w' !! 1%nat = heap sample_world_selected !! 1%nat.
Proof.
  destruct (@deselect_all_frame sample_flags sample_world_selected
              sample_world_selected_wf)
    as (b & w' & Hrun & Hev & Hframe & _).
  exists b, w'. split; [exact Hrun|]. split; [exact Hev|].
  apply Hframe. simpl. intros Hin. apply list_elem_of_In in Hin. simpl in Hin.
  destruct Hin as [H|[H|[]]]; discriminate.
Defined.

(** Select-all on the plain scene collects manipulators 3 and 4. *)
Lemma select_all_select_result_witness :
  let HO := sample_host false [] rejecting_operator in
  exists b w1 arr,
    @WM_manipulatormap_select_all sample_flags HO sample_ctx SEL_SELECT
      sample_world = Ok (b, w1) /\
    selected (mmap w1) = Some arr /\
    selected_len (mmap w1) = Z.of_nat (length arr) /\
    arr ≡ₚ [Some 3%nat; Some 4%nat].
Proof.
  intros HO.
  assert (Hperm : forall l, @ghash_iter_order HO l ≡ₚ l) by (intros l; reflexivity).
  assert (Hhl : forall h, highlight (mmap sample_world) = Some h ->
                          is_Some (heap sample_world !! h)) by discriminate.
  assert (Hsome : @selectable_entries sample_flags HO sample_ctx sample_world <> [])
    by (vm_compute; discriminate).
  destruct (@select_all_select_result sample_flags HO sample_ctx sample_world
              Hperm eq_refl sample_world_polled_valid Hhl Hsome)
    as (b & w1 & arr & Hrun & Hsel & Hlen & Harr & _).
  exists b, w1, arr. split; [exact Hrun|]. split; [exact Hsel|].
  split; [exact Hlen|exact Harr].
Defined.

(** The hash of all manipulators of the plain scene that are not hidden. *)
Lemma hash_new_collects_witness :
  let HO := sample_host false [] rejecting_operator in
  exists hash,
    @WM_manipulatormap_manipulator_hash_new sample_flags HO sample_ctx None false
      sample_world = Ok (hash, sample_world).
Proof.
  intros HO.
  destruct (@hash_new_collects sample_flags HO sample_ctx None false sample_world
              sample_world_polled_valid) as (hash & Hrun & _).
  exists hash. exact Hrun.
Defined.

(** A chain of two maps: the first highlights nothing, the second
    highlights the passive manipulator 5, whose type supplies a cursor. *)
Lemma cursor_set_first_supplier_witness :
  let HO := sample_host false [] rejecting_operator in
  (forall mm p, mm ∈ [mmap sample_world; sample_mmap_passive] ->
     highlight mm = Some p -> is_Some (heap sample_world_passive !! p)) /\
  match List.find (supplies_cursor (heap sample_world_passive))
                  [mmap sample_world; sample_mmap_passive] with
  | Some mm =>
      exists p m, highlight mm = Some p /\ heap sample_world_passive !! p = Some m /\
        @WM_manipulatormap_cursor_set HO [mmap sample_world; sample_mmap_passive] 1
          sample_world_passive =
          Ok (true, with_log sample_world_passive
                      [EvCursorSet 1 (@type_cursor_get HO m)])
  | None =>
      @WM_manipulatormap_cursor_set HO [mmap sample_world; sample_mmap_passive] 1
        sample_world_passive = Ok (false, sample_world_passive)
  end.
Proof.
  intros HO.
  assert (Hvalid : forall mm p, mm ∈ [mmap sample_world; sample_mmap_passive] ->
            highlight mm = Some p -> is_Some (heap sample_world_passive !! p)).
  { intros mm p Hmm Hp. apply list_elem_of_In in Hmm. simpl in Hmm.
    destruct Hmm as [<-|[<-|[]]]; simpl in Hp; [discriminate|].
    injection Hp as <-. eexists. simpl. apply lookup_insert_eq. }
  split; [exact Hvalid|].
  exact (@cursor_set_first_supplier HO [mmap sample_world; sample_mmap_passive] 1
           sample_world_passive Hvalid).
Defined.

(** The modal update for a finished operator while manipulator 2 is modal. *)
Lemma handled_modal_update_finished_witness :
  let HO := sample_host false [] rejecting_operator in
  exists C' out w',
    @wm_manipulatormaps_handled_modal_update sample_flags HO sample_caller
      sample_ctx sample_event (sample_handler None) sample_world_modal
      = Ok ((C', out), w') /\
    highlight (mmap w') = None /\ modal (mmap w') = None.
Proof.
  intros HO.
  assert (Hhl : forall h, highlight (mmap sample_world_modal) = Some h ->
                          is_Some (heap sample_world_modal !! h)) by discriminate.
  assert (Hmodal : forall q, modal (mmap sample_world_modal) = Some q ->
                             is_Some (heap sample_world_modal !! q)).
  { intros q Hq. simpl in Hq. injection Hq as <-. eexists. simpl.
    apply lookup_insert_eq. }
  destruct (@handled_modal_update_finished sample_flags HO sample_caller
              sample_ctx sample_event (sample_handler None) _ sample_world_modal
              eq_refl eq_refl eq_refl sample_world_modal_inv Hhl Hmodal)
    as (out & w' & Hrun & Hh & Hm & _).
  eexists. exists out, w'. split; [exact Hrun|]. split; assumption.
Defined.

(** The modal update while an operator of type 9 runs and manipulator 2,
    bound to operator type 5, is modal. *)
Lemma handled_modal_update_other_operator_witness :
  let HO := sample_host false [] rejecting_operator in
  exists C' out,
    @wm_manipulatormaps_handled_modal_update sample_flags HO sample_caller
      sample_ctx sample_event (sample_handler (Some (Some 9%nat)))
      sample_world_modal = Ok ((C', out), sample_world_modal).
Proof.
  intros HO.
  assert (Hmodal : forall q, modal (mmap sample_world_modal) = Some q ->
            exists m, heap sample_world_modal !! q = Some m /\
                      op_type_matches m (Some 9%nat) = false).
  { intros q Hq. simpl in Hq. injection Hq as <-. eexists. split.
    - simpl. apply lookup_insert_eq.
    - reflexivity. }
  exact (@handled_modal_update_other_operator sample_flags HO sample_caller
           sample_ctx sample_event (sample_handler (Some (Some 9%nat))) _
           (Some 9%nat) sample_world_modal eq_refl eq_refl eq_refl Hmodal).
Defined.

(** A map for the pair of ids (1, 2), which the sample registry lacks. *)
Lemma new_from_type_unregistered_witness :
  let HO := sample_host false [] rejecting_operator in
  WM_manipulatormaptype_find sample_registry 1 2 = None /\
  groups (fst (fst (@WM_manipulatormap_new_from_type sample_caller
                      sample_registry 1 2))) = [] /\
  length (manipulatormaptypes
            (snd (@WM_manipulatormap_new_from_type sample_caller
                    sample_registry 1 2))) = 2%nat.
Proof.
  intros HO.
  assert (Hnew : WM_manipulatormaptype_find sample_registry 1 2 = None)
    by reflexivity.
  split; [exact Hnew|].
  destruct (@new_from_type_unregistered sample_flags HO sample_caller
              sample_registry 1 2 Hnew) as (Hmap & Htypes & _).
  split; [rewrite Hmap; reflexivity|rewrite Htypes; reflexivity].
Defined.

(** The draw of the scene in which manipulator 2 is modal. *)
Lemma draw_modal_only_draws_modal_witness :
  let HO := sample_host false [] rejecting_operator in
  exists w' evs,
    @WM_manipulatormap_draw sample_flags HO MmapThis sample_ctx 0
      sample_world_modal = Ok ([], w') /\
    events w' = events sample_world_modal ++ evs /\
    List.filter is_group_event evs = [] /\
    List.filter is_draw_event evs = [EvTypeDraw 2%nat].
Proof.
  intros HO.
  assert (Hp : heap sample_world_modal !! 2%nat
               = Some (set_state (sample_mpr "b" gt_2d (Some 5%nat)) 2))
    by (simpl; apply lookup_insert_eq).
  destruct (@draw_modal_only_draws_modal sample_flags HO sample_world_modal
              sample_ctx 0 2%nat _ ltac:(discriminate) eq_refl Hp eq_refl)
    as (w' & evs & Hrun & Hev & Hgroup & Hdraw & _).
  exists w', evs. split; [exact Hrun|]. split; [exact Hev|].
  split; [exact Hgroup|]. rewrite Hdraw. reflexivity.
Defined.

(** Tagging the plain scene and drawing it twice. *)
Lemma tag_refresh_refreshes_once_witness :
  let HO := sample_host false [] rejecting_operator in
  exists w0 w1 evs1 w2 evs2,
    @WM_manipulatormap_tag_refresh MmapThis sample_world = Ok (tt, w0) /\
    @WM_manipulatormap_draw sample_flags HO MmapThis sample_ctx 0 w0 = Ok ([], w1) /\
    events w1 = events sample_world ++ evs1 /\
    List.filter is_group_refresh_event evs1 =
      [EvGroupRefresh "group3d"; EvGroupRefresh "group2d"] /\
    @WM_manipulatormap_draw sample_flags HO MmapThis sample_ctx 0 w1 = Ok ([], w2) /\
    events w2 = events w1 ++ evs2 /\
    List.filter is_group_refresh_event evs2 = [].
Proof.
  intros HO.
  destruct (@tag_refresh_refreshes_once sample_flags HO sample_ctx 0
              sample_world ltac:(discriminate) eq_refl ltac:(discriminate)
              sample_world_traversed_valid)
    as (w0 & w1 & evs1 & w2 & evs2 & Htag & Hrun1 & Hev1 & Hr1 & Hrun2 & Hev2 & Hr2).
  exists w0, w1, evs1, w2, evs2.
  split; [exact Htag|]. split; [exact Hrun1|]. split; [exact Hev1|].
  split; [rewrite Hr1; reflexivity|]. split; [exact Hrun2|].
  split; [exact Hev2|exact Hr2].
Defined.

(** Manipulator 2 of the plain scene, bound to operator 5, with an operator
    call that leaves the modal slot as it is. *)
Lemma modal_set_bound_operator_accepted_witness :
  let HO := sample_host false [] (fun w => w) in
  exists w3,
    @wm_manipulatormap_modal_set sample_flags HO (Some sample_ctx) sample_event
      (Some 2%nat) sample_world = Ok (tt, w3) /\
    modal (mmap w3) = Some 2%nat /\
    events w3 = [].
Proof.
  intros HO.
  assert (Hp : heap sample_world !! 2%nat = Some (sample_mpr "b" gt_2d (Some 5%nat)))
    by (vm_compute; reflexivity).
  assert (Hop : mpr_op_type (sample_mpr "b" gt_2d (Some 5%nat)) <> None)
    by discriminate.
  assert (Hinvoke : exists w3,
            @modal_set_invoke_bound sample_flags HO sample_ctx sample_event 2%nat
              sample_world = Ok (tt, w3) /\
            modal (mmap w3) = Some 2%nat /\ events w3 = []).
  { eexists. split; [vm_compute; reflexivity|]. split; reflexivity. }
  destruct Hinvoke as (w3 & Hinvoke & Hslot & Hev).
  assert (Hkept : modal (mmap w3) <> None) by (rewrite Hslot; discriminate).
  exists w3. split; [|split; assumption].
  exact (@modal_set_bound_operator_accepted sample_flags HO sample_world w3
           sample_ctx sample_event 2%nat _ Hp Hop Hinvoke Hkept).
Defined.

